(* ===== verification/_CoqProject ===== *)
-Q . S2P
Prelude.v
GoStd.v
Strconv.v
Network.v
Url.v
Slog.v
Logger.v
Pool.v
Config.v
ConfigLaws.v
Domain.v
Database.v
JsonText.v
JsonRoundtrip.v
WebhookRepo.v
Ledger.v
Purge.v
SubscriptionRepo.v
Subscriptions.v
UserRepo.v
RefreshTokenRepo.v
RefreshTokens.v
Sessions.v
Columns.v
Migrations.v
StripeClient.v
Ports.v
WebhookService.v
Processing.v
Sweeper.v
Recovery.v
Retention.v
Auth.v
AuthService.v
Services.v
RateLimit.v
Workers.v
Http.v
Handlers.v
Admin.v
Requests.v
Middleware.v
MiddlewareLaws.v
Router.v
Serving.v
Routes.v
EndToEnd.v
Metrics.v
Main.v
Concurrency.v
Lifecycle.v
Witnesses.v
Runs.v
Journeys.v
