(* ===== verification/Prelude.v ===== *)
(** * Stripe payment service: a verification development

    The program takes Stripe's webhooks, keeps a local copy of each user's
    subscription, opens checkout and billing-portal sessions, and signs users
    in.  Everything durable is in PostgreSQL; the packages under [src/internal]
    are layered as configuration, logger and pool; domain, repositories, Stripe
    client, services, workers; handlers, middleware and router; and
    [cmd/api/main.go] puts them together.

    ** How the program is modelled

    - Go values: strings are byte strings, [time.Time] and [time.Duration] are
      integers in nanoseconds, machine integers are [Z] with conversions that
      wrap written out ([GoStd]), and a [float64] is a value of Rocq's
      specification of binary floating point ([Strconv]).  A Go [error] is its text with the sentinels
      [errors.Is] can find in it; a call that returns a value and an error is a
      [result]; a pointer is an [option].
    - Effects: code that touches the outside is a function [M World A] on an
      explicit state ([Database]): the four tables, the clock, the deadline of
      the caller's context, a source of fresh values, the metrics published, and
      a script that says of each coming call how long it takes, whether it fails
      before or after taking effect, and which rows other sessions hold locked.
      Theorems are either about every script, or ask for a [quiet] one, in
      which no call fails and all are over before the context's deadline.
    - SQL: every statement is a function on the tables, with the constraints,
      defaults, unique indexes and triggers of [src/migrations].  A statement is
      atomic.  A transaction is its statements followed by a commit, and a
      failure anywhere restores the tables it began with; what it reads is what
      the row lock it takes first protects.  Interleaving of workers is modelled
      as arbitrary sequences of statements or of transactions, each with its own
      clock reading and lock set; [Concurrency] adds who holds which event.
      [Columns] takes the text of the statements apart, column by column, and
      shows that they are those functions; [Migrations] runs the DDL.
    - Goroutines: a loop that waits on a timer and on its context is a step
      relation whose runs are its executions ([Workers]).  [run] is a function
      on the process and a trace of what it does to it, with every deferred
      call; the operating system and the network are a [Host] ([Lifecycle]).
    - HTTP: a handler that writes one response is a function from a request to
      one ([Handlers]).  Around the handlers, a layer is a function on
      computations over a connection - the response writer, the process's state,
      the rate limiter and the lines logged - which return or panic
      ([Middleware]).  [NewRouter] nests the layers the way the source does.
    - What is outside the repository is a parameter: the Stripe SDK, JSON
      decoding into its types and UUID text ([StripeSDK]), cryptography and
      tokens ([AuthLib]: bcrypt, JWT, SHA-256, random bytes and their base64),
      the token bucket ([RateLib]), chi's matching of a path ([ChiLib]), the
      pool ([PgxLib]), JSONB text, CITEXT folding and PostgreSQL's white-space
      class ([Postgres]), Unicode tables ([GoUnicode]), the order in which a map
      is ranged over ([GoMaps]), and the bytes of [crypto/rand].  What is assumed
      of them is a law of the class or a hypothesis of the theorem that needs
      it, and [Witnesses] and [Runs] instantiate them by executable functions.

    ** Files

    - [Prelude]: errors, results, the state monad, automation, lists and maps.
    - Go's standard library, as far as it is used: [GoStd] (strings, time,
      integers, the JSON scanner), [Strconv] (numbers and durations as text,
      floats), [Network] ([net]), [Url] ([net/url]), [Slog] ([log/slog]),
      [JsonText] ([encoding/json]) with its round trip in [JsonRoundtrip].
    - [Logger]: [logger/logger.go].  [Pool]: [database/postgres.go].
    - [Config], with its laws in [ConfigLaws]: [config/config.go].
    - [Domain]: [domain/models.go].
    - [Database]: the state, statements and faults, rows of the ledger,
      [repository/postgres/errors.go].
    - [WebhookRepo], with its laws in [Ledger] and [Purge]:
      [repository/postgres/webhook_repo.go].
    - [SubscriptionRepo], with its laws in [Subscriptions]:
      [repository/postgres/subscription_repo.go].
    - [UserRepo]: [repository/postgres/user_repo.go] and its laws.
    - [RefreshTokenRepo], with its laws in [RefreshTokens]:
      [repository/postgres/refresh_token_repo.go].  [Sessions] states what the
      table is for, a session machine, and shows that the table implements it.
    - [Columns]: the column lists, SET clauses, arguments and [scan] functions of
      the four repositories, and the tables' defaults.
    - [Migrations]: [src/migrations], Up and Down, run on a catalog.
    - [StripeClient]: [stripe/client.go].
    - [Ports]: the repository interfaces as classes, the repositories above as
      their instances, and [EventLedger], the contract of the ledger that the
      services are verified against, with the proof that PostgreSQL meets it.
    - [WebhookService], with its guarantees in [Processing]:
      [service/webhook_service.go].
    - [Sweeper], [Retention]: [worker/webhook_sweeper.go], [worker/retention.go].
      [Recovery] shows that the sweeper's passes come to an end for every event.
    - [Auth], [AuthService]: the package [auth] and [service/auth_service.go].
    - [Services]: [service/checkout_service.go] and
      [service/subscription_service.go].
    - [RateLimit]: the buckets of [handler/middleware/ratelimit.go].
    - [Workers]: the goroutines: [Run] of both workers, the limiter's janitor and
      [Close].
    - [Http]: requests, responses and [handler/response.go].
    - [Handlers]: [handler/stripe_handler.go], [subscription_handler.go],
      [auth_handler.go], [health.go] and the probe of [admin.go], with what a
      body can say in [Requests].
    - [Admin]: [handler/admin.go], over [net/http]'s [ServeMux].
    - [Middleware], with its laws in [MiddlewareLaws]: every file of
      [handler/middleware].
    - [Router]: [handler/router.go].  [Serving] shows what holds of every
      request, [Routes] what each route does, [EndToEnd] what that comes to with
      PostgreSQL behind it.
    - [Metrics]: [metrics/metrics.go].
    - [Main]: [cmd/api/main.go], what it builds and its tools.  [Lifecycle]: [run],
      [main] and [probe].
    - [Concurrency]: any number of workers on one ledger, with the stale windows
      that the configuration and [main.go] give them.
    - [Witnesses], [Runs], [Journeys]: the theorems with hypotheses, applied to concrete
      runs.

    ** What is shown

    - The ledger, under any interleaving: rows follow one state machine, a
      settled event stays as it is, a claim is exclusive within its stale
      window, the sweeper keeps to its retry budget, constraints always hold;
      and a late worker can settle a claim that was taken over from it.
    - Workers in competition: with a configuration that loads, and a delivery
      deadline within the server's five-minute window, no event is in two hands
      as long as those that hold one settle by the deadline, and no settlement
      is lost; a delivery and a replay are, statement by statement, such workers.
    - Recovery: an event that failed is settled or dead-lettered once it had as
      many passes as attempts left, whatever the replays come to.
    - Processing: an unverified delivery has no effect; each outcome leaves the
      ledger in the state it reports; an acknowledged event is never applied
      again and a failed one is never dismissed; a replay always settles; a
      sweep settles what it claims and counts honestly.
    - Subscriptions: an event is applied atomically whatever fails; the table
      stays well formed; whatever the delivery order, the newest event decides
      the status; invoice events and subscription events do not disturb each
      other; the dunning counter counts failures since the last success.
    - Sessions: the table of refresh tokens implements a machine in which a
      session is one current string and the strings exchanged before it; an
      exchange is atomic; a token is exchanged at most once; a
      family has at most one live token; reuse and logout end a family for
      good; a failed login looks the same whatever its cause; an access token
      reads back as it was issued.
    - Retention: a purged payload holds an allowlist of fields and nothing else;
      a pass purges what is due, oldest first, terminates, and drains the queue
      when nobody holds locks.
    - Users and billing: live emails and Stripe customers are unique; lookup by
      email; checkout and portal sessions are opened for the caller's own row.
    - Configuration: a variable is read on its own and everything wrong is
      reported at once; what loads is consistent, and in production safe;
      secrets reach neither the error nor the boot log; what loads also builds,
      and a start that fails leaves no pool open.
    - Logging: no line of any derived logger holds a value under a sensitive
      key, and a request's lines carry its id.
    - HTTP, per route: the status code of the webhook endpoint agrees with what
      the ledger records; a protected route answers 401 or runs its handler for
      the token's subject; a credential route answers 429 or runs its handler,
      and forged forwarding headers do not change the address a client is
      counted under; a body with an unknown member is refused before anything
      happens, and credentials reach the service byte for byte.
    - HTTP, every request: it is answered, identified, logged with the status
      and size the client got, and counted under a bounded label; only listed
      origins are named; a panic is answered 500 and logged.
    - Metrics: no observation the program makes can panic the client.
    - Tools: their exit codes tell the truth about the ledger and the payloads.
    - The SQL text: every statement and scan, by position and by column, is the
      function on entities and rows the other theorems are about.
    - The schema: the six migrations run, any version can be rolled back to any
      earlier one, and what they build is what the repository models assume:
      columns, defaults, types, nullability, enum labels, constraints and keys.
    - The process: [run] fails for the reasons it states and no other, closes the
      pool once on every path and, on a signal, after the drain; the workers'
      passes keep their interval and write nothing once the signal has come;
      the container's health check succeeds as long as the process answers,
      whatever has become of the database; its exit code is 1 exactly when it
      reports an error.
    - End to end: a delivery through the router, under its deadline, leaves the
      row of its event in the state its status code reports; a path the service
      does not have, [/metrics] among them, is answered 404 or 405 and touches
      nothing; the token a login returns opens every protected route as the user
      who logged in, until it expires.

    ** Bounds

    Two loops of the source have no bound, those of the retention worker.  They
    carry fuel; [RunOnce_terminates] shows that one more than the number of
    payloads held and of tokens stored is always enough.  Trimming, splitting
    and replacing in a string, and reading the digits of a number or the value
    in a JSON text, carry the length of the text (or one more) as fuel, each
    step removing at least one byte of it.

    ** What is not modelled

    The lines that handlers, services and workers log (those of the layers
    are, and the level at which the sweeper reports) and those of [run];
    the parsing of the command line; fairness between the cases of a [select];
    the exposition of metrics, which is the Prometheus client's; the statistics
    of the pool, which are pgx's; the encoding of a log line, which is [log/slog]'s; and the web
    frontend.  Of the schema, the access methods and orders of the indexes, and
    ON DELETE, which nothing uses, are left out.  Durations as [float8] seconds are exact, and TIMESTAMPTZ keeps
    nanoseconds.  The client takes what it is sent: writing a response never
    fails.  The process runs in UTC.  That workers settle within the lease is an
    assumption of [Concurrency]: a delivery has its request's deadline, a replay
    only those of its calls.  An event is taken to carry its [Data], and
    the elements of a subscription's item list to be non-nil, both of which the
    source dereferences without a test. *)

From stdpp Require Export base tactics option list strings gmap sets sorting pretty.
From Stdlib Require Export ZArith Lia.

(** ** Errors

    A Go [error] is modelled by the text [Error()] returns and by the sentinel
    values reachable from it through [Unwrap], which is all that [errors.Is]
    looks at. *)

(** The sentinel errors of the program, over all its packages. *)
Inductive sentinel :=
  | ErrNotFound | ErrConflict | ErrValidation | ErrStaleEvent
  | ErrEventNotClaimed | ErrTokenReused
  | ErrSignatureVerification | ErrInvalidRequest | ErrUpstream
  | ErrPasswordTooShort | ErrPasswordTooLong | ErrPasswordInvalid
  | ErrCredentialsMismatch | ErrTokenInvalid | ErrTokenExpired
  | ErrNoUserInContext | ErrDeadLettered.

#[global] Instance sentinel_eq_dec : EqDecision sentinel.
Proof. solve_decision. Defined.

Record error := mkError { err_msg : string; err_chain : list sentinel }.

#[global] Instance error_eq_dec : EqDecision error.
Proof. solve_decision. Defined.

(** The text of each sentinel. *)
Definition sentinel_msg (s : sentinel) : string :=
  match s with
  | ErrNotFound => "resource not found"
  | ErrConflict => "resource conflict"
  | ErrValidation => "validation failed"
  | ErrStaleEvent => "stale stripe event"
  | ErrEventNotClaimed => "webhook event is not claimed for processing"
  | ErrTokenReused => "refresh token was already used"
  | ErrSignatureVerification => "stripe webhook signature verification failed"
  | ErrInvalidRequest => "stripe rejected the request"
  | ErrUpstream => "stripe upstream failure"
  | ErrPasswordTooShort => "password must be at least 12 characters"
  | ErrPasswordTooLong => "password must be at most 72 bytes"
  | ErrPasswordInvalid => "password is not valid UTF-8"
  | ErrCredentialsMismatch => "invalid credentials"
  | ErrTokenInvalid => "token is not valid"
  | ErrTokenExpired => "token has expired"
  | ErrNoUserInContext => "no authenticated user in context"
  | ErrDeadLettered => "webhook events are dead-lettered"
  end.

(** A sentinel used as an error value. *)
Definition sentinel_error (s : sentinel) : error := mkError (sentinel_msg s) [s].
Coercion sentinel_error : sentinel >-> error.

(** [errors.Is(err, target)] for a target that is a sentinel. *)
Definition errors_Is (e : error) (s : sentinel) : bool :=
  bool_decide (s ∈ err_chain e).

(** [errors.New(msg)] for an error nothing compares against. *)
Definition errors_New (msg : string) : error := mkError msg [].

(** [fmt.Errorf("<pre>: %w", err)]. *)
Definition wrapf (pre : string) (e : error) : error :=
  mkError (pre +:+ ": " +:+ err_msg e) (err_chain e).

(** [fmt.Errorf("%w: %s", sentinel, text)]: only the sentinel is wrapped. *)
Definition sentinelf (s : sentinel) (text : string) : error :=
  mkError (sentinel_msg s +:+ ": " +:+ text) [s].

Lemma errors_Is_wrapf pre e s : errors_Is (wrapf pre e) s = errors_Is e s.
Proof. done. Qed.

(** A call that returns [(A, error)]: a value, or an error. *)
Inductive result (A : Type) :=
  | Ok (a : A)
  | Err (e : error).
Arguments Ok {A} a.
Arguments Err {A} e.

Definition is_Ok {A} (r : result A) : bool :=
  match r with Ok _ => true | Err _ => false end.

(** ** State

    Code with effects is a function from the state before to the value it
    returns and the state after. *)
Definition M (W A : Type) : Type := W → A * W.

#[global] Instance M_ret W : MRet (M W) := λ A a w, (a, w).
#[global] Instance M_bind W : MBind (M W) :=
  λ A B k c w, let '(a, w') := c w in k a w'.

Definition gets {W A} (f : W → A) : M W A := λ w, (f w, w).
Definition modify {W} (f : W → W) : M W unit := λ w, (tt, f w).

(** Early return on error: [x, err := c; if err != nil { return e }]. *)
Definition bind_ok {W A B} (c : M W (result A)) (k : A → M W (result B)) : M W (result B) :=
  r ← c; match r with Ok a => k a | Err e => mret (Err e) end.

Declare Scope go_scope.
Delimit Scope go_scope with go.
Notation "x <-? c ;; k" := (bind_ok c (λ x, k))
  (at level 100, c at next level, right associativity) : go_scope.
Open Scope go_scope.

(** [foreach l f] runs [f] on each element in order, collecting the results. *)
Fixpoint foreach {W A B} (f : A → M W B) (l : list A) : M W (list B) :=
  match l with
  | [] => mret []
  | a :: l' => b ← f a; bs ← foreach f l'; mret (b :: bs)
  end.

(** ** Automation *)

Create HintDb sps discriminated.

(** Case analysis on every [match]/[if] scrutinee of a hypothesis or goal
    produced by running the model, closing the branches that contradict. *)
Ltac run_step :=
  match goal with
  | H : Ok _ = Ok _ |- _ => injection H as H
  | H : Err _ = Err _ |- _ => injection H as H
  | H : Ok _ = Err _ |- _ => discriminate H
  | H : Err _ = Ok _ |- _ => discriminate H
  | H : (_, _) = (_, _) |- _ => injection H as H
  | H : Some _ = Some _ |- _ => injection H as H
  | H : ?x = ?x |- _ => clear H
  | H : context [match ?x with _ => _ end] |- _ =>
      lazymatch x with context [match _ with _ => _ end] => fail | _ => destruct x eqn:? end
  end.

Ltac run_inv := repeat (run_step; simplify_eq/=).

Ltac unfold_monad := unfold mbind, mret, M_bind, M_ret, bind_ok, gets, modify in *.

(** ** Lists *)

Section ListFacts.
Context {A : Type}.

Lemma length_filter_le (P : A → Prop) `{!∀ x, Decision (P x)} (l : list A) :
  length (filter P l) ≤ length l.
Proof. induction l as [|x l IH]; [done|]. rewrite filter_cons. case_decide; simpl; lia. Qed.

Lemma fmap_sublist {B} (f : A → B) (l k : list A) :
  l `sublist_of` k → f <$> l `sublist_of` f <$> k.
Proof. induction 1; simpl; by constructor. Qed.

Lemma length_omap_Some {B} (g : A → option B) (l : list A) :
  (∀ x, x ∈ l → is_Some (g x)) → length (omap g l) = length l.
Proof.
  induction l as [|x l IH]; intros Hl; [done|]. simpl.
  destruct (Hl x) as [y Hy]; [set_solver|]. rewrite Hy. simpl. f_equal. apply IH. set_solver.
Qed.
End ListFacts.

(** [one_of x l]: a Go [switch x { case l...: return true }; return false]. *)
Definition one_of `{EqDecision A} (x : A) (l : list A) : bool := bool_decide (x ∈ l).

(** ** Tables

    [UPDATE t SET .. WHERE P] over a whole table, and the rows it affects. *)
Section TableFacts.
Context {K A : Type} `{Countable K}.
Implicit Types (m : gmap K A) (f : A → A) (P : A → bool).

Definition update_where (P : A → bool) (f : A → A) (m : gmap K A) : gmap K A :=
  (λ r, if P r then f r else r) <$> m.

Definition rows_where (P : A → bool) (m : gmap K A) : list (K * A) :=
  filter (λ kv, P kv.2 = true) (map_to_list m).

Lemma lookup_update_where P f m k :
  update_where P f m !! k = (λ r, if P r then f r else r) <$> m !! k.
Proof. apply lookup_fmap. Qed.

Lemma elem_of_rows_where P m k r :
  (k, r) ∈ rows_where P m ↔ m !! k = Some r ∧ P r = true.
Proof.
  unfold rows_where. rewrite list_elem_of_filter, elem_of_map_to_list. simpl. tauto.
Qed.

Lemma NoDup_rows_where P m : NoDup (rows_where P m).*1.
Proof.
  eapply sublist_NoDup; [apply (NoDup_fst_map_to_list m)|]. apply fmap_sublist, sublist_filter.
Qed.

(** A table whose rows under [Q] are rows under [P] of another has no more of them. *)
Lemma rows_where_mono P (Q : A → bool) m m' :
  (∀ k r', m' !! k = Some r' → Q r' = true → ∃ r, m !! k = Some r ∧ P r = true) →
  length (rows_where Q m') ≤ length (rows_where P m).
Proof.
  intros Hmono. rewrite <- (length_fmap fst (rows_where Q m')), <- (length_fmap fst (rows_where P m)).
  apply submseteq_length, NoDup_submseteq; [apply NoDup_rows_where|].
  intros k ([k' r'] & -> & [Hr HQ]%elem_of_rows_where)%list_elem_of_fmap.
  destruct (Hmono k' r' Hr HQ) as (r & Hr' & HP). apply list_elem_of_fmap.
  exists (k', r). split; [done|]. by apply elem_of_rows_where.
Qed.

Lemma update_where_none P f m :
  rows_where P m = [] → update_where P f m = m.
Proof.
  intros Hnil. apply map_eq. intros k. rewrite lookup_update_where.
  destruct (m !! k) as [r|] eqn:Hr; [|done]. simpl.
  destruct (P r) eqn:HP; [|done].
  assert ((k, r) ∈ rows_where P m) as Hin by by apply elem_of_rows_where.
  rewrite Hnil in Hin. set_solver.
Qed.
End TableFacts.
