(* ===== verification/GoStd.v ===== *)
(** * The parts of the Go language and standard library the program uses

    Strings are byte strings ([string], one [ascii] per byte), instants and
    durations are integers counting nanoseconds ([time.Time] from the Unix
    epoch, [time.Duration]), and machine integers are [Z] with the conversion
    that wraps written out.  [encoding/json]'s validity check is the scanner
    automaton of that package. *)

From S2P Require Import Prelude.
From Stdlib Require Import Ascii.
Open Scope Z_scope.

(** ** Machine integers *)

Definition wrap (bits z : Z) : Z :=
  (z + 2 ^ (bits - 1)) mod 2 ^ bits - 2 ^ (bits - 1).

(** The conversion [int32(z)]. *)
Definition int32 (z : Z) : Z := wrap 32 z.
Definition int64 (z : Z) : Z := wrap 64 z.
Definition max_int32 : Z := 2147483647.

Lemma int32_range z : -2147483648 ≤ int32 z ≤ max_int32.
Proof.
  unfold int32, wrap, max_int32. change (2 ^ (32 - 1)) with 2147483648.
  change (2 ^ 32) with 4294967296.
  pose proof (Z.mod_pos_bound (z + 2147483648) 4294967296). lia.
Qed.

Lemma int32_id z : -2147483648 ≤ z ≤ max_int32 → int32 z = z.
Proof.
  unfold int32, wrap, max_int32. change (2 ^ (32 - 1)) with 2147483648.
  change (2 ^ 32) with 4294967296. intros. rewrite Z.mod_small; lia.
Qed.

Lemma int64_id z : - 2 ^ 63 ≤ z < 2 ^ 63 → int64 z = z.
Proof. unfold int64, wrap. change (64 - 1) with 63. intros. rewrite Z.mod_small; lia. Qed.

(** ** Time *)

Definition Time := Z.
Definition Duration := Z.

Definition Nanosecond : Duration := 1.
Definition Second : Duration := 1000000000.
Definition Minute : Duration := 60 * Second.
Definition Hour : Duration := 60 * Minute.

(** [time.Unix(sec, 0)]. *)
Definition time_Unix (sec : Z) : Time := sec * Second.

(** The zero [time.Time] is midnight on January 1 of year 1. *)
Definition time_zero : Time := time_Unix (-62135596800).
Definition IsZero (t : Time) : bool := bool_decide (t = time_zero).
Definition After (t u : Time) : bool := Z.ltb u t.
Definition Before (t u : Time) : bool := Z.ltb t u.

(** ** Bytes and strings *)

Definition byte_val (a : ascii) : N := N_of_ascii a.
Definition of_bytes (l : list N) : string := String.string_of_list_ascii (map ascii_of_N l).
Definition len (s : string) : Z := Z.of_nat (String.length s).

Definition HasPrefix (s p : string) : bool := String.prefix p s.

Fixpoint strip_prefix (p s : string) : option string :=
  match p, s with
  | EmptyString, _ => Some s
  | String a p', String b s' => if Ascii.eqb a b then strip_prefix p' s' else None
  | String _ _, EmptyString => None
  end.

Fixpoint Contains (s sub : string) : bool :=
  String.prefix sub s ||
  match s with EmptyString => false | String _ s' => Contains s' sub end.

Fixpoint str_forall (P : ascii → bool) (s : string) : bool :=
  match s with EmptyString => true | String a s' => P a && str_forall P s' end.

(** [strings.ContainsAny(s, chars)] for ASCII [chars]. *)
Definition ContainsAny (s chars : string) : bool :=
  negb (str_forall (λ a, negb (existsb (Ascii.eqb a) (String.list_ascii_of_string chars))) s).

Fixpoint string_rev (s : string) (acc : string) : string :=
  match s with EmptyString => acc | String a s' => string_rev s' (String a acc) end.

(** The UTF-8 encodings of the runes [unicode.IsSpace] accepts. *)
Definition space_runes : list string :=
  (λ l, of_bytes l) <$>
  ([[9]; [10]; [11]; [12]; [13]; [32]; [194; 133]; [194; 160]; [225; 154; 128];
    [226; 128; 128]; [226; 128; 129]; [226; 128; 130]; [226; 128; 131];
    [226; 128; 132]; [226; 128; 133]; [226; 128; 134]; [226; 128; 135];
    [226; 128; 136]; [226; 128; 137]; [226; 128; 138]; [226; 128; 168];
    [226; 128; 169]; [226; 128; 175]; [226; 129; 159]; [227; 128; 128]]%N).

Fixpoint first_strip (ps : list string) (s : string) : option string :=
  match ps with
  | [] => None
  | p :: ps' => match strip_prefix p s with Some s' => Some s' | None => first_strip ps' s end
  end.

Fixpoint trim_with (fuel : nat) (ps : list string) (s : string) : string :=
  match fuel with
  | O => s
  | S fuel' => match first_strip ps s with Some s' => trim_with fuel' ps s' | None => s end
  end.

(** [strings.TrimSpace]: white space, Unicode's included, off both ends. *)
Definition TrimSpace (s : string) : string :=
  let l := trim_with (String.length s) space_runes s in
  string_rev (trim_with (String.length l)
                ((λ p, string_rev p "") <$> space_runes) (string_rev l "")) "".

Definition is_ascii_byte (a : ascii) : bool := (byte_val a <? 128)%N.
Definition is_digit (a : ascii) : bool := ((48 <=? byte_val a) && (byte_val a <=? 57))%N.
Definition is_upper (a : ascii) : bool := ((65 <=? byte_val a) && (byte_val a <=? 90))%N.
Definition is_lower (a : ascii) : bool := ((97 <=? byte_val a) && (byte_val a <=? 122))%N.
Definition is_alnum (a : ascii) : bool := is_digit a || is_upper a || is_lower a.
Definition lower_byte (a : ascii) : ascii :=
  if is_upper a then ascii_of_N (byte_val a + 32) else a.

Fixpoint map_string (f : ascii → ascii) (s : string) : string :=
  match s with EmptyString => "" | String a s' => String (f a) (map_string f s') end.

(** What depends on the Unicode tables: lower-casing and the [%q] verb on
    strings that are not ASCII. *)
Class GoUnicode := {
  unicode_ToLower : string → string;
  unicode_Quote : string → string;
}.

Section Unicode.
Context `{GoUnicode}.

Definition ToLower (s : string) : string :=
  if str_forall is_ascii_byte s then map_string lower_byte s else unicode_ToLower s.

Definition hex_digit (n : N) : ascii :=
  if (n <? 10)%N then ascii_of_N (48 + n) else ascii_of_N (87 + n).

Definition quote_byte (a : ascii) : string :=
  match byte_val a with
  | 34 => of_bytes [92; 34] | 92 => of_bytes [92; 92]
  | 7 => of_bytes [92; 97] | 8 => of_bytes [92; 98] | 12 => of_bytes [92; 102]
  | 10 => of_bytes [92; 110] | 13 => of_bytes [92; 114]
  | 9 => of_bytes [92; 116] | 11 => of_bytes [92; 118]
  | n => if ((n <? 32) || (n =? 127))%N
         then of_bytes [92; 120] +:+
              String (hex_digit (n / 16)) (String (hex_digit (n mod 16)) "")
         else String a ""
  end%N.

Fixpoint quote_body (s : string) : string :=
  match s with EmptyString => "" | String a s' => quote_byte a +:+ quote_body s' end.

(** The [%q] verb. *)
Definition Quote (s : string) : string :=
  if str_forall is_ascii_byte s
  then of_bytes [34%N] +:+ quote_body s +:+ of_bytes [34%N] else unicode_Quote s.
End Unicode.

(** [strings.Join(parts, sep)]. *)
Fixpoint Join (parts : list string) (sep : string) : string :=
  match parts with
  | [] => ""
  | [p] => p
  | p :: ps => p +:+ sep +:+ Join ps sep
  end.

(** The [%d] verb. *)
Definition Itoa (z : Z) : string := pretty z.

(** The order in which [range] visits the entries of a map literal. *)
Class GoMaps := {
  map_range : ∀ {V : Type}, list (string * V) → list (string * V);
  map_range_perm : ∀ {V} (l : list (string * V)), map_range l ≡ₚ l;
}.

(** ** UTF-8 *)

Definition in_range (lo hi : N) (a : ascii) : bool :=
  ((lo <=? byte_val a) && (byte_val a <=? hi))%N.
Arguments in_range (lo hi)%_N_scope a.
Definition is_cont (a : ascii) : bool := in_range 128 191 a.

(** [utf8.RuneStart]. *)
Definition RuneStart (a : ascii) : bool := negb (is_cont a).

(** [utf8.ValidString]. *)
Fixpoint ValidString (s : string) : bool :=
  match s with
  | EmptyString => true
  | String a r =>
    if in_range 0 127 a then ValidString r
    else match r with
    | EmptyString => false
    | String b r2 =>
      if in_range 194 223 a then is_cont b && ValidString r2
      else match r2 with
      | EmptyString => false
      | String c r3 =>
        if in_range 224 224 a then in_range 160 191 b && is_cont c && ValidString r3
        else if in_range 237 237 a then in_range 128 159 b && is_cont c && ValidString r3
        else if in_range 225 239 a then is_cont b && is_cont c && ValidString r3
        else match r3 with
        | EmptyString => false
        | String d r4 =>
          if in_range 240 240 a then in_range 144 191 b && is_cont c && is_cont d && ValidString r4
          else if in_range 241 243 a then is_cont b && is_cont c && is_cont d && ValidString r4
          else if in_range 244 244 a then in_range 128 143 b && is_cont c && is_cont d && ValidString r4
          else false
        end
      end
    end
  end.

(** ** [json.Valid]: the byte-at-a-time scanner of [encoding/json] *)
Module Json.
Inductive pstate := parseObjectKey | parseObjectValue | parseArrayValue.

Inductive step :=
  | BeginValueOrEmpty | BeginValue | BeginStringOrEmpty | BeginString
  | EndValue | EndTop | InString | InStringEsc
  | EscU | EscU1 | EscU12 | EscU123
  | Neg | Int1 | Int0 | Dot | Dot0 | Exp | ExpSign | Exp0
  | Lit (rest : string).   (* inside true, false or null *)

Record scanner := mkScanner { st : step; stack : list pstate; endTop : bool }.

Definition maxNestingDepth : N := 10000.

Definition is_space (a : ascii) : bool :=
  match byte_val a with 32 | 9 | 13 | 10 => true | _ => false end%N.
Definition is_hex (a : ascii) : bool := is_digit a || in_range 97 102 a || in_range 65 70 a.

Definition push (s : step) (p : pstate) (sc : scanner) : option scanner :=
  if (N.of_nat (length (p :: stack sc)) <=? maxNestingDepth)%N
  then Some (mkScanner s (p :: stack sc) (endTop sc)) else None.

Definition pop (sc : scanner) : scanner :=
  match stack sc with
  | [] | [_] => mkScanner EndTop [] true
  | _ :: ps => mkScanner EndValue ps (endTop sc)
  end.

Definition goto (s : step) (sc : scanner) : scanner := mkScanner s (stack sc) (endTop sc).

Definition endValue (c : ascii) (sc : scanner) : option scanner :=
  match stack sc with
  | [] => if is_space c then Some (mkScanner EndTop [] true) else None
  | p :: ps =>
    if is_space c then Some (goto EndValue sc) else
    match p, byte_val c with
    | parseObjectKey, 58 => Some (mkScanner BeginValue (parseObjectValue :: ps) (endTop sc))
    | parseObjectValue, 44 => Some (mkScanner BeginString (parseObjectKey :: ps) (endTop sc))
    | parseObjectValue, 125 => Some (pop sc)
    | parseArrayValue, 44 => Some (goto BeginValue sc)
    | parseArrayValue, 93 => Some (pop sc)
    | _, _ => None
    end%N
  end.

Definition beginValue (c : ascii) (sc : scanner) : option scanner :=
  if is_space c then Some (goto BeginValue sc) else
  match byte_val c with
  | 123 => push BeginStringOrEmpty parseObjectKey sc
  | 91 => push BeginValueOrEmpty parseArrayValue sc
  | 34 => Some (goto InString sc)
  | 45 => Some (goto Neg sc)
  | 48 => Some (goto Int0 sc)
  | 116 => Some (goto (Lit "rue") sc)
  | 102 => Some (goto (Lit "alse") sc)
  | 110 => Some (goto (Lit "ull") sc)
  | _ => if in_range 49 57 c then Some (goto Int1 sc) else None
  end%N.

Definition beginString (c : ascii) (sc : scanner) : option scanner :=
  if is_space c then Some (goto BeginString sc)
  else if in_range 34 34 c then Some (goto InString sc) else None.

Definition int0 (c : ascii) (sc : scanner) : option scanner :=
  if in_range 46 46 c then Some (goto Dot sc)
  else if in_range 101 101 c || in_range 69 69 c then Some (goto Exp sc)
  else endValue c sc.

Definition expSign (c : ascii) (sc : scanner) : option scanner :=
  if is_digit c then Some (goto Exp0 sc) else None.

Definition feed (sc : scanner) (c : ascii) : option scanner :=
  match st sc with
  | BeginValueOrEmpty =>
      if is_space c then Some sc
      else if in_range 93 93 c then endValue c sc else beginValue c sc
  | BeginValue => beginValue c sc
  | BeginStringOrEmpty =>
      if is_space c then Some sc
      else if in_range 125 125 c
      then endValue c (mkScanner EndValue (parseObjectValue :: tail (stack sc)) (endTop sc))
      else beginString c sc
  | BeginString => beginString c sc
  | EndValue => endValue c sc
  | EndTop => if is_space c then Some sc else None
  | InString =>
      if in_range 34 34 c then Some (goto EndValue sc)
      else if in_range 92 92 c then Some (goto InStringEsc sc)
      else if in_range 0 31 c then None else Some sc
  | InStringEsc =>
      match byte_val c with
      | 98 | 102 | 110 | 114 | 116 | 92 | 47 | 34 => Some (goto InString sc)
      | 117 => Some (goto EscU sc)
      | _ => None
      end%N
  | EscU => if is_hex c then Some (goto EscU1 sc) else None
  | EscU1 => if is_hex c then Some (goto EscU12 sc) else None
  | EscU12 => if is_hex c then Some (goto EscU123 sc) else None
  | EscU123 => if is_hex c then Some (goto InString sc) else None
  | Neg => if in_range 48 48 c then Some (goto Int0 sc)
           else if in_range 49 57 c then Some (goto Int1 sc) else None
  | Int1 => if is_digit c then Some sc else int0 c sc
  | Int0 => int0 c sc
  | Dot => if is_digit c then Some (goto Dot0 sc) else None
  | Dot0 => if is_digit c then Some sc
            else if in_range 101 101 c || in_range 69 69 c then Some (goto Exp sc)
            else endValue c sc
  | Exp => if in_range 43 43 c || in_range 45 45 c then Some (goto ExpSign sc) else expSign c sc
  | ExpSign => expSign c sc
  | Exp0 => if is_digit c then Some sc else endValue c sc
  | Lit EmptyString => endValue c sc
  | Lit (String a EmptyString) => if Ascii.eqb a c then Some (goto EndValue sc) else None
  | Lit (String a r) => if Ascii.eqb a c then Some (goto (Lit r) sc) else None
  end.

Fixpoint scan (sc : scanner) (s : string) : option scanner :=
  match s with
  | EmptyString => Some sc
  | String c s' => match feed sc c with Some sc' => scan sc' s' | None => None end
  end.

Definition eof (sc : scanner) : bool :=
  endTop sc ||
  match feed sc (ascii_of_N 32) with Some sc' => endTop sc' | None => false end.

Definition Valid (data : string) : bool :=
  match scan (mkScanner BeginValue [] false) data with Some sc => eof sc | None => false end.
End Json.

Example json_valid_object : Json.Valid (of_bytes [123; 34; 97; 34; 58; 91; 49; 44; 45; 50; 46; 53; 93; 125]%N) = true.
Proof. vm_compute. reflexivity. Qed.
Example json_invalid_trailing : Json.Valid "{},1" = false.
Proof. vm_compute. reflexivity. Qed.
Example json_invalid_open : Json.Valid "[1" = false.
Proof. vm_compute. reflexivity. Qed.
Example trim_nbsp : TrimSpace (of_bytes [194; 160; 32; 97; 32; 98; 9; 226; 128; 137]%N) = "a b".
Proof. vm_compute. reflexivity. Qed.

(** ** Facts *)

Lemma HasPrefix_spec s p : HasPrefix s p = true ↔ ∃ r, s = p +:+ r.
Proof.
  unfold HasPrefix. revert s. induction p as [|a p IH]; intros s.
  - destruct s; split; eauto.
  - destruct s as [|b s]; simpl; [split; [done|by intros [r ?]]|].
    destruct (ascii_dec a b) as [->|Hne].
    + split.
      * intros [r ->]%IH. by exists r.
      * intros [r Hr]. apply IH. exists r. by injection Hr.
    + split; [done|]. intros [r Hr]. injection Hr. congruence.
Qed.

Lemma length_append s t : String.length (s +:+ t) = (String.length s + String.length t)%nat.
Proof.
  induction s as [|a s IH]; [done|].
  change (S (String.length (s +:+ t)) = S (String.length s + String.length t)%nat).
  by rewrite IH.
Qed.

Lemma length_substring n s : (String.length (String.substring 0 n s) ≤ n)%nat.
Proof. revert s. induction n as [|n IH]; intros [|a s]; simpl; try lia. specialize (IH s). lia. Qed.

Lemma append_EmptyString_l s : "" +:+ s = s.
Proof. done. Qed.

Lemma append_assoc_str (a b c : string) : (a +:+ b) +:+ c = a +:+ (b +:+ c).
Proof.
  induction a as [|x a IH]; [done|].
  change (String x ((a +:+ b) +:+ c) = String x (a +:+ (b +:+ c))).
  by rewrite IH.
Qed.

Definition no_byte (b : N) (s : string) : bool := str_forall (λ a, negb (byte_val a =? b)%N) s.

Lemma strip_prefix_prefix p s : is_Some (strip_prefix p s) ↔ String.prefix p s = true.
Proof.
  revert s. induction p as [|a p IH]; intros s; [by destruct s; split; eauto|].
  destruct s as [|b s]; simpl; [split; [by intros []|done]|].
  destruct (ascii_dec a b) as [->|Hne].
  - rewrite Ascii.eqb_refl. apply IH.
  - rewrite (proj2 (Ascii.eqb_neq a b) Hne). split; [by intros []|done].
Qed.

Lemma strip_prefix_length p s r :
  strip_prefix p s = Some r → String.length s = (String.length p + String.length r)%nat.
Proof.
  revert s. induction p as [|a p IH]; intros s; [by destruct s; intros [= <-]|].
  destruct s as [|b s]; simpl; [done|]. destruct (Ascii.eqb a b); [|done]. intros Hr. by rewrite (IH s).
Qed.

Lemma Contains_empty q : q ≠ "" → Contains "" q = false.
Proof. by destruct q. Qed.

(** Trimming does not touch a byte that no space has. *)
Lemma no_byte_app b s t : no_byte b (s +:+ t) = no_byte b s && no_byte b t.
Proof.
  induction s as [|a s IH]; [done|].
  change (negb (byte_val a =? b)%N && no_byte b (s +:+ t) =
          (negb (byte_val a =? b)%N && no_byte b s) && no_byte b t).
  by rewrite IH, andb_assoc.
Qed.

Lemma no_byte_rev b s acc : no_byte b (string_rev s acc) = no_byte b s && no_byte b acc.
Proof.
  revert acc. induction s as [|a s IH]; intros acc; [done|]. cbn [string_rev]. rewrite IH.
  change (no_byte b (String a acc)) with (negb (byte_val a =? b)%N && no_byte b acc).
  change (no_byte b (String a s)) with (negb (byte_val a =? b)%N && no_byte b s).
  by destruct (negb _), (no_byte b s).
Qed.

Lemma strip_prefix_app p s r : strip_prefix p s = Some r → s = p +:+ r.
Proof.
  revert s. induction p as [|a p IH]; intros s; [by destruct s; intros [= <-]|].
  destruct s as [|b s]; simpl; [done|]. destruct (Ascii.eqb a b) eqn:Hab; [|done].
  apply Ascii.eqb_eq in Hab as ->. intros ->%IH. done.
Qed.

Lemma first_strip_byte b ps s r :
  Forall (λ p, no_byte b p = true) ps → first_strip ps s = Some r → no_byte b s = no_byte b r.
Proof.
  induction 1 as [|p ps Hp _ IH]; simpl; [done|].
  destruct (strip_prefix p s) as [s'|] eqn:Hs; [|done]. intros [= <-].
  apply strip_prefix_app in Hs as ->. by rewrite no_byte_app, Hp.
Qed.

Lemma trim_with_byte b fuel ps s :
  Forall (λ p, no_byte b p = true) ps → no_byte b (trim_with fuel ps s) = no_byte b s.
Proof.
  intros Hps. revert s. induction fuel as [|fuel IH]; intros s; [done|]. simpl.
  destruct (first_strip ps s) as [r|] eqn:Hr; [|done]. rewrite IH.
  by rewrite (first_strip_byte b ps s r).
Qed.

Lemma TrimSpace_byte s : no_byte 95 (TrimSpace s) = no_byte 95 s.
Proof.
  unfold TrimSpace. rewrite no_byte_rev, trim_with_byte, no_byte_rev, trim_with_byte, !andb_true_r; [done|..];
    apply (bool_decide_unpack _); vm_compute; exact I.
Qed.

Lemma TrimSpace_prefix s p : HasPrefix s p = true → no_byte 95 p = false → TrimSpace s ≠ "".
Proof.
  intros [r ->]%HasPrefix_spec Hp Ht. pose proof (TrimSpace_byte (p +:+ r)) as Hb.
  by rewrite Ht, no_byte_app, Hp in Hb.
Qed.
