(* ===== verification/Strconv.v ===== *)
(** * Numbers as text: strconv and time.Duration

    [strconv.Atoi], [strconv.ParseBool], [strconv.ParseFloat],
    [time.ParseDuration] and [Duration.String], on byte strings.  A float64 is a
    value of Rocq's specification of binary floating point, so the one place
    where the standard library computes a duration in floating point rounds the
    way the machine does. *)

From Stdlib Require Import Ascii.
From Stdlib Require Export SpecFloat.
From S2P Require Import Prelude GoStd.
Open Scope Z_scope.

(** ** Integers *)

Definition max_int64 : Z := 9223372036854775807.
Definition min_int64 : Z := -9223372036854775808.

Definition digit_val (a : ascii) : Z := Z.of_N (byte_val a) - 48.

(** The number a string of digits writes, most significant first. *)
Fixpoint digits_val (acc : Z) (s : string) : option Z :=
  match s with
  | EmptyString => Some acc
  | String a s' => if is_digit a then digits_val (acc * 10 + digit_val a) s' else None
  end.

(** An optional sign: whether it is a minus, and what follows it. *)
Definition cut_sign (s : string) : bool * string :=
  match s with
  | String a s' =>
      if (byte_val a =? 45)%N then (true, s')
      else if (byte_val a =? 43)%N then (false, s') else (false, s)
  | EmptyString => (false, s)
  end.

(** [strconv.Atoi] where [int] has 64 bits. *)
Definition Atoi (s : string) : option Z :=
  let '(neg, body) := cut_sign s in
  if bool_decide (body = "") then None
  else n ← digits_val 0 body;
       let v := if neg then - n else n in
       if (min_int64 <=? v) && (v <=? max_int64) then Some v else None.

Definition ParseBool (s : string) : option bool :=
  if one_of s ["1"; "t"; "T"; "true"; "TRUE"; "True"] then Some true
  else if one_of s ["0"; "f"; "F"; "false"; "FALSE"; "False"] then Some false
  else None.

Lemma Atoi_range s v : Atoi s = Some v → min_int64 ≤ v ≤ max_int64.
Proof.
  unfold Atoi. destruct (cut_sign s) as [neg body]. case_bool_decide; [done|].
  destruct (digits_val 0 body) as [n|]; [|done]. simpl.
  destruct (_ && _) eqn:Hr; [|done]. apply andb_true_iff in Hr. intros [= <-]. lia.
Qed.

(** ** Floating point: IEEE 754 binary64 *)

Definition float64 := spec_float.
Definition float_mul : float64 → float64 → float64 := SFmul 53 1024.
Definition float_div : float64 → float64 → float64 := SFdiv 53 1024.
Definition float_leb : float64 → float64 → bool := SFleb.
Definition float_zero : float64 := S754_zero false.
Definition float_of_Z (z : Z) : float64 := binary_normalize 53 1024 z 0 false.

(** [m * 10^e], rounded to the nearest float64. *)
Definition float_decimal (neg : bool) (m : Z) (e : Z) : float64 :=
  match m with
  | Zpos p =>
      if 0 <=? e
      then binary_normalize 53 1024 (cond_Zopp neg (Zpos p * 10 ^ e)) 0 neg
      else match 10 ^ (- e) with
           | Zpos q => SFdiv 53 1024 (S754_finite neg p 0) (S754_finite false q 0)
           | _ => S754_nan
           end
  | _ => S754_zero neg
  end.

(** Rounding toward zero, for a finite number. *)
Definition float_trunc (f : float64) : option Z :=
  match f with
  | S754_zero _ => Some 0
  | S754_finite s m e => Some (cond_Zopp s (Z.shiftl (Zpos m) e))
  | _ => None
  end.

(** The conversion [int64(f)]; outside the range Go leaves the value to the
    machine, and this is the one of amd64. *)
Definition float_to_int64 (f : float64) : Z :=
  match float_trunc f with
  | Some z => if (min_int64 <=? z) && (z <=? max_int64) then z else min_int64
  | None => min_int64
  end.

(** [math.Ceil], of a number within the integers. *)
Definition float_ceil (f : float64) : Z :=
  match f with
  | S754_finite s m e =>
      let z := cond_Zopp s (Z.shiftl (Zpos m) e) in
      if negb s && (e <? 0) && negb (Z.shiftl z (- e) =? Zpos m) then z + 1 else z
  | S754_zero _ => 0
  | _ => min_int64
  end.

(** [ParseFloat]'s number syntax, decimal or hexadecimal.  A mantissa is read
    as an integer with the count of its digits after the point. *)
Definition lower_is (b : N) (a : ascii) : bool := (N.lor (byte_val a) 32 =? b)%N.

Definition float_digit (hex : bool) (a : ascii) : option Z :=
  if is_digit a then Some (digit_val a)
  else if hex && in_range 97 102 (lower_byte a)
  then Some (Z.of_N (byte_val (lower_byte a)) - 87) else None.

Record mantissa := mkMantissa {
  mant : Z; frac_digits : Z; saw_dot : bool; saw_digits : bool; underscores : bool }.

Fixpoint read_mantissa (hex : bool) (m : mantissa) (s : string) : mantissa * string :=
  match s with
  | EmptyString => (m, s)
  | String a s' =>
      if (byte_val a =? 95)%N
      then read_mantissa hex (mkMantissa (mant m) (frac_digits m) (saw_dot m) (saw_digits m) true) s'
      else if (byte_val a =? 46)%N
      then if saw_dot m then (m, s)
           else read_mantissa hex
                  (mkMantissa (mant m) (frac_digits m) true (saw_digits m) (underscores m)) s'
      else match float_digit hex a with
           | Some d =>
               read_mantissa hex
                 (mkMantissa (mant m * (if hex then 16 else 10) + d)
                    (if saw_dot m then frac_digits m + 1 else frac_digits m)
                    (saw_dot m) true (underscores m)) s'
           | None => (m, s)
           end
  end.

Fixpoint read_exponent (e : Z) (us : bool) (s : string) : Z * bool * string :=
  match s with
  | EmptyString => (e, us, s)
  | String a s' =>
      if (byte_val a =? 95)%N then read_exponent e true s'
      else if is_digit a
      then read_exponent (if e <? 10000 then e * 10 + digit_val a else e) us s'
      else (e, us, s)
  end.

(** The exponent after its letter, and what follows. *)
Definition exponent_part (s : string) : option (Z * bool * string) :=
  let '(neg, body) := cut_sign s in
  match body with
  | String a _ =>
      if is_digit a
      then let '(e, us, rest) := read_exponent 0 false body in
           Some (if neg then - e else e, us, rest)
      else None
  | EmptyString => None
  end.

(** [underscoreOK]: an underscore stands between digits, or after a base
    prefix. *)
Inductive saw := SawStart | SawDigit | SawUnderscore | SawOther.

Fixpoint underscores_ok (hex : bool) (last : saw) (s : string) : bool :=
  match s with
  | EmptyString => match last with SawUnderscore => false | _ => true end
  | String a s' =>
      if bool_decide (is_Some (float_digit hex a)) then underscores_ok hex SawDigit s'
      else if (byte_val a =? 95)%N
      then match last with SawDigit => underscores_ok hex SawUnderscore s' | _ => false end
      else match last with SawUnderscore => false | _ => underscores_ok hex SawOther s' end
  end.

Definition underscoreOK (s : string) : bool :=
  let '(_, body) := cut_sign s in
  match body with
  | String z (String b rest) =>
      if (byte_val z =? 48)%N && (lower_is 98 b || lower_is 111 b || lower_is 120 b)
      then underscores_ok (lower_is 120 b) SawDigit rest
      else underscores_ok false SawStart body
  | _ => underscores_ok false SawStart body
  end.

Definition hex_prefix (s : string) : option string :=
  match s with
  | String z (String x ((String _ _) as rest)) =>
      if (byte_val z =? 48)%N && lower_is 120 x then Some rest else None
  | _ => None
  end.

Definition is_inf (f : float64) : bool := match f with S754_infinity _ => true | _ => false end.

(** A number that rounds to an infinity is out of range. *)
Definition finish_float (neg hex us : bool) (s : string) (m e : Z) : option float64 :=
  if us && negb (underscoreOK s) then None
  else let f := if hex then binary_normalize 53 1024 (cond_Zopp neg m) e neg
                else float_decimal neg m e in
       if is_inf f then None else Some f.

Definition parse_number (s : string) : option float64 :=
  let '(neg, body) := cut_sign s in
  let '(hex, digits) := match hex_prefix body with Some r => (true, r) | None => (false, body) end in
  let '(m, rest) := read_mantissa hex (mkMantissa 0 0 false false false) digits in
  let fd := if hex then 4 * frac_digits m else frac_digits m in
  if negb (saw_digits m) then None
  else match rest with
  | EmptyString => if hex then None else finish_float neg hex (underscores m) s (mant m) (- fd)
  | String a rest' =>
      if lower_is (if hex then 112 else 101)%N a
      then match exponent_part rest' with
           | Some (e, us, "") => finish_float neg hex (underscores m || us) s (mant m) (e - fd)
           | _ => None
           end
      else None
  end.

(** [strconv.ParseFloat(s, 64)], the special values in any case first. *)
Definition ParseFloat (s : string) : option float64 :=
  let '(neg, body) := cut_sign s in
  let low := map_string lower_byte in
  if one_of (low body) ["inf"; "infinity"] then Some (S754_infinity neg)
  else if bool_decide (low s = "nan") then Some S754_nan
  else parse_number s.

(** ** Durations *)

Definition Microsecond : Duration := 1000.
Definition Millisecond : Duration := 1000000.

(** [leadingInt]: digits up to 1<<63, an error past it. *)
Fixpoint leadingInt (x : Z) (s : string) : option (Z * string) :=
  match s with
  | String a s' =>
      if is_digit a
      then if 922337203685477580 <? x then None
           else let y := x * 10 + digit_val a in
                if 9223372036854775808 <? y then None else leadingInt y s'
      else Some (x, s)
  | EmptyString => Some (x, s)
  end.

(** [leadingFraction]: digits past 63 bits are dropped. *)
Fixpoint leadingFraction (x scale : Z) (overflow : bool) (s : string) : Z * Z * string :=
  match s with
  | String a s' =>
      if is_digit a
      then if overflow then leadingFraction x scale true s'
           else if 922337203685477580 <? x then leadingFraction x scale true s'
           else let y := x * 10 + digit_val a in
                if 9223372036854775808 <? y then leadingFraction x scale true s'
                else leadingFraction y (scale * 10) false s'
      else (x, scale, s)
  | EmptyString => (x, scale, s)
  end.

Fixpoint span_unit (s : string) : string * string :=
  match s with
  | String a s' =>
      if is_digit a || (byte_val a =? 46)%N then ("", s)
      else let '(u, r) := span_unit s' in (String a u, r)
  | EmptyString => ("", "")
  end.

Definition unitMap (u : string) : option Z :=
  if bool_decide (u = "ns") then Some Nanosecond
  else if one_of u ["us"; of_bytes [194; 181; 115]%N; of_bytes [206; 188; 115]%N] then Some Microsecond
  else if bool_decide (u = "ms") then Some Millisecond
  else if bool_decide (u = "s") then Some Second
  else if bool_decide (u = "m") then Some Minute
  else if bool_decide (u = "h") then Some Hour
  else None.

(** What a fraction adds: [uint64(float64(f) * (float64(unit) / scale))], the
    scale being a power of ten kept as a float. *)
Definition fraction (f unit scale : Z) : Z :=
  default 0 (float_trunc (float_mul (float_of_Z f) (float_div (float_of_Z unit) (float_of_Z scale)))).

(** One number with its unit, and the rest. *)
Definition duration_term (s : string) : option (Z * string) :=
  match s with
  | EmptyString => None
  | String a _ =>
    if negb ((byte_val a =? 46)%N || is_digit a) then None
    else
      '(v, s1) ← leadingInt 0 s;
      let pre := negb (Nat.eqb (String.length s1) (String.length s)) in
      let '(f, scale, s2, post) :=
        match strip_prefix "." s1 with
        | Some s1' => let '(f, scale, s2) := leadingFraction 0 1 false s1' in
                      (f, scale, s2, negb (Nat.eqb (String.length s2) (String.length s1')))
        | None => (0, 1, s1, false)
        end in
      if negb pre && negb post then None
      else
        let '(u, rest) := span_unit s2 in
        if bool_decide (u = "") then None
        else
          unit ← unitMap u;
          if Z.quot 9223372036854775808 unit <? v then None
          else
            let v' := v * unit + (if 0 <? f then fraction f unit scale else 0) in
            if 9223372036854775808 <? v' then None else Some (v', rest)
  end.

(** Each term takes at least one byte, so the length is enough fuel.  The sum
    is an unsigned 64-bit number. *)
Fixpoint duration_terms (fuel : nat) (d : Z) (s : string) : option Z :=
  match s, fuel with
  | EmptyString, _ => Some d
  | _, O => None
  | _, S fuel' =>
      '(v, rest) ← duration_term s;
      let sum := (d + v) mod 2 ^ 64 in
      if 9223372036854775808 <? sum then None else duration_terms fuel' sum rest
  end.

Definition ParseDuration (s : string) : option Duration :=
  let '(neg, body) := cut_sign s in
  if bool_decide (body = "0") then Some 0
  else if bool_decide (body = "") then None
  else d ← duration_terms (String.length body) 0 body;
       if neg then Some (- d) else if max_int64 <? d then None else Some d.

(** *** Printing *)

(** The decimal digits of a fraction of [prec] places, trailing zeros and an
    empty fraction dropped. *)
Fixpoint frac_digits_of (prec : nat) (v : Z) (acc : string) : string :=
  match prec with
  | O => acc
  | S p =>
      let d := v mod 10 in
      frac_digits_of p (v / 10)
        (if (d =? 0) && bool_decide (acc = "") then "" else String (ascii_of_N (48 + Z.to_N d)) acc)
  end.

Definition fmtFrac (prec : nat) (v : Z) : string :=
  let ds := frac_digits_of prec v "" in if bool_decide (ds = "") then "" else "." +:+ ds.

Definition Duration_String (d : Duration) : string :=
  let u := Z.abs d in
  let body :=
    if u =? 0 then "0s"
    else if u <? Microsecond then Itoa u +:+ "ns"
    else if u <? Millisecond then Itoa (u / 1000) +:+ fmtFrac 3 u +:+ of_bytes [194; 181; 115]%N
    else if u <? Second then Itoa (u / 1000000) +:+ fmtFrac 6 u +:+ "ms"
    else
      let secs := u / Second in
      let tail := Itoa (secs mod 60) +:+ fmtFrac 9 u +:+ "s" in
      let mins := secs / 60 in
      if mins =? 0 then tail
      else let tail' := Itoa (mins mod 60) +:+ "m" +:+ tail in
           let hours := mins / 60 in
           if hours =? 0 then tail' else Itoa hours +:+ "h" +:+ tail' in
  if d <? 0 then "-" +:+ body else body.

(** [Duration.Seconds], [Duration.Milliseconds], [Duration.Truncate]. *)
Definition Seconds (d : Duration) : float64 :=
  SFadd 53 1024 (float_of_Z (Z.quot d Second))
    (float_div (float_of_Z (Z.rem d Second)) (float_of_Z 1000000000)).
Definition Milliseconds (d : Duration) : Z := Z.quot d Millisecond.
Definition Truncate (d m : Duration) : Duration := if m <=? 0 then d else d - Z.rem d m.

Example duration_simple : ParseDuration "1h30m" = Some (90 * Minute).
Proof. vm_compute. reflexivity. Qed.
Example duration_fraction : ParseDuration "-1.5s" = Some (-1500 * Millisecond).
Proof. vm_compute. reflexivity. Qed.
Example duration_third : ParseDuration ".333h" = Some (333 * Hour / 1000).
Proof. vm_compute. reflexivity. Qed.
Example duration_no_unit : ParseDuration "30" = None.
Proof. vm_compute. reflexivity. Qed.
Example duration_overflow : ParseDuration "2562048h" = None.
Proof. vm_compute. reflexivity. Qed.
Example duration_print : Duration_String (90 * Minute + 1500 * Millisecond) = "1h30m1.5s".
Proof. vm_compute. reflexivity. Qed.
Example duration_print_ms : Duration_String (-1200 * Microsecond) = "-1.2ms".
Proof. vm_compute. reflexivity. Qed.
Example float_fifth : ParseFloat "0.2" = Some (S754_finite false 7205759403792794 (-55)).
Proof. vm_compute. reflexivity. Qed.
Example float_hex : ParseFloat "0x1p-2" = ParseFloat "2_5e-2".
Proof. vm_compute. reflexivity. Qed.
Example float_range : ParseFloat "1e400" = None.
Proof. vm_compute. reflexivity. Qed.
Example float_bad : ParseFloat "1__0" = None.
Proof. vm_compute. reflexivity. Qed.
Example atoi_bounds : (Atoi "-9223372036854775808", Atoi "9223372036854775808") = (Some min_int64, None).
Proof. vm_compute. reflexivity. Qed.
Example seconds_ceil : (float_ceil (Seconds 4999999999), float_ceil (Seconds (5 * Second))) = (5, 5).
Proof. vm_compute. reflexivity. Qed.
Example seconds_trunc : float_to_int64 (Seconds 2591999999999999) = 2591999.
Proof. vm_compute. reflexivity. Qed.
