(* ===== verification/Network.v ===== *)
(** * Addresses: what the middleware uses of package net

    [net.ParseIP], [IP.To4], [IP.Mask] with a /64, [IP.String] and
    [net.SplitHostPort], on byte strings.  An address is its sixteen bytes. *)

From Stdlib Require Import Ascii.
From S2P Require Import Prelude GoStd.
Open Scope Z_scope.

Definition IP := list N.

(** Pieces of a string between occurrences of a byte; one more than those. *)
Fixpoint split_on (b : N) (s : string) : list string :=
  match s with
  | EmptyString => [""]
  | String a s' =>
      if (byte_val a =? b)%N then "" :: split_on b s'
      else match split_on b s' with
           | p :: ps => String a p :: ps
           | [] => [String a ""]
           end
  end.

Lemma split_on_cons b s : ∃ p ps, split_on b s = p :: ps.
Proof.
  destruct s as [|a s]; simpl; [by eauto|]. destruct (byte_val a =? b)%N; [by eauto|].
  destruct (split_on b s); eauto.
Qed.

Lemma split_on_app b x y (c : ascii) :
  byte_val c = b → split_on b (x +:+ String c y) = split_on b x ++ split_on b y.
Proof.
  intros <-. induction x as [|a x IH]; simpl; [by rewrite N.eqb_refl|].
  destruct (byte_val a =? byte_val c)%N; [by rewrite IH|]. rewrite IH.
  by destruct (split_on_cons (byte_val c) x) as (p & ps & ->).
Qed.

Lemma split_on_none b s : str_forall (λ a, negb (byte_val a =? b)%N) s = true → split_on b s = [s].
Proof.
  induction s as [|a s IH]; simpl; [done|]. intros [->%negb_true_iff Hs]%andb_true_iff.
  by rewrite IH.
Qed.

(** ** Parsing *)

(** A decimal field of an IPv4 address: at most 255, no leading zero. *)
Definition v4_field (s : string) : option N :=
  let digits := String.list_ascii_of_string s in
  if bool_decide (digits = []) || negb (forallb is_digit digits) ||
     (Nat.ltb 1 (length digits) && (match digits with a :: _ => (byte_val a =? 48)%N | [] => false end)) ||
     Nat.ltb 3 (length digits)
  then None
  else let n := foldl (λ n a, (n * 10 + (byte_val a - 48))%N) 0%N digits in
       if (n <=? 255)%N then Some n else None.

Definition parse_v4 (s : string) : option (list N) :=
  match mapM v4_field (split_on 46 s) with
  | Some fields => if Nat.eqb (length fields) 4 then Some fields else None
  | None => None
  end.

Definition hex_val (a : ascii) : option N :=
  if is_digit a then Some (byte_val a - 48)%N
  else if in_range 97 102 a then Some (byte_val a - 87)%N
  else if in_range 65 70 a then Some (byte_val a - 55)%N
  else None.

(** A group of one to four hexadecimal digits, as two bytes. *)
Definition v6_group (s : string) : option (list N) :=
  let digits := String.list_ascii_of_string s in
  if bool_decide (digits = []) || Nat.ltb 4 (length digits) then None
  else n ← foldl (λ acc a, n ← acc; d ← hex_val a; Some (n * 16 + d)%N) (Some 0%N) digits;
       Some [(n / 256)%N; (n mod 256)%N].

(** The groups of one side of [::]; the last may be an IPv4 address. *)
Fixpoint v6_groups (l : list string) : option (list N) :=
  match l with
  | [] => Some []
  | [g] => match v6_group g with
           | Some b => Some b
           | None => parse_v4 g
           end
  | g :: l' => b ← v6_group g; r ← v6_groups l'; Some (b ++ r)
  end.

(** Text before and after the first [::]. *)
Fixpoint cut_ellipsis (s : string) : option (string * string) :=
  match s with
  | String a ((String b s'') as s') =>
      if (byte_val a =? 58)%N && (byte_val b =? 58)%N then Some ("", s'')
      else match cut_ellipsis s' with
           | Some (x, y) => Some (String a x, y)
           | None => None
           end
  | _ => None
  end.

Definition side (s : string) : option (list N) :=
  if bool_decide (s = "") then Some [] else v6_groups (split_on 58 s).

(** An address written in the middle of [::] has hexadecimal groups on its
    left, and [::] stands for at least one group. *)
Definition parse_v6 (s : string) : option (list N) :=
  match cut_ellipsis s with
  | None => b ← side s; if Nat.eqb (length b) 16 then Some b else None
  | Some (x, y) =>
      l ← (if bool_decide (x = "") then Some [] else mapM v6_group (split_on 58 x) ≫= λ ls, Some (concat ls));
      r ← side y;
      if Nat.leb (length l + length r) 14
      then Some (l ++ replicate (16 - length l - length r) 0%N ++ r) else None
  end.

Definition v4_prefix : list N := [0;0;0;0;0;0;0;0;0;0;255;255]%N.

(** The first of [.], [:] and [%] decides the form; a zone is refused. *)
Fixpoint addr_form (s : string) : option N :=
  match s with
  | EmptyString => None
  | String a s' =>
      let b := byte_val a in
      if (b =? 46)%N || (b =? 58)%N || (b =? 37)%N then Some b else addr_form s'
  end.

Definition ParseIP (s : string) : option IP :=
  match addr_form s with
  | Some 46%N => b ← parse_v4 s; Some (v4_prefix ++ b)
  | Some 58%N => parse_v6 s
  | _ => None
  end.

(** ** Printing *)

Definition To4 (ip : IP) : option IP :=
  if bool_decide (take 12 ip = v4_prefix) then Some (drop 12 ip) else None.

Definition v4_String (b : IP) : string := Join ((λ n, pretty n) <$> b) ".".

Definition hex_char (n : N) : ascii := ascii_of_N (if (n <? 10)%N then 48 + n else 87 + n)%N.

(** A group without leading zeros. *)
Definition hex_group (n : N) : string :=
  let ds := [(n / 4096) mod 16; (n / 256) mod 16; (n / 16) mod 16; n mod 16]%N in
  let fix skip (l : list N) := match l with 0%N :: ((_ :: _) as l') => skip l' | _ => l end in
  String.string_of_list_ascii (hex_char <$> skip ds).

Fixpoint groups (b : IP) : list N :=
  match b with
  | h :: l :: b' => (h * 256 + l)%N :: groups b'
  | _ => []
  end.

Fixpoint zero_run (l : list N) : nat :=
  match l with 0%N :: l' => S (zero_run l') | _ => O end.

(** Position and length of the first longest run of zero groups. *)
Fixpoint best_run (i : nat) (l : list N) : nat * nat :=
  match l with
  | [] => (i, O)
  | _ :: l' => let r := zero_run l in let '(j, m) := best_run (S i) l' in
               if Nat.leb m r then (i, r) else (j, m)
  end.

Definition v6_String (b : IP) : string :=
  let g := groups b in
  let '(i, n) := best_run 0 g in
  let show l := Join (hex_group <$> l) ":" in
  if Nat.leb 2 n then show (take i g) +:+ "::" +:+ show (drop (i + n) g) else show g.

(** [ip.Mask(net.CIDRMask(64, 128))]. *)
Definition mask64 (ip : IP) : IP := take 8 ip ++ replicate 8 0%N.

Example parse_v4_ok : ParseIP "192.0.2.7" = Some (v4_prefix ++ [192;0;2;7]%N).
Proof. reflexivity. Qed.
Example parse_v4_zero : ParseIP "192.0.2.07" = None.
Proof. reflexivity. Qed.
Example parse_mapped : (ParseIP "::ffff:192.0.2.7" ≫= To4) = Some [192;0;2;7]%N.
Proof. reflexivity. Qed.
Example print_v6 :
  (λ ip, v6_String (mask64 ip)) <$> ParseIP "2001:DB8:0:1:8:800:200c:417A" = Some "2001:db8:0:1::".
Proof. reflexivity. Qed.
Example print_runs : v6_String <$> ParseIP "0:0:1::2:0:0:0" = Some "0:0:1:0:2::".
Proof. reflexivity. Qed.
Example parse_zone : ParseIP "fe80::1%eth0" = None.
Proof. reflexivity. Qed.
Example parse_two_ellipses : ParseIP "1::2::3" = None.
Proof. reflexivity. Qed.

(** ** Host and port *)

(** [net.SplitHostPort]: the host, unless the text has no port, has stray
    brackets, or is an unbracketed address with several colons. *)
Definition SplitHostPort (s : string) : option string :=
  match reverse (split_on 58 s) with
  | port :: ((_ :: _) as rest) =>
    let host := Join (reverse rest) ":" in
    let no_brackets (t : string) := negb (Contains t "[") && negb (Contains t "]") in
    match strip_prefix "[" host with
    | Some h =>
      match reverse (split_on 93 h) with
      | "" :: ((_ :: _) as inner) =>
        let h' := Join (reverse inner) "]" in
        if no_brackets h' && no_brackets port then Some h' else None
      | _ => None
      end
    | None =>
      if Contains host ":" then None
      else if no_brackets host && no_brackets port then Some host else None
    end
  | _ => None
  end.

Example host_v4 : SplitHostPort "192.0.2.7:443" = Some "192.0.2.7".
Proof. reflexivity. Qed.
Example host_v6 : SplitHostPort "[::1]:443" = Some "::1".
Proof. reflexivity. Qed.
Example host_bare : SplitHostPort "::1" = None.
Proof. reflexivity. Qed.
Example host_no_port : SplitHostPort "localhost" = None.
Proof. reflexivity. Qed.
