(* ===== verification/Url.v ===== *)
(** * net/url: what the program uses of [url.Parse]

    The parser of Go 1.25, on byte strings: the scheme, host and path it finds,
    or that it reports an error.  Errors are only ever tested for. *)

From Stdlib Require Import Ascii.
From S2P Require Import Prelude GoStd Network.
Open Scope Z_scope.

Record URL := mkURL { Scheme : string; Host : string; Path : string }.

Definition IsAbs (u : URL) : bool := bool_decide (Scheme u ≠ "").

(** [strings.Cut] at a byte: before, after, and whether it was found. *)
Fixpoint Cut (b : N) (s : string) : string * string * bool :=
  match s with
  | EmptyString => ("", "", false)
  | String a s' =>
      if (byte_val a =? b)%N then ("", s', true)
      else let '(x, y, found) := Cut b s' in (String a x, y, found)
  end.

(** The parts before and after the last occurrence of a byte. *)
Definition cut_last (b : N) (s : string) : option (string * string) :=
  match Cut b (string_rev s "") with
  | (after, before, true) => Some (string_rev before "", string_rev after "")
  | _ => None
  end.

Definition has_byte (P : N → bool) (s : string) : bool := negb (str_forall (λ a, negb (P (byte_val a))) s).

(** ** Percent escapes *)

Inductive encoding := encodePath | encodeUserPassword | encodeHost | encodeZone | encodeFragment.

(** [shouldEscape(c, encodeHost)], the same for a zone. *)
Definition should_escape_host (c : N) : bool :=
  negb (is_alnum (ascii_of_N c) ||
        bool_decide (c ∈ [33; 36; 38; 39; 40; 41; 42; 43; 44; 59; 61; 58; 91; 93; 60; 62; 34;
                          45; 95; 46; 126]%N)).

Definition is_host (m : encoding) : bool := match m with encodeHost | encodeZone => true | _ => false end.

(** The escape [%xy] allowed in this part of a URL. *)
Definition escape_ok (m : encoding) (x y : N) : bool :=
  let v := (x * 16 + y)%N in
  match m with
  | encodeHost => negb (x <? 8)%N || (v =? 37)%N
  | encodeZone => (v =? 37)%N || (v =? 32)%N || negb (should_escape_host v)
  | _ => true
  end.

Fixpoint unescape (m : encoding) (s : string) : option string :=
  match s with
  | EmptyString => Some ""
  | String a s' =>
      if (byte_val a =? 37)%N
      then match s' with
           | String x (String y rest) =>
               xv ← hex_val x; yv ← hex_val y;
               if escape_ok m xv yv
               then r ← unescape m rest; Some (String (ascii_of_N (xv * 16 + yv)) r)
               else None
           | _ => None
           end
      else if is_host m && (byte_val a <? 128)%N && should_escape_host (byte_val a) then None
      else r ← unescape m s'; Some (String a r)
  end.

(** ** Parts *)

(** [getScheme]: a scheme and the rest after its colon; none, with the text as
    it is; or an error, for a leading colon. *)
Fixpoint scheme_of (first : bool) (s : string) : option (option (string * string)) :=
  match s with
  | EmptyString => Some None
  | String a s' =>
      let c := byte_val a in
      let more := r ← scheme_of false s'; Some (option_map (λ p, (String a p.1, p.2)) r) in
      if is_upper a || is_lower a then more
      else if is_digit a || (c =? 43)%N || (c =? 45)%N || (c =? 46)%N
      then if first then Some None else more
      else if (c =? 58)%N then if first then None else Some (Some ("", s'))
      else Some None
  end.

Definition getScheme (s : string) : option (string * string) :=
  r ← scheme_of true s; Some (default ("", s) r).

(** [validOptionalPort]: empty, or a colon and digits. *)
Definition validOptionalPort (port : string) : bool :=
  match port with
  | EmptyString => true
  | String a digits => (byte_val a =? 58)%N && str_forall is_digit digits
  end.

(** Text before and after the first ["%25"]. *)
Fixpoint cut_zone (s : string) : option (string * string) :=
  if HasPrefix s "%25" then Some ("", s)
  else match s with
       | EmptyString => None
       | String a s' => (λ p, (String a p.1, p.2)) <$> cut_zone s'
       end.

Definition parseHost (host : string) : option string :=
  if HasPrefix host "["
  then
    '(inside, port) ← cut_last 93 host;
    if negb (validOptionalPort port) then None
    else match cut_zone inside with
         | Some (h, zone) =>
             h1 ← unescape encodeHost h; h2 ← unescape encodeZone zone;
             h3 ← unescape encodeHost ("]" +:+ port); Some (h1 +:+ h2 +:+ h3)
         | None => unescape encodeHost host
         end
  else match cut_last 58 host with
       | Some (_, port) => if str_forall is_digit port then unescape encodeHost host else None
       | None => unescape encodeHost host
       end.

Definition userinfo_byte (a : ascii) : bool :=
  is_alnum a ||
  bool_decide (byte_val a ∈ [45; 46; 95; 58; 126; 33; 36; 38; 39; 40; 41; 42; 43; 44; 59; 61; 37; 64]%N).

(** The host of an authority; user information is only checked. *)
Definition parseAuthority (authority : string) : option string :=
  match cut_last 64 authority with
  | None => parseHost authority
  | Some (info, h) =>
      host ← parseHost h;
      if negb (str_forall userinfo_byte info) then None
      else let '(user, password, _) := Cut 58 info in
           _ ← unescape encodeUserPassword user; _ ← unescape encodeUserPassword password; Some host
  end.

(** A trailing lone [?] is dropped like any other query. *)
Definition cut_query (s : string) : string := (Cut 63 s).1.1.

(** An authority ends at the first slash, which starts the path. *)
Definition split_authority (s : string) : string * string :=
  let '(authority, after, found) := Cut 47 s in
  (authority, if found then "/" +:+ after else "").

Definition parse (s : string) : option URL :=
  if has_byte (λ c, (c <? 32)%N || (c =? 127)%N) s then None
  else if bool_decide (s = "*") then Some (mkURL "" "" "*")
  else
    '(sch, rest) ← getScheme s;
    let scheme := map_string lower_byte sch in
    let rest := cut_query rest in
    if negb (HasPrefix rest "/") && bool_decide (scheme ≠ "") then Some (mkURL scheme "" "")
    else if negb (HasPrefix rest "/") && has_byte (λ c, (c =? 58)%N) (Cut 47 rest).1.1 then None
    else if (bool_decide (scheme ≠ "") || negb (HasPrefix rest "///")) && HasPrefix rest "//"
    then let '(authority, path) := split_authority (default "" (strip_prefix "//" rest)) in
         host ← parseAuthority authority;
         p ← unescape encodePath path; Some (mkURL scheme host p)
    else p ← unescape encodePath rest; Some (mkURL scheme "" p).

(** [url.Parse]: a fragment is cut off first and has to unescape. *)
Definition Parse (raw : string) : option URL :=
  let '(s, frag, _) := Cut 35 raw in
  u ← parse s;
  if bool_decide (frag = "") then Some u else _ ← unescape encodeFragment frag; Some u.

Example parse_plain : Parse "https://app.example.com:8443/a%20b?x=1#f" =
  Some (mkURL "https" "app.example.com:8443" "/a b").
Proof. vm_compute. reflexivity. Qed.
Example parse_upper : Parse "HTTPS://h" = Some (mkURL "https" "h" "").
Proof. vm_compute. reflexivity. Qed.
Example parse_template : Scheme <$> Parse "http://localhost:3000/s?session_id={CHECKOUT_SESSION_ID}" = Some "http".
Proof. vm_compute. reflexivity. Qed.
Example parse_relative : IsAbs <$> Parse "/billing" = Some false.
Proof. vm_compute. reflexivity. Qed.
Example parse_opaque : Parse "mailto:a@b" = Some (mkURL "mailto" "" "").
Proof. vm_compute. reflexivity. Qed.
Example parse_bad_port : Parse "http://h:80a/" = None.
Proof. vm_compute. reflexivity. Qed.
Example parse_v6_host : Host <$> Parse "http://u:p@[fe80::1%25en0]:80/" = Some "[fe80::1%en0]:80".
Proof. vm_compute. reflexivity. Qed.
Example parse_bad_escape : Parse "https://h/%zz" = None.
Proof. vm_compute. reflexivity. Qed.
Example parse_space_host : Parse "https://a b/" = None.
Proof. vm_compute. reflexivity. Qed.
