(* ===== verification/Slog.v ===== *)
(** * log/slog: levels, attributes and records

    What a log call hands to a handler. *)

From Stdlib Require Import Ascii.
From S2P Require Import Prelude GoStd Strconv Network.
Open Scope Z_scope.

Inductive Level := LevelDebug | LevelInfo | LevelWarn | LevelError.

#[global] Instance Level_eq_dec : EqDecision Level.
Proof. solve_decision. Defined.

(** [slog.Level] is an integer. *)
Definition Level_val (l : Level) : Z :=
  match l with LevelDebug => -4 | LevelInfo => 0 | LevelWarn => 4 | LevelError => 8 end.

Definition Level_String (l : Level) : string :=
  match l with
  | LevelDebug => "DEBUG" | LevelInfo => "INFO" | LevelWarn => "WARN" | LevelError => "ERROR"
  end.

(** [slog.Value], by kind; [VLevel] and [VSource] are the [any] values the
    built-in keys carry. *)
Inductive Value :=
  | VString (s : string)
  | VInt (z : Z)
  | VBool (b : bool)
  | VDuration (d : Duration)
  | VTime (t : Time)
  | VLevel (l : Level)
  | VSource (file : string) (line : Z)
  | VGroup (attrs : list (string * Value)).

Definition Attr : Type := string * Value.

Record LogRecord := mkLogRecord {
  rec_time : Time; rec_level : Level; rec_msg : string; rec_source : option (string * Z);
  rec_attrs : list Attr }.

(** ** Timestamps: [Format(time.RFC3339Nano)] and [time.RFC3339] in UTC *)

(** Year, month and day of a day count from the epoch, in the Gregorian
    calendar with years that start in March. *)
Definition civil (days : Z) : Z * Z * Z :=
  let z := days + 719468 in
  let era := z / 146097 in
  let doe := z mod 146097 in
  let yoe := (doe - doe / 1460 + doe / 36524 - doe / 146096) / 365 in
  let doy := doe - (365 * yoe + yoe / 4 - yoe / 100) in
  let mp := (5 * doy + 2) / 153 in
  let m := if mp <? 10 then mp + 3 else mp - 9 in
  (yoe + era * 400 + (if m <=? 2 then 1 else 0), m, doy - (153 * mp + 2) / 5 + 1).

(** A number padded with zeros to a width. *)
Definition pad (width : nat) (z : Z) : string :=
  let s := Itoa (Z.abs z) in
  (if z <? 0 then "-" else "") +:+
  String.concat "" (replicate (width - String.length s) "0") +:+ s.

Definition rfc3339 (frac : string) (t : Time) : string :=
  let secs := t / Second in
  let '(y, m, d) := civil (secs / 86400) in
  let s := secs mod 86400 in
  pad 4 y +:+ "-" +:+ pad 2 m +:+ "-" +:+ pad 2 d +:+ "T" +:+
  pad 2 (s / 3600) +:+ ":" +:+ pad 2 (s / 60 mod 60) +:+ ":" +:+ pad 2 (s mod 60) +:+ frac +:+ "Z".

Definition FormatRFC3339 (t : Time) : string := rfc3339 "" t.
Definition FormatRFC3339Nano (t : Time) : string := rfc3339 (fmtFrac 9 (t mod Second)) t.

Example format_epoch : FormatRFC3339 0 = "1970-01-01T00:00:00Z".
Proof. vm_compute. reflexivity. Qed.
Example format_leap : FormatRFC3339Nano (time_Unix 1709210096 + 120 * Millisecond) = "2024-02-29T12:34:56.12Z".
Proof. vm_compute. reflexivity. Qed.
Example format_old : FormatRFC3339 time_zero = "0001-01-01T00:00:00Z".
Proof. vm_compute. reflexivity. Qed.

(** ** path/filepath on Unix *)

(** [filepath.Clean], component by component; the stack is in reverse. *)
Fixpoint clean_parts (rooted : bool) (stack parts : list string) : list string :=
  match parts with
  | [] => reverse stack
  | p :: rest =>
      if one_of p [""; "."] then clean_parts rooted stack rest
      else if bool_decide (p = "..")
      then match stack with
           | top :: below => if bool_decide (top = "..") then clean_parts rooted (p :: stack) rest
                             else clean_parts rooted below rest
           | [] => clean_parts rooted (if rooted then [] else [p]) rest
           end
      else clean_parts rooted (p :: stack) rest
  end.

Definition Clean (path : string) : string :=
  if bool_decide (path = "") then "."
  else
    let rooted := HasPrefix path "/" in
    let parts := clean_parts rooted [] (split_on 47 path) in
    if rooted then "/" +:+ Join parts "/" else if bool_decide (parts = []) then "." else Join parts "/".

Definition last_part (path : string) : string := List.last (split_on 47 path) "".

Fixpoint drop_slashes (parts : list string) : list string :=
  match parts with "" :: rest => drop_slashes rest | _ => parts end.

(** [filepath.Base]: the last component, trailing slashes ignored. *)
Definition Base (path : string) : string :=
  if bool_decide (path = "") then "."
  else match drop_slashes (reverse (split_on 47 path)) with
       | p :: _ => p
       | [] => "/"
       end.

(** [filepath.Dir]: all but the last component. *)
Definition Dir (path : string) : string :=
  let front := removelast (split_on 47 path) in
  Clean (if bool_decide (front = []) then "" else Join front "/" +:+ "/").

Definition path_Join (a b : string) : string :=
  if bool_decide (a = "") then (if bool_decide (b = "") then "" else Clean b)
  else Clean (if bool_decide (b = "") then a else a +:+ "/" +:+ b).

Example dir_base : (Dir "/app/internal/x.go", Base (Dir "/app/internal/x.go")) = ("/app/internal", "internal").
Proof. vm_compute. reflexivity. Qed.
Example dir_bare : path_Join (Base (Dir "main.go")) (Base "main.go") = "main.go".
Proof. vm_compute. reflexivity. Qed.
