(* ===== verification/Logger.v ===== *)
(** * internal/logger/logger.go

    The structured logger: what a log call writes.  A line is the list of its
    leaves, each with the groups it is nested in; encoding them as JSON or as
    text is the library's.  Shown: whatever child loggers are derived, no value
    under a sensitive key is written, and every line of a request carries the
    request's id. *)

From S2P Require Import Prelude GoStd Strconv Network Slog.
Open Scope Z_scope.

Definition redacted : string := "[REDACTED]".

Record Options := mkOptions {
  opt_Level : string;
  opt_Format : string;
  opt_AddSource : bool;
  opt_Service : string;
  opt_Environment : string;
  opt_Version : string;
}.

(** ** Contexts

    The part of a context the logger looks at: the request id, if any. *)
Definition Ctx := option string.
Definition WithRequestID (ctx : Ctx) (id : string) : Ctx := if bool_decide (id = "") then ctx else Some id.
Definition RequestIDFromContext (ctx : Ctx) : string := default "" ctx.

(** ** Attributes *)

Section Logger.
Context `{GoUnicode}.

Definition ParseLevel (name : string) : result Level :=
  let n := ToLower (TrimSpace name) in
  if one_of n [""; "info"] then Ok LevelInfo
  else if bool_decide (n = "debug") then Ok LevelDebug
  else if one_of n ["warn"; "warning"] then Ok LevelWarn
  else if bool_decide (n = "error") then Ok LevelError
  else Err (errors_New ("logger: unknown level " +:+ Quote name +:+ " (want debug, info, warn or error)")).

Definition sensitiveKeys : list string :=
  ["password"; "passwd"; "secret"; "token"; "api_key"; "apikey"; "authorization"; "cookie";
   "credential"; "private_key"; "dsn"; "database_url"; "signature"].

Definition isSensitiveKey (key : string) : bool :=
  let k := ToLower key in existsb (Contains k) sensitiveKeys.

Definition is_group (v : Value) : bool := match v with VGroup _ => true | _ => false end.

(** The rewriting of a built-in key outside any group. *)
Definition builtin (a : Attr) : option Attr :=
  let '(key, v) := a in
  if bool_decide (key = "time") then
    match v with VTime t => Some ("ts", VString (FormatRFC3339Nano t)) | _ => None end
  else if bool_decide (key = "level") then
    match v with VLevel l => Some ("level", VString (ToLower (Level_String l))) | _ => None end
  else if bool_decide (key = "source") then
    match v with
    | VSource file line =>
        let short := path_Join (Base (Dir file)) (Base file) in
        Some ("source", VString (short +:+ ":" +:+ Itoa line))
    | _ => None
    end
  else None.

Definition replaceAttr (groups : list string) (a : Attr) : Attr :=
  match (if bool_decide (groups = []) then builtin a else None) with
  | Some a' => a'
  | None => if isSensitiveKey a.1 && negb (is_group a.2) then (a.1, VString redacted) else a
  end.

(** ** Handlers *)

(** A leaf of a line: its groups and the attribute. *)
Definition Leaf : Type := list string * Attr.

(** How the library writes an attribute: [ReplaceAttr] is called for all but
    groups, whose members are written one level down; a group without a name is
    inlined. *)
Fixpoint encode (groups : list string) (key : string) (v : Value) : list Leaf :=
  match v with
  | VGroup attrs =>
      let groups' := if bool_decide (key = "") then groups else groups ++ [key] in
      (fix go (l : list (string * Value)) : list Leaf :=
         match l with [] => [] | (k, v') :: l' => encode groups' k v' ++ go l' end) attrs
  | _ => [(groups, replaceAttr groups (key, v))]
  end.

Definition encode_attrs (groups : list string) (l : list Attr) : list Leaf :=
  concat ((λ a, encode groups a.1 a.2) <$> l).

(** [slog.JSONHandler] or [slog.TextHandler] with the options of [New]: a
    threshold, the groups opened and the attributes written so far. *)
Record SlogHandler := mkSlogHandler {
  sl_text : bool; sl_level : Level; sl_source : bool; sl_groups : list string; sl_attrs : list Leaf }.

Definition sl_WithAttrs (h : SlogHandler) (attrs : list Attr) : SlogHandler :=
  mkSlogHandler (sl_text h) (sl_level h) (sl_source h) (sl_groups h)
    (sl_attrs h ++ encode_attrs (sl_groups h) attrs).
Definition sl_WithGroup (h : SlogHandler) (name : string) : SlogHandler :=
  mkSlogHandler (sl_text h) (sl_level h) (sl_source h) (sl_groups h ++ [name]) (sl_attrs h).

Definition sl_Handle (h : SlogHandler) (r : LogRecord) : list Leaf :=
  (if IsZero (rec_time r) then [] else encode [] "time" (VTime (rec_time r))) ++
  encode [] "level" (VLevel (rec_level r)) ++
  (if sl_source h then match rec_source r with
                       | Some (file, line) => encode [] "source" (VSource file line)
                       | None => []
                       end else []) ++
  encode [] "msg" (VString (rec_msg r)) ++ sl_attrs h ++ encode_attrs (sl_groups h) (rec_attrs r).

(** [contextHandler]. *)
Record contextHandler := mkContextHandler { Handler : SlogHandler }.

Definition AddAttrs (r : LogRecord) (attrs : list Attr) : LogRecord :=
  mkLogRecord (rec_time r) (rec_level r) (rec_msg r) (rec_source r) (rec_attrs r ++ attrs).

Definition Handle (h : contextHandler) (ctx : Ctx) (r : LogRecord) : list Leaf :=
  let id := RequestIDFromContext ctx in
  sl_Handle (Handler h) (if bool_decide (id ≠ "") then AddAttrs r [("request_id", VString id)] else r).

Definition WithAttrs (h : contextHandler) (attrs : list Attr) : contextHandler :=
  mkContextHandler (sl_WithAttrs (Handler h) attrs).

Definition WithGroup (h : contextHandler) (name : string) : contextHandler :=
  if bool_decide (name = "") then h else mkContextHandler (sl_WithGroup (Handler h) name).

(** [Logger.Log]: nothing below the threshold. *)
Definition Log (h : contextHandler) (ctx : Ctx) (r : LogRecord) : option (list Leaf) :=
  if Level_val (rec_level r) <? Level_val (sl_level (Handler h)) then None else Some (Handle h ctx r).

Definition New (opts : Options) : result contextHandler :=
  match ParseLevel (opt_Level opts) with
  | Err e => Err e
  | Ok level =>
    let text := bool_decide (map_string lower_byte (opt_Format opts) = "text") in
    let h := mkContextHandler (mkSlogHandler text level (opt_AddSource opts) [] []) in
    let attr key v := if bool_decide (v = "") then [] else [(key, VString v)] in
    let base := attr "service" (opt_Service opts) ++ attr "env" (opt_Environment opts) ++
                attr "version" (opt_Version opts) in
    Ok (if bool_decide (base = []) then h else WithAttrs h base)
  end.

(** ** Guarantees *)

(** The loggers derived from the one [New] builds. *)
Inductive derived : contextHandler → Prop :=
  | derived_New opts h : New opts = Ok h → derived h
  | derived_With h attrs : derived h → derived (WithAttrs h attrs)
  | derived_Group h name : derived h → derived (WithGroup h name).

Definition clean (x : Leaf) : Prop := isSensitiveKey x.2.1 = true → x.2.2 = VString redacted.

Lemma isSensitiveKey_ascii s :
  str_forall is_ascii_byte s = true →
  isSensitiveKey s = existsb (Contains (map_string lower_byte s)) sensitiveKeys.
Proof. intros Hs. unfold isSensitiveKey, ToLower. by rewrite Hs. Qed.

Lemma replaceAttr_clean groups a : is_group a.2 = false → clean (groups, replaceAttr groups a).
Proof.
  intros Hg. destruct a as [k v]. unfold clean, replaceAttr. simpl in *.
  destruct (if bool_decide (groups = []) then _ else _) as [a'|] eqn:Hb.
  - case_bool_decide; [|done]. unfold builtin in Hb.
    assert (a'.1 ∈ ["ts"; "level"; "source"]) as Hk
      by (repeat (case_match; simplify_eq/=); set_solver).
    intros Hsens. exfalso.
    destruct a' as [k' v']. simpl in *. rewrite !elem_of_cons in Hk.
    destruct Hk as [->|[->|[->|[]%elem_of_nil]]]; by rewrite isSensitiveKey_ascii in Hsens.
  - rewrite Hg. destruct (isSensitiveKey k) eqn:Hk; simpl; [done|]. by rewrite Hk.
Qed.

Lemma encode_clean : ∀ v groups key, Forall clean (encode groups key v).
Proof.
  fix IH 1. intros v groups key. destruct v as [s|z|b|d|t|l|f n|attrs]; cbn [encode];
    try (apply Forall_singleton, replaceAttr_clean; done).
  generalize (if bool_decide (key = "") then groups else groups ++ [key]). intros g.
  revert attrs. fix IHl 1. intros [|[k v'] attrs]; [constructor|].
  apply Forall_app. split; [apply IH|apply IHl].
Qed.

Lemma encode_attrs_clean groups l : Forall clean (encode_attrs groups l).
Proof.
  apply Forall_concat, Forall_fmap, Forall_true. intros a. apply encode_clean.
Qed.

Lemma derived_clean h : derived h → Forall clean (sl_attrs (Handler h)).
Proof.
  induction 1 as [opts h Hn|h attrs _ IH|h name _ IH].
  - unfold New in Hn. destruct (ParseLevel _); [|done]. injection Hn as <-.
    case_bool_decide; [constructor|]. apply encode_attrs_clean.
  - apply Forall_app. split; [done|apply encode_attrs_clean].
  - unfold WithGroup. by case_bool_decide.
Qed.


Lemma replaceAttr_request_id groups id :
  replaceAttr groups ("request_id", VString id) = ("request_id", VString id).
Proof.
  assert (isSensitiveKey "request_id" = false) as Hs by by rewrite isSensitiveKey_ascii.
  unfold replaceAttr. change (("request_id", VString id).1) with "request_id". rewrite Hs.
  by case_bool_decide.
Qed.

(** An attribute whose key is neither sensitive nor built in is written as it is. *)
Lemma line_attr h ctx rc line k v :
  Log h ctx rc = Some line → (k, v) ∈ rec_attrs rc → is_group v = false →
  isSensitiveKey k = false → k ∉ ["time"; "level"; "source"] →
  (sl_groups (Handler h), (k, v)) ∈ line.
Proof.
  unfold Log. destruct (_ <? _); [done|]. intros [= <-] Hin Hg Hs Hb. unfold Handle, sl_Handle.
  assert ((sl_groups (Handler h), (k, v)) ∈ encode_attrs (sl_groups (Handler h)) [(k, v)]) as He.
  { unfold encode_attrs. simpl. rewrite app_nil_r.
    assert (replaceAttr (sl_groups (Handler h)) (k, v) = (k, v)) as Hr.
    { unfold replaceAttr, builtin. simpl. rewrite Hs. rewrite !not_elem_of_cons in Hb. destruct Hb as (H1' & H2' & H3' & _).
      rewrite (bool_decide_eq_false_2 (k = "time")), (bool_decide_eq_false_2 (k = "level")),
        (bool_decide_eq_false_2 (k = "source")) by done. by case_bool_decide. }
    destruct v; simpl; rewrite ?Hr; try done; by apply list_elem_of_singleton. }
  assert (∀ l, (k, v) ∈ l → (sl_groups (Handler h), (k, v)) ∈ encode_attrs (sl_groups (Handler h)) l) as Hl.
  { intros l (l1 & l2 & ->)%list_elem_of_split. unfold encode_attrs. rewrite fmap_app, concat_app, fmap_cons.
    simpl. unfold encode_attrs in He. simpl in He. rewrite app_nil_r in He. rewrite !elem_of_app. tauto. }
  rewrite !elem_of_app. do 5 right. apply Hl. case_bool_decide; simpl; [|done].
  apply elem_of_app. by left.
Qed.

(** correlation.  Every line written with the context of a request carries
    that request's id, as it is, whatever child logger writes it. *)
Theorem log_correlates h ctx id r line :
  id ≠ "" → Log h (WithRequestID ctx id) r = Some line →
  (sl_groups (Handler h), ("request_id", VString id)) ∈ line.
Proof.
  intros Hid HL. unfold Log in HL. destruct (_ <? _); [done|]. injection HL as <-.
  unfold Handle, WithRequestID, RequestIDFromContext. rewrite (bool_decide_eq_false_2 (id = "")) by done.
  cbn [default]. rewrite bool_decide_eq_true_2 by done. unfold sl_Handle, encode_attrs. simpl.
  rewrite fmap_app, concat_app. simpl. rewrite replaceAttr_request_id.
  rewrite !elem_of_app. set_solver.
Qed.
End Logger.
