(* ===== verification/Pool.v ===== *)
(** * internal/database/postgres.go

    The connection pool: how it is configured, what is left open when building
    it fails, what its errors may say, and what the query tracer logs.  pgx is a
    library and so a class. *)

From Stdlib Require Import Ascii.
From S2P Require Import Prelude GoStd Strconv Network Slog.
Open Scope Z_scope.

Module PoolConfig.
Record t := mk {
  DSN : string;
  MaxConns : Z;
  MinConns : Z;
  MaxConnLifetime : Duration;
  MaxConnIdleTime : Duration;
  HealthCheckPeriod : Duration;
  ConnectTimeout : Duration;
  StatementTimeout : Duration;
  IdleInTxTimeout : Duration;
  ApplicationName : string;
  SlowQueryThreshold : Duration;
}.

(** The clamp of [MinConns] comes last, after the defaults. *)
Definition withDefaults (c : t) : t :=
  let max := if MaxConns c <=? 0 then 25 else MaxConns c in
  let min := if MinConns c <? 0 then 0 else MinConns c in
  mk (DSN c) max (if max <? min then max else min)
     (if MaxConnLifetime c <=? 0 then Hour else MaxConnLifetime c)
     (if MaxConnIdleTime c <=? 0 then 30 * Minute else MaxConnIdleTime c)
     (if HealthCheckPeriod c <=? 0 then Minute else HealthCheckPeriod c)
     (if ConnectTimeout c <=? 0 then 10 * Second else ConnectTimeout c)
     (StatementTimeout c) (IdleInTxTimeout c)
     (if bool_decide (ApplicationName c = "") then "stripe-payment-service" else ApplicationName c)
     (SlowQueryThreshold c).
End PoolConfig.

(** [millis]: what the server's timeout settings take. *)
Definition millis (d : Duration) : string := Itoa (Milliseconds d).

(** [strings.ReplaceAll(s, old, new)] for a non-empty [old]. *)
Fixpoint replace_all (fuel : nat) (s old new : string) : string :=
  match fuel with
  | O => s
  | S fuel' =>
    match strip_prefix old s with
    | Some rest => new +:+ replace_all fuel' rest old new
    | None => match s with
              | EmptyString => ""
              | String a s' => String a (replace_all fuel' s' old new)
              end
    end
  end.

Definition ReplaceAll (s old new : string) : string := replace_all (S (String.length s)) s old new.

Definition redactDSNError (err : error) (dsn : string) : error :=
  if bool_decide (dsn = "") then err
  else if negb (Contains (err_msg err) dsn) then err
  else errors_New (ReplaceAll (err_msg err) dsn "[REDACTED DSN]").

(** ** Building the pool *)

(** What this package sets of [pgxpool.Config]. *)
Record PgxConfig := mkPgxConfig {
  px_MaxConns : Z;
  px_MinConns : Z;
  px_MaxConnLifetime : Duration;
  px_MaxConnIdleTime : Duration;
  px_HealthCheckPeriod : Duration;
  px_ConnectTimeout : Duration;
  px_RuntimeParams : gmap string string;
  px_Tracer : option Duration;
}.

(** Errors are the text pgx gives them. *)
Class PgxLib := {
  pgxpool_ParseConfig : string → PgxConfig + string;
  pgxpool_NewWithConfig : PgxConfig → option string;
  pgxpool_Ping : PgxConfig → Duration → option string;
  pgx_SelectOne : Z + string;
}.

Record DB := mkDB { db_pool : PgxConfig; db_cfg : PoolConfig.t }.

(** The pools open in the process. *)
Definition Open := list PgxConfig.

Section Pool.
Context `{PgxLib}.

Definition runtime_params (cfg : PoolConfig.t) (params : gmap string string) : gmap string string :=
  let p := <["timezone" := "UTC"]> (<["application_name" := PoolConfig.ApplicationName cfg]> params) in
  let p := if 0 <? PoolConfig.StatementTimeout cfg
           then <["statement_timeout" := millis (PoolConfig.StatementTimeout cfg)]> p else p in
  if 0 <? PoolConfig.IdleInTxTimeout cfg
  then <["idle_in_transaction_session_timeout" := millis (PoolConfig.IdleInTxTimeout cfg)]> p else p.

Definition pool_config (cfg : PoolConfig.t) (px : PgxConfig) : PgxConfig :=
  mkPgxConfig (PoolConfig.MaxConns cfg) (PoolConfig.MinConns cfg) (PoolConfig.MaxConnLifetime cfg)
    (PoolConfig.MaxConnIdleTime cfg) (PoolConfig.HealthCheckPeriod cfg) (PoolConfig.ConnectTimeout cfg)
    (runtime_params cfg (px_RuntimeParams px))
    (if 0 <? PoolConfig.SlowQueryThreshold cfg then Some (PoolConfig.SlowQueryThreshold cfg)
     else px_Tracer px).

(** [DB.Ping], within a deadline. *)
Definition Ping (px : PgxConfig) (timeout : Duration) : option error :=
  (λ text, wrapf "ping" (errors_New text)) <$> pgxpool_Ping px timeout.

(** [New]; [log] tells whether a logger was given. *)
Definition New (cfg : PoolConfig.t) (log : bool) : M Open (result DB) :=
  if bool_decide (TrimSpace (PoolConfig.DSN cfg) = "") then mret (Err (errors_New "database: DSN is empty"))
  else if negb log then mret (Err (errors_New "database: logger is nil"))
  else
    let cfg := PoolConfig.withDefaults cfg in
    match pgxpool_ParseConfig (PoolConfig.DSN cfg) with
    | inr text => mret (Err (wrapf "database: parse DSN"
                          (redactDSNError (errors_New text) (PoolConfig.DSN cfg))))
    | inl parsed =>
      let px := pool_config cfg parsed in
      match pgxpool_NewWithConfig px with
      | Some text => mret (Err (wrapf "database: create pool" (errors_New text)))
      | None =>
        _ ← modify (cons px);
        match Ping px (PoolConfig.ConnectTimeout cfg) with
        | Some err => _ ← modify tail; mret (Err (wrapf "database: initial ping" err))
        | None => mret (Ok (mkDB px cfg))
        end
      end
    end.

Definition HealthCheck : option error :=
  match pgx_SelectOne with
  | inr text => Some (wrapf "health check" (errors_New text))
  | inl ok => if ok =? 1 then None else Some (errors_New ("health check: unexpected result " +:+ Itoa ok))
  end.
End Pool.

(** ** The query tracer *)

(** [strings.Fields]: the pieces between runs of white space. *)
Fixpoint fields (fuel : nat) (word s : string) : list string :=
  let flush := if bool_decide (word = "") then [] else [word] in
  match fuel with
  | O => flush
  | S fuel' =>
    match first_strip space_runes s with
    | Some rest => flush ++ fields fuel' "" rest
    | None => match s with
              | EmptyString => flush
              | String a s' => fields fuel' (word +:+ String a "") s'
              end
    end
  end.

Definition Fields (s : string) : list string := fields (S (String.length s)) "" s.

Definition ellipsis : string := of_bytes [226; 128; 166]%N.

Definition summarise (sql : string) : string :=
  let s := Join (Fields sql) " " in
  if 300 <? len s then String.substring 0 300 s +:+ ellipsis else s.

(** How a query ended. *)
Inductive QueryEnd := QueryOk | QueryNoRows | QueryFailed (text : string).

(** [TraceQueryStart] keeps the time and the statement in the context, where
    [TraceQueryEnd] finds them. *)
Record traceState := mkTraceState { ts_start : Time; ts_sql : string }.
Definition TraceQueryStart (now : Time) (sql : string) : option traceState := Some (mkTraceState now sql).

Definition TraceQueryEnd (threshold : Duration) (st : option traceState) (now : Time) (e : QueryEnd)
    : option (Level * string * list Attr) :=
  match st with
  | None => None
  | Some st =>
    let elapsed := now - ts_start st in
    let sql := ("sql", VString (summarise (ts_sql st))) in
    match e with
    | QueryFailed text =>
        Some (LevelError, "query failed", [sql; ("elapsed", VDuration elapsed); ("error", VString text)])
    | _ =>
        if threshold <=? elapsed
        then Some (LevelWarn, "slow query",
                   [sql; ("elapsed", VDuration elapsed); ("threshold", VString (Duration_String threshold))])
        else Some (LevelDebug, "query", [sql; ("elapsed", VDuration elapsed)])
    end
  end.

Example summarise_lines : summarise "SELECT 1
   FROM t" = "SELECT 1 FROM t".
Proof. vm_compute. reflexivity. Qed.

(** ** Redaction

    Removing the DSN from a message really removes it, unless the placeholder
    that replaces it can be part of an occurrence. *)

Section Separated.
Context (b : N) (p : string) (c : ascii).
Hypothesis Hc : byte_val c = b.

Lemma prefix_sep q x y : no_byte b q = true → String.prefix q (x +:+ String c y) = String.prefix q x.
Proof.
  revert x. induction q as [|a q IH]; intros x Hq; [by destruct x|].
  apply andb_true_iff in Hq as [Ha Hq]. destruct x as [|a' x]; simpl.
  - destruct (ascii_dec a c) as [->|]; [|done]. by rewrite Hc, N.eqb_refl in Ha.
  - destruct (ascii_dec a a'); [|done]. by apply IH.
Qed.

(** An occurrence of text without the byte [b] does not cross one. *)
Lemma Contains_sep x y :
  no_byte b p = true → p ≠ "" → Contains (x +:+ String c y) p = Contains x p || Contains y p.
Proof.
  intros Hp Hne. induction x as [|a x IH].
  - change ("" +:+ String c y) with (String c y). cbn [Contains].
    change (String c y) with ("" +:+ String c y). rewrite prefix_sep by done. by destruct p.
  - change (String a x +:+ String c y) with (String a (x +:+ String c y)). cbn [Contains].
    change (String a (x +:+ String c y)) with (String a x +:+ String c y).
    rewrite prefix_sep, IH by done. by rewrite orb_assoc.
Qed.
End Separated.

Section Redact.
Context (p mid : string).
Hypotheses (Hopen : no_byte 91 p = true) (Hclose : no_byte 93 p = true).
Hypotheses (Hne : p ≠ "") (Hmid : Contains mid p = false).

Let new : string := "[" +:+ mid +:+ "]".

Lemma replace_prefix fuel s q :
  no_byte 91 q = true → String.prefix q (replace_all fuel s p new) = true → String.prefix q s = true.
Proof.
  revert s q. induction fuel as [|fuel IH]; intros s q Hq; simpl; [done|].
  destruct (strip_prefix p s) as [rest|].
  - destruct q as [|a q]; [by destruct s|]. apply andb_true_iff in Hq as [Ha _].
    change (new +:+ _) with (String "[" ((mid +:+ "]") +:+ replace_all fuel rest p new)). simpl.
    destruct (ascii_dec a "["%char) as [->|]; [done|done].
  - destruct s as [|a s]; [done|]. destruct q as [|a' q]; [done|].
    apply andb_true_iff in Hq as [_ Hq]. simpl. destruct (ascii_dec a' a); [|done]. by apply IH.
Qed.

Lemma Contains_replaced x : Contains (new +:+ x) p = Contains x p.
Proof.
  assert (new +:+ x = "" +:+ String "["%char (mid +:+ String "]"%char x)) as ->.
  { unfold new. by rewrite !append_assoc_str. }
  by rewrite (Contains_sep 91), (Contains_sep 93), Hmid, Contains_empty by done.
Qed.

Lemma replace_clean fuel s : (String.length s < fuel)%nat → Contains (replace_all fuel s p new) p = false.
Proof.
  revert s. induction fuel as [|fuel IH]; intros s Hlen; [lia|].
  cbn [replace_all]. destruct (strip_prefix p s) as [rest|] eqn:Hs.
  - rewrite Contains_replaced. apply IH. apply strip_prefix_length in Hs.
    assert (String.length p ≠ 0)%nat by (intros Hl; by apply Hne; destruct p). lia.
  - destruct s as [|a s]; [by apply Contains_empty|]. simpl in Hlen.
    change (String.prefix p (String a (replace_all fuel s p new)) ||
            Contains (replace_all fuel s p new) p = false).
    rewrite IH by lia. rewrite orb_false_r.
    destruct (String.prefix p (String a (replace_all fuel s p new))) eqn:Hpre; [|done].
    pose proof (replace_prefix (S fuel) (String a s) p Hopen) as Hq. simpl in Hq. rewrite Hs in Hq.
    specialize (Hq Hpre). change (String.prefix p (String a s) = true) in Hq.
    apply strip_prefix_prefix in Hq as [? Hq]. congruence.
Qed.
End Redact.

Lemma redact_removes err dsn :
  dsn ≠ "" → no_byte 91 dsn = true → no_byte 93 dsn = true → Contains "REDACTED DSN" dsn = false →
  Contains (err_msg (redactDSNError err dsn)) dsn = false.
Proof.
  intros Hne Ho Hc Hm. unfold redactDSNError. rewrite bool_decide_eq_false_2 by done.
  destruct (Contains (err_msg err) dsn) eqn:Hd; simpl; [|done].
  apply (replace_clean dsn "REDACTED DSN"); try done. lia.
Qed.

(** What a pool that was built is like. *)
Record Configured (cfg : PoolConfig.t) (px : PgxConfig) : Prop := {
  conns_ordered : 0 ≤ px_MinConns px ≤ px_MaxConns px ∧ 1 ≤ px_MaxConns px;
  lifetimes_positive : 0 < px_MaxConnLifetime px ∧ 0 < px_MaxConnIdleTime px ∧
    0 < px_HealthCheckPeriod px ∧ 0 < px_ConnectTimeout px;
  utc : px_RuntimeParams px !! "timezone" = Some "UTC";
  statement_bound : 0 < PoolConfig.StatementTimeout cfg →
    px_RuntimeParams px !! "statement_timeout" = Some (millis (PoolConfig.StatementTimeout cfg));
  idle_bound : 0 < PoolConfig.IdleInTxTimeout cfg →
    px_RuntimeParams px !! "idle_in_transaction_session_timeout" =
      Some (millis (PoolConfig.IdleInTxTimeout cfg));
  traced : 0 < PoolConfig.SlowQueryThreshold cfg → px_Tracer px = Some (PoolConfig.SlowQueryThreshold cfg);
}.

Section Outcome.
Context `{PgxLib}.

Lemma pool_config_configured cfg px : Configured cfg (pool_config (PoolConfig.withDefaults cfg) px).
Proof.
  destruct cfg as [dsn max min life idle health connect stmt tx name slow].
  split; simpl; unfold runtime_params; simpl.
  1,2: repeat case_match; unfold Hour, Minute, Second in *; lia.
  - repeat case_match; rewrite ?lookup_insert_ne by done; by rewrite lookup_insert_eq.
  - intros Hs. rewrite (proj2 (Z.ltb_lt _ _) Hs).
    case_match; rewrite ?lookup_insert_ne by done; by rewrite lookup_insert_eq.
  - intros Hs. rewrite (proj2 (Z.ltb_lt _ _) Hs). by rewrite lookup_insert_eq.
  - intros Hs. by rewrite (proj2 (Z.ltb_lt _ _) Hs).
Qed.

(** building the pool.  On success exactly one pool has been opened, its
    sizes ordered and its sessions in UTC with the configured statement and
    idle-transaction timeouts; on failure nothing is left open, and an error
    parsing the DSN does not repeat the DSN, unless the DSN has brackets or is
    part of the placeholder. *)
Theorem pool_New_outcome cfg log open :
  match New cfg log open with
  | (Ok db, open') => open' = db_pool db :: open ∧ Configured cfg (db_pool db)
  | (Err e, open') => open' = open ∧
      let dsn := PoolConfig.DSN cfg in
      (∀ text, pgxpool_ParseConfig dsn = inr text → log = true → TrimSpace dsn ≠ "" →
        no_byte 91 dsn = true → no_byte 93 dsn = true → Contains "REDACTED DSN" dsn = false →
        ∃ e', e = wrapf "database: parse DSN" e' ∧ Contains (err_msg e') dsn = false)
  end.
Proof.
  unfold New. unfold_monad. case_bool_decide as Hd; [by split|]. destruct log; [|by split]. simpl.
  change (PoolConfig.DSN (PoolConfig.withDefaults cfg)) with (PoolConfig.DSN cfg).
  destruct (pgxpool_ParseConfig (PoolConfig.DSN cfg)) as [parsed|text] eqn:Hp.
  - destruct (pgxpool_NewWithConfig _); [by split|]. simpl. destruct (Ping _ _); simpl; [by split|].
    split; [done|]. apply pool_config_configured.
  - split; [done|]. intros text' _ _ _ Ho Hc Hm. eexists. split; [reflexivity|].
    apply redact_removes; try done. intros Hne. apply Hd. by rewrite Hne.
Qed.
End Outcome.
