(* ===== verification/Config.v ===== *)
(** * internal/config/config.go

    Loading the configuration from the environment and validating it.  The
    environment is a function from names to values; [loader] carries the parse
    failures found so far.  A Go map is ranged over in an unspecified order,
    which [GoMaps] leaves open. *)

From S2P Require Import Prelude GoStd Strconv Network Url Slog.
Open Scope Z_scope.

(** [errors.Join]: nothing for no error, else the texts on lines of their own. *)
Definition newline : string := of_bytes [10%N].
Definition errors_Join (errs : list error) : option error :=
  match errs with
  | [] => None
  | _ => Some (mkError (Join (err_msg <$> errs) newline) (concat (err_chain <$> errs)))
  end.

(** ** Secrets *)

Definition redacted : string := "[REDACTED]".

Record Secret := mkSecret { Reveal : string }.

Section Secrets.
Context `{GoUnicode}.

Definition Secret_String (s : Secret) : string :=
  if bool_decide (Reveal s = "") then "" else redacted.
Definition Secret_GoString (s : Secret) : string := Secret_String s.
Definition Secret_LogValue (s : Secret) : Value := VString (Secret_String s).
Definition Secret_MarshalJSON (s : Secret) : string := Quote (Secret_String s).
End Secrets.

(** ** Configuration *)

Definition Environment := string.
Definition EnvDevelopment : Environment := "development".
Definition EnvStaging : Environment := "staging".
Definition EnvProduction : Environment := "production".
Definition IsProduction (e : Environment) : bool := bool_decide (e = EnvProduction).
Definition Environment_valid (e : Environment) : bool :=
  one_of e [EnvDevelopment; EnvStaging; EnvProduction].

Module App.
Record t := mk { Name : string; Environment_ : Environment; ShutdownTimeout : Duration }.
End App.

Module HTTP.
Record t := mk {
  Port : Z;
  ReadHeaderTimeout : Duration;
  ReadTimeout : Duration;
  WriteTimeout : Duration;
  IdleTimeout : Duration;
  APITimeout : Duration;
  WebhookTimeout : Duration;
  CORSAllowedOrigins : list string;
  TrustedProxies : Z;
  AuthRateLimitRPS : float64;
  AuthRateLimitBurst : Z;
  MetricsPort : Z;
  MetricsBindAddress : string;
}.

Definition Addr (h : t) : string := ":" +:+ Itoa (Port h).
Definition MetricsAddr (h : t) : string :=
  if MetricsPort h =? 0 then "" else MetricsBindAddress h +:+ ":" +:+ Itoa (MetricsPort h).
End HTTP.

Module DatabaseCfg.
Record t := mk {
  DSN : Secret;
  MaxConns : Z;
  MinConns : Z;
  MaxConnLifetime : Duration;
  MaxConnIdleTime : Duration;
  HealthCheckPeriod : Duration;
  ConnectTimeout : Duration;
  StatementTimeout : Duration;
  IdleInTxTimeout : Duration;
  SlowQueryThreshold : Duration;
}.
End DatabaseCfg.

Module StripeCfg.
Record t := mk {
  SecretKey : Secret;
  WebhookSecret : Secret;
  PublishableKey : string;
  APIVersion : string;
  WebhookTolerance : Duration;
  MaxNetworkRetries : Z;
  HTTPTimeout : Duration;
  IgnoreAPIVersionMismatch : bool;
  CheckoutSuccessURL : string;
  CheckoutCancelURL : string;
  CheckoutReturnURL : string;
  PortalReturnURL : string;
  AllowedPriceIDs : list string;
}.
End StripeCfg.

Module AuthCfg.
Record t := mk {
  JWTSecret : Secret;
  JWTIssuer : string;
  JWTAudience : string;
  AccessTokenTTL : Duration;
  RefreshTokenTTL : Duration;
  CookieSecure : bool;
  CookieDomain : string;
  BcryptCost : Z;
}.
End AuthCfg.

Module SweeperCfg.
Record t := mk {
  Enabled : bool;
  Interval : Duration;
  MaxAttempts : Z;
  BaseBackoff : Duration;
  MaxBackoff : Duration;
  BatchSize : Z;
  StaleClaimAfter : Duration;
  AlertAfter : Duration;
}.
End SweeperCfg.

Module RetentionCfg.
Record t := mk {
  Enabled : bool;
  Interval : Duration;
  SettledPayloadAfter : Duration;
  UnsettledPayloadAfter : Duration;
  BatchSize : Z;
  RefreshTokenGrace : Duration;
}.
End RetentionCfg.

Module LogCfg.
Record t := mk { Level : string; Format : string; AddSource : bool }.
End LogCfg.

Record Config := mkConfig {
  c_App : App.t;
  c_HTTP : HTTP.t;
  c_Database : DatabaseCfg.t;
  c_Stripe : StripeCfg.t;
  c_Auth : AuthCfg.t;
  c_Sweeper : SweeperCfg.t;
  c_Retention : RetentionCfg.t;
  c_Log : LogCfg.t;
}.

Definition stripeKeyMode (key : Secret) : string :=
  if Contains (Reveal key) "_live_" then "live"
  else if Contains (Reveal key) "_test_" then "test" else "unknown".

Definition Config_LogValue (c : Config) : Value :=
  VGroup [
    ("env", VString (App.Environment_ (c_App c)));
    ("http_addr", VString (HTTP.Addr (c_HTTP c)));
    ("db_max_conns", VInt (DatabaseCfg.MaxConns (c_Database c)));
    ("db_min_conns", VInt (DatabaseCfg.MinConns (c_Database c)));
    ("db_statement_timeout", VString (Duration_String (DatabaseCfg.StatementTimeout (c_Database c))));
    ("stripe_api_version", VString (StripeCfg.APIVersion (c_Stripe c)));
    ("stripe_key_mode", VString (stripeKeyMode (StripeCfg.SecretKey (c_Stripe c))));
    ("jwt_issuer", VString (AuthCfg.JWTIssuer (c_Auth c)));
    ("jwt_ttl", VString (Duration_String (AuthCfg.AccessTokenTTL (c_Auth c))));
    ("bcrypt_cost", VInt (AuthCfg.BcryptCost (c_Auth c)));
    ("log_level", VString (LogCfg.Level (c_Log c)));
    ("log_format", VString (LogCfg.Format (c_Log c)));
    ("shutdown_timeout", VString (Duration_String (App.ShutdownTimeout (c_App c)))) ].

(** ** Validation

    Each rule contributes the errors it finds; [add_when] is a guarded call of
    the closure [add]. *)
Definition add_when (b : bool) (text : string) : list error := if b then [errors_New text] else [].

Section Validation.
Context `{GoUnicode, GoMaps}.

Definition parseLevelName (name : string) : result Level :=
  let n := ToLower (TrimSpace name) in
  if bool_decide (n = "debug") then Ok LevelDebug
  else if bool_decide (n = "info") then Ok LevelInfo
  else if one_of n ["warn"; "warning"] then Ok LevelWarn
  else if bool_decide (n = "error") then Ok LevelError
  else Err (errors_New ("unknown log level " +:+ Quote name)).

Section Rules.
Context (c : Config).
Let env := App.Environment_ (c_App c).
Let production := IsProduction env.
Let dstr := Duration_String.

(** The rule for one request deadline. *)
Definition deadline_rule (nd : string * Duration) : list error :=
  let '(name, d) := nd in
  let write := HTTP.WriteTimeout (c_HTTP c) in
  if d <=? 0 then [errors_New (name +:+ " must be positive")]
  else add_when ((0 <? write) && (write <=? d))
    (name +:+ " (" +:+ dstr d +:+ ") must be shorter than HTTP_WRITE_TIMEOUT (" +:+ dstr write +:+ ")").

Definition dsn_rule (dsn : string) : list error :=
  if bool_decide (dsn = "") then []
  else if negb (HasPrefix dsn "postgres://") && negb (HasPrefix dsn "postgresql://") &&
          negb (Contains dsn "=")
  then [errors_New "DATABASE_URL must be a postgres:// URL or a libpq keyword/value string"]
  else add_when (production && Contains dsn "sslmode=disable")
         "DATABASE_URL must not use sslmode=disable in production".

Definition key_rule (key : string) : list error :=
  if bool_decide (key = "") then []
  else
    let live := Contains key "_live_" in
    let test := Contains key "_test_" in
    add_when (negb (HasPrefix key "sk_") && negb (HasPrefix key "rk_"))
      "STRIPE_SECRET_KEY must begin with sk_ or rk_" ++
    (if production && test
     then [errors_New "STRIPE_SECRET_KEY is a test key but APP_ENV is production"]
     else add_when (negb production && live)
            ("STRIPE_SECRET_KEY is a live key but APP_ENV is " +:+ env +:+
             " - refusing to start against live Stripe")).

Definition checkout_url_rule (nr : string * string) : list error :=
  let '(name, raw) := nr in
  if bool_decide (raw = "") then [errors_New (name +:+ " is required")]
  else match Parse raw with
       | Some u =>
           if negb (IsAbs u)
           then [errors_New (name +:+ " must be an absolute URL (got " +:+ Quote raw +:+ ")")]
           else add_when (production && bool_decide (Scheme u ≠ "https"))
                  (name +:+ " must use https in production (got scheme " +:+ Quote (Scheme u) +:+ ")")
       | None => [errors_New (name +:+ " must be an absolute URL (got " +:+ Quote raw +:+ ")")]
       end.

Definition origin_rule (origin : string) : list error :=
  let entry := "CORS_ALLOWED_ORIGINS entry " +:+ Quote origin in
  if bool_decide (origin = "*")
  then [errors_New "CORS_ALLOWED_ORIGINS must not contain '*'; list origins explicitly"]
  else match Parse origin with
       | Some u =>
           if negb (IsAbs u) || bool_decide (Host u = "")
           then [errors_New (entry +:+ " must be an absolute origin like https://app.example.com")]
           else if negb (one_of (Path u) [""; "/"])
           then [errors_New (entry +:+ " must be scheme://host[:port] with no path")]
           else add_when (production && bool_decide (Scheme u ≠ "https"))
                  (entry +:+ " must use https in production")
       | None => [errors_New (entry +:+ " must be an absolute origin like https://app.example.com")]
       end.

Definition return_url_rule (nr : string * string) : list error :=
  let '(name, raw) := nr in
  if bool_decide (raw = "") then []
  else match Parse raw with
       | Some u =>
           if negb (IsAbs u)
           then [errors_New (name +:+ " must be an absolute URL (got " +:+ Quote raw +:+ ")")]
           else add_when (production && bool_decide (Scheme u ≠ "https"))
                  (name +:+ " must use https in production")
       | None => [errors_New (name +:+ " must be an absolute URL (got " +:+ Quote raw +:+ ")")]
       end.

Definition price_rule (id : string) : list error :=
  add_when (negb (HasPrefix id "price_"))
    ("STRIPE_ALLOWED_PRICE_IDS entry " +:+ Quote id +:+ " must begin with price_").

Definition validateStripe : list error :=
  let s := c_Stripe c in
  let ws := Reveal (StripeCfg.WebhookSecret s) in
  let pk := StripeCfg.PublishableKey s in
  key_rule (Reveal (StripeCfg.SecretKey s)) ++
  add_when (bool_decide (ws ≠ "") && negb (HasPrefix ws "whsec_"))
    "STRIPE_WEBHOOK_SECRET must begin with whsec_" ++
  add_when (bool_decide (pk ≠ "") && negb (HasPrefix pk "pk_"))
    "STRIPE_PUBLISHABLE_KEY must begin with pk_" ++
  add_when (StripeCfg.WebhookTolerance s <=? 0)
    "STRIPE_WEBHOOK_TOLERANCE must be positive - it bounds the signature replay window" ++
  add_when (StripeCfg.MaxNetworkRetries s <? 0)
    ("STRIPE_MAX_NETWORK_RETRIES must not be negative (got " +:+
       Itoa (StripeCfg.MaxNetworkRetries s) +:+ ")") ++
  add_when (StripeCfg.HTTPTimeout s <=? 0) "STRIPE_HTTP_TIMEOUT must be positive" ++
  concat (checkout_url_rule <$> map_range
    [("STRIPE_CHECKOUT_SUCCESS_URL", StripeCfg.CheckoutSuccessURL s);
     ("STRIPE_CHECKOUT_CANCEL_URL", StripeCfg.CheckoutCancelURL s)]) ++
  concat (origin_rule <$> HTTP.CORSAllowedOrigins (c_HTTP c)) ++
  concat (return_url_rule <$> map_range
    [("STRIPE_CHECKOUT_RETURN_URL", StripeCfg.CheckoutReturnURL s);
     ("STRIPE_PORTAL_RETURN_URL", StripeCfg.PortalReturnURL s)]) ++
  concat (price_rule <$> StripeCfg.AllowedPriceIDs s) ++
  add_when (production && bool_decide (StripeCfg.AllowedPriceIDs s = []))
    "STRIPE_ALLOWED_PRICE_IDS must not be empty in production" ++
  add_when (production && StripeCfg.IgnoreAPIVersionMismatch s)
    ("STRIPE_IGNORE_API_VERSION_MISMATCH must not be enabled in production - " +:+
     "events would be deserialised against a version they were not rendered for").

Definition jwt_secret_rule (secret : string) : list error :=
  if bool_decide (secret = "") then []
  else
    add_when (len secret <? 32)
      ("JWT_SECRET must be at least 32 bytes (got " +:+ Itoa (len secret) +:+
       ") - a shorter HMAC key adds nothing over a 256-bit one and is usually a guessable passphrase") ++
    add_when (Contains secret "change_me" || Contains secret "example")
      "JWT_SECRET still holds a placeholder value - generate one with `openssl rand -base64 48`".

Definition validateAuth : list error :=
  let a := c_Auth c in
  let ttl := AuthCfg.AccessTokenTTL a in
  let rttl := AuthCfg.RefreshTokenTTL a in
  let cost := AuthCfg.BcryptCost a in
  jwt_secret_rule (Reveal (AuthCfg.JWTSecret a)) ++
  add_when (bool_decide (AuthCfg.JWTIssuer a = "")) "JWT_ISSUER must not be empty" ++
  add_when (bool_decide (AuthCfg.JWTAudience a = "")) "JWT_AUDIENCE must not be empty" ++
  (if ttl <=? 0 then [errors_New "JWT_ACCESS_TOKEN_TTL must be positive"]
   else add_when (production && (24 * Hour <? ttl))
     ("JWT_ACCESS_TOKEN_TTL is " +:+ dstr ttl +:+
      "; tokens cannot be revoked before expiry, so production must not exceed 24h")) ++
  (if rttl <=? 0 then [errors_New "REFRESH_TOKEN_TTL must be positive"]
   else add_when (rttl <=? ttl)
     ("REFRESH_TOKEN_TTL (" +:+ dstr rttl +:+ ") must exceed JWT_ACCESS_TOKEN_TTL (" +:+ dstr ttl +:+
      "); a refresh token that expires first cannot renew anything")) ++
  add_when (production && negb (AuthCfg.CookieSecure a))
    ("AUTH_COOKIE_SECURE must be true in production; the refresh cookie would " +:+
     "otherwise be sent over plain HTTP") ++
  add_when ((cost <? 10) || (31 <? cost))
    ("BCRYPT_COST must be between 10 and 31 (got " +:+ Itoa cost +:+ ")").

Definition validateSweeper : list error :=
  let s := c_Sweeper c in
  let webhook := HTTP.WebhookTimeout (c_HTTP c) in
  if negb (SweeperCfg.Enabled s) then []
  else
    add_when (SweeperCfg.Interval s <=? 0) "WEBHOOK_SWEEPER_INTERVAL must be positive" ++
    add_when (SweeperCfg.MaxAttempts s <? 1)
      ("WEBHOOK_SWEEPER_MAX_ATTEMPTS must be at least 1 (got " +:+ Itoa (SweeperCfg.MaxAttempts s) +:+ ")") ++
    add_when (SweeperCfg.BatchSize s <? 1)
      ("WEBHOOK_SWEEPER_BATCH_SIZE must be at least 1 (got " +:+ Itoa (SweeperCfg.BatchSize s) +:+ ")") ++
    add_when (SweeperCfg.BaseBackoff s <=? 0) "WEBHOOK_SWEEPER_BASE_BACKOFF must be positive" ++
    add_when (SweeperCfg.MaxBackoff s <? SweeperCfg.BaseBackoff s)
      ("WEBHOOK_SWEEPER_MAX_BACKOFF (" +:+ dstr (SweeperCfg.MaxBackoff s) +:+
       ") must not be shorter than WEBHOOK_SWEEPER_BASE_BACKOFF (" +:+
       dstr (SweeperCfg.BaseBackoff s) +:+ ")") ++
    add_when (SweeperCfg.StaleClaimAfter s <=? webhook)
      ("WEBHOOK_STALE_CLAIM_AFTER (" +:+ dstr (SweeperCfg.StaleClaimAfter s) +:+
       ") must exceed HTTP_WEBHOOK_TIMEOUT (" +:+ dstr webhook +:+
       "), or the sweeper reclaims claims that are still being worked on").

(** [time.Duration(MaxAttempts) * MaxBackoff], in 64 bits. *)
Definition exhaust : Duration :=
  int64 (SweeperCfg.MaxAttempts (c_Sweeper c) * SweeperCfg.MaxBackoff (c_Sweeper c)).

Definition validateRetention : list error :=
  let r := c_Retention c in
  let s := c_Sweeper c in
  if negb (RetentionCfg.Enabled r)
  then add_when production
    ("PAYLOAD_RETENTION_ENABLED is false in production; webhook payloads " +:+
     "hold customer email and billing address and would be kept indefinitely")
  else
    add_when (RetentionCfg.Interval r <=? 0) "PAYLOAD_RETENTION_INTERVAL must be positive" ++
    add_when (RetentionCfg.BatchSize r <? 1)
      ("PAYLOAD_RETENTION_BATCH_SIZE must be at least 1 (got " +:+ Itoa (RetentionCfg.BatchSize r) +:+ ")") ++
    add_when (RetentionCfg.SettledPayloadAfter r <=? 0)
      "PAYLOAD_RETENTION_SETTLED_AFTER must be positive" ++
    add_when (RetentionCfg.UnsettledPayloadAfter r <? RetentionCfg.SettledPayloadAfter r)
      ("PAYLOAD_RETENTION_UNSETTLED_AFTER (" +:+ dstr (RetentionCfg.UnsettledPayloadAfter r) +:+
       ") must not be shorter than PAYLOAD_RETENTION_SETTLED_AFTER (" +:+
       dstr (RetentionCfg.SettledPayloadAfter r) +:+ "): an unresolved event needs its payload " +:+
       "for longer than a settled one, not less") ++
    add_when (SweeperCfg.Enabled s &&
              (RetentionCfg.UnsettledPayloadAfter r <? int64 (10 * exhaust)))
      ("PAYLOAD_RETENTION_UNSETTLED_AFTER (" +:+ dstr (RetentionCfg.UnsettledPayloadAfter r) +:+
       ") is too close to the sweeper's retry budget (" +:+ Itoa (SweeperCfg.MaxAttempts s) +:+
       " attempts x " +:+ dstr (SweeperCfg.MaxBackoff s) +:+ " = " +:+ dstr exhaust +:+
       "); failed events would lose their payload before the sweeper is done with them").

Definition problems : list error :=
  let a := c_App c in
  let h := c_HTTP c in
  let d := c_Database c in
  let l := c_Log c in
  add_when (negb (Environment_valid env))
    ("APP_ENV must be one of development, staging, production (got " +:+ Quote env +:+ ")") ++
  add_when (App.ShutdownTimeout a <=? 0)
    ("SHUTDOWN_TIMEOUT must be positive (got " +:+ dstr (App.ShutdownTimeout a) +:+ ")") ++
  add_when ((HTTP.Port h <? 1) || (65535 <? HTTP.Port h))
    ("HTTP_PORT must be between 1 and 65535 (got " +:+ Itoa (HTTP.Port h) +:+ ")") ++
  add_when (HTTP.ReadHeaderTimeout h <=? 0)
    "HTTP_READ_HEADER_TIMEOUT must be positive - a zero value invites Slowloris" ++
  add_when (HTTP.TrustedProxies h <? 0)
    ("TRUSTED_PROXIES must not be negative (got " +:+ Itoa (HTTP.TrustedProxies h) +:+ ")") ++
  add_when (float_leb (HTTP.AuthRateLimitRPS h) float_zero) "AUTH_RATE_LIMIT_RPS must be positive" ++
  (if negb (HTTP.MetricsPort h =? 0)
   then
     add_when ((HTTP.MetricsPort h <? 1) || (65535 <? HTTP.MetricsPort h))
       ("METRICS_PORT must be 0 (disabled) or between 1 and 65535 (got " +:+
        Itoa (HTTP.MetricsPort h) +:+ ")") ++
     add_when (HTTP.MetricsPort h =? HTTP.Port h)
       ("METRICS_PORT (" +:+ Itoa (HTTP.MetricsPort h) +:+
        ") must differ from HTTP_PORT; sharing the port would put /metrics on the public API")
   else []) ++
  add_when (HTTP.AuthRateLimitBurst h <? 1)
    ("AUTH_RATE_LIMIT_BURST must be at least 1 (got " +:+ Itoa (HTTP.AuthRateLimitBurst h) +:+ ")") ++
  concat (deadline_rule <$> map_range
    [("HTTP_API_TIMEOUT", HTTP.APITimeout h); ("HTTP_WEBHOOK_TIMEOUT", HTTP.WebhookTimeout h)]) ++
  dsn_rule (Reveal (DatabaseCfg.DSN d)) ++
  add_when (DatabaseCfg.MaxConns d <? 1)
    ("DB_MAX_CONNS must be at least 1 (got " +:+ Itoa (DatabaseCfg.MaxConns d) +:+ ")") ++
  add_when (DatabaseCfg.MinConns d <? 0)
    ("DB_MIN_CONNS must not be negative (got " +:+ Itoa (DatabaseCfg.MinConns d) +:+ ")") ++
  add_when (DatabaseCfg.MaxConns d <? DatabaseCfg.MinConns d)
    ("DB_MIN_CONNS (" +:+ Itoa (DatabaseCfg.MinConns d) +:+ ") must not exceed DB_MAX_CONNS (" +:+
     Itoa (DatabaseCfg.MaxConns d) +:+ ")") ++
  add_when (DatabaseCfg.ConnectTimeout d <=? 0)
    ("DB_CONNECT_TIMEOUT must be positive (got " +:+ dstr (DatabaseCfg.ConnectTimeout d) +:+ ")") ++
  validateStripe ++ validateAuth ++ validateSweeper ++ validateRetention ++
  (match parseLevelName (LogCfg.Level l) with
   | Err _ => [errors_New ("LOG_LEVEL must be one of debug, info, warn, error (got " +:+
                           Quote (LogCfg.Level l) +:+ ")")]
   | Ok _ => []
   end) ++
  add_when (negb (one_of (LogCfg.Format l) ["json"; "text"]))
    ("LOG_FORMAT must be json or text (got " +:+ Quote (LogCfg.Format l) +:+ ")").

Definition Validate : option error := errors_Join problems.
End Rules.
End Validation.

(** ** Loading *)

(** [os.LookupEnv]. *)
Definition Env := string → option string.

Definition loader := list error.

Definition loader_err (l : loader) : option error := errors_Join l.
Definition fail (text : string) : M loader unit := modify (λ l, l ++ [errors_New text]).

Section Loading.
Context `{GoUnicode, GoMaps}.
Context (env : Env).

(** The trimmed value, unless the variable is unset or blank. *)
Definition lookup_env (key : string) : option string :=
  v ← env key; let v' := TrimSpace v in if bool_decide (v' = "") then None else Some v'.

Definition str (key def : string) : M loader string := mret (default def (lookup_env key)).

Definition required (key : string) : M loader string :=
  match lookup_env key with
  | Some v => mret v
  | None => _ ← fail ("required environment variable " +:+ key +:+ " is not set"); mret ""
  end.

(** The shape the four typed readers share. *)
Definition parsed {A} (parse : string → option A) (what : string) (key : string) (def : A) : M loader A :=
  match lookup_env key with
  | None => mret def
  | Some v =>
    match parse v with
    | Some a => mret a
    | None => _ ← fail (key +:+ " must be " +:+ what +:+ " (got " +:+ Quote v +:+ ")"); mret def
    end
  end.

Definition intVal : string → Z → M loader Z := parsed Atoi "an integer".
Definition duration : string → Duration → M loader Duration :=
  parsed ParseDuration "a duration such as 30s or 5m".
Definition boolVal : string → bool → M loader bool := parsed ParseBool "a boolean".
Definition float : string → float64 → M loader float64 := parsed ParseFloat "a number".

Definition csv (key : string) : M loader (list string) :=
  mret (match lookup_env key with
        | None => []
        | Some raw => filter (λ p, p ≠ "") (TrimSpace <$> split_on 44 raw)
        end).

Definition load_app : M loader App.t :=
  name ← str "APP_NAME" "stripe-payment-service";
  e ← str "APP_ENV" EnvDevelopment;
  shutdown ← duration "SHUTDOWN_TIMEOUT" (15 * Second);
  mret (App.mk name (ToLower e) shutdown).

(** The literal [0.2]. *)
Definition default_rps : float64 := float_decimal false 2 (-1).

Definition load_http : M loader HTTP.t :=
  port ← intVal "HTTP_PORT" 8080;
  read_header ← duration "HTTP_READ_HEADER_TIMEOUT" (5 * Second);
  read ← duration "HTTP_READ_TIMEOUT" (15 * Second);
  write ← duration "HTTP_WRITE_TIMEOUT" (30 * Second);
  idle ← duration "HTTP_IDLE_TIMEOUT" (60 * Second);
  api ← duration "HTTP_API_TIMEOUT" (10 * Second);
  webhook ← duration "HTTP_WEBHOOK_TIMEOUT" (25 * Second);
  origins ← csv "CORS_ALLOWED_ORIGINS";
  proxies ← intVal "TRUSTED_PROXIES" 0;
  rps ← float "AUTH_RATE_LIMIT_RPS" default_rps;
  burst ← intVal "AUTH_RATE_LIMIT_BURST" 5;
  metrics ← intVal "METRICS_PORT" 9091;
  bind ← str "METRICS_BIND_ADDRESS" "";
  mret (HTTP.mk port read_header read write idle api webhook origins proxies rps burst metrics bind).

Definition load_database : M loader DatabaseCfg.t :=
  dsn ← required "DATABASE_URL";
  max ← intVal "DB_MAX_CONNS" 25;
  min ← intVal "DB_MIN_CONNS" 2;
  lifetime ← duration "DB_MAX_CONN_LIFETIME" Hour;
  idle ← duration "DB_MAX_CONN_IDLE_TIME" (30 * Minute);
  health ← duration "DB_HEALTH_CHECK_PERIOD" Minute;
  connect ← duration "DB_CONNECT_TIMEOUT" (10 * Second);
  statement ← duration "DB_STATEMENT_TIMEOUT" (30 * Second);
  idle_tx ← duration "DB_IDLE_IN_TX_TIMEOUT" (60 * Second);
  slow ← duration "DB_SLOW_QUERY_THRESHOLD" (200 * Millisecond);
  mret (DatabaseCfg.mk (mkSecret dsn) (int32 max) (int32 min) lifetime idle health connect
          statement idle_tx slow).

Definition load_stripe : M loader StripeCfg.t :=
  key ← required "STRIPE_SECRET_KEY";
  ws ← required "STRIPE_WEBHOOK_SECRET";
  pk ← str "STRIPE_PUBLISHABLE_KEY" "";
  version ← str "STRIPE_API_VERSION" "2026-08-26.dahlia";
  tolerance ← duration "STRIPE_WEBHOOK_TOLERANCE" (5 * Minute);
  retries ← intVal "STRIPE_MAX_NETWORK_RETRIES" 3;
  timeout ← duration "STRIPE_HTTP_TIMEOUT" (20 * Second);
  ignore ← boolVal "STRIPE_IGNORE_API_VERSION_MISMATCH" false;
  success ← str "STRIPE_CHECKOUT_SUCCESS_URL"
              "http://localhost:3000/billing/success?session_id={CHECKOUT_SESSION_ID}";
  cancel ← str "STRIPE_CHECKOUT_CANCEL_URL" "http://localhost:3000/billing/cancel";
  ret ← str "STRIPE_CHECKOUT_RETURN_URL"
          "http://localhost:5173/billing/return?session_id={CHECKOUT_SESSION_ID}";
  portal ← str "STRIPE_PORTAL_RETURN_URL" "http://localhost:5173/";
  prices ← csv "STRIPE_ALLOWED_PRICE_IDS";
  mret (StripeCfg.mk (mkSecret key) (mkSecret ws) pk version tolerance retries timeout ignore
          success cancel ret portal prices).

Definition load_auth : M loader AuthCfg.t :=
  secret ← required "JWT_SECRET";
  issuer ← str "JWT_ISSUER" "stripe-payment-service";
  audience ← str "JWT_AUDIENCE" "stripe-payment-service-api";
  ttl ← duration "JWT_ACCESS_TOKEN_TTL" (15 * Minute);
  rttl ← duration "REFRESH_TOKEN_TTL" (30 * 24 * Hour);
  secure ← boolVal "AUTH_COOKIE_SECURE" false;
  domain ← str "AUTH_COOKIE_DOMAIN" "";
  cost ← intVal "BCRYPT_COST" 12;
  mret (AuthCfg.mk (mkSecret secret) issuer audience ttl rttl secure domain cost).

Definition load_sweeper : M loader SweeperCfg.t :=
  enabled ← boolVal "WEBHOOK_SWEEPER_ENABLED" true;
  interval ← duration "WEBHOOK_SWEEPER_INTERVAL" Minute;
  attempts ← intVal "WEBHOOK_SWEEPER_MAX_ATTEMPTS" 6;
  base ← duration "WEBHOOK_SWEEPER_BASE_BACKOFF" (30 * Second);
  max ← duration "WEBHOOK_SWEEPER_MAX_BACKOFF" (30 * Minute);
  batch ← intVal "WEBHOOK_SWEEPER_BATCH_SIZE" 100;
  stale ← duration "WEBHOOK_STALE_CLAIM_AFTER" (5 * Minute);
  alert ← duration "WEBHOOK_SWEEPER_ALERT_AFTER" Hour;
  mret (SweeperCfg.mk enabled interval attempts base max batch stale alert).

Definition load_retention : M loader RetentionCfg.t :=
  enabled ← boolVal "PAYLOAD_RETENTION_ENABLED" true;
  interval ← duration "PAYLOAD_RETENTION_INTERVAL" (6 * Hour);
  settled ← duration "PAYLOAD_RETENTION_SETTLED_AFTER" (30 * 24 * Hour);
  unsettled ← duration "PAYLOAD_RETENTION_UNSETTLED_AFTER" (90 * 24 * Hour);
  batch ← intVal "PAYLOAD_RETENTION_BATCH_SIZE" 500;
  grace ← duration "REFRESH_TOKEN_GRACE" (7 * 24 * Hour);
  mret (RetentionCfg.mk enabled interval settled unsettled batch grace).

Definition load_log : M loader LogCfg.t :=
  level ← str "LOG_LEVEL" "info";
  format ← str "LOG_FORMAT" "json";
  source ← boolVal "LOG_ADD_SOURCE" false;
  mret (LogCfg.mk (ToLower level) (ToLower format) source).

Definition load_config : M loader Config :=
  app ← load_app; http ← load_http; db ← load_database; stripe ← load_stripe;
  auth ← load_auth; sweeper ← load_sweeper; retention ← load_retention; log ← load_log;
  mret (mkConfig app http db stripe auth sweeper retention log).

Definition Load : result Config :=
  let '(cfg, l) := load_config [] in
  match errors_Join (option_list (loader_err l) ++ option_list (Validate cfg)) with
  | Some err => Err err
  | None => Ok cfg
  end.
End Loading.
