(* ===== verification/ConfigLaws.v ===== *)
(** * What a loaded configuration guarantees

    [Load] reads each variable on its own and reports everything it finds
    wrong; a configuration it returns satisfies every rule, and in production
    the safety rules; secrets reach neither its error nor the boot log. *)

From S2P Require Import Prelude GoStd Strconv Network Url Slog Config.
Open Scope Z_scope.

(** ** Joined errors *)

Lemma Join_app (l k : list string) sep :
  l ≠ [] → k ≠ [] → Join (l ++ k) sep = Join l sep +:+ sep +:+ Join k sep.
Proof.
  intros Hl Hk. induction l as [|x l IH]; [done|]. destruct l as [|y l].
  - destruct k; [done|]. done.
  - change (x +:+ sep +:+ Join ((y :: l) ++ k) sep = (x +:+ sep +:+ Join (y :: l) sep) +:+ sep +:+ Join k sep).
    rewrite IH by done. by rewrite !append_assoc_str.
Qed.

Lemma errors_Join_nil l : errors_Join l = None ↔ l = [].
Proof. by destruct l. Qed.

(** Joining two joined errors is joining their parts. *)
Lemma errors_Join_join a b :
  errors_Join (option_list (errors_Join a) ++ option_list (errors_Join b)) = errors_Join (a ++ b).
Proof.
  destruct a as [|x a]; [by destruct b; simpl; rewrite ?app_nil_r|].
  destruct b as [|y b]; [simpl; by rewrite !app_nil_r|].
  assert (∀ l, l ≠ [] → errors_Join l =
    Some (mkError (Join (err_msg <$> l) newline) (concat (err_chain <$> l)))) as HJ by by intros [].
  rewrite (HJ ((x :: a) ++ y :: b)), !fmap_app, concat_app, Join_app by done.
  simpl. by rewrite !app_nil_r.
Qed.

(** ** Reading variables *)

(** A loader action that returns [a] and adds the errors [es], whatever was
    found before. *)
Definition reads {A} (m : M loader A) (a : A) (es : list error) : Prop :=
  ∀ l, m l = (a, l ++ es).

Lemma reads_ret {A} (a : A) : reads (mret a) a [].
Proof. intros l. by rewrite app_nil_r. Qed.

Lemma reads_bind {A B} (m : M loader A) (k : A → M loader B) a es b es' :
  reads m a es → reads (k a) b es' → reads (m ≫= k) b (es ++ es').
Proof. intros Hm Hk l. unfold mbind, M_bind. rewrite Hm, Hk. by rewrite app_assoc. Qed.


Inductive kind := KStr | KRequired | KInt | KDuration | KBool | KFloat | KCsv.

#[global] Instance kind_eq_dec : EqDecision kind.
Proof. solve_decision. Defined.

(** Every variable the program reads, in the order it reads them. *)
Definition variables : list (string * kind) :=
  [("APP_NAME", KStr); ("APP_ENV", KStr); ("SHUTDOWN_TIMEOUT", KDuration);
   ("HTTP_PORT", KInt); ("HTTP_READ_HEADER_TIMEOUT", KDuration); ("HTTP_READ_TIMEOUT", KDuration);
   ("HTTP_WRITE_TIMEOUT", KDuration); ("HTTP_IDLE_TIMEOUT", KDuration);
   ("HTTP_API_TIMEOUT", KDuration); ("HTTP_WEBHOOK_TIMEOUT", KDuration);
   ("CORS_ALLOWED_ORIGINS", KCsv); ("TRUSTED_PROXIES", KInt); ("AUTH_RATE_LIMIT_RPS", KFloat);
   ("AUTH_RATE_LIMIT_BURST", KInt); ("METRICS_PORT", KInt); ("METRICS_BIND_ADDRESS", KStr);
   ("DATABASE_URL", KRequired); ("DB_MAX_CONNS", KInt); ("DB_MIN_CONNS", KInt);
   ("DB_MAX_CONN_LIFETIME", KDuration); ("DB_MAX_CONN_IDLE_TIME", KDuration);
   ("DB_HEALTH_CHECK_PERIOD", KDuration); ("DB_CONNECT_TIMEOUT", KDuration);
   ("DB_STATEMENT_TIMEOUT", KDuration); ("DB_IDLE_IN_TX_TIMEOUT", KDuration);
   ("DB_SLOW_QUERY_THRESHOLD", KDuration);
   ("STRIPE_SECRET_KEY", KRequired); ("STRIPE_WEBHOOK_SECRET", KRequired);
   ("STRIPE_PUBLISHABLE_KEY", KStr); ("STRIPE_API_VERSION", KStr);
   ("STRIPE_WEBHOOK_TOLERANCE", KDuration); ("STRIPE_MAX_NETWORK_RETRIES", KInt);
   ("STRIPE_HTTP_TIMEOUT", KDuration); ("STRIPE_IGNORE_API_VERSION_MISMATCH", KBool);
   ("STRIPE_CHECKOUT_SUCCESS_URL", KStr); ("STRIPE_CHECKOUT_CANCEL_URL", KStr);
   ("STRIPE_CHECKOUT_RETURN_URL", KStr); ("STRIPE_PORTAL_RETURN_URL", KStr);
   ("STRIPE_ALLOWED_PRICE_IDS", KCsv);
   ("JWT_SECRET", KRequired); ("JWT_ISSUER", KStr); ("JWT_AUDIENCE", KStr);
   ("JWT_ACCESS_TOKEN_TTL", KDuration); ("REFRESH_TOKEN_TTL", KDuration);
   ("AUTH_COOKIE_SECURE", KBool); ("AUTH_COOKIE_DOMAIN", KStr); ("BCRYPT_COST", KInt);
   ("WEBHOOK_SWEEPER_ENABLED", KBool); ("WEBHOOK_SWEEPER_INTERVAL", KDuration);
   ("WEBHOOK_SWEEPER_MAX_ATTEMPTS", KInt); ("WEBHOOK_SWEEPER_BASE_BACKOFF", KDuration);
   ("WEBHOOK_SWEEPER_MAX_BACKOFF", KDuration); ("WEBHOOK_SWEEPER_BATCH_SIZE", KInt);
   ("WEBHOOK_STALE_CLAIM_AFTER", KDuration); ("WEBHOOK_SWEEPER_ALERT_AFTER", KDuration);
   ("PAYLOAD_RETENTION_ENABLED", KBool); ("PAYLOAD_RETENTION_INTERVAL", KDuration);
   ("PAYLOAD_RETENTION_SETTLED_AFTER", KDuration); ("PAYLOAD_RETENTION_UNSETTLED_AFTER", KDuration);
   ("PAYLOAD_RETENTION_BATCH_SIZE", KInt); ("REFRESH_TOKEN_GRACE", KDuration);
   ("LOG_LEVEL", KStr); ("LOG_FORMAT", KStr); ("LOG_ADD_SOURCE", KBool)].

Section Load.
Context `{GoUnicode, GoMaps}.
Implicit Types env : Env.

(** What is wrong with one variable, on its own. *)
Definition malformed (k : kind) (v : string) : option string :=
  match k with
  | KInt => if Atoi v is Some _ then None else Some "an integer"
  | KDuration => if ParseDuration v is Some _ then None else Some "a duration such as 30s or 5m"
  | KBool => if ParseBool v is Some _ then None else Some "a boolean"
  | KFloat => if ParseFloat v is Some _ then None else Some "a number"
  | _ => None
  end.

Definition variable_error env (x : string * kind) : option string :=
  let '(key, k) := x in
  match lookup_env env key with
  | None => match k with
            | KRequired => Some ("required environment variable " +:+ key +:+ " is not set")
            | _ => None
            end
  | Some v => what ← malformed k v; Some (key +:+ " must be " +:+ what +:+ " (got " +:+ Quote v +:+ ")")
  end.

Definition variable_errors env (x : string * kind) : list error :=
  option_list (errors_New <$> variable_error env x).

Lemma reads_str env k d : reads (str env k d) (default d (lookup_env env k)) (variable_errors env (k, KStr)).
Proof.
  intros l. unfold str, variable_errors, variable_error.
  destruct (lookup_env env k); simpl; by rewrite app_nil_r.
Qed.

Lemma reads_csv env k : reads (csv env k) (csv env k []).1 (variable_errors env (k, KCsv)).
Proof.
  intros l. unfold variable_errors, variable_error, csv.
  destruct (lookup_env env k); simpl; by rewrite app_nil_r.
Qed.

Lemma reads_required env k :
  reads (required env k) (default "" (lookup_env env k)) (variable_errors env (k, KRequired)).
Proof.
  intros l. unfold required, variable_errors, variable_error.
  destruct (lookup_env env k); simpl; [by rewrite app_nil_r|done].
Qed.

(** What a typed reader returns. *)
Definition parsed_value {A} (parse : string → option A) env (k : string) (d : A) : A :=
  default d (v ← lookup_env env k; parse v).

Lemma reads_parsed {A} (parse : string → option A) what kd env k d :
  (∀ v, malformed kd v = if parse v is Some _ then None else Some what) → kd ≠ KRequired →
  reads (parsed env parse what k d) (parsed_value parse env k d) (variable_errors env (k, kd)).
Proof.
  intros Hk Hr l. unfold parsed, variable_errors, variable_error, parsed_value.
  destruct (lookup_env env k) as [v|]; simpl.
  - rewrite Hk. destruct (parse v); simpl; [by rewrite app_nil_r|done].
  - destruct kd; simpl; try done; by rewrite app_nil_r.
Qed.

Lemma reads_int env k d : reads (intVal env k d) (parsed_value Atoi env k d) (variable_errors env (k, KInt)).
Proof. by apply reads_parsed. Qed.
Lemma reads_duration env k d :
  reads (duration env k d) (parsed_value ParseDuration env k d) (variable_errors env (k, KDuration)).
Proof. by apply reads_parsed. Qed.
Lemma reads_bool env k d : reads (boolVal env k d) (parsed_value ParseBool env k d) (variable_errors env (k, KBool)).
Proof. by apply reads_parsed. Qed.
Lemma reads_float env k d : reads (float env k d) (parsed_value ParseFloat env k d) (variable_errors env (k, KFloat)).
Proof. by apply reads_parsed. Qed.

Hint Resolve reads_str reads_csv reads_required reads_int reads_duration reads_bool reads_float : sps.

Lemma reads_eq {A} (m : M loader A) a es es' : reads m a es → es = es' → reads m a es'.
Proof. by intros ? ->. Qed.

(** The four secrets of a configuration. *)
Definition secrets (c : Config) : list string :=
  Reveal <$> [DatabaseCfg.DSN (c_Database c); StripeCfg.SecretKey (c_Stripe c);
              StripeCfg.WebhookSecret (c_Stripe c); AuthCfg.JWTSecret (c_Auth c)].
Definition secret_keys : list string :=
  ["DATABASE_URL"; "STRIPE_SECRET_KEY"; "STRIPE_WEBHOOK_SECRET"; "JWT_SECRET"].

Definition reads_load env :
  { c | reads (load_config env) c (concat (variable_errors env <$> variables)) }.
Proof.
  eexists. eapply reads_eq.
  - unfold load_config, load_app, load_http, load_database, load_stripe, load_auth, load_sweeper,
      load_retention, load_log.
    repeat (first [eapply reads_bind | solve [auto with sps] | apply reads_ret]).
  - unfold variables. cbn [fmap list_fmap concat map]. by rewrite <- !app_assoc, !app_nil_l.
Defined.

(** The configuration read, parse failures replaced by defaults. *)
Definition config_of env : Config := (load_config env []).1.

(** The same, field by field. *)
Definition read_config env : Config := Eval cbv [proj1_sig reads_load] in proj1_sig (reads_load env).

Lemma config_of_reads env : config_of env = read_config env.
Proof. unfold config_of. exact (f_equal fst (proj2_sig (reads_load env) [])). Qed.

(** Everything wrong with an environment. *)
Definition all_problems env : list error :=
  concat (variable_errors env <$> variables) ++ problems (config_of env).

Lemma load_config_run env :
  load_config env [] = (config_of env, concat (variable_errors env <$> variables)).
Proof. unfold config_of. destruct (reads_load env) as [c Hc]. by rewrite (Hc []). Qed.

Lemma Load_spec env :
  Load env = match errors_Join (all_problems env) with
             | Some e => Err e
             | None => Ok (config_of env)
             end.
Proof.
  unfold Load. rewrite load_config_run. unfold loader_err, Validate, all_problems.
  by rewrite errors_Join_join.
Qed.

Lemma Load_Ok env c :
  Load env = Ok c → c = config_of env ∧ concat (variable_errors env <$> variables) = [] ∧ problems c = [].
Proof.
  rewrite Load_spec. destruct (errors_Join _) as [e|] eqn:He; [done|].
  apply errors_Join_nil, app_nil in He as [??]. by intros [= <-].
Qed.

Lemma variable_errors_nil env x :
  concat (variable_errors env <$> variables) = [] → x ∈ variables → variable_error env x = None.
Proof.
  intros Hn Hx. apply concat_nil_Forall in Hn.
  rewrite Forall_fmap, Forall_forall in Hn. specialize (Hn x Hx). simpl in Hn.
  unfold variable_errors in Hn. by destruct (variable_error env x).
Qed.

(** C17: configuration fails completely.  [Load] returns a configuration exactly
    when no variable is missing or malformed and no rule is broken; otherwise
    its error has one line for every missing or malformed variable, each judged
    on its own, and one for every broken rule. *)
Theorem load_reports_all env :
  match Load env with
  | Ok c => c = config_of env ∧ problems c = [] ∧
            (∀ x, x ∈ variables → variable_error env x = None)
  | Err e => ∃ lines, lines ≠ [] ∧ err_msg e = Join lines newline ∧
             (∀ text, text ∈ lines ↔
                (∃ x, x ∈ variables ∧ variable_error env x = Some text) ∨
                text ∈ err_msg <$> problems (config_of env))
  end.
Proof.
  destruct (Load env) as [c|e] eqn:HL.
  - apply Load_Ok in HL as (-> & Hv & Hp). split_and!; [done..|]. intros x. by apply variable_errors_nil.
  - rewrite Load_spec in HL. unfold errors_Join in HL.
    assert (all_problems env ≠ []) as Hne by by destruct (all_problems env).
    exists (err_msg <$> all_problems env). split_and!.
    + by destruct (all_problems env).
    + destruct (all_problems env); [done|]. by injection HL as <-.
    + intros text. unfold all_problems. rewrite fmap_app, elem_of_app. f_equiv.
      rewrite list_elem_of_fmap. split.
      * intros (e' & -> & Hin). apply list_elem_of_In, in_concat in Hin as (es & Hes & Hin).
        apply list_elem_of_In, list_elem_of_fmap in Hes as (x & -> & Hx). exists x. split; [done|].
        unfold variable_errors in Hin. destruct (variable_error env x) as [t|]; [|done].
        simpl in Hin. by destruct Hin as [<-|[]].
      * intros (x & Hx & Ht). exists (errors_New text). split; [done|].
        apply list_elem_of_In, in_concat. exists (variable_errors env x).
        split; [apply list_elem_of_In, list_elem_of_fmap; eauto|].
        unfold variable_errors. rewrite Ht. by left.
Qed.

(** ** Rules *)

Lemma add_when_nil b t : add_when b t = [] → b = false.
Proof. by destruct b. Qed.

Lemma map_range_nil {V} (f : string * V → list error) l x :
  concat (f <$> map_range l) = [] → x ∈ l → f x = [].
Proof.
  intros Hn Hx. apply concat_nil_Forall in Hn.
  rewrite Forall_fmap, Forall_forall in Hn. apply Hn. by rewrite map_range_perm.
Qed.

Lemma concat_fmap_nil {A} (f : A → list error) l x : concat (f <$> l) = [] → x ∈ l → f x = [].
Proof. intros Hn. apply concat_nil_Forall in Hn. rewrite Forall_fmap, Forall_forall in Hn. apply Hn. Qed.
End Load.

(** Takes apart a list of rule outcomes known to be empty. *)
Ltac no_problems H :=
  lazymatch type of H with
  | _ ++ _ = [] => let H1 := fresh "R" in let H2 := fresh "R" in
                   apply app_nil in H as [H1 H2]; no_problems H1; no_problems H2
  | add_when _ _ = [] => apply add_when_nil in H
  | _ => idtac
  end.

(** What holds of every configuration the process can start with. *)
Record Consistent (c : Config) : Prop := {
  environment_known : App.Environment_ (c_App c) ∈ [EnvDevelopment; EnvStaging; EnvProduction];
  shutdown_positive : 0 < App.ShutdownTimeout (c_App c);
  port_range : 1 ≤ HTTP.Port (c_HTTP c) ≤ 65535;
  metrics_apart : HTTP.MetricsPort (c_HTTP c) = 0 ∨
    (1 ≤ HTTP.MetricsPort (c_HTTP c) ≤ 65535 ∧ HTTP.MetricsPort (c_HTTP c) ≠ HTTP.Port (c_HTTP c));
  deadlines : ∀ d, d ∈ [HTTP.APITimeout (c_HTTP c); HTTP.WebhookTimeout (c_HTTP c)] →
    0 < d ∧ (0 < HTTP.WriteTimeout (c_HTTP c) → d < HTTP.WriteTimeout (c_HTTP c));
  limits : 0 ≤ HTTP.TrustedProxies (c_HTTP c) ∧ 1 ≤ HTTP.AuthRateLimitBurst (c_HTTP c) ∧
    float_leb (HTTP.AuthRateLimitRPS (c_HTTP c)) float_zero = false;
  pool : 0 ≤ DatabaseCfg.MinConns (c_Database c) ≤ DatabaseCfg.MaxConns (c_Database c) ∧
    1 ≤ DatabaseCfg.MaxConns (c_Database c);
  key_mode : App.Environment_ (c_App c) ≠ EnvProduction →
    stripeKeyMode (StripeCfg.SecretKey (c_Stripe c)) ≠ "live";
  token_lifetimes : 0 < AuthCfg.AccessTokenTTL (c_Auth c) < AuthCfg.RefreshTokenTTL (c_Auth c);
  sweeper_sane : SweeperCfg.Enabled (c_Sweeper c) = true →
    0 < SweeperCfg.Interval (c_Sweeper c) ∧ 1 ≤ SweeperCfg.MaxAttempts (c_Sweeper c) ∧
    1 ≤ SweeperCfg.BatchSize (c_Sweeper c) ∧
    0 < SweeperCfg.BaseBackoff (c_Sweeper c) ≤ SweeperCfg.MaxBackoff (c_Sweeper c) ∧
    HTTP.WebhookTimeout (c_HTTP c) < SweeperCfg.StaleClaimAfter (c_Sweeper c);
  retention_sane : RetentionCfg.Enabled (c_Retention c) = true →
    0 < RetentionCfg.Interval (c_Retention c) ∧ 1 ≤ RetentionCfg.BatchSize (c_Retention c) ∧
    0 < RetentionCfg.SettledPayloadAfter (c_Retention c) ≤ RetentionCfg.UnsettledPayloadAfter (c_Retention c);
  retry_budget_fits : RetentionCfg.Enabled (c_Retention c) = true → SweeperCfg.Enabled (c_Sweeper c) = true →
    let budget := SweeperCfg.MaxAttempts (c_Sweeper c) * SweeperCfg.MaxBackoff (c_Sweeper c) in
    10 * budget ≤ max_int64 → 10 * budget ≤ RetentionCfg.UnsettledPayloadAfter (c_Retention c);
}.

(** What production adds. *)
Record ProductionSafe (c : Config) : Prop := {
  safe_dsn : Contains (Reveal (DatabaseCfg.DSN (c_Database c))) "sslmode=disable" = false;
  safe_key : stripeKeyMode (StripeCfg.SecretKey (c_Stripe c)) ≠ "test";
  safe_redirects : ∀ raw,
    raw ∈ [StripeCfg.CheckoutSuccessURL (c_Stripe c); StripeCfg.CheckoutCancelURL (c_Stripe c);
           StripeCfg.CheckoutReturnURL (c_Stripe c); StripeCfg.PortalReturnURL (c_Stripe c)] →
    raw = "" ∨ Scheme <$> Parse raw = Some "https";
  safe_origins : ∀ o, o ∈ HTTP.CORSAllowedOrigins (c_HTTP c) →
    o ≠ "*" ∧ ∃ u, Parse o = Some u ∧ Scheme u = "https" ∧ Host u ≠ "" ∧ (Path u = "" ∨ Path u = "/");
  safe_prices : StripeCfg.AllowedPriceIDs (c_Stripe c) ≠ [] ∧
    ∀ id, id ∈ StripeCfg.AllowedPriceIDs (c_Stripe c) → HasPrefix id "price_" = true;
  safe_events : StripeCfg.IgnoreAPIVersionMismatch (c_Stripe c) = false;
  safe_cookie : AuthCfg.CookieSecure (c_Auth c) = true;
  safe_tokens : 0 < AuthCfg.AccessTokenTTL (c_Auth c) ≤ 24 * Hour;
  safe_secret : let s := Reveal (AuthCfg.JWTSecret (c_Auth c)) in
    32 ≤ len s ∧ Contains s "change_me" = false ∧ Contains s "example" = false;
  safe_retention : RetentionCfg.Enabled (c_Retention c) = true;
}.

Ltac bools :=
  repeat match goal with
  | H : _ || _ = false |- _ => apply orb_false_iff in H as [? ?]
  | H : negb _ = false |- _ => apply negb_false_iff in H
  | H : bool_decide _ = false |- _ => apply bool_decide_eq_false in H
  | H : bool_decide _ = true |- _ => apply bool_decide_eq_true in H
  end.

Ltac in_pair := first [apply list_elem_of_here | apply list_elem_of_further, list_elem_of_here].

(** The rules of a configuration without problems, the groups kept apart. *)
Ltac rules R :=
  unfold problems in R; no_problems R;
  match goal with HV : validateStripe _ = [] |- _ => unfold validateStripe in HV; no_problems HV end;
  bools.

Section Rules.
Context `{GoUnicode, GoMaps}.

Lemma deadline_ok c name d :
  deadline_rule c (name, d) = [] →
  0 < d ∧ (0 < HTTP.WriteTimeout (c_HTTP c) → d < HTTP.WriteTimeout (c_HTTP c)).
Proof.
  simpl. destruct (d <=? 0) eqn:Hd; [done|]. intros R%add_when_nil.
  apply andb_false_iff in R. lia.
Qed.

Lemma sweeper_ok c :
  validateSweeper c = [] → SweeperCfg.Enabled (c_Sweeper c) = true →
    0 < SweeperCfg.Interval (c_Sweeper c) ∧ 1 ≤ SweeperCfg.MaxAttempts (c_Sweeper c) ∧
    1 ≤ SweeperCfg.BatchSize (c_Sweeper c) ∧
    0 < SweeperCfg.BaseBackoff (c_Sweeper c) ≤ SweeperCfg.MaxBackoff (c_Sweeper c) ∧
    HTTP.WebhookTimeout (c_HTTP c) < SweeperCfg.StaleClaimAfter (c_Sweeper c).
Proof. unfold validateSweeper. intros R Hs. rewrite Hs in R. simpl in R. no_problems R. lia. Qed.

Lemma retention_ok c :
  validateRetention c = [] → RetentionCfg.Enabled (c_Retention c) = true →
  (0 < RetentionCfg.Interval (c_Retention c) ∧ 1 ≤ RetentionCfg.BatchSize (c_Retention c) ∧
   0 < RetentionCfg.SettledPayloadAfter (c_Retention c) ≤ RetentionCfg.UnsettledPayloadAfter (c_Retention c)) ∧
  (SweeperCfg.Enabled (c_Sweeper c) = true →
   int64 (10 * exhaust c) ≤ RetentionCfg.UnsettledPayloadAfter (c_Retention c)).
Proof.
  unfold validateRetention. intros R Hr. rewrite Hr in R. simpl in R. no_problems R.
  split; [lia|]. destruct (SweeperCfg.Enabled (c_Sweeper c)); [|done]. intros _. simpl in *. lia.
Qed.

(** Without overflow the retry budget is compared as it is. *)
Lemma exhaust_exact c :
  1 ≤ SweeperCfg.MaxAttempts (c_Sweeper c) → 0 < SweeperCfg.MaxBackoff (c_Sweeper c) →
  let budget := SweeperCfg.MaxAttempts (c_Sweeper c) * SweeperCfg.MaxBackoff (c_Sweeper c) in
  10 * budget ≤ max_int64 → int64 (10 * exhaust c) = 10 * budget.
Proof.
  intros Ha Hb budget Hm. unfold max_int64 in Hm.
  assert (0 < budget) by (unfold budget; nia).
  unfold exhaust. fold budget. rewrite (int64_id budget) by lia. apply int64_id. lia.
Qed.

Lemma key_ok c key :
  key_rule c key = [] → key ≠ "" →
  (HasPrefix key "sk_" = true ∨ HasPrefix key "rk_" = true) ∧
  (if IsProduction (App.Environment_ (c_App c)) then Contains key "_test_" = false
   else Contains key "_live_" = false).
Proof.
  unfold key_rule. intros R Hne. rewrite bool_decide_eq_false_2 in R by done.
  apply app_nil in R as [R1%add_when_nil R2]. split.
  - destruct (HasPrefix key "sk_"), (HasPrefix key "rk_"); simpl in R1; auto.
  - destruct (IsProduction _); simpl in R2; [by destruct (Contains _ _)|by apply add_when_nil in R2].
Qed.

Lemma https_only c raw : IsProduction (App.Environment_ (c_App c)) = true →
  (∀ name, checkout_url_rule c (name, raw) = [] → Scheme <$> Parse raw = Some "https") ∧
  (∀ name, return_url_rule c (name, raw) = [] → raw = "" ∨ Scheme <$> Parse raw = Some "https").
Proof.
  intros Hp. unfold checkout_url_rule, return_url_rule. rewrite Hp.
  case_bool_decide; [naive_solver|]. destruct (Parse raw) as [u|]; [|naive_solver].
  destruct (negb (IsAbs u)); [naive_solver|]. simpl.
  split; intros name R%add_when_nil; bools; [|right]; simpl; f_equal; by destruct (decide (Scheme u = "https")).
Qed.

Lemma origin_ok c o : IsProduction (App.Environment_ (c_App c)) = true → origin_rule c o = [] →
  o ≠ "*" ∧ ∃ u, Parse o = Some u ∧ Scheme u = "https" ∧ Host u ≠ "" ∧ (Path u = "" ∨ Path u = "/").
Proof.
  intros Hp. unfold origin_rule. rewrite Hp. case_bool_decide; [done|].
  destruct (Parse o) as [u|]; [|done]. destruct (negb (IsAbs u) || _) eqn:Ha; [done|]. bools.
  destruct (one_of _ _) eqn:Hpath; [|done]. simpl. intros R%add_when_nil. bools.
  split; [done|]. exists u. split_and!; [done| |done|].
  - by destruct (decide (Scheme u = "https")).
  - apply bool_decide_eq_true in Hpath. set_solver.
Qed.

(** A required variable that did not fail is not empty. *)
Lemma required_nonempty env key :
  (key, KRequired) ∈ variables → concat (variable_errors env <$> variables) = [] →
  default "" (lookup_env env key) ≠ "".
Proof.
  intros Hin Hn. pose proof (variable_errors_nil env _ Hn Hin) as He. unfold variable_error in He.
  destruct (lookup_env env key) as [v|] eqn:Hl; [|done]. simpl. unfold lookup_env in Hl.
  destruct (env key); [|done]. simpl in Hl. case_bool_decide; naive_solver.
Qed.

Lemma secrets_of env :
  secrets (config_of env) = (λ k, default "" (lookup_env env k)) <$> secret_keys.
Proof. by rewrite config_of_reads. Qed.

Lemma secrets_set env c s : Load env = Ok c → s ∈ secrets c → s ≠ "".
Proof.
  intros (-> & Hv & _)%Load_Ok. rewrite secrets_of. intros (k & -> & Hk)%list_elem_of_fmap.
  apply required_nonempty; [|done]. unfold secret_keys in Hk.
  rewrite !elem_of_cons in Hk. destruct Hk as [->|[->|[->|[->|[]%elem_of_nil]]]];
    apply (bool_decide_unpack _); vm_compute; exact I.
Qed.

Lemma jwt_secret_ok s : jwt_secret_rule s = [] → s ≠ "" →
  32 ≤ len s ∧ Contains s "change_me" = false ∧ Contains s "example" = false.
Proof.
  unfold jwt_secret_rule. intros R Hs. rewrite bool_decide_eq_false_2 in R by done.
  apply app_nil in R as [R1%add_when_nil R2%add_when_nil]. bools. split_and!; [lia|done..].
Qed.

Lemma auth_ok c : validateAuth c = [] →
  0 < AuthCfg.AccessTokenTTL (c_Auth c) < AuthCfg.RefreshTokenTTL (c_Auth c) ∧
  AuthCfg.JWTIssuer (c_Auth c) ≠ "" ∧ AuthCfg.JWTAudience (c_Auth c) ≠ "" ∧
  10 ≤ AuthCfg.BcryptCost (c_Auth c) ≤ 31 ∧
  (Reveal (AuthCfg.JWTSecret (c_Auth c)) ≠ "" → let s := Reveal (AuthCfg.JWTSecret (c_Auth c)) in
     32 ≤ len s ∧ Contains s "change_me" = false ∧ Contains s "example" = false) ∧
  (IsProduction (App.Environment_ (c_App c)) = true →
     AuthCfg.AccessTokenTTL (c_Auth c) ≤ 24 * Hour ∧ AuthCfg.CookieSecure (c_Auth c) = true).
Proof.
  unfold validateAuth. intros R. no_problems R.
  destruct (AuthCfg.AccessTokenTTL _ <=? 0) eqn:?; [done|].
  destruct (AuthCfg.RefreshTokenTTL _ <=? 0) eqn:?; [done|]. 
  repeat match goal with H : add_when _ _ = [] |- _ => apply add_when_nil in H end. bools.
  split_and!; try done; try lia.
  - intros Hs. by apply jwt_secret_ok.
  - intros Hp. rewrite Hp in *. simpl in *. bools. split; [lia|done].
Qed.

Lemma metrics_port_ok (m p : Z) (t1 t2 : string) :
  (if negb (m =? 0) then add_when ((m <? 1) || (65535 <? m)) t1 ++ add_when (m =? p) t2 else []) = [] →
  m = 0 ∨ (1 ≤ m ≤ 65535 ∧ m ≠ p).
Proof.
  destruct (m =? 0) eqn:Hm; simpl; [lia|]. intros R. no_problems R. bools. lia.
Qed.

Lemma problems_consistent c :
  problems c = [] → Reveal (StripeCfg.SecretKey (c_Stripe c)) ≠ "" → Consistent c.
Proof.
  intros R Hkey. rules R.
  match goal with HV : validateAuth c = [] |- _ => destruct (auth_ok _ HV) as (? & _) end.
  match goal with HV : key_rule c _ = [] |- _ => destruct (key_ok _ _ HV Hkey) as [_ Hmode] end.
  split; try lia.
  - by eapply bool_decide_eq_true.
  - eapply metrics_port_ok; eassumption.
  - intros d Hd. rewrite !elem_of_cons in Hd.
    destruct Hd as [->|[->|[]%elem_of_nil]]; (eapply deadline_ok, map_range_nil; [eassumption|in_pair]).
  - split_and!; [lia..|done].
  - intros Hp. unfold IsProduction in Hmode. rewrite bool_decide_eq_false_2 in Hmode by done.
    cbn beta iota in Hmode. unfold stripeKeyMode. rewrite Hmode. repeat case_match; congruence.
  - by apply sweeper_ok.
  - intros Hr. by eapply retention_ok.
  - intros Hr Hs budget Hb.
    match goal with HV : validateSweeper c = [] |- _ => destruct (sweeper_ok _ HV Hs) as (_&?&_&?&_) end.
    match goal with HV : validateRetention c = [] |- _ => destruct (retention_ok _ HV Hr) as [_ He] end.
    specialize (He Hs). rewrite exhaust_exact in He; [done|lia..|done].
Qed.

Lemma problems_safe c :
  problems c = [] → (∀ s, s ∈ secrets c → s ≠ "") → App.Environment_ (c_App c) = EnvProduction →
  ProductionSafe c.
Proof.
  intros R Hsec Henv. rules R.
  assert (IsProduction (App.Environment_ (c_App c)) = true) as Hp by by rewrite Henv.
  match goal with HV : validateAuth c = [] |- _ => destruct (auth_ok _ HV) as (Httl & _ & _ & _ & Hs & Hpa) end.
  specialize (Hpa Hp) as [Hday Hcookie].
  match goal with HV : key_rule c _ = [] |- _ => destruct (key_ok _ _ HV) as [_ Hmode]; [apply Hsec; set_solver|] end.
  split.
  - match goal with HV : dsn_rule c _ = [] |- _ => unfold dsn_rule in HV end.
    rewrite bool_decide_eq_false_2 in * by (apply Hsec; set_solver).
    destruct (_ && negb (Contains _ "=")); [done|]. rewrite Hp in *. by eapply add_when_nil.
  - rewrite Hp in Hmode. cbn beta iota in Hmode. unfold stripeKeyMode. rewrite Hmode. repeat case_match; congruence.
  - intros raw Hraw. rewrite !elem_of_cons in Hraw.
    destruct Hraw as [->|[->|[->|[->|[]%elem_of_nil]]]].
    1,2: right; eapply (proj1 (https_only c _ Hp)), map_range_nil; [eassumption|in_pair].
    all: eapply (proj2 (https_only c _ Hp)), map_range_nil; [eassumption|in_pair].
  - intros o Ho. eapply (origin_ok _ _ Hp), concat_fmap_nil; [eassumption|done].
  - rewrite Hp in *. simpl in *. bools. split; [done|]. intros id Hid.
    assert (price_rule id = []) as Hr%add_when_nil by by eapply concat_fmap_nil. by apply negb_false_iff in Hr.
  - rewrite Hp in *. done.
  - done.
  - lia.
  - apply Hs, Hsec. set_solver.
  - match goal with HV : validateRetention c = [] |- _ => unfold validateRetention in HV; rewrite Hp in HV end.
    by destruct (RetentionCfg.Enabled _).
Qed.

(** every configuration that loads is consistent: ports and pool sizes in
    range, each request deadline positive and inside the write timeout, no live
    key outside production, access tokens shorter-lived than refresh tokens, the
    stale window longer than the webhook deadline, backoffs ordered, and, unless
    the product overflows 64 bits, payloads kept ten times longer than the
    sweeper's retry budget. *)
Theorem loaded_consistent env c : Load env = Ok c → Consistent c.
Proof.
  intros HL. apply problems_consistent; [by apply Load_Ok in HL as (_ & _ & ?)|].
  apply (secrets_set env c); [done|]. unfold secrets. set_solver.
Qed.


(** ** Secrets stay secret *)

(** A configuration with its secrets replaced. *)
Definition with_secrets (c : Config) (dsn key ws jwt : string) : Config :=
  let d := c_Database c in let s := c_Stripe c in let a := c_Auth c in
  mkConfig (c_App c) (c_HTTP c)
    (DatabaseCfg.mk (mkSecret dsn) (DatabaseCfg.MaxConns d) (DatabaseCfg.MinConns d)
       (DatabaseCfg.MaxConnLifetime d) (DatabaseCfg.MaxConnIdleTime d) (DatabaseCfg.HealthCheckPeriod d)
       (DatabaseCfg.ConnectTimeout d) (DatabaseCfg.StatementTimeout d) (DatabaseCfg.IdleInTxTimeout d)
       (DatabaseCfg.SlowQueryThreshold d))
    (StripeCfg.mk (mkSecret key) (mkSecret ws) (StripeCfg.PublishableKey s) (StripeCfg.APIVersion s)
       (StripeCfg.WebhookTolerance s) (StripeCfg.MaxNetworkRetries s) (StripeCfg.HTTPTimeout s)
       (StripeCfg.IgnoreAPIVersionMismatch s) (StripeCfg.CheckoutSuccessURL s)
       (StripeCfg.CheckoutCancelURL s) (StripeCfg.CheckoutReturnURL s) (StripeCfg.PortalReturnURL s)
       (StripeCfg.AllowedPriceIDs s))
    (AuthCfg.mk (mkSecret jwt) (AuthCfg.JWTIssuer a) (AuthCfg.JWTAudience a) (AuthCfg.AccessTokenTTL a)
       (AuthCfg.RefreshTokenTTL a) (AuthCfg.CookieSecure a) (AuthCfg.CookieDomain a) (AuthCfg.BcryptCost a))
    (c_Sweeper c) (c_Retention c) (c_Log c).

(** What the rules may look at in a secret: whether it is there, the form it
    has, and the length of a signing secret that is too short. *)
Definition shape (key s : string) : list (option Z) :=
  let bit (b : bool) : option Z := if b then Some 1 else None in
  bit (bool_decide (s = "")) ::
  if bool_decide (key = "DATABASE_URL") then
    [bit (negb (HasPrefix s "postgres://") && negb (HasPrefix s "postgresql://") && negb (Contains s "="));
     bit (Contains s "sslmode=disable")]
  else if bool_decide (key = "STRIPE_SECRET_KEY") then
    [bit (negb (HasPrefix s "sk_") && negb (HasPrefix s "rk_"));
     bit (Contains s "_live_"); bit (Contains s "_test_")]
  else if bool_decide (key = "STRIPE_WEBHOOK_SECRET") then [bit (HasPrefix s "whsec_")]
  else [if len s <? 32 then Some (len s) else None;
        bit (Contains s "change_me" || Contains s "example")].

Lemma agree_config env1 env2 :
  (∀ k, k ∉ secret_keys → env1 k = env2 k) →
  let v k := default "" (lookup_env env2 k) in
  config_of env2 = with_secrets (config_of env1) (v "DATABASE_URL") (v "STRIPE_SECRET_KEY")
                     (v "STRIPE_WEBHOOK_SECRET") (v "JWT_SECRET").
Proof.
  intros Ha v.
  assert (∀ k, bool_decide (k ∈ secret_keys) = false → lookup_env env2 k = lookup_env env1 k) as Hl.
  { intros k Hk%bool_decide_eq_false. unfold lookup_env. by rewrite (Ha k Hk). }
  assert (∀ A p k (d : A), bool_decide (k ∈ secret_keys) = false →
    parsed_value p env2 k d = parsed_value p env1 k d) as Hp.
  { intros A p k d Hk. unfold parsed_value. by rewrite Hl. }
  rewrite !config_of_reads. unfold read_config, with_secrets, csv.
  cbn -[parsed_value lookup_env TrimSpace ToLower split_on].
  f_equal; f_equal;
    first [apply Hp; reflexivity | rewrite Hp; reflexivity | rewrite Hl; reflexivity | reflexivity].
Qed.

Lemma dsn_shape c s s' : shape "DATABASE_URL" s = shape "DATABASE_URL" s' → dsn_rule c s = dsn_rule c s'.
Proof. unfold dsn_rule, shape, add_when. simpl. intros Hs. repeat case_match; congruence. Qed.

Lemma key_shape c s s' :
  shape "STRIPE_SECRET_KEY" s = shape "STRIPE_SECRET_KEY" s' →
  key_rule c s = key_rule c s' ∧ stripeKeyMode (mkSecret s) = stripeKeyMode (mkSecret s').
Proof.
  unfold key_rule, stripeKeyMode, shape, add_when. simpl. intros Hs.
  split; repeat (case_match; try congruence).
Qed.

Lemma ws_shape s s' t :
  shape "STRIPE_WEBHOOK_SECRET" s = shape "STRIPE_WEBHOOK_SECRET" s' →
  add_when (bool_decide (s ≠ "") && negb (HasPrefix s "whsec_")) t =
  add_when (bool_decide (s' ≠ "") && negb (HasPrefix s' "whsec_")) t.
Proof.
  unfold shape, add_when. simpl. intros [= H1 H2]. rewrite !bool_decide_not.
  repeat (case_match; try congruence).
Qed.

Lemma jwt_shape s s' : shape "JWT_SECRET" s = shape "JWT_SECRET" s' → jwt_secret_rule s = jwt_secret_rule s'.
Proof. unfold jwt_secret_rule, shape, add_when. simpl. intros Hs. repeat (case_match; try congruence). Qed.

Ltac by_parts tac := repeat (apply (f_equal2 app); [first [reflexivity | tac]|]); first [reflexivity | tac].

(** The rules see no more of a secret than its shape. *)
Lemma problems_shape c dsn key ws jwt dsn' key' ws' jwt' :
  shape "DATABASE_URL" dsn = shape "DATABASE_URL" dsn' →
  shape "STRIPE_SECRET_KEY" key = shape "STRIPE_SECRET_KEY" key' →
  shape "STRIPE_WEBHOOK_SECRET" ws = shape "STRIPE_WEBHOOK_SECRET" ws' →
  shape "JWT_SECRET" jwt = shape "JWT_SECRET" jwt' →
  problems (with_secrets c dsn key ws jwt) = problems (with_secrets c dsn' key' ws' jwt').
Proof.
  intros Hd Hk Hw Hj.
  assert (validateStripe (with_secrets c dsn key ws jwt) =
          validateStripe (with_secrets c dsn' key' ws' jwt')) as Hs.
  { unfold validateStripe. apply (f_equal2 app); [by apply (key_shape c)|].
    apply (f_equal2 app); [by apply ws_shape|]. by_parts idtac. }
  assert (validateAuth (with_secrets c dsn key ws jwt) =
          validateAuth (with_secrets c dsn' key' ws' jwt')) as Ha.
  { unfold validateAuth. apply (f_equal2 app); [by apply jwt_shape|]. reflexivity. }
  unfold problems. by_parts ltac:(first [exact Hs | exact Ha | by apply (dsn_shape c)]).
Qed.

Lemma lookup_env_nonempty env k : lookup_env env k ≠ Some "".
Proof.
  unfold lookup_env. destruct (env k); [|done]. simpl. case_bool_decide; naive_solver.
Qed.

Lemma secrets_required k kd : (k, kd) ∈ variables → k ∈ secret_keys → kd = KRequired.
Proof.
  assert (Forall (λ x, x.1 ∈ secret_keys → x.2 = KRequired) variables) as Hf.
  { apply (bool_decide_unpack _). vm_compute. exact I. }
  rewrite Forall_forall in Hf. intros Hx. apply (Hf _ Hx).
Qed.

Lemma variable_errors_agree env1 env2 :
  (∀ k, k ∉ secret_keys → env1 k = env2 k) →
  (∀ k, k ∈ secret_keys → shape k (default "" (lookup_env env1 k)) = shape k (default "" (lookup_env env2 k))) →
  concat (variable_errors env1 <$> variables) = concat (variable_errors env2 <$> variables).
Proof.
  intros Ha Hs. f_equal. apply list_fmap_ext. intros i [k kd] Hx%list_elem_of_lookup_2.
  unfold variable_errors, variable_error. destruct (decide (k ∈ secret_keys)) as [Hk|Hk].
  - rewrite (secrets_required _ _ Hx Hk). specialize (Hs k Hk). unfold shape in Hs.
    pose proof (lookup_env_nonempty env1 k). pose proof (lookup_env_nonempty env2 k).
    destruct (lookup_env env1 k) as [v1|], (lookup_env env2 k) as [v2|]; simpl in *; try done;
      injection Hs as Hs _; repeat case_bool_decide; congruence.
  - unfold lookup_env. by rewrite Ha.
Qed.

(** C18: secrets reach neither the error nor the boot log.  Two environments
    that agree on every public variable, and whose secrets have the same shape
    (present or not, a known prefix, live or test, how much too short), load to
    the same error text, or to configurations that log the same. *)
Theorem secrets_do_not_leak env1 env2 :
  (∀ k, k ∉ secret_keys → env1 k = env2 k) →
  (∀ k, k ∈ secret_keys → shape k (default "" (lookup_env env1 k)) = shape k (default "" (lookup_env env2 k))) →
  match Load env1, Load env2 with
  | Err e1, Err e2 => e1 = e2
  | Ok c1, Ok c2 => Config_LogValue c1 = Config_LogValue c2
  | _, _ => False
  end.
Proof.
  intros Ha Hs. pose proof (agree_config env1 env2 Ha) as H2. simpl in H2.
  pose proof (agree_config env1 env1 (λ _ _, eq_refl)) as H1. simpl in H1.
  assert (∀ k, bool_decide (k ∈ secret_keys) = true → shape k (default "" (lookup_env env1 k)) =
    shape k (default "" (lookup_env env2 k))) as Hs' by (intros k Hk; apply Hs; by apply bool_decide_eq_true in Hk).
  rewrite !Load_spec. unfold all_problems. rewrite (variable_errors_agree env1 env2) by done.
  assert (problems (config_of env1) = problems (config_of env2)) as ->.
  { rewrite H2. rewrite H1 at 1. apply problems_shape; by apply Hs'. }
  destruct (errors_Join _); [done|]. rewrite H2. rewrite H1 at 1.
  assert (∀ k1 k2, stripeKeyMode (mkSecret k1) = stripeKeyMode (mkSecret k2) → ∀ d1 w1 j1 d2 w2 j2,
    Config_LogValue (with_secrets (config_of env1) d1 k1 w1 j1) =
    Config_LogValue (with_secrets (config_of env1) d2 k2 w2 j2)) as Hlog.
  { intros k1 k2 Hm d1 w1 j1 d2 w2 j2. unfold Config_LogValue, with_secrets. simpl. by rewrite Hm. }
  apply Hlog, (key_shape (config_of env1)). by apply Hs'.
Qed.
End Rules.
