(* ===== verification/Domain.v ===== *)
(** * internal/domain/models.go

    The entities, their status types and their [Validate] methods.  Each Go
    struct is a record in a module of its own, with the struct's field names;
    a pointer field is an [option].  Statuses stay strings, as in the source:
    [Valid] is a test on an arbitrary string. *)

From S2P Require Import Prelude GoStd.
Open Scope Z_scope.

(** [uuid.UUID]: sixteen bytes, read as a number; [uuid.Nil] is zero. *)
Definition UUID := N.
Definition uuid_Nil : UUID := 0%N.

(** ** Field errors *)

Record FieldError := mkFieldError { Field : string; Detail : string }.
Definition FieldErrors := list FieldError.

#[global] Instance FieldError_eq_dec : EqDecision FieldError.
Proof. solve_decision. Defined.

Definition FieldError_Error (e : FieldError) : string := Field e +:+ ": " +:+ Detail e.
Definition FieldErrors_Error (e : FieldErrors) : string := Join (FieldError_Error <$> e) "; ".

(** The [error] values these two types are; both unwrap to [ErrValidation]. *)
Definition error_of_FieldError (e : FieldError) : error :=
  mkError (FieldError_Error e) [ErrValidation].
Definition error_of_FieldErrors (e : FieldErrors) : error :=
  mkError (FieldErrors_Error e) [ErrValidation].

(** [validator]: [add_if c f d] is [if c { v.add(f, d) }]. *)
Definition add_if (c : bool) (field detail : string) : FieldErrors :=
  if c then [mkFieldError field detail] else [].

Definition validator_result (errs : FieldErrors) : option error :=
  match errs with [] => None | _ => Some (error_of_FieldErrors errs) end.

(** ** Statuses *)

Definition SubscriptionStatus := string.
Definition SubscriptionIncomplete : SubscriptionStatus := "incomplete".
Definition SubscriptionIncompleteExpired : SubscriptionStatus := "incomplete_expired".
Definition SubscriptionTrialing : SubscriptionStatus := "trialing".
Definition SubscriptionActive : SubscriptionStatus := "active".
Definition SubscriptionPastDue : SubscriptionStatus := "past_due".
Definition SubscriptionCanceled : SubscriptionStatus := "canceled".
Definition SubscriptionUnpaid : SubscriptionStatus := "unpaid".
Definition SubscriptionPaused : SubscriptionStatus := "paused".

Definition SubscriptionStatus_Valid (s : SubscriptionStatus) : bool :=
  one_of s [SubscriptionIncomplete; SubscriptionIncompleteExpired; SubscriptionTrialing;
            SubscriptionActive; SubscriptionPastDue; SubscriptionCanceled;
            SubscriptionUnpaid; SubscriptionPaused].

Definition SubscriptionStatus_IsLive (s : SubscriptionStatus) : bool :=
  one_of s [SubscriptionTrialing; SubscriptionActive; SubscriptionPastDue].

Definition SubscriptionStatus_IsTerminal (s : SubscriptionStatus) : bool :=
  one_of s [SubscriptionCanceled; SubscriptionIncompleteExpired].

Definition WebhookStatus := string.
Definition WebhookProcessing : WebhookStatus := "processing".
Definition WebhookSucceeded : WebhookStatus := "succeeded".
Definition WebhookFailed : WebhookStatus := "failed".
Definition WebhookSkipped : WebhookStatus := "skipped".

Definition WebhookStatus_Valid (s : WebhookStatus) : bool :=
  one_of s [WebhookProcessing; WebhookSucceeded; WebhookFailed; WebhookSkipped].

(** ** Entities *)

Module User.
Record t := mk {
  ID : UUID;
  Email : string;
  EmailVerifiedAt : option Time;
  PasswordHash : option string;
  FullName : option string;
  StripeCustomerID : option string;
  Metadata : gmap string string;
  CreatedAt : Time;
  UpdatedAt : Time;
  DeletedAt : option Time;
}.

#[global] Instance eq_dec : EqDecision t.
Proof. solve_decision. Defined.

Definition set_Email (e : string) (u : t) : t :=
  mk (ID u) e (EmailVerifiedAt u) (PasswordHash u) (FullName u) (StripeCustomerID u)
     (Metadata u) (CreatedAt u) (UpdatedAt u) (DeletedAt u).
Definition set_PasswordHash (h : option string) (u : t) : t :=
  mk (ID u) (Email u) (EmailVerifiedAt u) h (FullName u) (StripeCustomerID u)
     (Metadata u) (CreatedAt u) (UpdatedAt u) (DeletedAt u).
Definition set_StripeCustomerID (c : option string) (u : t) : t :=
  mk (ID u) (Email u) (EmailVerifiedAt u) (PasswordHash u) (FullName u) c
     (Metadata u) (CreatedAt u) (UpdatedAt u) (DeletedAt u).
Definition set_UpdatedAt (n : Time) (u : t) : t :=
  mk (ID u) (Email u) (EmailVerifiedAt u) (PasswordHash u) (FullName u) (StripeCustomerID u)
     (Metadata u) (CreatedAt u) n (DeletedAt u).
(** What [Scan(&u.ID, &u.CreatedAt, &u.UpdatedAt)] stores after an insert. *)
Definition set_inserted (id : UUID) (n : Time) (u : t) : t :=
  mk id (Email u) (EmailVerifiedAt u) (PasswordHash u) (FullName u) (StripeCustomerID u)
     (Metadata u) n n (DeletedAt u).

(** The field checks, on the normalised entity. *)
Definition checks (u : t) : FieldErrors :=
  let email := Email u in
  (if bool_decide (email = "") then add_if true "email" "is required"
   else if (len email <? 3) || (320 <? len email)
   then add_if true "email" "must be between 3 and 320 characters"
   else add_if (negb (Contains email "@") || ContainsAny email (of_bytes [32; 9; 10]%N))
          "email" "is not a valid address") ++
  add_if (match StripeCustomerID u with Some c => negb (HasPrefix c "cus_") | None => false end)
    "stripe_customer_id" "must begin with cus_" ++
  add_if (existsb (λ kv, bool_decide (TrimSpace kv.1 = "")) (map_to_list (Metadata u)))
    "metadata" "keys must not be blank".

(** [Validate] stores the trimmed email in the entity it validates. *)
Definition Validate (u : t) : t * option error :=
  let u' := set_Email (TrimSpace (Email u)) u in (u', validator_result (checks u')).

Definition IsDeleted (u : t) : bool := bool_decide (is_Some (DeletedAt u)).
End User.

Module Subscription.
Record t := mk {
  ID : UUID;
  UserID : UUID;
  StripeSubscriptionID : string;
  StripeCustomerID : string;
  StripePriceID : string;
  StripeProductID : option string;
  Status : SubscriptionStatus;
  Quantity : Z;
  Currency : option string;
  UnitAmount : option Z;
  CurrentPeriodStart : Time;
  CurrentPeriodEnd : Time;
  CancelAtPeriodEnd : bool;
  CancelAt : option Time;
  CanceledAt : option Time;
  EndedAt : option Time;
  TrialStart : option Time;
  TrialEnd : option Time;
  LatestInvoiceID : option string;
  DefaultPaymentMethodID : option string;
  PaymentFailedAt : option Time;
  PaymentFailureCount : Z;
  LastPaymentError : option string;
  NextPaymentAttemptAt : option Time;
  LastInvoiceEventID : option string;
  LastInvoiceEventAt : option Time;
  LastStripeEventID : option string;
  LastStripeEventAt : option Time;
  Metadata : gmap string string;
  CreatedAt : Time;
  UpdatedAt : Time;
}.

#[global] Instance eq_dec : EqDecision t.
Proof. solve_decision. Defined.

Definition set_UpdatedAt (n : Time) (s : t) : t :=
  mk (ID s) (UserID s) (StripeSubscriptionID s) (StripeCustomerID s) (StripePriceID s)
     (StripeProductID s) (Status s) (Quantity s) (Currency s) (UnitAmount s)
     (CurrentPeriodStart s) (CurrentPeriodEnd s) (CancelAtPeriodEnd s) (CancelAt s)
     (CanceledAt s) (EndedAt s) (TrialStart s) (TrialEnd s) (LatestInvoiceID s)
     (DefaultPaymentMethodID s) (PaymentFailedAt s) (PaymentFailureCount s)
     (LastPaymentError s) (NextPaymentAttemptAt s) (LastInvoiceEventID s)
     (LastInvoiceEventAt s) (LastStripeEventID s) (LastStripeEventAt s)
     (Metadata s) (CreatedAt s) n.

Section Validate.
Context `{GoUnicode}.

Definition checks (s : t) : FieldErrors :=
  add_if (bool_decide (UserID s = uuid_Nil)) "user_id" "is required" ++
  add_if (negb (HasPrefix (StripeSubscriptionID s) "sub_"))
    "stripe_subscription_id" "must begin with sub_" ++
  add_if (negb (HasPrefix (StripeCustomerID s) "cus_"))
    "stripe_customer_id" "must begin with cus_" ++
  add_if (negb (HasPrefix (StripePriceID s) "price_"))
    "stripe_price_id" "must begin with price_" ++
  add_if (negb (SubscriptionStatus_Valid (Status s)))
    "status" (Quote (Status s) +:+ " is not a known subscription status") ++
  add_if (Quantity s <=? 0) "quantity" "must be greater than zero" ++
  add_if (match Currency s with
          | Some c => negb (len c =? 3) || negb (bool_decide (c = ToLower c))
          | None => false
          end) "currency" "must be a three-letter lowercase ISO 4217 code" ++
  add_if (match UnitAmount s with Some a => a <? 0 | None => false end)
    "unit_amount" "must not be negative" ++
  add_if (negb (After (CurrentPeriodEnd s) (CurrentPeriodStart s)))
    "current_period_end" "must be after current_period_start" ++
  add_if (match TrialStart s, TrialEnd s with
          | Some a, Some b => negb (After b a)
          | _, _ => false
          end) "trial_end" "must be after trial_start" ++
  add_if (bool_decide (Status s = SubscriptionCanceled) && bool_decide (CanceledAt s = None))
    "canceled_at" "is required when status is canceled" ++
  add_if (PaymentFailureCount s <? 0) "payment_failure_count" "must not be negative" ++
  add_if (negb (Bool.eqb (bool_decide (PaymentFailedAt s = None)) (PaymentFailureCount s =? 0)))
    "payment_failed_at" "must be set exactly when payment_failure_count is greater than zero".

Definition Validate (s : t) : option error := validator_result (checks s).
End Validate.

Definition IsLive (s : t) : bool := SubscriptionStatus_IsLive (Status s).
Definition InDunning (s : t) : bool := bool_decide (is_Some (PaymentFailedAt s)).
End Subscription.

Module RefreshToken.
Record t := mk {
  ID : UUID;
  UserID : UUID;
  TokenHash : string;
  FamilyID : UUID;
  IssuedAt : Time;
  ExpiresAt : Time;
  UsedAt : option Time;
  RevokedAt : option Time;
  RevokedReason : option string;
  CreatedAt : Time;
  UpdatedAt : Time;
}.

#[global] Instance eq_dec : EqDecision t.
Proof. solve_decision. Defined.

Definition set_UsedAt (n : option Time) (t : t) :=
  mk (ID t) (UserID t) (TokenHash t) (FamilyID t) (IssuedAt t) (ExpiresAt t) n
     (RevokedAt t) (RevokedReason t) (CreatedAt t) (UpdatedAt t).
Definition set_revoked (n : Time) (reason : string) (t : t) :=
  mk (ID t) (UserID t) (TokenHash t) (FamilyID t) (IssuedAt t) (ExpiresAt t) (UsedAt t)
     (Some n) (Some reason) (CreatedAt t) (UpdatedAt t).
Definition set_UpdatedAt (n : Time) (t : t) :=
  mk (ID t) (UserID t) (TokenHash t) (FamilyID t) (IssuedAt t) (ExpiresAt t) (UsedAt t)
     (RevokedAt t) (RevokedReason t) (CreatedAt t) n.

Definition Usable (t : t) (now : Time) : bool :=
  bool_decide (RevokedAt t = None) && bool_decide (UsedAt t = None) && Before now (ExpiresAt t).
End RefreshToken.

Module ProcessedWebhook.
Record t := mk {
  EventID : string;
  EventType : string;
  APIVersion : option string;
  Livemode : bool;
  RequestID : option string;
  Status : WebhookStatus;
  Attempts : Z;
  LastError : option string;
  Payload : string;          (* json.RawMessage; empty stands for nil too *)
  StripeCreatedAt : Time;
  ReceivedAt : Time;
  ProcessedAt : option Time;
  CreatedAt : Time;
  UpdatedAt : Time;
}.

#[global] Instance eq_dec : EqDecision t.
Proof. solve_decision. Defined.

Definition set_Attempts (n : Z) (w : t) : t :=
  mk (EventID w) (EventType w) (APIVersion w) (Livemode w) (RequestID w) (Status w) n
     (LastError w) (Payload w) (StripeCreatedAt w) (ReceivedAt w) (ProcessedAt w)
     (CreatedAt w) (UpdatedAt w).
(** What [Scan(&w.Attempts, &w.Status, &w.ReceivedAt, &w.CreatedAt, &w.UpdatedAt)] stores. *)
Definition set_claimed (n : Z) (st : WebhookStatus) (r c u : Time) (w : t) : t :=
  mk (EventID w) (EventType w) (APIVersion w) (Livemode w) (RequestID w) st n
     (LastError w) (Payload w) (StripeCreatedAt w) r (ProcessedAt w) c u.

Definition checks `{GoUnicode} (w : t) : FieldErrors :=
  add_if (negb (HasPrefix (EventID w) "evt_")) "event_id" "must begin with evt_" ++
  add_if (bool_decide (TrimSpace (EventType w) = "")) "event_type" "is required" ++
  add_if (IsZero (StripeCreatedAt w)) "stripe_created_at" "is required" ++
  add_if (negb (bool_decide (Status w = "")) && negb (WebhookStatus_Valid (Status w)))
    "status" (Quote (Status w) +:+ " is not a known webhook status") ++
  add_if ((0 <? len (Payload w)) && negb (Json.Valid (Payload w))) "payload" "must be valid JSON".

Definition Validate `{GoUnicode} (w : t) : option error := validator_result (checks w).

Definition IsSettled (w : t) : bool :=
  bool_decide (Status w = WebhookSucceeded) || bool_decide (Status w = WebhookSkipped).
End ProcessedWebhook.
