(* ===== verification/Database.v ===== *)
(** * The database: schema, statements, faults (migrations/*.sql, errors.go)

    PostgreSQL as the repositories see it: the four tables with the
    constraints and triggers of [migrations/], a call interface on which each
    statement can take time, fail before or after taking effect, or be cut off
    by the caller's context, and the translation of driver errors into domain
    sentinels ([internal/repository/postgres/errors.go]).

    Each statement is atomic, as PostgreSQL guarantees under the row lock it
    takes; what other sessions do between two statements is covered by the step
    relations of the repository files.  TIMESTAMPTZ is kept at Go's resolution
    and [float8] intervals are exact. *)

From S2P Require Import Prelude GoStd Strconv Domain.
Open Scope Z_scope.

(** ** JSONB *)

#[warning="-register-all"] Inductive json :=
  | JNull
  | JBool (b : bool)
  | JNum (n : string)
  | JStr (s : string)
  | JArr (l : list json)
  | JObj (fields : list (string * json)).

#[global] Instance json_eq_dec : EqDecision json.
Proof.
  refine (fix go x y := let _ : EqDecision json := go in
    match x, y with
    | JNull, JNull => left _
    | JBool a, JBool b => cast_if (decide (a = b))
    | JNum a, JNum b => cast_if (decide (a = b))
    | JStr a, JStr b => cast_if (decide (a = b))
    | JArr a, JArr b => cast_if (decide (a = b))
    | JObj a, JObj b => cast_if (decide (a = b))
    | _, _ => right _
    end); abstract congruence.
Defined.

Fixpoint assoc (k : string) (l : list (string * json)) : option json :=
  match l with
  | [] => None
  | (k', v) :: l' => if bool_decide (k = k') then Some v else assoc k l'
  end.

(** [j -> 'k']; SQL NULL is [None]. *)
Definition jget (j : json) (k : string) : option json :=
  match j with JObj l => assoc k l | _ => None end.

(** [j #> '{k1,k2,..}'] for keys that are not array indices. *)
Fixpoint jpath (j : json) (ks : list string) : option json :=
  match ks with
  | [] => Some j
  | k :: ks' => match jget j k with Some v => jpath v ks' | None => None end
  end.

Definition jis_object (j : json) : bool := match j with JObj _ => true | _ => false end.

(** [j ? 'k'] and [j ?| ARRAY[..]]. *)
Definition jexists (j : json) (k : string) : bool :=
  match j with
  | JObj l => bool_decide (is_Some (assoc k l))
  | JArr l => existsb (λ x, bool_decide (x = JStr k)) l
  | JStr s => bool_decide (s = k)
  | _ => false
  end.
Definition jexists_any (j : json) (ks : list string) : bool := existsb (jexists j) ks.

(** What the server does with text: the [jsonb] input and output functions,
    CITEXT folding and the [[:space:]] class outside ASCII. *)
Class Postgres := {
  jsonb_in : string → option json;
  jsonb_out : json → string;
  citext_fold : string → string;
  pg_has_space : string → bool;
}.

(** ** Driver errors *)

Inductive dberr :=
  | NoRows
  | PgError (code constraint_name message : string)
  | DriverErr (message : string).

Inductive pgres (A : Type) :=
  | POk (a : A)
  | PErr (e : dberr).
Arguments POk {A} a.
Arguments PErr {A} e.

Definition dq : string := of_bytes [34%N].

Definition check_violation (relation name : string) : dberr :=
  PgError "23514" name ("new row for relation " +:+ dq +:+ relation +:+ dq +:+
    " violates check constraint " +:+ dq +:+ name +:+ dq).
Definition unique_violation (name : string) : dberr :=
  PgError "23505" name ("duplicate key value violates unique constraint " +:+ dq +:+ name +:+ dq).
Definition fkey_violation (relation name : string) : dberr :=
  PgError "23503" name ("insert or update on table " +:+ dq +:+ relation +:+ dq +:+
    " violates foreign key constraint " +:+ dq +:+ name +:+ dq).
Definition out_of_range : dberr := PgError "22003" "" "integer out of range".

(** The first constraint, in the order given, that is not satisfied. *)
Fixpoint first_violation (relation : string) (l : list (string * bool)) : option dberr :=
  match l with
  | [] => None
  | (name, ok) :: l' =>
      if ok : bool then first_violation relation l' else Some (check_violation relation name)
  end.

Lemma first_violation_None rel l :
  first_violation rel l = None ↔ Forall (λ p, p.2 = true) l.
Proof.
  induction l as [|[n b] l IH]; simpl; [done|].
  rewrite Forall_cons. destruct b; simpl; [tauto|]. split; [done|intros [? _]; done].
Qed.

(** ** errors.go *)

Definition codeUniqueViolation : string := "23505".
Definition codeForeignKeyViolation : string := "23503".
Definition codeCheckViolation : string := "23514".
Definition codeNotNullViolation : string := "23502".
Definition codeInvalidTextRepr : string := "22P02".
Definition codeStringDataTruncated : string := "22001".

Definition constraintMessages : list (string * string) := [
  ("uq_users_email_active", "a live user already exists with this email");
  ("uq_users_stripe_customer_id", "this Stripe customer is already linked to another user");
  ("subscriptions_stripe_subscription_id_key", "this Stripe subscription has already been recorded");
  ("subscriptions_user_id_fkey", "the referenced user does not exist, or still has billing history");
  ("processed_webhooks_pkey", "this Stripe event has already been recorded");
  ("users_email_format_chk", "email is not a valid address");
  ("users_stripe_customer_id_format_chk", "stripe_customer_id must look like cus_...");
  ("subscriptions_period_order_chk", "current_period_end must be after current_period_start");
  ("subscriptions_quantity_positive_chk", "quantity must be greater than zero");
  ("subscriptions_canceled_at_chk", "canceled_at is required when status is canceled");
  ("subscriptions_currency_format_chk", "currency must be a three-letter lowercase ISO 4217 code");
  ("processed_webhooks_event_id_format_chk", "event_id must look like evt_...");
  ("processed_webhooks_processed_at_chk", "processed_at must be set for a settled event and unset otherwise");
  ("processed_webhooks_last_error_chk", "last_error is required when status is failed");
  ("subscriptions_stripe_subscription_id_format_chk", "stripe_subscription_id must look like sub_...")
].

Definition constraint_detail (name message : string) : string :=
  match list_find (λ p, p.1 = name) constraintMessages with
  | Some (_, (_, d)) => d
  | None => message
  end.

Definition mapError (op : string) (e : dberr) : error :=
  match e with
  | NoRows => wrapf op ErrNotFound
  | DriverErr m => wrapf op (errors_New m)
  | PgError code name message =>
      let detail := constraint_detail name message in
      if one_of code [codeUniqueViolation] then wrapf (op +:+ ": " +:+ detail) ErrConflict
      else if one_of code [codeForeignKeyViolation] then wrapf (op +:+ ": " +:+ detail) ErrConflict
      else if one_of code [codeCheckViolation; codeNotNullViolation; codeInvalidTextRepr;
                           codeStringDataTruncated]
      then wrapf (op +:+ ": " +:+ detail) ErrValidation
      else wrapf op (errors_New message)
  end.

(** ** Rows of processed_webhooks

    The other three tables have exactly the columns of the domain structs;
    this one stores the payload as JSONB and has the column of migration 5. *)
Module Row.
Record t := mk {
  event_id : string;
  event_type : string;
  api_version : option string;
  livemode : bool;
  request_id : option string;
  status : WebhookStatus;
  attempts : Z;
  last_error : option string;
  payload : option json;
  stripe_created_at : Time;
  received_at : Time;
  processed_at : option Time;
  created_at : Time;
  updated_at : Time;
  payload_purged_at : option Time;
}.

#[global] Instance eq_dec : EqDecision t.
Proof. solve_decision. Defined.

(** [SET status, attempts, last_error, processed_at]. *)
Definition set_progress (st : WebhookStatus) (n : Z) (e : option string)
    (p : option Time) (r : t) : t :=
  mk (event_id r) (event_type r) (api_version r) (livemode r) (request_id r) st n e
     (payload r) (stripe_created_at r) (received_at r) p (created_at r) (updated_at r)
     (payload_purged_at r).
Definition set_payload (j : option json) (p : option Time) (r : t) : t :=
  mk (event_id r) (event_type r) (api_version r) (livemode r) (request_id r) (status r)
     (attempts r) (last_error r) j (stripe_created_at r) (received_at r) (processed_at r)
     (created_at r) (updated_at r) p.
Definition set_updated_at (n : Time) (r : t) : t :=
  mk (event_id r) (event_type r) (api_version r) (livemode r) (request_id r) (status r)
     (attempts r) (last_error r) (payload r) (stripe_created_at r) (received_at r)
     (processed_at r) (created_at r) n (payload_purged_at r).

(** The regular expression [^evt_[A-Za-z0-9]+$] and its siblings. *)
Definition id_format (prefix s : string) : bool :=
  match strip_prefix prefix s with
  | Some r => negb (bool_decide (r = "")) && str_forall is_alnum r
  | None => false
  end.

(** [char_length(btrim(s)) > 0]: some byte is not a space. *)
Definition not_blank (s : string) : bool :=
  negb (str_forall (λ a, (byte_val a =? 32)%N) s).

Definition purged_ok (r : t) : bool :=
  match payload_purged_at r, payload r with
  | Some _, Some j =>
      negb (jexists j "data" &&
            match jget j "data" with Some d => jis_object d | None => false end &&
            match jpath j ["data"; "object"] with
            | Some o => jexists_any o ["customer_details"; "billing_details"; "customer_email"]
            | None => false
            end)
  | _, _ => true
  end.

(** The CHECK constraints, in the order the server evaluates them. *)
Definition constraints (r : t) : list (string * bool) := [
  ("processed_webhooks_attempts_positive_chk", 1 <=? attempts r);
  ("processed_webhooks_event_id_format_chk", id_format "evt_" (event_id r));
  ("processed_webhooks_event_type_not_blank_chk", not_blank (event_type r));
  ("processed_webhooks_last_error_chk",
    negb (bool_decide (status r = WebhookFailed)) || bool_decide (is_Some (last_error r)));
  ("processed_webhooks_payload_is_object_chk",
    match payload r with Some j => jis_object j | None => true end);
  ("processed_webhooks_processed_at_chk",
    (one_of (status r) [WebhookSucceeded; WebhookSkipped] && bool_decide (is_Some (processed_at r)))
    || (one_of (status r) [WebhookProcessing; WebhookFailed] && bool_decide (processed_at r = None)));
  ("processed_webhooks_purged_payload_chk", purged_ok r)
].

(** What the server reports for a row it refuses. *)
Definition violation (r : t) : option dberr :=
  if attempts r <=? max_int32 then first_violation "processed_webhooks" (constraints r)
  else Some out_of_range.

(** [trg_processed_webhooks_set_updated_at]. *)
Definition touch (now : Time) (old new : t) : t :=
  if bool_decide (old = new) then new else set_updated_at now new.
End Row.

(** ** State *)

Record Tables := mkTables {
  users : gmap UUID User.t;                       (* by primary key *)
  subscriptions : gmap string Subscription.t;     (* by stripe_subscription_id, unique *)
  processed_webhooks : gmap string Row.t;         (* by primary key *)
  refresh_tokens : gmap string RefreshToken.t;    (* by token_hash, unique *)
}.

Definition set_users m t := mkTables m (subscriptions t) (processed_webhooks t) (refresh_tokens t).
Definition set_subscriptions m t := mkTables (users t) m (processed_webhooks t) (refresh_tokens t).
Definition set_processed_webhooks m t := mkTables (users t) (subscriptions t) m (refresh_tokens t).
Definition set_refresh_tokens m t := mkTables (users t) (subscriptions t) (processed_webhooks t) m.

(** A fault on one call: the statement never ran, or it ran and the answer was lost. *)
Inductive Fault :=
  | FaultBefore (message : string)
  | FaultAfter (message : string).

(** What happens to the process during one call to the database: time passes,
    the call may fault, and other sessions may hold locks on some rows. *)
Record Tick := mkTick { tk_elapsed : N; tk_fault : option Fault; tk_locked : list string }.

(** What a run leaves to observe outside the tables: the metrics it publishes,
    and each bcrypt comparison it spends, with the digest compared against. *)
Inductive Metric :=
  | BcryptCompare (digest : string)
  | ObserveWebhook (eventType outcome : string) (seconds : float64)
  | IncAuth (operation outcome : string)
  | IncTokenRefresh (outcome : string)
  | SetLedger (processing retryable deadLettered : Z)
  | SetDunning (n : Z)
  | SetPayloadsPastWindow (n : Z)
  | IncInFlight
  | DecInFlight
  | ObserveRequest (method route status : string) (seconds : float64) (bytes : Z).

Record World := mkWorld {
  w_db : Tables;
  w_now : Time;
  w_ctx : option Time;       (* when the caller's context ends, if it does *)
  w_rng : nat → N;           (* random draws *)
  w_draws : nat;             (* how many were taken *)
  w_script : list Tick;      (* what the next calls will meet *)
  w_metrics : list Metric;   (* observations, newest first *)
}.

Definition set_db (t : Tables) (w : World) : World :=
  mkWorld t (w_now w) (w_ctx w) (w_rng w) (w_draws w) (w_script w) (w_metrics w).
Definition add_metric (m : Metric) (w : World) : World :=
  mkWorld (w_db w) (w_now w) (w_ctx w) (w_rng w) (w_draws w) (w_script w) (m :: w_metrics w).
Definition take_draw (w : World) : World :=
  mkWorld (w_db w) (w_now w) (w_ctx w) (w_rng w) (S (w_draws w)) (w_script w) (w_metrics w).

(** A value from the process's random source. *)
Definition draw : M World N := λ w, (w_rng w (w_draws w), take_draw w).

(** [ctx.Err() != nil]. *)
Definition ctx_done (w : World) : bool :=
  match w_ctx w with Some d => d <=? w_now w | None => false end.

Definition next_tick (w : World) : Tick :=
  match w_script w with [] => mkTick 0 None [] | k :: _ => k end.

Definition advance (w : World) : World :=
  mkWorld (w_db w) (w_now w + Z.of_N (tk_elapsed (next_tick w))) (w_ctx w) (w_rng w)
    (S (w_draws w)) (tail (w_script w)) (w_metrics w).

(** What a statement can read besides the tables: [now()], the rows other
    sessions have locked, and a value for [gen_random_uuid()]. *)
Record Call := mkCall { c_now : Time; c_locked : list string; c_uuid : UUID }.

(** One call on the pool or on a transaction. *)
Definition db_call {A} (op : Call → Tables → pgres A * Tables) : M World (pgres A) := λ w,
  let tick := next_tick w in
  let w' := advance w in
  let call := mkCall (w_now w') (tk_locked tick) (w_rng w (w_draws w)) in
  if ctx_done w' then (PErr (DriverErr "context canceled"), w')
  else match tk_fault tick with
  | None => let '(r, t) := op call (w_db w') in (r, set_db t w')
  | Some (FaultBefore m) => (PErr (DriverErr m), w')
  | Some (FaultAfter m) => (PErr (DriverErr m), set_db (op call (w_db w')).2 w')
  end.

(** [pool.Begin]: the call itself; the snapshot to return to is the caller's. *)
Definition tx_begin : M World (pgres Time) := db_call (λ c t, (POk (c_now c), t)).

(** [tx.Commit]: statements of the transaction are already in the tables, so a
    commit that fails before taking effect restores the snapshot. *)
Definition tx_commit (snap : Tables) : M World (pgres unit) := λ w,
  let w' := advance w in
  if ctx_done w' then (PErr (DriverErr "context canceled"), set_db snap w')
  else match tk_fault (next_tick w) with
  | None => (POk tt, w')
  | Some (FaultBefore m) => (PErr (DriverErr m), set_db snap w')
  | Some (FaultAfter m) => (PErr (DriverErr m), w')
  end.

Definition tx_rollback (snap : Tables) : M World unit := modify (set_db snap).

(** [tx := Begin; defer tx.Rollback(); body; return tx.Commit()]: the shape of
    a transaction that commits only on success.  A body that returns an error
    leaves through the deferred rollback. *)
Definition in_tx {A} (op : string) (body : M World (result A)) : M World (result A) :=
  b ← tx_begin;
  match b with
  | PErr e => mret (Err (mapError (op +:+ ": begin") e))
  | POk _ =>
    snap ← gets w_db;
    r ← body;
    match r with
    | Err e => _ ← tx_rollback snap; mret (Err e)
    | Ok a =>
      c ← tx_commit snap;
      match c with
      | PErr e => mret (Err (mapError (op +:+ ": commit") e))
      | POk _ => mret (Ok a)
      end
    end
  end.

(** ** Quiet runs

    Calls take the time they take but none faults, and all of them are over
    before the context ends, if it does. *)
Definition elapsed (script : list Tick) : Z := foldr (λ k t, Z.of_N (tk_elapsed k) + t) 0 script.

Definition quiet (w : World) : Prop :=
  (match w_ctx w with Some d => w_now w + elapsed (w_script w) < d | None => True end) ∧
  Forall (λ k, tk_fault k = None) (w_script w).

Lemma elapsed_nonneg script : 0 ≤ elapsed script.
Proof. induction script; simpl; lia. Qed.

Lemma quiet_advance w : quiet w → quiet (advance w).
Proof.
  intros [Hc Hs]. split; simpl; [|destruct Hs; simpl; [constructor|done]].
  destruct (w_ctx w); [|done]. unfold next_tick. destruct (w_script w); simpl in *; lia.
Qed.

Lemma quiet_next_tick w : quiet w → tk_fault (next_tick w) = None.
Proof. intros [_ Hs]. unfold next_tick. by destruct Hs. Qed.

Lemma quiet_ctx w : quiet w → ctx_done w = false.
Proof.
  intros [Hc _]. unfold ctx_done. destruct (w_ctx w); [|done]. pose proof (elapsed_nonneg (w_script w)). lia.
Qed.

(** Under a deadline of its own that leaves enough time. *)
Lemma quiet_deadline w w1 d :
  quiet w → w_now w1 = w_now w → w_script w1 = w_script w →
  w_ctx w1 = Some (match w_ctx w with Some c => Z.min c (w_now w + d) | None => w_now w + d end) →
  elapsed (w_script w) < d → quiet w1.
Proof.
  intros [Hc Hs] Hn Hsc Hx He. unfold quiet. rewrite Hx, Hn, Hsc. split; [|done]. destruct (w_ctx w); lia.
Qed.

Lemma quiet_set_db t w : quiet w → quiet (set_db t w).
Proof. done. Qed.

Lemma quiet_add_metric m w : quiet w → quiet (add_metric m w).
Proof. done. Qed.

Lemma quiet_take_draw w : quiet w → quiet (take_draw w).
Proof. done. Qed.

#[export] Hint Resolve quiet_advance quiet_set_db quiet_add_metric quiet_take_draw : sps.

(** The call record a quiet statement runs with. *)
Definition call_of (w : World) : Call :=
  mkCall (w_now (advance w)) (tk_locked (next_tick w)) (w_rng w (w_draws w)).

Lemma db_call_quiet {A} (op : Call → Tables → pgres A * Tables) w :
  quiet w →
  db_call op w = ((op (call_of w) (w_db w)).1, set_db (op (call_of w) (w_db w)).2 (advance w)).
Proof.
  intros Hq. unfold db_call. rewrite (quiet_ctx (advance w)) by auto with sps.
  rewrite quiet_next_tick by done. unfold call_of. simpl. by destruct (op _ _).
Qed.

(** A statement that preserves a property of the tables preserves it through a
    call, whatever the call meets. *)
Lemma db_call_preserves {A} (op : Call → Tables → pgres A * Tables) (I : Tables → Prop) w r w' :
  (∀ c t, I t → I (op c t).2) →
  I (w_db w) → db_call op w = (r, w') → I (w_db w').
Proof.
  intros Hop HI. unfold db_call. specialize (Hop (call_of w) (w_db w) HI).
  unfold call_of in Hop. simpl in *.
  destruct (ctx_done _); [by intros [= <- <-]|].
  destruct (tk_fault _) as [[]|]; [by intros [= <- <-]| |].
  - by intros [= <- <-].
  - destruct (op _ _); by intros [= <- <-].
Qed.

(** A call that reports a value ran its statement. *)
Lemma db_call_ok {A} (op : Call → Tables → pgres A * Tables) w a w' :
  db_call op w = (POk a, w') → ∃ c, op c (w_db w) = (POk a, w_db w').
Proof.
  unfold db_call. simpl. destruct (ctx_done _); [done|].
  destruct (tk_fault _) as [[]|]; [done..|]. destruct (op _ _) as [x t] eqn:Hop.
  intros [= -> <-]. eauto.
Qed.

Lemma tx_commit_quiet snap w : quiet w → tx_commit snap w = (POk tt, advance w).
Proof.
  intros Hq. unfold tx_commit. rewrite (quiet_ctx (advance w)) by auto with sps.
  by rewrite quiet_next_tick.
Qed.

Lemma w_db_advance w : w_db (advance w) = w_db w.
Proof. done. Qed.

Lemma db_call_time {A} (op : Call → Tables → pgres A * Tables) w r w' :
  db_call op w = (r, w') → w_now w ≤ w_now w'.
Proof.
  unfold db_call. simpl.
  destruct (ctx_done _); [intros [= <- <-]; simpl; lia|].
  destruct (tk_fault _) as [[]|]; [intros [= <- <-]; simpl; lia| |].
  - intros [= <- <-]; simpl; lia.
  - destruct (op _ _); intros [= <- <-]; simpl; lia.
Qed.

(** ** Transactions *)

(** A transaction is atomic whatever its calls meet: the tables afterwards are
    those before, or those a successful body left; and they are the latter
    whenever it reports success. *)
Lemma in_tx_atomic {A} op (body : M World (result A)) (I : Tables → result A → Tables → Prop) w r w' :
  (∀ w r w', body w = (r, w') → I (w_db w) r (w_db w')) →
  in_tx op body w = (r, w') →
  match r with
  | Ok a => I (w_db w) (Ok a) (w_db w')
  | Err _ => w_db w' = w_db w ∨ ∃ a, I (w_db w) (Ok a) (w_db w')
  end.
Proof.
  intros Hbody. unfold in_tx, tx_begin. unfold_monad.
  destruct (db_call _ w) as [[x|e] w1] eqn:Hb.
  - assert (w_db w1 = w_db w) as Hdb.
    { eapply (db_call_preserves _ (λ t, t = w_db w)); [|done|exact Hb]. by intros c t ->. }
    destruct (body w1) as [[a|e] w2] eqn:Hr; [|intros [= <- <-]; by left].
    apply Hbody in Hr. rewrite Hdb in Hr. unfold tx_commit.
    destruct (ctx_done _); [intros [= <- <-]; by left|].
    destruct (tk_fault _) as [[]|]; intros [= <- <-]; eauto.
  - assert (w_db w1 = w_db w) as Hdb.
    { eapply (db_call_preserves _ (λ t, t = w_db w)); [|done|exact Hb]. by intros c t ->. }
    intros [= <- <-]. by left.
Qed.

Lemma in_tx_quiet {A} op (body : M World (result A)) w :
  quiet w →
  in_tx op body w =
    let '(r, w1) := body (advance w) in
    match r with
    | Err e => (Err e, set_db (w_db w) w1)
    | Ok a => let '(c, w2) := tx_commit (w_db w) w1 in
              (match c with PErr e => Err (mapError (op +:+ ": commit") e) | POk _ => Ok a end, w2)
    end.
Proof.
  intros Hq. unfold in_tx, tx_begin. unfold_monad. rewrite db_call_quiet by done. simpl.
  replace (set_db (w_db w) (advance w)) with (advance w) by done. simpl.
  destruct (body (advance w)) as [[a|e] w1]; [|done].
  by destruct (tx_commit _ w1) as [[]].
Qed.

(** ** mapError, by class of failure *)

Lemma mapError_not_found op e : errors_Is (mapError op e) ErrNotFound = true ↔ e = NoRows.
Proof.
  destruct e as [|code name m|m]; [done| |done].
  unfold mapError. split; [|done]. intros Hx. repeat case_match; vm_compute in Hx; done.
Qed.

Lemma mapError_not_reused op e : errors_Is (mapError op e) ErrTokenReused = false.
Proof. unfold mapError. by repeat case_match. Qed.
