(* ===== verification/JsonText.v ===== *)
(** * encoding/json: text to values and back

    What the handlers use of the package: the text [Encoder.Encode] writes, with
    its HTML-safe escapes, and [Decoder.Decode] into a struct of strings and
    integers with unknown fields disallowed.  The decoder first runs the scanner
    ([GoStd.Json]) over the input until it has one complete value, and only then
    takes the value apart. *)

From Stdlib Require Import Ascii.
From S2P Require Import Prelude GoStd Strconv Network Domain Database.
Open Scope Z_scope.

(** ** UTF-8 *)

(** The length of the rune a string starts with; zero if it is not valid. *)
Definition utf8_len (s : string) : nat :=
  match s with
  | EmptyString => 0
  | String a r =>
    if in_range 0 127 a then 1
    else match r with
    | EmptyString => 0
    | String b r2 =>
      if in_range 194 223 a then (if is_cont b then 2 else 0)
      else match r2 with
      | EmptyString => 0
      | String c r3 =>
        if in_range 224 224 a then (if in_range 160 191 b && is_cont c then 3 else 0)
        else if in_range 237 237 a then (if in_range 128 159 b && is_cont c then 3 else 0)
        else if in_range 225 239 a then (if is_cont b && is_cont c then 3 else 0)
        else match r3 with
        | EmptyString => 0
        | String d _ =>
          if in_range 240 240 a then (if in_range 144 191 b && is_cont c && is_cont d then 4 else 0)
          else if in_range 241 243 a then (if is_cont b && is_cont c && is_cont d then 4 else 0)
          else if in_range 244 244 a then (if in_range 128 143 b && is_cont c && is_cont d then 4 else 0)
          else 0
        end
      end
    end
  end%nat.

Fixpoint take_bytes (n : nat) (s : string) : string :=
  match n, s with
  | S n', String a s' => String a (take_bytes n' s')
  | _, _ => ""
  end.

Fixpoint drop_bytes (n : nat) (s : string) : string :=
  match n, s with
  | S n', String _ s' => drop_bytes n' s'
  | _, _ => s
  end.

(** [utf8.AppendRune], for a code point that is not a surrogate. *)
Definition encode_rune (n : N) : string :=
  if (n <? 128)%N then of_bytes [n]
  else if (n <? 2048)%N then of_bytes [192 + n / 64; 128 + n mod 64]%N
  else if (n <? 65536)%N
  then of_bytes [224 + n / 4096; 128 + n / 64 mod 64; 128 + n mod 64]%N
  else of_bytes [240 + n / 262144; 128 + n / 4096 mod 64; 128 + n / 64 mod 64; 128 + n mod 64]%N.

Definition RuneError : string := of_bytes [239; 191; 189]%N.

(** ** Encoding *)

Definition quote_char : string := of_bytes [34%N].
Definition backslash : string := of_bytes [92%N].

(** The text of an escape with four hexadecimal digits. *)
Definition u_escape (n : N) : string :=
  backslash +:+ "u" +:+ String.string_of_list_ascii
    (hex_char <$> [n / 4096 mod 16; n / 256 mod 16; n / 16 mod 16; n mod 16]%N).

Definition escape_byte (a : ascii) : string :=
  match byte_val a with
  | 34 => backslash +:+ quote_char
  | 92 => backslash +:+ backslash
  | 8 => backslash +:+ "b" | 12 => backslash +:+ "f" | 10 => backslash +:+ "n"
  | 13 => backslash +:+ "r" | 9 => backslash +:+ "t"
  | n => if (n <? 32)%N || (n =? 60)%N || (n =? 62)%N || (n =? 38)%N then u_escape n else String a ""
  end%N.

(** What to do with the next bytes: they are the rest of a rune to copy, or of
    one already written. *)
Inductive pending := Copy (n : nat) | Skip (n : nat).

Fixpoint escape_from (p : pending) (s : string) : string :=
  match s with
  | EmptyString => ""
  | String a s' =>
    match p with
    | Copy (S k) => String a (escape_from (Copy k) s')
    | Skip (S k) => escape_from (Skip k) s'
    | _ =>
      if is_ascii_byte a then escape_byte a +:+ escape_from (Copy 0) s'
      else match utf8_len s with
           | O => u_escape 65533 +:+ escape_from (Copy 0) s'
           | S k =>
             if HasPrefix s (encode_rune 8232) then u_escape 8232 +:+ escape_from (Skip k) s'
             else if HasPrefix s (encode_rune 8233) then u_escape 8233 +:+ escape_from (Skip k) s'
             else String a (escape_from (Copy k) s')
           end
    end
  end.

Definition json_string (s : string) : string := quote_char +:+ escape_from (Copy 0) s +:+ quote_char.

Fixpoint json_text (j : json) : string :=
  match j with
  | JNull => "null"
  | JBool b => if b then "true" else "false"
  | JNum n => n
  | JStr s => json_string s
  | JArr l => "[" +:+ Join (map json_text l) "," +:+ "]"
  | JObj l => "{" +:+ Join (map (λ kv, json_string kv.1 +:+ ":" +:+ json_text kv.2) l) "," +:+ "}"
  end.

(** ** Reading one value *)

Inductive DecodeError :=
  | SyntaxError
  | UnexpectedEOF
  | EOF
  | MaxBytesError
  | ReadError (text : string)
  | UnmarshalTypeError (field : string)
  | UnknownField (key : string).

(** How reading the body ends. *)
Inductive InputEnd := AtEOF | AtLimit | Broken (text : string).

(** A number, a literal or a string at the top level is over once a byte that
    does not belong to it follows. *)
Definition scalar_done (sc : Json.scanner) (c : ascii) : bool :=
  bool_decide (Json.stack sc = []) &&
  let is_e := in_range 101 101 c || in_range 69 69 c in
  match Json.st sc with
  | Json.EndValue => true
  | Json.Int1 => negb (is_digit c || in_range 46 46 c || is_e)
  | Json.Int0 => negb (in_range 46 46 c || is_e)
  | Json.Dot0 => negb (is_digit c || is_e)
  | Json.Exp0 => negb (is_digit c)
  | _ => false
  end.

#[global] Instance pstate_eq_dec : EqDecision Json.pstate.
Proof. solve_decision. Defined.

(** The text of the value, reversed in [acc], and what follows it. *)
Fixpoint read_value (e : InputEnd) (sc : Json.scanner) (acc s : string)
    : (string * string) + DecodeError :=
  match s with
  | EmptyString =>
    match e with
    | AtEOF => if scalar_done sc " " then inl (string_rev acc "", "")
               else inr (if str_forall Json.is_space acc then EOF else UnexpectedEOF)
    | AtLimit => inr MaxBytesError
    | Broken text => inr (ReadError text)
    end
  | String c s' =>
    if scalar_done sc c then inl (string_rev acc "", s)
    else match Json.feed sc c with
         | None => inr SyntaxError
         | Some sc' => if Json.endTop sc' then inl (string_rev (String c acc) "", s')
                       else read_value e sc' (String c acc) s'
         end
  end.

Definition scan_value (e : InputEnd) (s : string) : (string * string) + DecodeError :=
  read_value e (Json.mkScanner Json.BeginValue [] false) "" s.

(** ** Taking a value apart *)

Fixpoint skip_space (s : string) : string :=
  match s with
  | String a s' => if Json.is_space a then skip_space s' else s
  | EmptyString => ""
  end.

Definition hex4 (s : string) : option (N * string) :=
  match s with
  | String a (String b (String c (String d r))) =>
      x ← hex_val a; y ← hex_val b; z ← hex_val c; w ← hex_val d;
      Some (x * 4096 + y * 256 + z * 16 + w, r)%N
  | _ => None
  end.

(** A surrogate pair, or the replacement character for a lone one. *)
Definition surrogate (n : N) (r : string) : string * string :=
  match strip_prefix (backslash +:+ "u") r ≫= hex4 with
  | Some (n2, r2) =>
      if ((n <? 56320) && (56320 <=? n2) && (n2 <? 57344))%N
      then (encode_rune (65536 + (n - 55296) * 1024 + (n2 - 56320))%N, r2)
      else (RuneError, r)
  | None => (RuneError, r)
  end.

(** What an escape stands for, and the rest after it. *)
Definition unescape_one (s : string) : option (string * string) :=
  match s with
  | EmptyString => None
  | String e r =>
    match byte_val e with
    | 98 => Some (of_bytes [8], r) | 102 => Some (of_bytes [12], r) | 110 => Some (of_bytes [10], r)
    | 114 => Some (of_bytes [13], r) | 116 => Some (of_bytes [9], r)
    | 117 => '(n, r') ← hex4 r;
             Some (if ((55296 <=? n) && (n <? 57344))%N then surrogate n r' else (encode_rune n, r'))
    | _ => Some (String e "", r)
    end%N
  end.

(** A string after its opening quote; invalid UTF-8 is replaced. *)
Fixpoint parse_string (fuel : nat) (s : string) : option (string * string) :=
  match fuel, s with
  | S fuel', String a s' =>
    if (byte_val a =? 34)%N then Some ("", s')
    else if (byte_val a =? 92)%N
    then '(t, r) ← unescape_one s'; '(u, r') ← parse_string fuel' r; Some (t +:+ u, r')
    else if is_ascii_byte a
    then '(u, r) ← parse_string fuel' s'; Some (String a u, r)
    else match utf8_len s with
         | O => '(u, r) ← parse_string fuel' s'; Some (RuneError +:+ u, r)
         | n => '(u, r) ← parse_string fuel' (drop_bytes n s); Some (take_bytes n s +:+ u, r)
         end
  | _, _ => None
  end.

Fixpoint span_number (s : string) : string * string :=
  match s with
  | String a s' =>
      if is_digit a || in_range 43 43 a || in_range 45 46 a || in_range 101 101 a || in_range 69 69 a
      then let '(n, r) := span_number s' in (String a n, r) else ("", s)
  | EmptyString => ("", "")
  end.

(** A value the scanner has accepted. *)
Fixpoint parse_value (fuel : nat) (s : string) : option (json * string) :=
  match fuel, skip_space s with
  | S fuel', String a s' =>
    match byte_val a with
    | 34 => '(t, r) ← parse_string (S (String.length s')) s'; Some (JStr t, r)
    | 123 =>
        match skip_space s' with
        | String b r => if (byte_val b =? 125)%N then Some (JObj [], r)
                        else '(l, r') ← parse_members fuel' (String b r); Some (JObj l, r')
        | EmptyString => None
        end
    | 91 =>
        match skip_space s' with
        | String b r => if (byte_val b =? 93)%N then Some (JArr [], r)
                        else '(l, r') ← parse_elements fuel' (String b r); Some (JArr l, r')
        | EmptyString => None
        end
    | 116 => r ← strip_prefix "rue" s'; Some (JBool true, r)
    | 102 => r ← strip_prefix "alse" s'; Some (JBool false, r)
    | 110 => r ← strip_prefix "ull" s'; Some (JNull, r)
    | _ => let '(n, r) := span_number (String a s') in Some (JNum n, r)
    end%N
  | _, _ => None
  end
with parse_members (fuel : nat) (s : string) : option (list (string * json) * string) :=
  match fuel, skip_space s with
  | S fuel', String a s' =>
    if negb (byte_val a =? 34)%N then None
    else
      '(k, r) ← parse_string (S (String.length s')) s';
      r ← strip_prefix ":" (skip_space r);
      '(v, r) ← parse_value fuel' r;
      match skip_space r with
      | String c r' =>
          if (byte_val c =? 44)%N then '(l, r'') ← parse_members fuel' r'; Some ((k, v) :: l, r'')
          else Some ([(k, v)], r')
      | EmptyString => None
      end
  | _, _ => None
  end
with parse_elements (fuel : nat) (s : string) : option (list json * string) :=
  match fuel with
  | O => None
  | S fuel' =>
    '(v, r) ← parse_value fuel' s;
    match skip_space r with
    | String c r' =>
        if (byte_val c =? 44)%N then '(l, r'') ← parse_elements fuel' r'; Some (v :: l, r'')
        else Some ([v], r')
    | EmptyString => None
    end
  end.

(** ** Decoding into a struct *)

(** The fields of the request types: [string], [*string] and [int64]. *)
Inductive FieldValue := FString (s : string) | FPointer (s : option string) | FInt (z : Z).

(** A struct: the JSON names of its fields with their values. *)
Definition Struct := list (string * FieldValue).

(** [foldName], on the names it is compared with: ASCII letters in upper case,
    and the two other characters that fold to one. *)
Definition upper_byte (a : ascii) : ascii := if is_lower a then ascii_of_N (byte_val a - 32) else a.

Fixpoint fold_name (s : string) : string :=
  match s with
  | String a ((String b r2) as r1) =>
      if in_range 197 197 a && in_range 191 191 b then String "S" (fold_name r2)
      else match r2 with
           | String c r3 =>
               if in_range 226 226 a && in_range 132 132 b && in_range 170 170 c
               then String "K" (fold_name r3) else String (upper_byte a) (fold_name r1)
           | EmptyString => String (upper_byte a) (fold_name r1)
           end
  | String a r => String (upper_byte a) (fold_name r)
  | EmptyString => ""
  end.

(** An exact name first, then one that differs in case only. *)
Definition find_field (st : Struct) (key : string) : option string :=
  if bool_decide (key ∈ st.*1) then Some key
  else fst <$> (snd <$> list_find (λ f, fold_name f.1 = fold_name key) st).

(** A JSON value stored in a field; [None] is a type error.  [null] clears a
    pointer and leaves the rest alone. *)
Definition store (f : FieldValue) (v : json) : option FieldValue :=
  match v, f with
  | JNull, FPointer _ => Some (FPointer None)
  | JNull, _ => Some f
  | JStr s, FString _ => Some (FString s)
  | JStr s, FPointer _ => Some (FPointer (Some s))
  | JNum n, FInt _ => FInt <$> Atoi n
  | _, _ => None
  end.

Definition set_field (name : string) (v : FieldValue) : Struct → Struct :=
  fmap (λ f, if bool_decide (f.1 = name) then (name, v) else f).

(** Every member is visited; the first error is the one reported. *)
Definition decode_member (acc : Struct * option DecodeError) (m : string * json)
    : Struct * option DecodeError :=
  let '(st, err) := acc in
  let save e := match err with Some _ => err | None => Some e end in
  match find_field st m.1 with
  | None => (st, save (UnknownField m.1))
  | Some name =>
    match snd <$> (snd <$> list_find (λ f, f.1 = name) st) with
    | None => (st, err)
    | Some f => match store f m.2 with
                | Some f' => (set_field name f' st, err)
                | None => (st, save (UnmarshalTypeError name))
                end
    end
  end.

Definition decode_struct (st : Struct) (v : json) : Struct + DecodeError :=
  match v with
  | JObj l => match foldl decode_member (st, None) l with
              | (st', None) => inl st'
              | (_, Some e) => inr e
              end
  | JNull => inl st
  | _ => inr (UnmarshalTypeError "")
  end.

(** [Decoder.Decode] with [DisallowUnknownFields]: the struct and what is left
    of the input. *)
Definition Decode (st : Struct) (e : InputEnd) (s : string) : (Struct * string) + DecodeError :=
  match scan_value e s with
  | inr err => inr err
  | inl (text, rest) =>
    match parse_value (S (String.length text)) text with
    | Some (v, _) => match decode_struct st v with
                     | inl st' => inl (st', rest)
                     | inr err => inr err
                     end
    | None => inr SyntaxError
    end
  end.

(** [Decoder.More]: another byte that is not white space follows, and it is not
    a closing bracket or brace. *)
Definition More (rest : string) : bool :=
  match skip_space rest with
  | EmptyString => false
  | String c _ => negb (in_range 93 93 c || in_range 125 125 c)
  end.

Example decode_login :
  Decode [("email", FString ""); ("password", FString "")] AtEOF
    (json_text (JObj [("Email", JStr "a<b"); ("password", JNull); ("email", JStr (of_bytes [34; 195; 169; 10]%N))]) +:+ " ]") =
  inl ([("email", FString (of_bytes [34; 195; 169; 10]%N)); ("password", FString "")], " ]").
Proof. vm_compute. reflexivity. Qed.
Example decode_unknown :
  Decode [("email", FString "")] AtEOF (json_text (JObj [("user_id", JNum "1")])) = inr (UnknownField "user_id").
Proof. vm_compute. reflexivity. Qed.
Example decode_surrogates :
  parse_string 100 (backslash +:+ "ud83d" +:+ backslash +:+ "ude00" +:+ backslash +:+ "ud83d" +:+ quote_char) =
  Some (of_bytes [240; 159; 152; 128; 239; 191; 189]%N, "").
Proof. vm_compute. reflexivity. Qed.
Example decode_truncated : Decode [] AtEOF "{" = inr UnexpectedEOF.
Proof. vm_compute. reflexivity. Qed.
Example decode_empty : Decode [] AtEOF "  " = inr EOF.
Proof. vm_compute. reflexivity. Qed.
Example decode_scalar : Decode [] AtEOF "12x" = inr (UnmarshalTypeError "").
Proof. vm_compute. reflexivity. Qed.
