(* ===== verification/JsonRoundtrip.v ===== *)
(** * What is encoded decodes to what it was

    A flat object written by [json_text] is read back by [Decode], whatever
    follows it in the input. *)

From Stdlib Require Import Ascii.
From S2P Require Import Prelude GoStd Strconv Network Domain Database JsonText.
Open Scope Z_scope.

(** ** Strings *)

Lemma string_rev_app x y acc : string_rev (x +:+ y) acc = string_rev y (string_rev x acc).
Proof. revert acc. induction x as [|a x IH]; intros acc; [done|]. apply IH. Qed.

Lemma string_rev_rev x acc : string_rev (string_rev x acc) "" = string_rev acc "" +:+ x.
Proof.
  revert acc. induction x as [|a x IH]; intros acc; simpl.
  - clear. assert (∀ s t : string, s +:+ "" = s) as H by (intros s; induction s as [|a s IHs]; intros; [done|];
      change (String a (s +:+ "") = String a s); by rewrite IHs). by rewrite H.
  - rewrite IH. simpl. change (string_rev acc (String a "") +:+ x = string_rev acc "" +:+ String a x).
    assert (∀ s t : string, string_rev s t = string_rev s "" +:+ t) as Hr.
    { intros s. induction s as [|b s IHs]; intros t; [done|]. simpl. rewrite IHs, (IHs (String b "")).
      by rewrite append_assoc_str. }
    by rewrite Hr, append_assoc_str.
Qed.

Lemma append_nil_r (s : string) : s +:+ "" = s.
Proof. induction s as [|a s IH]; [done|]. change (String a (s +:+ "") = String a s). by rewrite IH. Qed.

Lemma take_drop_bytes n s : take_bytes n s +:+ drop_bytes n s = s.
Proof.
  revert s. induction n as [|n IH]; intros s; [done|]. destruct s as [|a s]; [done|].
  change (String a (take_bytes n s +:+ drop_bytes n s) = String a s). by rewrite IH.
Qed.

(** ** Runes *)

Lemma ValidString_rune s :
  ValidString s = true → s ≠ "" →
  ∃ n, utf8_len s = S n ∧ (S n ≤ String.length s)%nat ∧ ValidString (drop_bytes (S n) s) = true.
Proof.
  destruct s as [|a s]; [done|]. intros Hv _. unfold ValidString in Hv. fold ValidString in Hv.
  unfold utf8_len. simpl drop_bytes.
  destruct (in_range 0 127 a); [exists 0%nat; simpl; split_and!; [done|lia|done]|].
  destruct s as [|b s]; [done|].
  destruct (in_range 194 223 a).
  { apply andb_true_iff in Hv as [-> Hv]. exists 1%nat. simpl. split_and!; [done|lia|done]. }
  destruct s as [|c s]; [done|].
  destruct (in_range 224 224 a).
  { apply andb_true_iff in Hv as [-> Hv]. exists 2%nat. simpl. split_and!; [done|lia|done]. }
  destruct (in_range 237 237 a).
  { apply andb_true_iff in Hv as [-> Hv]. exists 2%nat. simpl. split_and!; [done|lia|done]. }
  destruct (in_range 225 239 a).
  { apply andb_true_iff in Hv as [-> Hv]. exists 2%nat. simpl. split_and!; [done|lia|done]. }
  destruct s as [|d s]; [done|].
  destruct (in_range 240 240 a).
  { apply andb_true_iff in Hv as [-> Hv]. exists 3%nat. simpl. split_and!; [done|lia|done]. }
  destruct (in_range 241 243 a).
  { apply andb_true_iff in Hv as [-> Hv]. exists 3%nat. simpl. split_and!; [done|lia|done]. }
  destruct (in_range 244 244 a); [|done].
  apply andb_true_iff in Hv as [-> Hv]. exists 3%nat. simpl. split_and!; [done|lia|done].
Qed.

(** The length of the first rune depends on its bytes only. *)
Lemma utf8_len_prefix s n t : utf8_len s = S n → utf8_len (take_bytes (S n) s +:+ t) = S n.
Proof.
  destruct s as [|a s]; [done|]. unfold utf8_len.
  destruct (in_range 0 127 a) eqn:E0; [intros [= <-]; simpl; by rewrite E0|].
  destruct s as [|b s]; [done|].
  destruct (in_range 194 223 a) eqn:E1; [case_match; intros [= <-]; simpl; by rewrite E0, E1, ?H|].
  destruct s as [|c s]; [done|].
  destruct (in_range 224 224 a) eqn:E2; [case_match; intros [= <-]; simpl; by rewrite E0, E1, E2, ?H|].
  destruct (in_range 237 237 a) eqn:E3; [case_match; intros [= <-]; simpl; by rewrite E0, E1, E2, E3, ?H|].
  destruct (in_range 225 239 a) eqn:E4; [case_match; intros [= <-]; simpl; by rewrite E0, E1, E2, E3, E4, ?H|].
  destruct s as [|d s]; [done|].
  destruct (in_range 240 240 a) eqn:E5; [case_match; intros [= <-]; simpl; by rewrite E0, E1, E2, E3, E4, E5, ?H|].
  destruct (in_range 241 243 a) eqn:E6; [case_match; intros [= <-]; simpl; by rewrite E0, E1, E2, E3, E4, E5, E6, ?H|].
  destruct (in_range 244 244 a) eqn:E7; [|done].
  case_match; intros [= <-]; simpl; by rewrite E0, E1, E2, E3, E4, E5, E6, E7, ?H.
Qed.

Lemma escape_copy k s :
  (k ≤ String.length s)%nat →
  escape_from (Copy k) s = take_bytes k s +:+ escape_from (Copy 0) (drop_bytes k s).
Proof.
  revert s. induction k as [|k IH]; intros s Hk; [done|]. destruct s as [|a s]; [simpl in Hk; lia|].
  simpl in Hk. change (String a (escape_from (Copy k) s) =
    String a (take_bytes k s +:+ escape_from (Copy 0) (drop_bytes k s))). rewrite IH by lia. done.
Qed.

Lemma escape_skip0 s : escape_from (Skip 0) s = escape_from (Copy 0) s.
Proof. by destruct s. Qed.

Lemma escape_skip k s : escape_from (Skip k) s = escape_from (Copy 0) (drop_bytes k s).
Proof.
  revert s. induction k as [|k IH]; intros s; [apply escape_skip0|]. destruct s as [|a s]; [done|]. apply IH.
Qed.

(** One step of [escape_from] on valid text: a single byte, one of the two line
    separators, or another rune. *)
Lemma escape_cases a s :
  ValidString (String a s) = true →
  (is_ascii_byte a = true ∧ ValidString s = true ∧
   escape_from (Copy 0) (String a s) = escape_byte a +:+ escape_from (Copy 0) s) ∨
  (∃ n, is_ascii_byte a = false ∧ utf8_len (String a s) = S n ∧ (n ≤ String.length s)%nat ∧
   ValidString (drop_bytes n s) = true ∧
   ((∃ u, u ∈ [8232; 8233]%N ∧ take_bytes (S n) (String a s) = encode_rune u ∧
     escape_from (Copy 0) (String a s) = u_escape u +:+ escape_from (Copy 0) (drop_bytes n s)) ∨
    escape_from (Copy 0) (String a s) =
      take_bytes (S n) (String a s) +:+ escape_from (Copy 0) (drop_bytes n s))).
Proof.
  intros Hv. destruct (ValidString_rune _ Hv) as (n & Hn & Hl & Hd); [done|].
  destruct (is_ascii_byte a) eqn:Ha.
  - left. assert (in_range 0 127 a = true) as Hr.
    { apply N.ltb_lt in Ha. unfold in_range. rewrite andb_true_iff, !N.leb_le. lia. }
    split_and!; [done| |cbn [escape_from]; by rewrite Ha].
    simpl in Hn. rewrite Hr in Hn. injection Hn as <-. done.
  - right. exists n. simpl in Hl, Hd. split_and!; [done|done|lia|done|].
    cbn [escape_from]. rewrite Ha, Hn.
    destruct (HasPrefix (String a s) (encode_rune 8232)) eqn:H1;
      [|destruct (HasPrefix (String a s) (encode_rune 8233)) eqn:H2].
    + left. exists 8232%N. rewrite escape_skip. apply HasPrefix_spec in H1 as [r H1]. rewrite H1 in *.
      assert (n = 2)%nat as -> by (simpl in Hn; congruence). set_solver.
    + left. exists 8233%N. rewrite escape_skip. apply HasPrefix_spec in H2 as [r H2]. rewrite H2 in *.
      assert (n = 2)%nat as -> by (simpl in Hn; congruence). set_solver.
    + right. rewrite escape_copy by lia. done.
Qed.

(** ** The scanner *)

(** The scanner over part of a value inside an object: [read_value] consumes it
    all. *)
Fixpoint inside (sc : Json.scanner) (x : string) : option Json.scanner :=
  match x with
  | EmptyString => Some sc
  | String c x' =>
    match Json.stack sc, Json.feed sc c with
    | _ :: _, Some sc' => if Json.endTop sc' then None else inside sc' x'
    | _, _ => None
    end
  end.

Lemma read_inside e sc x sc' acc y :
  inside sc x = Some sc' → read_value e sc acc (x +:+ y) = read_value e sc' (string_rev x acc) y.
Proof.
  revert sc acc. induction x as [|c x IH]; intros sc acc; [by intros [= ->]|].
  change (String c x +:+ y) with (String c (x +:+ y)). cbn [inside read_value string_rev].
  destruct (Json.stack sc) as [|p ps] eqn:Hs; [done|].
  destruct (Json.feed sc c) as [sc1|] eqn:Hf; [|done]. destruct (Json.endTop sc1) eqn:He; [done|].
  intros Hi. unfold scalar_done. rewrite Hs, bool_decide_eq_false_2 by done. cbn [andb].
  by apply IH.
Qed.

Lemma inside_app sc x y sc' : inside sc x = Some sc' → inside sc (x +:+ y) = inside sc' y.
Proof.
  revert sc. induction x as [|c x IH]; intros sc; [by intros [= ->]|].
  change (String c x +:+ y) with (String c (x +:+ y)). cbn [inside].
  destruct (Json.stack sc); [done|]. destruct (Json.feed sc c) as [sc1|]; [|done].
  destruct (Json.endTop sc1); [done|]. apply IH.
Qed.

Section Scanner.
Context (p : Json.pstate) (ps : list Json.pstate).
Let sc_in : Json.scanner := Json.mkScanner Json.InString (p :: ps) false.
Let sc_end : Json.scanner := Json.mkScanner Json.EndValue (p :: ps) false.

Lemma inside_escape_byte a : is_ascii_byte a = true → inside sc_in (escape_byte a) = Some sc_in.
Proof. destruct a as [[] [] [] [] [] [] [] []]; try discriminate; reflexivity. Qed.

Lemma inside_high s : str_forall (λ a, negb (is_ascii_byte a)) s = true → inside sc_in s = Some sc_in.
Proof.
  induction s as [|a s IH]; [done|]. intros [Ha Hs]%andb_true_iff.
  assert (Json.feed sc_in a = Some sc_in) as Hf.
  { destruct a as [[] [] [] [] [] [] [] []]; try discriminate; reflexivity. }
  simpl. change (Json.feed (Json.mkScanner Json.InString (p :: ps) false) a) with (Json.feed sc_in a).
  rewrite Hf. simpl. by apply IH.
Qed.

(** The bytes of a rune that is not one byte are not ASCII. *)
Lemma rune_high a s n :
  is_ascii_byte a = false → utf8_len (String a s) = S n →
  str_forall (λ a, negb (is_ascii_byte a)) (take_bytes (S n) (String a s)) = true.
Proof.
  intros Ha. assert (∀ lo hi b, (128 <=? lo)%N = true → in_range lo hi b = true → is_ascii_byte b = false) as Hr.
  { intros lo hi b Hlo%N.leb_le [Hb _]%andb_true_iff. apply N.leb_le in Hb. unfold is_ascii_byte.
    apply N.ltb_ge. lia. }
  assert (in_range 0 127 a = false) as H0.
  { unfold is_ascii_byte in Ha. apply N.ltb_ge in Ha. unfold in_range.
    rewrite andb_false_iff, !N.leb_gt. lia. }
  unfold utf8_len. rewrite H0. unfold is_cont.
  destruct s as [|b [|c [|d s]]]; repeat (case_match; try done); intros [= <-]; simpl; rewrite Ha;
    repeat match goal with
    | H : _ && _ = true |- _ => apply andb_true_iff in H as [? ?]
    | H : in_range _ _ _ = true |- _ => apply Hr in H; [|reflexivity]
    end;
    repeat match goal with H : is_ascii_byte ?x = false |- _ => rewrite H; clear H end; done.
Qed.

Lemma inside_escape s : ValidString s = true → inside sc_in (escape_from (Copy 0) s) = Some sc_in.
Proof.
  remember (String.length s) as k eqn:Hk. revert s Hk. induction k as [k IH] using lt_wf_ind. intros s -> Hv.
  destruct s as [|a s]; [done|].
  destruct (escape_cases a s Hv) as [(Ha & Hv' & ->)|(n & Ha & Hn & Hl & Hv' & [(u & Hu & _ & ->)| ->])].
  - rewrite (inside_app _ _ _ sc_in) by by apply inside_escape_byte. eapply IH; [|done..]. simpl. lia.
  - rewrite (inside_app _ _ _ sc_in).
    + eapply IH; [|done..]. rewrite <- (take_drop_bytes n s) at 2. simpl. rewrite length_append. lia.
    + rewrite !elem_of_cons in Hu. destruct Hu as [->|[->|[]%elem_of_nil]]; reflexivity.
  - rewrite (inside_app _ _ _ sc_in) by (apply inside_high; by apply rune_high).
    eapply IH; [|done..]. rewrite <- (take_drop_bytes n s) at 2. simpl. rewrite length_append. lia.
Qed.
End Scanner.

(** ** The parser *)

(** An escaped byte, or a [\u] escape, is one step of the parser. *)
Lemma parse_escape_byte a fuel t :
  is_ascii_byte a = true →
  parse_string (S fuel) (escape_byte a +:+ t) =
    ('(u, r) ← parse_string fuel t; Some (String a u, r)).
Proof.
  destruct a as [[] [] [] [] [] [] [] []]; try discriminate; intros _; reflexivity.
Qed.

Lemma parse_separator u fuel t :
  u ∈ [8232; 8233]%N →
  parse_string (S fuel) (u_escape u +:+ t) =
    ('(x, r) ← parse_string fuel t; Some (encode_rune u +:+ x, r)).
Proof.
  rewrite !elem_of_cons. intros [->|[->|[]%elem_of_nil]]; reflexivity.
Qed.

Lemma parse_rune a s n fuel t :
  is_ascii_byte a = false → utf8_len (String a s) = S n → (n ≤ String.length s)%nat →
  parse_string (S fuel) (take_bytes (S n) (String a s) +:+ t) =
    ('(u, r) ← parse_string fuel t; Some (take_bytes (S n) (String a s) +:+ u, r)).
Proof.
  intros Ha Hn Hl. pose proof (utf8_len_prefix _ _ t Hn) as Hp.
  change (take_bytes (S n) (String a s)) with (String a (take_bytes n s)) in *.
  change (String a (take_bytes n s) +:+ t) with (String a (take_bytes n s +:+ t)) in *.
  cbn [parse_string]. rewrite Hp, Ha.
  unfold is_ascii_byte in Ha. apply N.ltb_ge in Ha.
  rewrite (proj2 (N.eqb_neq (byte_val a) 34)), (proj2 (N.eqb_neq (byte_val a) 92)) by lia.
  cbn [drop_bytes take_bytes].
  assert (take_bytes n (take_bytes n s +:+ t) = take_bytes n s ∧ drop_bytes n (take_bytes n s +:+ t) = t) as [-> ->].
  { clear -Hl. revert s Hl. induction n as [|n IH]; intros s Hl; [done|]. destruct s as [|b s]; [simpl in Hl; lia|].
    simpl in Hl. destruct (IH s) as [H1 H2]; [lia|].
    change (take_bytes (S n) (String b s) +:+ t) with (String b (take_bytes n s +:+ t)). simpl. by rewrite H1, H2. }
  done.
Qed.

(** Reading a quoted string gives it back. *)
Lemma parse_string_escape s fuel r :
  ValidString s = true → (String.length s < fuel)%nat →
  parse_string fuel (escape_from (Copy 0) s +:+ quote_char +:+ r) = Some (s, r).
Proof.
  remember (String.length s) as k eqn:Hk. revert s fuel Hk. induction k as [k IH] using lt_wf_ind.
  intros s fuel -> Hv Hf. destruct fuel as [|fuel]; [lia|]. destruct s as [|a s]; [done|]. simpl in Hf.
  assert (∀ n, (String.length (drop_bytes n s) ≤ String.length s)%nat) as Hd.
  { intros n. rewrite <- (take_drop_bytes n s) at 2. rewrite length_append. lia. }
  destruct (escape_cases a s Hv) as [(Ha & Hv' & ->)|(n & Ha & Hn & Hl & Hv' & [(u & Hu & Ht & ->)| ->])];
    rewrite append_assoc_str.
  - rewrite parse_escape_byte by done. rewrite (IH (String.length s)); [done|simpl; lia|done..|lia].
  - rewrite parse_separator by done. specialize (Hd n).
    rewrite (IH (String.length (drop_bytes n s))); [|simpl; lia|done..|lia].
    simpl. rewrite <- Ht. change (take_bytes (S n) (String a s)) with (String a (take_bytes n s)).
    change (Some (String a (take_bytes n s +:+ drop_bytes n s), r) = Some (String a s, r)).
    by rewrite take_drop_bytes.
  - rewrite parse_rune by done. specialize (Hd n).
    rewrite (IH (String.length (drop_bytes n s))); [|simpl; lia|done..|lia].
    change (Some (String a (take_bytes n s +:+ drop_bytes n s), r) = Some (String a s, r)).
    by rewrite take_drop_bytes.
Qed.

(** Escaping never shortens a valid text. *)
Lemma escape_longer s : ValidString s = true → (String.length s ≤ String.length (escape_from (Copy 0) s))%nat.
Proof.
  remember (String.length s) as k eqn:Hk. revert s Hk. induction k as [k IH] using lt_wf_ind. intros s -> Hv.
  destruct s as [|a s]; [simpl; lia|].
  assert (∀ n, String.length s = String.length (take_bytes n s) + String.length (drop_bytes n s))%nat as Hd
    by (intros n; by rewrite <- length_append, take_drop_bytes).
  destruct (escape_cases a s Hv) as [(Ha & Hv' & ->)|(n & Ha & Hn & Hl & Hv' & [(u & Hu & Ht & ->)| ->])];
    rewrite length_append.
  - specialize (IH (String.length s)). simpl in IH. specialize (IH ltac:(lia) s eq_refl Hv').
    assert (1 ≤ String.length (escape_byte a))%nat
      by (destruct a as [[] [] [] [] [] [] [] []]; vm_compute; lia). simpl. lia.
  - specialize (Hd n). specialize (IH (String.length (drop_bytes n s)) ltac:(simpl; lia) _ eq_refl Hv').
    assert (String.length (take_bytes n s) < String.length (u_escape u))%nat; [|cbn [String.length]; lia].
    change (take_bytes (S n) (String a s)) with (String a (take_bytes n s)) in Ht.
    apply (f_equal String.length) in Ht. cbn [String.length] in Ht.
    assert (String.length (encode_rune u) = 3 ∧ String.length (u_escape u) = 6)%nat as [H3 H6].
    { rewrite !elem_of_cons in Hu. by destruct Hu as [->|[->|[]%elem_of_nil]]. }
    rewrite H6. lia.
  - specialize (Hd n). specialize (IH (String.length (drop_bytes n s)) ltac:(simpl; lia) _ eq_refl Hv').
    simpl. lia.
Qed.

(** ** Flat objects *)

Definition quote_ascii : ascii := ascii_of_N 34.

(** The bytes a number is made of. *)
Definition is_number_byte (a : ascii) : bool :=
  is_digit a || in_range 43 43 a || in_range 45 46 a || in_range 101 101 a || in_range 69 69 a.

(** A number the scanner accepts as the value of a member. *)
Definition num_ok (n : string) : bool :=
  str_forall is_number_byte n &&
  match inside (Json.mkScanner Json.BeginValue [Json.parseObjectValue] false) n with
  | Some sc => match Json.st sc with
               | Json.Int0 | Json.Int1 | Json.Dot0 | Json.Exp0 =>
                   bool_decide (Json.stack sc = [Json.parseObjectValue]) && negb (Json.endTop sc)
               | _ => false
               end
  | None => false
  end.

Definition member_ok (m : string * json) : bool :=
  ValidString m.1 &&
  match m.2 with
  | JStr s => ValidString s
  | JNum n => num_ok n
  | JNull | JBool _ => true
  | _ => false
  end.

Definition member_text (m : string * json) : string := json_string m.1 +:+ ":" +:+ json_text m.2.

Definition before_value : Json.scanner := Json.mkScanner Json.BeginValue [Json.parseObjectValue] false.

(** After a scalar, the scanner treats a delimiter as it does after any value. *)
Definition after_value (sc : Json.scanner) : Prop :=
  Json.stack sc = [Json.parseObjectValue] ∧ Json.endTop sc = false ∧
  Json.feed sc "," = Some (Json.mkScanner Json.BeginString [Json.parseObjectKey] false) ∧
  Json.feed sc "}" = Some (Json.mkScanner Json.EndTop [] true).

Lemma inside_json_string st p ps s :
  Json.feed (Json.mkScanner st (p :: ps) false) quote_ascii = Some (Json.mkScanner Json.InString (p :: ps) false) →
  ValidString s = true →
  inside (Json.mkScanner st (p :: ps) false) (json_string s) = Some (Json.mkScanner Json.EndValue (p :: ps) false).
Proof.
  intros Hq Hv. unfold json_string.
  change (quote_char +:+ escape_from (Copy 0) s +:+ quote_char) with
    (String quote_ascii (escape_from (Copy 0) s +:+ quote_char)).
  cbn [inside Json.stack]. rewrite Hq. cbn [Json.endTop].
  by rewrite (inside_app _ _ _ _ (inside_escape p ps s Hv)).
Qed.

Lemma inside_value v : member_ok ("", v) = true → ∃ sc, inside before_value (json_text v) = Some sc ∧ after_value sc.
Proof.
  unfold member_ok. simpl. destruct v as [|b|n|s|l|l]; try done.
  - intros _. eexists. by split.
  - intros _. destruct b; eexists; by split.
  - unfold num_ok, before_value. intros [_ Hn]%andb_true_iff. cbn [json_text].
    destruct (inside _ n) as [[st ps et]|]; [|done]. eexists. split; [done|]. unfold after_value. simpl in *.
    destruct st; try done; apply andb_true_iff in Hn as [->%bool_decide_eq_true Hn];
      destruct et; try done; by split_and!.
  - intros Hv. eexists. split; [by apply inside_json_string|]. by split_and!.
Qed.

Definition before_key (sc : Json.scanner) : Prop :=
  sc = Json.mkScanner Json.BeginString [Json.parseObjectKey] false ∨
  sc = Json.mkScanner Json.BeginStringOrEmpty [Json.parseObjectKey] false.

Lemma inside_member sc m :
  before_key sc → member_ok m = true → ∃ sc', inside sc (member_text m) = Some sc' ∧ after_value sc'.
Proof.
  intros Hsc. destruct m as [k v]. unfold member_ok, member_text. cbn [fst snd].
  intros [Hk Hv]%andb_true_iff.
  destruct (inside_value v) as (sc' & Hi & Ha); [by unfold member_ok|]. exists sc'. split; [|done].
  assert (inside sc (json_string k) = Some (Json.mkScanner Json.EndValue [Json.parseObjectKey] false)) as Hs
    by (destruct Hsc as [->| ->]; by apply inside_json_string).
  rewrite (inside_app _ _ _ _ Hs).
  change (":" +:+ json_text v) with (String ":" (json_text v)). done.
Qed.

Lemma json_text_obj l : json_text (JObj l) = "{" +:+ Join (map member_text l) "," +:+ "}".
Proof. done. Qed.

(** The members of an object, from the state before the first key to the end. *)
Lemma read_members e l sc acc y :
  l ≠ [] → before_key sc → Forall (λ m, member_ok m = true) l →
  read_value e sc acc (Join (map member_text l) "," +:+ "}" +:+ y) =
    inl (string_rev (string_rev (Join (map member_text l) "," +:+ "}") acc) "", y).
Proof.
  intros Hne Hsc Hl. revert Hne sc acc Hsc. induction Hl as [|m l Hm Hl IH]; intros Hne sc acc Hsc; [done|].
  destruct (inside_member sc m Hsc Hm) as (sc' & Hi & Hs & He & Hc & Hb).
  assert (∀ c, scalar_done sc' c = false) as Hd.
  { intros c. unfold scalar_done. by rewrite Hs. }
  destruct l as [|m' l].
  - cbn [map Join]. rewrite (read_inside _ _ _ _ _ _ Hi).
    change ("}" +:+ y) with (String "}" y). cbn [read_value]. rewrite Hd, Hb. cbn [Json.endTop].
    by rewrite string_rev_app.
  - change (Join (map member_text (m :: m' :: l)) ",") with
      (member_text m +:+ "," +:+ Join (map member_text (m' :: l)) ",").
    rewrite !append_assoc_str, (read_inside _ _ _ _ _ _ Hi).
    change ("," +:+ Join (map member_text (m' :: l)) "," +:+ "}" +:+ y) with
      (String "," (Join (map member_text (m' :: l)) "," +:+ "}" +:+ y)).
    cbn [read_value]. rewrite Hd, Hc. cbn [Json.endTop].
    rewrite IH; [by rewrite (string_rev_app (member_text m))|done|by left].
Qed.

(** The scanner stops exactly at the end of the object. *)
Lemma scan_object e l y :
  Forall (λ m, member_ok m = true) l →
  scan_value e (json_text (JObj l) +:+ y) = inl (json_text (JObj l), y).
Proof.
  intros Hl. rewrite json_text_obj, !append_assoc_str. unfold scan_value.
  change ("{" +:+ Join (map member_text l) "," +:+ "}" +:+ y) with
    (String "{" (Join (map member_text l) "," +:+ "}" +:+ y)).
  destruct l as [|m l]; [reflexivity|].
  transitivity (read_value e (Json.mkScanner Json.BeginStringOrEmpty [Json.parseObjectKey] false) "{"
    (Join (map member_text (m :: l)) "," +:+ "}" +:+ y)); [reflexivity|].
  rewrite read_members; [|done|by right|done]. by rewrite string_rev_rev.
Qed.

(** A delimiter ends a number. *)
Lemma span_number_spec n c y :
  str_forall is_number_byte n = true → is_number_byte c = false →
  span_number (n +:+ String c y) = (n, String c y).
Proof.
  intros Hn Hc. induction n as [|a n IH].
  - change ("" +:+ String c y) with (String c y). cbn [span_number]. unfold is_number_byte in Hc. by rewrite Hc.
  - apply andb_true_iff in Hn as [Ha Hn]. change (String a n +:+ String c y) with (String a (n +:+ String c y)).
    cbn [span_number]. unfold is_number_byte in Ha. by rewrite Ha, (IH Hn).
Qed.

(** A number is not mistaken for another kind of value. *)
Lemma parse_value_number fuel a n :
  is_number_byte a = true →
  parse_value (S fuel) (String a n) = (let '(x, r) := span_number (String a n) in Some (JNum x, r)).
Proof. destruct a as [[] [] [] [] [] [] [] []]; try discriminate; reflexivity. Qed.

(** A quoted string. *)
Lemma parse_value_string fuel s y :
  ValidString s = true → parse_value (S fuel) (json_string s +:+ y) = Some (JStr s, y).
Proof.
  intros Hv. unfold json_string. rewrite !append_assoc_str.
  change (quote_char +:+ escape_from (Copy 0) s +:+ quote_char +:+ y) with
    (String quote_ascii (escape_from (Copy 0) s +:+ quote_char +:+ y)).
  transitivity ('(t, r) ← parse_string (S (String.length (escape_from (Copy 0) s +:+ quote_char +:+ y)))
      (escape_from (Copy 0) s +:+ quote_char +:+ y); Some (JStr t, r)); [reflexivity|].
  rewrite parse_string_escape; [done|done|]. rewrite length_append. pose proof (escape_longer s Hv). lia.
Qed.

(** A member's value is read up to the delimiter behind it. *)
Lemma parse_value_member v fuel c y :
  member_ok ("", v) = true → c = ","%char ∨ c = "}"%char →
  parse_value (S fuel) (json_text v +:+ String c y) = Some (v, String c y).
Proof.
  unfold member_ok. cbn [fst snd]. intros [_ Hv]%andb_true_iff Hc. destruct v as [|b|n|s|l|l]; try done.
  - by destruct b.
  - apply andb_true_iff in Hv as [Hn Hi]. cbn [json_text]. destruct n as [|a n]; [done|].
    pose proof (andb_prop _ _ Hn) as [Ha _].
    change (String a n +:+ String c y) with (String a (n +:+ String c y)). rewrite parse_value_number by done.
    change (String a (n +:+ String c y)) with (String a n +:+ String c y).
    rewrite span_number_spec; [done|done|]. by destruct Hc as [->| ->].
  - by apply parse_value_string.
Qed.

Lemma parse_member fuel m c y :
  member_ok m = true → c = ","%char ∨ c = "}"%char →
  parse_members (S (S fuel)) (member_text m +:+ String c y) =
    (if (byte_val c =? 44)%N then '(l, r) ← parse_members (S fuel) y; Some (m :: l, r) else Some ([m], y)).
Proof.
  destruct m as [k v]. unfold member_text. cbn [fst snd]. intros [Hk Hv]%andb_true_iff Hc.
  rewrite !append_assoc_str. unfold json_string. rewrite !append_assoc_str.
  set (z := ":" +:+ json_text v +:+ String c y).
  change (quote_char +:+ escape_from (Copy 0) k +:+ quote_char +:+ z) with
    (String quote_ascii (escape_from (Copy 0) k +:+ quote_char +:+ z)).
  transitivity ('(k, r) ← parse_string (S (String.length (escape_from (Copy 0) k +:+ quote_char +:+ z)))
       (escape_from (Copy 0) k +:+ quote_char +:+ z);
      r ← strip_prefix ":" (skip_space r);
      '(v, r) ← parse_value (S fuel) r;
      match skip_space r with
      | String c r' =>
          if (byte_val c =? 44)%N then '(l, r'') ← parse_members (S fuel) r'; Some ((k, v) :: l, r'')
          else Some ([(k, v)], r')
      | EmptyString => None
      end); [reflexivity|].
  rewrite parse_string_escape; [|done|rewrite length_append; pose proof (escape_longer k Hk); lia].
  cbn [mbind option_bind]. subst z.
  change (strip_prefix ":" (skip_space (":" +:+ json_text v +:+ String c y))) with (Some (json_text v +:+ String c y)).
  cbn [mbind option_bind]. rewrite parse_value_member by done. cbn [mbind option_bind].
  by destruct Hc as [->| ->].
Qed.

Lemma parse_object l fuel y :
  l ≠ [] → Forall (λ m, member_ok m = true) l → (length l < fuel)%nat →
  parse_members fuel (Join (map member_text l) "," +:+ "}" +:+ y) = Some (l, y).
Proof.
  intros Hne Hl. revert Hne fuel. induction Hl as [|m l Hm Hl IH]; intros Hne fuel Hf; [done|].
  simpl in Hf. destruct fuel as [|[|fuel]]; [lia..|].
  change ("}" +:+ y) with (String "}" y) in *. destruct l as [|m' l].
  - cbn [map Join]. rewrite parse_member; [done|done|by right].
  - change (Join (map member_text (m :: m' :: l)) ",") with
      (member_text m +:+ "," +:+ Join (map member_text (m' :: l)) ",").
    rewrite !append_assoc_str.
    change ("," +:+ Join (map member_text (m' :: l)) "," +:+ String "}" y) with
      (String "," (Join (map member_text (m' :: l)) "," +:+ String "}" y)).
    rewrite parse_member; [|done|by left]. cbn -[parse_members Join]. rewrite IH; [done|done|simpl in *; lia].
Qed.

Lemma member_longer l : (length l ≤ String.length (Join (map member_text l) ","))%nat.
Proof.
  induction l as [|m l IH]; [simpl; lia|].
  assert (1 ≤ String.length (member_text m))%nat as Hm by (unfold member_text, json_string; simpl; lia).
  destruct l as [|m' l]; [by simpl|].
  change (Join (map member_text (m :: m' :: l)) ",") with
    (member_text m +:+ "," +:+ Join (map member_text (m' :: l)) ",").
  rewrite !length_append. simpl in *. lia.
Qed.

(** a flat object of well-formed members, written by the encoder and read
    from a body by [Decode], is decoded member by member exactly as it was
    encoded - strings come back byte for byte through the HTML-safe escapes, and
    numbers as they were written - and what follows the object is left. *)
Theorem decode_encode st e l y :
  Forall (λ m, member_ok m = true) l →
  Decode st e (json_text (JObj l) +:+ y) =
    match decode_struct st (JObj l) with inl st' => inl (st', y) | inr err => inr err end.
Proof.
  intros Hl. unfold Decode. rewrite scan_object by done.
  assert (∀ fuel, (String.length (json_text (JObj l)) ≤ fuel)%nat →
    parse_value (S fuel) (json_text (JObj l)) = Some (JObj l, "")) as Hp; [|by rewrite Hp by done].
  intros fuel Hf. rewrite json_text_obj in *. destruct l as [|m l]; [done|].
  rewrite !length_append in Hf. pose proof (member_longer (m :: l)) as Hn.
  change ("{" +:+ Join (map member_text (m :: l)) "," +:+ "}") with
    (String "{" (Join (map member_text (m :: l)) "," +:+ "}")).
  assert (∃ r, Join (map member_text (m :: l)) "," +:+ "}" = String quote_ascii r) as [r Hr]
    by (destruct l; eexists; reflexivity).
  transitivity ('(l, r') ← parse_members fuel (String quote_ascii r); Some (JObj l, r')); [by rewrite Hr|].
  rewrite <- Hr. rewrite <- (append_nil_r "}"). rewrite parse_object; [done|done|done|simpl in *; lia].
Qed.
