(* ===== verification/WebhookRepo.v ===== *)
(** * internal/repository/postgres/webhook_repo.go

    The idempotency ledger.  Each SQL statement is a function on the tables
    ([.._stmt]); each method runs its statement through [db_call] and turns
    the outcome into Go results.  What the statements guarantee is proved in
    Ledger.v (the state machine of a row) and Purge.v (retention). *)

From S2P Require Import Prelude GoStd Domain Database.
Open Scope Z_scope.

Definition defaultStaleClaimAfter : Duration := 5 * Minute.
Definition maxLastErrorLen : nat := 2000.

(** ** Query and result types *)

Record PurgeQuery := mkPurgeQuery {
  SettledAfter : Duration; UnsettledAfter : Duration; PurgeLimit : Z }.
Record PurgeResult := mkPurgeResult { Settled : Z; Unsettled : Z }.
Definition PurgeResult_Total (r : PurgeResult) : Z := Settled r + Unsettled r.
Record RetentionStats := mkRetentionStats {
  WithPayload : Z; Purged : Z; DueNow : Z; OldestPayload : option Time }.
Record RetryQuery := mkRetryQuery {
  MaxAttempts : Z; BaseBackoff : Duration; MaxBackoff : Duration; RetryLimit : Z }.
Record LedgerStats := mkLedgerStats {
  Processing : Z; Retryable : Z; DeadLettered : Z; OldestUnsettled : option Time }.
Definition LedgerStats_Unsettled (s : LedgerStats) : Z :=
  Processing s + Retryable s + DeadLettered s.

(** [NewWebhookRepo]: the stale window a repository built with [d] uses. *)
Definition NewWebhookRepo (d : Duration) : Duration :=
  if d <=? 0 then defaultStaleClaimAfter else d.

(** ** Free text *)

(** [for cut > 0 && !utf8.RuneStart(s[cut]) { cut-- }]. *)
Fixpoint rune_cut (cut : nat) (s : string) : nat :=
  match cut with
  | O => O
  | S cut' => match String.get cut s with
              | Some a => if RuneStart a then cut else rune_cut cut' s
              | None => cut
              end
  end.

Definition ellipsis : string := of_bytes [226; 128; 166]%N.

Definition truncate (s : string) : string :=
  if len s <=? Z.of_nat maxLastErrorLen then s
  else String.substring 0 (rune_cut maxLastErrorLen s) s +:+ ellipsis.

Definition failureReason (cause : option error) : string :=
  match cause with
  | None => "unspecified failure"
  | Some e => if bool_decide (err_msg e = "") then "unspecified failure" else truncate (err_msg e)
  end.

(** ** Statements on one row *)

(** [UPDATE processed_webhooks SET f WHERE event_id = id AND P]: rows affected. *)
Definition update_hook (c : Call) (id : string) (P : Row.t → bool) (f : Row.t → Row.t)
    (t : Tables) : pgres Z * Tables :=
  match processed_webhooks t !! id with
  | Some r =>
      if P r then
        let r' := Row.touch (c_now c) r (f r) in
        match Row.violation r' with
        | Some v => (PErr v, t)
        | None => (POk 1, set_processed_webhooks (<[id := r']> (processed_webhooks t)) t)
        end
      else (POk 0, t)
  | None => (POk 0, t)
  end.

Definition is_status (s : WebhookStatus) (r : Row.t) : bool := bool_decide (Row.status r = s).

Section Repo.
Context `{GoUnicode, Postgres}.

Definition payloadOrNil (p : string) : pgres (option json) :=
  if len p =? 0 then POk None
  else match jsonb_in p with
       | Some j => POk (Some j)
       | None => PErr (PgError "22P02" "" "invalid input syntax for type json")
       end.

(** *** TryClaimEvent *)

Definition reclaimable (now : Time) (stale : Duration) (r : Row.t) : bool :=
  is_status WebhookFailed r ||
  (is_status WebhookProcessing r && (Row.updated_at r <? now - stale)).

Definition claim_stmt (stale : Duration) (w : ProcessedWebhook.t) (c : Call) (t : Tables)
    : pgres Row.t * Tables :=
  match payloadOrNil (ProcessedWebhook.Payload w) with
  | PErr e => (PErr e, t)
  | POk p =>
    let id := ProcessedWebhook.EventID w in
    let now := c_now c in
    let new := Row.mk id (ProcessedWebhook.EventType w) (ProcessedWebhook.APIVersion w)
      (ProcessedWebhook.Livemode w) (ProcessedWebhook.RequestID w) WebhookProcessing 1 None p
      (ProcessedWebhook.StripeCreatedAt w) now None now now None in
    match Row.violation new with
    | Some v => (PErr v, t)
    | None =>
      match processed_webhooks t !! id with
      | None => (POk new, set_processed_webhooks (<[id := new]> (processed_webhooks t)) t)
      | Some old =>
        if reclaimable now stale old then
          let r' := Row.touch now old
            (Row.set_progress WebhookProcessing (Row.attempts old + 1) None (Row.processed_at old) old) in
          match Row.violation r' with
          | Some v => (PErr v, t)
          | None => (POk r', set_processed_webhooks (<[id := r']> (processed_webhooks t)) t)
          end
        else (PErr NoRows, t)
      end
    end
  end.

Definition TryClaimEvent (stale : Duration) (w : ProcessedWebhook.t)
    : M World (result (bool * ProcessedWebhook.t)) :=
  match ProcessedWebhook.Validate w with
  | Some e => mret (Err e)
  | None =>
    r ← db_call (claim_stmt stale w);
    match r with
    | PErr NoRows => mret (Ok (false, w))
    | PErr e => mret (Err (mapError "claim webhook event" e))
    | POk row => mret (Ok (true, ProcessedWebhook.set_claimed (Row.attempts row) (Row.status row)
                    (Row.received_at row) (Row.created_at row) (Row.updated_at row) w))
    end
  end.

(** *** Settling *)

Definition mark_processed_stmt (id : string) (c : Call) : Tables → pgres Z * Tables :=
  update_hook c id (is_status WebhookProcessing)
    (λ r, Row.set_progress WebhookSucceeded (Row.attempts r) None (Some (c_now c)) r).

Definition mark_skipped_stmt (id reason : string) (c : Call) : Tables → pgres Z * Tables :=
  update_hook c id (is_status WebhookProcessing)
    (λ r, Row.set_progress WebhookSkipped (Row.attempts r) (Some reason) (Some (c_now c)) r).

Definition mark_failed_stmt (id reason : string) (c : Call) : Tables → pgres Z * Tables :=
  update_hook c id (is_status WebhookProcessing)
    (λ r, Row.set_progress WebhookFailed (Row.attempts r) (Some reason) None r).

(** The tail the three methods share: the error if no row was affected. *)
Definition settle_result (op id : string) (r : pgres Z) : result unit :=
  match r with
  | PErr e => Err (mapError op e)
  | POk n => if n =? 0 then Err (wrapf (op +:+ " " +:+ id) ErrEventNotClaimed) else Ok tt
  end.

Definition MarkEventProcessed (id : string) : M World (result unit) :=
  r ← db_call (mark_processed_stmt id); mret (settle_result "mark webhook processed" id r).

Definition MarkEventSkipped (id reason : string) : M World (result unit) :=
  r ← db_call (mark_skipped_stmt id (truncate reason));
  mret (settle_result "mark webhook skipped" id r).

Definition MarkEventFailed (id : string) (cause : option error) : M World (result unit) :=
  r ← db_call (mark_failed_stmt id (failureReason cause));
  mret (settle_result "mark webhook failed" id r).

(** *** Sets of rows *)

Definition by_updated_at (a b : string * Row.t) : Prop :=
  Row.updated_at a.2 ≤ Row.updated_at b.2.
Definition by_received_at (a b : string * Row.t) : Prop :=
  Row.received_at a.2 ≤ Row.received_at b.2.
#[export] Instance by_updated_at_dec : RelDecision by_updated_at :=
  λ a b, Z_le_dec (Row.updated_at a.2) (Row.updated_at b.2).
#[export] Instance by_received_at_dec : RelDecision by_received_at :=
  λ a b, Z_le_dec (Row.received_at a.2) (Row.received_at b.2).

(** [SELECT .. WHERE P ORDER BY R LIMIT n]; [locked] rows are skipped. *)
Definition select_rows (P : Row.t → bool) (R : relation (string * Row.t)) `{!RelDecision R}
    (limit : Z) (locked : list string) (m : gmap string Row.t) : list (string * Row.t) :=
  take (Z.to_nat limit)
    (merge_sort R (filter (λ kr, kr.1 ∉ locked) (rows_where P m))).

Definition negative_limit : dberr := PgError "2201W" "" "LIMIT must not be negative".

(** [UPDATE .. SET f WHERE event_id IN ids]: all rows or, on a violation, none. *)
Definition update_hooks (c : Call) (ids : list string) (f : Row.t → Row.t) (t : Tables)
    : pgres (list Row.t) * Tables :=
  let m := processed_webhooks t in
  let m' := map_imap (λ k r, Some (if bool_decide (k ∈ ids)
                                    then Row.touch (c_now c) r (f r) else r)) m in
  match omap (λ id, m' !! id ≫= Row.violation) ids with
  | v :: _ => (PErr v, t)
  | [] => (POk (omap (λ id, m' !! id) ids), set_processed_webhooks m' t)
  end.

(** A statement that returns several rows reports a transport error when it is
    sent, and an error of its execution once its rows are read. *)
Definition rows_error (op : string) (e : dberr) : error :=
  match e with
  | PgError _ _ _ => mapError (op +:+ ": iterate") e
  | _ => mapError op e
  end.

Definition abandoned (now : Time) (staleAfter : Duration) (r : Row.t) : bool :=
  is_status WebhookProcessing r && (Row.updated_at r <? now - staleAfter).

Definition abandoned_reason : string := "claim abandoned by a worker that did not settle it".

Definition reclaim_stmt (staleAfter : Duration) (limit : Z) (c : Call) (t : Tables)
    : pgres (list string) * Tables :=
  if limit <? 0 then (PErr negative_limit, t) else
  let ids := (select_rows (abandoned (c_now c) staleAfter) by_updated_at limit (c_locked c)
                (processed_webhooks t)).*1 in
  match update_hooks c ids
    (λ r, Row.set_progress WebhookFailed (Row.attempts r) (Some abandoned_reason) None r) t with
  | (PErr e, t') => (PErr e, t')
  | (POk rows, t') => (POk (Row.event_id <$> rows), t')
  end.

Definition ReclaimAbandonedEvents (staleAfter : Duration) (limit : Z)
    : M World (result (list string)) :=
  r ← db_call (reclaim_stmt staleAfter limit);
  mret (match r with
        | PErr e => Err (rows_error "reclaim abandoned events" e)
        | POk ids => Ok ids
        end).

(** *** Retrying *)

Definition scanWebhook (r : Row.t) : ProcessedWebhook.t :=
  ProcessedWebhook.mk (Row.event_id r) (Row.event_type r) (Row.api_version r) (Row.livemode r)
    (Row.request_id r) (Row.status r) (Row.attempts r) (Row.last_error r)
    (match Row.payload r with Some j => jsonb_out j | None => "" end)
    (Row.stripe_created_at r) (Row.received_at r) (Row.processed_at r)
    (Row.created_at r) (Row.updated_at r).

(** [LEAST(base * POWER(2, attempts - 1), max)]. *)
Definition backoff (q : RetryQuery) (attempts : Z) : Duration :=
  Z.min (BaseBackoff q * 2 ^ (attempts - 1)) (MaxBackoff q).

Definition retry_due (now : Time) (q : RetryQuery) (r : Row.t) : bool :=
  is_status WebhookFailed r && (Row.attempts r <? MaxAttempts q) &&
  (Row.updated_at r <? now - backoff q (Row.attempts r)).

Definition list_retryable_stmt (q : RetryQuery) (c : Call) (t : Tables)
    : pgres (list ProcessedWebhook.t) * Tables :=
  if RetryLimit q <? 0 then (PErr negative_limit, t) else
  (POk (scanWebhook <$> (select_rows (retry_due (c_now c) q) by_updated_at (RetryLimit q) []
                           (processed_webhooks t)).*2), t).

Definition ListRetryableEvents (q : RetryQuery) : M World (result (list ProcessedWebhook.t)) :=
  r ← db_call (list_retryable_stmt q);
  mret (match r with
        | PErr e => Err (rows_error "list retryable events" e)
        | POk ws => Ok ws
        end).

Definition claim_retry_stmt (id : string) (maxAttempts : Z) (c : Call)
    : Tables → pgres Z * Tables :=
  update_hook c id (λ r, is_status WebhookFailed r && (Row.attempts r <? maxAttempts))
    (λ r, Row.set_progress WebhookProcessing (Row.attempts r + 1) None (Row.processed_at r) r).

Definition ClaimEventForRetry (id : string) (maxAttempts : Z) : M World (result bool) :=
  r ← db_call (claim_retry_stmt id maxAttempts);
  mret (match r with
        | PErr e => Err (mapError "claim event for retry" e)
        | POk n => Ok (n =? 1)
        end).

(** *** Reports *)

Definition count_where (P : Row.t → bool) (m : gmap string Row.t) : Z :=
  Z.of_nat (length (rows_where P m)).

(** [min(f)] over the rows of [P]; NULL when there are none. *)
Definition min_where (P : Row.t → bool) (f : Row.t → Time) (m : gmap string Row.t) : option Time :=
  foldr (λ kr acc, Some (match acc with Some x => Z.min (f kr.2) x | None => f kr.2 end)) None
    (rows_where P m).

Definition unsettled (r : Row.t) : bool :=
  is_status WebhookProcessing r || is_status WebhookFailed r.

Definition ledger_stats_stmt (maxAttempts : Z) (c : Call) (t : Tables)
    : pgres LedgerStats * Tables :=
  let m := processed_webhooks t in
  (POk (mkLedgerStats
    (count_where (λ r, unsettled r && is_status WebhookProcessing r) m)
    (count_where (λ r, unsettled r && (is_status WebhookFailed r && (Row.attempts r <? maxAttempts))) m)
    (count_where (λ r, unsettled r && (is_status WebhookFailed r && (maxAttempts <=? Row.attempts r))) m)
    (min_where unsettled Row.updated_at m)), t).

Definition GetLedgerStats (maxAttempts : Z) : M World (result LedgerStats) :=
  r ← db_call (ledger_stats_stmt maxAttempts);
  mret (match r with
        | PErr e => Err (mapError "ledger stats" e)
        | POk s => Ok s
        end).

(** *** Retention *)

(** [jsonb_build_object]: an SQL NULL argument becomes a JSON null. *)
Definition jsonb_build_object (l : list (string * option json)) : json :=
  JObj ((λ kv, (kv.1, default JNull kv.2)) <$> l).

Fixpoint jsonb_strip_nulls (j : json) : json :=
  match j with
  | JArr l => JArr (map jsonb_strip_nulls l)
  | JObj l => JObj ((fix go (l : list (string * json)) := match l with
      | [] => []
      | (_, JNull) :: l' => go l'
      | (k, v) :: l' => (k, jsonb_strip_nulls v) :: go l'
      end) l)
  | _ => j
  end.

Definition payloadSkeleton (p : json) : json :=
  jsonb_strip_nulls (jsonb_build_object [
    ("id", jget p "id");
    ("object", jget p "object");
    ("type", jget p "type");
    ("created", jget p "created");
    ("livemode", jget p "livemode");
    ("api_version", jget p "api_version");
    ("data", Some (jsonb_build_object [
      ("object", Some (jsonb_strip_nulls (jsonb_build_object [
        ("id", jpath p ["data"; "object"; "id"]);
        ("object", jpath p ["data"; "object"; "object"])])))]))]).

Definition holds_payload (r : Row.t) : bool :=
  bool_decide (is_Some (Row.payload r)) && bool_decide (Row.payload_purged_at r = None).

Definition purge_due (now : Time) (q : PurgeQuery) (r : Row.t) : bool :=
  holds_payload r && negb (is_status WebhookProcessing r) &&
  ((one_of (Row.status r) [WebhookSucceeded; WebhookSkipped] &&
      (Row.received_at r <? now - SettledAfter q))
   || (is_status WebhookFailed r && (Row.received_at r <? now - UnsettledAfter q))).

Definition purge_row (now : Time) (r : Row.t) : Row.t :=
  Row.set_payload (payloadSkeleton <$> Row.payload r) (Some now) r.

Definition purge_stmt (q : PurgeQuery) (c : Call) (t : Tables)
    : pgres (list WebhookStatus) * Tables :=
  if PurgeLimit q <? 0 then (PErr negative_limit, t) else
  let ids := (select_rows (purge_due (c_now c) q) by_received_at (PurgeLimit q) (c_locked c)
                (processed_webhooks t)).*1 in
  match update_hooks c ids (purge_row (c_now c)) t with
  | (PErr e, t') => (PErr e, t')
  | (POk rows, t') => (POk (Row.status <$> rows), t')
  end.

Definition tally (ss : list WebhookStatus) : PurgeResult :=
  foldl (λ acc s, if bool_decide (s = WebhookFailed)
                  then mkPurgeResult (Settled acc) (Unsettled acc + 1)
                  else mkPurgeResult (Settled acc + 1) (Unsettled acc)) (mkPurgeResult 0 0) ss.

Definition PurgePayloads (q : PurgeQuery) : M World (result PurgeResult) :=
  r ← db_call (purge_stmt q);
  mret (match r with
        | PErr e => Err (rows_error "purge payloads" e)
        | POk ss => Ok (tally ss)
        end).

Definition retention_stats_stmt (q : PurgeQuery) (c : Call) (t : Tables)
    : pgres RetentionStats * Tables :=
  let m := processed_webhooks t in
  (POk (mkRetentionStats
    (count_where holds_payload m)
    (count_where (λ r, bool_decide (is_Some (Row.payload_purged_at r))) m)
    (count_where (purge_due (c_now c) q) m)
    (min_where holds_payload Row.received_at m)), t).

Definition GetRetentionStats (q : PurgeQuery) : M World (result RetentionStats) :=
  r ← db_call (retention_stats_stmt q);
  mret (match r with
        | PErr e => Err (mapError "retention stats" e)
        | POk s => Ok s
        end).
End Repo.
