(* ===== verification/Ledger.v ===== *)
(** * The webhook ledger under any interleaving of workers

    Request handlers, sweepers and the retention job act on the ledger through
    the statements of [WebhookRepo]; each is atomic.  This file runs arbitrary
    sequences of them, each with its own clock reading and lock set, and shows
    the row state machine, that settled events stay settled, that a claim is
    exclusive within its stale window, and that the retry budget holds. *)

From S2P Require Import Prelude GoStd Domain Database WebhookRepo.
Open Scope Z_scope.

(** ** Statement effects *)

Section Effects.
Context `{GoUnicode, Postgres}.

Lemma update_hook_cases c id P f t r t' :
  update_hook c id P f t = (r, t') →
  (t' = t ∧ r ≠ POk 1) ∨
  (∃ old, processed_webhooks t !! id = Some old ∧ P old = true ∧ r = POk 1 ∧
     Row.violation (Row.touch (c_now c) old (f old)) = None ∧
     t' = set_processed_webhooks
            (<[id := Row.touch (c_now c) old (f old)]> (processed_webhooks t)) t).
Proof.
  unfold update_hook. destruct (_ !! id) as [old|]; [|intros [= <- <-]; by left].
  destruct (P old) eqn:HP; [|intros [= <- <-]; by left].
  destruct (Row.violation _) eqn:Hv; intros [= <- <-]; [by left|].
  right. exists old. done.
Qed.

Lemma claim_stmt_cases stale w c t r t' :
  claim_stmt stale w c t = (r, t') →
  (t' = t ∧ ∃ e, r = PErr e) ∨
  (∃ new, r = POk new ∧ Row.violation new = None ∧
     t' = set_processed_webhooks
            (<[ProcessedWebhook.EventID w := new]> (processed_webhooks t)) t ∧
     ((processed_webhooks t !! ProcessedWebhook.EventID w = None ∧
       Row.event_id new = ProcessedWebhook.EventID w ∧
       Row.status new = WebhookProcessing ∧ Row.attempts new = 1 ∧ Row.updated_at new = c_now c) ∨
      (∃ old, processed_webhooks t !! ProcessedWebhook.EventID w = Some old ∧
         reclaimable (c_now c) stale old = true ∧
         new = Row.touch (c_now c) old (Row.set_progress WebhookProcessing
                 (Row.attempts old + 1) None (Row.processed_at old) old)))).
Proof.
  unfold claim_stmt. destruct (payloadOrNil _) as [p|e]; [|intros [= <- <-]; eauto].
  destruct (Row.violation _) as [v|] eqn:Hv; [intros [= <- <-]; eauto|].
  destruct (_ !! _) as [old|] eqn:Hold.
  - destruct (reclaimable _ _ old) eqn:Hr; [|intros [= <- <-]; eauto].
    destruct (Row.violation (Row.touch _ _ _)) as [v|] eqn:Hv'; intros [= <- <-]; [eauto|].
    right. eexists. split_and!; [done..|]. right. by exists old.
  - intros [= <- <-]. right. eexists. split_and!; [done..|]. by left.
Qed.

(** No row comes back only for an event that is there and not reclaimable. *)
Lemma claim_refused stale w c t :
  (claim_stmt stale w c t).1 = PErr NoRows →
  ∃ old, processed_webhooks t !! ProcessedWebhook.EventID w = Some old ∧
    reclaimable (c_now c) stale old = false.
Proof.
  assert (∀ r, Row.violation r ≠ Some NoRows) as Hv.
  { intros r. unfold Row.violation. case_match; [|done]. generalize (Row.constraints r) as l.
    induction l as [|[n []] l IH]; simpl; done. }
  unfold claim_stmt, payloadOrNil. repeat case_match; simpl; intros; simplify_eq; eauto;
    exfalso; by eapply Hv.
Qed.

Lemma lookup_update_hooks c ids f t r t' :
  update_hooks c ids f t = (r, t') →
  t' = t ∨
  ∀ k, processed_webhooks t' !! k =
       (λ x, if bool_decide (k ∈ ids) then Row.touch (c_now c) x (f x) else x) <$>
         processed_webhooks t !! k.
Proof.
  unfold update_hooks. case_match; intros [= <- <-]; [right|by left].
  intros k. simpl. rewrite map_lookup_imap. by destruct (_ !! k).
Qed.

Lemma elem_of_select_rows P R `{!RelDecision R} limit locked m k r :
  (k, r) ∈ select_rows P R limit locked m → m !! k = Some r ∧ P r = true ∧ k ∉ locked.
Proof.
  unfold select_rows. intros Hin%elem_of_take. destruct Hin as (i & Hin & _).
  apply list_elem_of_lookup_2 in Hin. rewrite merge_sort_Permutation in Hin.
  apply list_elem_of_filter in Hin as [Hl Hr]. apply elem_of_rows_where in Hr. tauto.
Qed.

Lemma select_rows_selected P R `{!RelDecision R} limit locked m k :
  k ∈ (select_rows P R limit locked m).*1 → ∃ r, m !! k = Some r ∧ P r = true ∧ k ∉ locked.
Proof.
  intros ([k' r] & -> & Hin)%list_elem_of_fmap. exists r. by eapply elem_of_select_rows.
Qed.
End Effects.

(** [touch] changes nothing but [updated_at]. *)
Lemma touch_event_id n a b : Row.event_id (Row.touch n a b) = Row.event_id b.
Proof. unfold Row.touch. by case_bool_decide. Qed.
Lemma touch_status n a b : Row.status (Row.touch n a b) = Row.status b.
Proof. unfold Row.touch. by case_bool_decide. Qed.
Lemma touch_attempts n a b : Row.attempts (Row.touch n a b) = Row.attempts b.
Proof. unfold Row.touch. by case_bool_decide. Qed.
Lemma touch_last_error n a b : Row.last_error (Row.touch n a b) = Row.last_error b.
Proof. unfold Row.touch. by case_bool_decide. Qed.
Lemma touch_processed_at n a b : Row.processed_at (Row.touch n a b) = Row.processed_at b.
Proof. unfold Row.touch. by case_bool_decide. Qed.
Lemma touch_payload n a b : Row.payload (Row.touch n a b) = Row.payload b.
Proof. unfold Row.touch. by case_bool_decide. Qed.
Lemma touch_purged n a b : Row.payload_purged_at (Row.touch n a b) = Row.payload_purged_at b.
Proof. unfold Row.touch. by case_bool_decide. Qed.
Lemma touch_received n a b : Row.received_at (Row.touch n a b) = Row.received_at b.
Proof. unfold Row.touch. by case_bool_decide. Qed.
Lemma touch_event_type n a b : Row.event_type (Row.touch n a b) = Row.event_type b.
Proof. unfold Row.touch. by case_bool_decide. Qed.

Create Rewrite HintDb row.
#[export] Hint Rewrite touch_event_id touch_status touch_attempts touch_last_error
  touch_processed_at touch_payload touch_purged touch_received touch_event_type : row.

(** The trigger always fires when the attempt count or the status changes. *)
Lemma touch_updated n a b :
  Row.status a ≠ Row.status b ∨ Row.attempts a ≠ Row.attempts b →
  Row.updated_at (Row.touch n a b) = n.
Proof. unfold Row.touch. case_bool_decide; [subst; by intros []|done]. Qed.

Lemma violation_touch n a b : Row.violation (Row.touch n a b) = Row.violation b.
Proof. unfold Row.touch. by case_bool_decide. Qed.

(** ** Operations as steps *)

Inductive ledger_op :=
  | OpClaim (stale : Duration) (w : ProcessedWebhook.t)
  | OpProcessed (id : string)
  | OpSkipped (id reason : string)
  | OpFailed (id reason : string)
  | OpReclaim (stale : Duration) (limit : Z)
  | OpRetry (id : string) (maxAttempts : Z)
  | OpPurge (q : PurgeQuery).

Section Steps.
Context `{GoUnicode, Postgres}.

Definition exec (c : Call) (o : ledger_op) (t : Tables) : Tables :=
  match o with
  | OpClaim stale w => (claim_stmt stale w c t).2
  | OpProcessed id => (mark_processed_stmt id c t).2
  | OpSkipped id reason => (mark_skipped_stmt id reason c t).2
  | OpFailed id reason => (mark_failed_stmt id reason c t).2
  | OpReclaim stale limit => (reclaim_stmt stale limit c t).2
  | OpRetry id n => (claim_retry_stmt id n c t).2
  | OpPurge q => (purge_stmt q c t).2
  end.

Definition exec_all (l : list (Call * ledger_op)) (t : Tables) : Tables :=
  foldl (λ t co, exec co.1 co.2 t) t l.

(** One row across one step: unchanged, or one of the seven rewrites. *)
Inductive row_step (c : Call) : ledger_op → option Row.t → option Row.t → Prop :=
  | row_same o x : row_step c o x x
  | row_insert stale w r :
      Row.status r = WebhookProcessing → Row.attempts r = 1 → Row.updated_at r = c_now c →
      row_step c (OpClaim stale w) None (Some r)
  | row_reclaim stale w r :
      reclaimable (c_now c) stale r = true →
      row_step c (OpClaim stale w) (Some r) (Some (Row.touch (c_now c) r
        (Row.set_progress WebhookProcessing (Row.attempts r + 1) None (Row.processed_at r) r)))
  | row_processed id r :
      is_status WebhookProcessing r = true →
      row_step c (OpProcessed id) (Some r) (Some (Row.touch (c_now c) r
        (Row.set_progress WebhookSucceeded (Row.attempts r) None (Some (c_now c)) r)))
  | row_skipped id reason r :
      is_status WebhookProcessing r = true →
      row_step c (OpSkipped id reason) (Some r) (Some (Row.touch (c_now c) r
        (Row.set_progress WebhookSkipped (Row.attempts r) (Some reason) (Some (c_now c)) r)))
  | row_failed id reason r :
      is_status WebhookProcessing r = true →
      row_step c (OpFailed id reason) (Some r) (Some (Row.touch (c_now c) r
        (Row.set_progress WebhookFailed (Row.attempts r) (Some reason) None r)))
  | row_abandoned stale limit r :
      abandoned (c_now c) stale r = true →
      row_step c (OpReclaim stale limit) (Some r) (Some (Row.touch (c_now c) r
        (Row.set_progress WebhookFailed (Row.attempts r) (Some abandoned_reason) None r)))
  | row_retry id n r :
      is_status WebhookFailed r = true → Row.attempts r < n →
      row_step c (OpRetry id n) (Some r) (Some (Row.touch (c_now c) r
        (Row.set_progress WebhookProcessing (Row.attempts r + 1) None (Row.processed_at r) r)))
  | row_purge q r :
      purge_due (c_now c) q r = true →
      row_step c (OpPurge q) (Some r) (Some (Row.touch (c_now c) r (purge_row (c_now c) r))).

(** The event a keyed operation names. *)
Definition op_key (o : ledger_op) : option string :=
  match o with
  | OpClaim _ w => Some (ProcessedWebhook.EventID w)
  | OpProcessed id | OpSkipped id _ | OpFailed id _ | OpRetry id _ => Some id
  | OpReclaim _ _ | OpPurge _ => None
  end.

Lemma exec_update_hook c o id P f t k :
  (∀ r, P r = true → row_step c o (Some r) (Some (Row.touch (c_now c) r (f r)))) →
  row_step c o (processed_webhooks t !! k) (processed_webhooks (update_hook c id P f t).2 !! k)
  ∧ (k ≠ id → processed_webhooks (update_hook c id P f t).2 !! k = processed_webhooks t !! k).
Proof.
  intros Hstep. destruct (update_hook c id P f t) as [r t'] eqn:Hu. simpl.
  apply update_hook_cases in Hu as [[-> _]|(old & Hold & HP & _ & _ & ->)]; simpl.
  - split; [constructor|done].
  - rewrite lookup_insert. case_decide; subst; [|split; [constructor|done]].
    rewrite Hold. split; [by apply Hstep|done].
Qed.

Lemma exec_update_hooks c o ids f t k :
  (∀ r, processed_webhooks t !! k = Some r → k ∈ ids →
     row_step c o (Some r) (Some (Row.touch (c_now c) r (f r)))) →
  row_step c o (processed_webhooks t !! k) (processed_webhooks (update_hooks c ids f t).2 !! k).
Proof.
  intros Hstep. destruct (update_hooks c ids f t) as [r t'] eqn:Hu. simpl.
  apply lookup_update_hooks in Hu as [->|Hlook]; [constructor|].
  rewrite Hlook. destruct (processed_webhooks t !! k) as [x|]; simpl; [|constructor].
  case_bool_decide; [by apply Hstep|constructor].
Qed.

(** Every statement moves every row by [row_step]. *)
Lemma exec_row_step c o t k :
  row_step c o (processed_webhooks t !! k) (processed_webhooks (exec c o t) !! k).
Proof.
  destruct o as [stale w|id|id reason|id reason|stale limit|id n|q]; simpl.
  - destruct (claim_stmt stale w c t) as [r t'] eqn:Hc. simpl.
    apply claim_stmt_cases in Hc
      as [[-> _]|(new & _ & _ & -> & [(Hn & _ & ? & ? & ?)|(old & Ho & ? & ->)])]; simpl;
      [constructor|..]; rewrite lookup_insert; case_decide; subst;
      rewrite ?Hn, ?Ho; by constructor.
  - apply exec_update_hook. intros. by constructor.
  - apply exec_update_hook. intros. by constructor.
  - apply exec_update_hook. intros. by constructor.
  - unfold reclaim_stmt. case_match; [constructor|].
    match goal with |- context [update_hooks ?c ?ids ?f ?t] =>
      pose proof (exec_update_hooks c (OpReclaim stale limit) ids f t k) as Hs;
      destruct (update_hooks c ids f t) as [[] ?] end;
    apply Hs; intros r Hr (r' & Hr' & HP & _)%select_rows_selected; simplify_eq; by constructor.
  - apply exec_update_hook. intros r [? ?%Z.ltb_lt]%andb_true_iff. by constructor.
  - unfold purge_stmt. case_match; [constructor|].
    match goal with |- context [update_hooks ?c ?ids ?f ?t] =>
      pose proof (exec_update_hooks c (OpPurge q) ids f t k) as Hs;
      destruct (update_hooks c ids f t) as [[] ?] end;
    apply Hs; intros r Hr (r' & Hr' & HP & _)%select_rows_selected; simplify_eq; by constructor.
Qed.

(** A keyed operation leaves the other rows alone. *)
Lemma exec_other_key c o t k :
  match op_key o with Some id => k ≠ id | None => False end →
  processed_webhooks (exec c o t) !! k = processed_webhooks t !! k.
Proof.
  destruct o as [stale w|id|id reason|id reason|stale limit|id n|q]; simpl; intros Hk; try done.
  - destruct (claim_stmt stale w c t) as [r t'] eqn:Hc. simpl.
    apply claim_stmt_cases in Hc as [[-> _]|(new & _ & _ & -> & _)]; [done|].
    simpl. by rewrite lookup_insert_ne.
  - apply (exec_update_hook c (OpProcessed id)); [|done]. intros. by constructor.
  - apply (exec_update_hook c (OpSkipped id reason)); [|done]. intros. by constructor.
  - apply (exec_update_hook c (OpFailed id reason)); [|done]. intros. by constructor.
  - apply (exec_update_hook c (OpRetry id n)); [|done].
    intros r [? ?%Z.ltb_lt]%andb_true_iff. by constructor.
Qed.
End Steps.

(** ** The row state machine *)

Definition status_of (t : Tables) (id : string) : option WebhookStatus :=
  Row.status <$> processed_webhooks t !! id.

Inductive may_become : option WebhookStatus → option WebhookStatus → Prop :=
  | become_same s : may_become s s
  | become_claimed : may_become None (Some WebhookProcessing)
  | become_reclaimed : may_become (Some WebhookFailed) (Some WebhookProcessing)
  | become_succeeded : may_become (Some WebhookProcessing) (Some WebhookSucceeded)
  | become_skipped : may_become (Some WebhookProcessing) (Some WebhookSkipped)
  | become_failed : may_become (Some WebhookProcessing) (Some WebhookFailed).

Definition row_settled (r : Row.t) : bool :=
  one_of (Row.status r) [WebhookSucceeded; WebhookSkipped].

(** What a settled row records of its processing. *)
Definition settlement (r : Row.t) : WebhookStatus * Z * option string * option Time :=
  (Row.status r, Row.attempts r, Row.last_error r, Row.processed_at r).

Lemma is_status_true s r : is_status s r = true ↔ Row.status r = s.
Proof. apply bool_decide_eq_true. Qed.

Lemma reclaimable_true now stale r :
  reclaimable now stale r = true ↔
  Row.status r = WebhookFailed ∨
  (Row.status r = WebhookProcessing ∧ Row.updated_at r < now - stale).
Proof.
  unfold reclaimable. rewrite orb_true_iff, andb_true_iff, !is_status_true, Z.ltb_lt. done.
Qed.

Lemma abandoned_true now stale r :
  abandoned now stale r = true ↔
  Row.status r = WebhookProcessing ∧ Row.updated_at r < now - stale.
Proof. unfold abandoned. by rewrite andb_true_iff, is_status_true, Z.ltb_lt. Qed.

Lemma purge_due_not_processing now q r :
  purge_due now q r = true → Row.status r ≠ WebhookProcessing.
Proof.
  unfold purge_due. rewrite !andb_true_iff, negb_true_iff. intros [[_ Hn] _] Hp.
  apply is_status_true in Hp. congruence.
Qed.

Lemma row_settled_true r :
  row_settled r = true ↔ Row.status r = WebhookSucceeded ∨ Row.status r = WebhookSkipped.
Proof. unfold row_settled, one_of. rewrite bool_decide_eq_true, elem_of_cons, list_elem_of_singleton. done. Qed.

(** Two different statuses are claimed for one row. *)
Ltac status_clash :=
  exfalso; unfold WebhookProcessing, WebhookSucceeded, WebhookFailed, WebhookSkipped in *;
  repeat match goal with Hor : _ ∨ _ |- _ => destruct Hor end; congruence.

(** Read the guard of a [row_step] as a fact on the status. *)
Ltac guards :=
  repeat match goal with
  | Hs : is_status _ _ = true |- _ => apply is_status_true in Hs
  | Hs : reclaimable _ _ _ = true |- _ => apply reclaimable_true in Hs as [Hs|[Hs ?]]
  | Hs : abandoned _ _ _ = true |- _ => apply abandoned_true in Hs as [Hs ?]
  | Hs : purge_due _ _ _ = true |- _ => apply purge_due_not_processing in Hs
  end.

Section Machine.
Context `{GoUnicode, Postgres}.

Lemma row_step_may_become c o x y :
  row_step c o x y → may_become (Row.status <$> x) (Row.status <$> y).
Proof.
  destruct 1; guards; simpl; autorewrite with row; simpl;
    try match goal with Hs : Row.status _ = _ |- _ => rewrite Hs end; constructor.
Qed.

Lemma row_step_settled c o r y :
  row_step c o (Some r) y → row_settled r = true →
  ∃ r', y = Some r' ∧ settlement r' = settlement r.
Proof.
  intros Hstep Hset%row_settled_true. inversion Hstep; subst; eauto; guards; try status_clash.
  eexists. split; [done|]. unfold settlement. by autorewrite with row.
Qed.

(** C1: whatever workers do, and in whatever order, a ledger row only moves
    along the state machine: absent to processing, processing to succeeded,
    skipped or failed, and failed back to processing. *)
Theorem ledger_state_machine c o t id :
  may_become (status_of t id) (status_of (exec c o t) id).
Proof. apply (row_step_may_become c o), exec_row_step. Qed.

Lemma exec_all_app l1 l2 t : exec_all (l1 ++ l2) t = exec_all l2 (exec_all l1 t).
Proof. apply foldl_app. Qed.

(** C2: a settled event is never processed again: after any sequence of
    claims, settlements, reclaims, retries and purges its status, attempt
    count, recorded reason and settlement time are what they were. *)
Theorem settled_forever ops t id r :
  processed_webhooks t !! id = Some r → row_settled r = true →
  ∃ r', processed_webhooks (exec_all ops t) !! id = Some r' ∧ settlement r' = settlement r.
Proof.
  revert t r. induction ops as [|[c o] ops IH]; intros t r Hr Hs; [by exists r|].
  pose proof (exec_row_step c o t id) as Hstep. rewrite Hr in Hstep.
  apply row_step_settled in Hstep as (r1 & Hr1 & He); [|done].
  simpl. rewrite <- He. apply (IH (exec c o t) r1 Hr1).
  revert Hs. unfold row_settled. by injection He as ->.
Qed.

(** *** Exclusive claims *)

(** Operations that cannot take a claim made at [t0] away: claims and
    reclaims whose stale window has not passed, and settlements of other
    events. *)
Definition respects (id : string) (t0 : Time) (co : Call * ledger_op) : Prop :=
  match co.2 with
  | OpClaim stale _ | OpReclaim stale _ => c_now co.1 ≤ t0 + stale
  | OpProcessed i | OpSkipped i _ | OpFailed i _ => i ≠ id
  | OpRetry _ _ | OpPurge _ => True
  end.

Lemma respects_step id r co t :
  processed_webhooks t !! id = Some r → Row.status r = WebhookProcessing →
  respects id (Row.updated_at r) co →
  processed_webhooks (exec co.1 co.2 t) !! id = Some r.
Proof.
  destruct co as [c o]. simpl. intros Hr Hst Hresp.
  pose proof (exec_row_step c o t id) as Hstep. rewrite Hr in Hstep.
  unfold respects in Hresp.
  destruct o; simpl in Hresp; try (rewrite exec_other_key; simpl; congruence);
    inversion Hstep; subst; simpl; try congruence; guards; try status_clash; lia.
Qed.

(** A row in processing whose stale window has not passed is refused to others. *)
Lemma held_refused t id r :
  processed_webhooks t !! id = Some r → Row.status r = WebhookProcessing →
  (∀ c stale w, ProcessedWebhook.EventID w = id → c_now c ≤ Row.updated_at r + stale →
     ∃ e, claim_stmt stale w c t = (PErr e, t)) ∧
  (∀ c n, claim_retry_stmt id n c t = (POk 0, t)).
Proof.
  intros Hrow Hst. split.
  - intros c stale w <- Hnow. destruct (claim_stmt _ _ _ _) as [x t'] eqn:Hc.
    apply claim_stmt_cases in Hc
      as [[-> [e ->]]|(new & _ & _ & _ & [(Hn & _)|(old & Ho & Hrec & _)])]; [eauto|congruence|].
    apply reclaimable_true in Hrec. simplify_eq. destruct Hrec as [|[_ ?]]; [status_clash|lia].
  - intros c n. unfold claim_retry_stmt, update_hook. rewrite Hrow.
    unfold is_status. by rewrite Hst.
Qed.

(** a claim is exclusive.  While its holder has not settled it and no
    stale window has run out, every other attempt to claim the event,
    by a delivery or by a sweeper, is refused, and the row is untouched. *)
Theorem claim_exclusive ops t id r :
  processed_webhooks t !! id = Some r → Row.status r = WebhookProcessing →
  Forall (respects id (Row.updated_at r)) ops →
  processed_webhooks (exec_all ops t) !! id = Some r ∧
  (∀ c stale w, ProcessedWebhook.EventID w = id → c_now c ≤ Row.updated_at r + stale →
     ∃ e, claim_stmt stale w c (exec_all ops t) = (PErr e, exec_all ops t)) ∧
  (∀ c n, claim_retry_stmt id n c (exec_all ops t) = (POk 0, exec_all ops t)).
Proof.
  intros Hr Hst Hops.
  assert (processed_webhooks (exec_all ops t) !! id = Some r) as Hrow.
  { clear -Hr Hst Hops. revert t Hr. induction Hops as [|co ops Hco _ IH]; intros t Hr; [done|].
    simpl. apply IH. by apply respects_step. }
  split; [done|]. by apply (held_refused _ _ r).
Qed.
End Machine.

(** ** Well-formed ledgers

    Every row is stored under its event id and satisfies the table's CHECK
    constraints, split into those about progress and those about the event. *)

Definition progress_ok (st : WebhookStatus) (n : Z) (e : option string) (p : option Time) : Prop :=
  1 ≤ n ≤ max_int32 ∧ (st = WebhookFailed → is_Some e) ∧
  (((st = WebhookSucceeded ∨ st = WebhookSkipped) ∧ is_Some p) ∨
   ((st = WebhookProcessing ∨ st = WebhookFailed) ∧ p = None)).

Definition static_ok (r : Row.t) : bool :=
  Row.id_format "evt_" (Row.event_id r) && Row.not_blank (Row.event_type r) &&
  match Row.payload r with Some j => jis_object j | None => true end && Row.purged_ok r.

Definition row_ok (r : Row.t) : Prop :=
  progress_ok (Row.status r) (Row.attempts r) (Row.last_error r) (Row.processed_at r) ∧
  static_ok r = true.

Definition ledger_ok (m : gmap string Row.t) : Prop :=
  map_Forall (λ k r, Row.event_id r = k ∧ row_ok r) m.

Lemma one_of_true2 `{EqDecision A} (x a b : A) : one_of x [a; b] = true ↔ x = a ∨ x = b.
Proof. unfold one_of. by rewrite bool_decide_eq_true, elem_of_cons, list_elem_of_singleton. Qed.

Lemma violation_None r : Row.violation r = None ↔ row_ok r.
Proof.
  unfold Row.violation, row_ok, progress_ok, static_ok.
  destruct (Z.leb_spec (Row.attempts r) max_int32); [|split; [done|lia]].
  rewrite first_violation_None. unfold Row.constraints.
  rewrite !Forall_cons, Forall_nil. simpl.
  rewrite !orb_true_iff, !andb_true_iff, !one_of_true2, !bool_decide_eq_true, negb_true_iff,
    bool_decide_eq_false, Z.leb_le.
  destruct (decide (Row.status r = WebhookFailed)); intuition lia.
Qed.

Lemma static_ok_set_progress st n e p r :
  static_ok (Row.set_progress st n e p r) = static_ok r.
Proof. done. Qed.

Lemma static_ok_touch n a b : static_ok (Row.touch n a b) = static_ok b.
Proof. unfold Row.touch. by case_bool_decide. Qed.

Lemma row_ok_touch n a b : row_ok (Row.touch n a b) ↔ row_ok b.
Proof. by rewrite <- !violation_None, violation_touch. Qed.

Lemma row_ok_set_progress st n e p r :
  row_ok r → progress_ok st n e p → row_ok (Row.set_progress st n e p r).
Proof. intros [_ Hs] Hp. by split. Qed.

Lemma row_ok_unprocessed r :
  row_ok r → Row.status r = WebhookProcessing ∨ Row.status r = WebhookFailed →
  Row.processed_at r = None.
Proof. intros [(_ & _ & [[Hs _]|[_ Hp]]) _] Hst; [status_clash|done]. Qed.

Lemma row_ok_attempts r : row_ok r → 1 ≤ Row.attempts r ≤ max_int32.
Proof. by intros [[? _] _]. Qed.

Section WellFormed.
Context `{GoUnicode, Postgres}.

Lemma ledger_ok_insert m k r :
  ledger_ok m → Row.event_id r = k → row_ok r → ledger_ok (<[k := r]> m).
Proof. intros Hm Hk Hr. by apply map_Forall_insert_2. Qed.

Lemma update_hook_ok c id P f t :
  ledger_ok (processed_webhooks t) → (∀ r, Row.event_id (f r) = Row.event_id r) →
  ledger_ok (processed_webhooks (update_hook c id P f t).2).
Proof.
  intros Hok Hf. destruct (update_hook c id P f t) as [x t'] eqn:Hu. simpl.
  apply update_hook_cases in Hu as [[-> _]|(old & Ho & _ & _ & Hv & ->)]; [done|].
  simpl. apply ledger_ok_insert; [done| |by apply violation_None].
  rewrite touch_event_id, Hf. by apply (Hok id old Ho).
Qed.

(** In a well-formed ledger a keyed UPDATE whose SET clause respects the
    constraints is never rejected: it affects the row, or none. *)
Lemma update_hook_total c id P f t :
  ledger_ok (processed_webhooks t) →
  (∀ r, row_ok r → P r = true → row_ok (f r)) →
  update_hook c id P f t =
    match processed_webhooks t !! id with
    | Some r => if P r
                then (POk 1, set_processed_webhooks
                        (<[id := Row.touch (c_now c) r (f r)]> (processed_webhooks t)) t)
                else (POk 0, t)
    | None => (POk 0, t)
    end.
Proof.
  intros Hok Hf. unfold update_hook. destruct (_ !! id) as [r|] eqn:Hr; [|done].
  destruct (P r) eqn:HP; [|done].
  rewrite (proj2 (violation_None _)); [done|].
  apply row_ok_touch, Hf; [|done]. by apply (Hok id r Hr).
Qed.

Definition settled_row (now : Time) (st : WebhookStatus) (e : option string) (r : Row.t) : Row.t :=
  Row.touch now r (Row.set_progress st (Row.attempts r) e
    (if one_of st [WebhookSucceeded; WebhookSkipped] then Some now else None) r).

(** The effect of a settlement that records [st] and [e]. *)
Definition settle_effect (id : string) (st : WebhookStatus) (e : option string)
    (c : Call) (t : Tables) : pgres Z * Tables :=
  match processed_webhooks t !! id with
  | Some r => if is_status WebhookProcessing r
              then (POk 1, set_processed_webhooks
                      (<[id := settled_row (c_now c) st e r]> (processed_webhooks t)) t)
              else (POk 0, t)
  | None => (POk 0, t)
  end.

Lemma mark_processed_effect id c t :
  ledger_ok (processed_webhooks t) →
  mark_processed_stmt id c t = settle_effect id WebhookSucceeded None c t.
Proof.
  intros Hok. apply update_hook_total; [done|]. intros r Hr _.
  apply row_ok_set_progress; [done|]. pose proof (row_ok_attempts r Hr).
  split_and!; [lia..|done|]. left. eauto.
Qed.

Lemma mark_skipped_effect id reason c t :
  ledger_ok (processed_webhooks t) →
  mark_skipped_stmt id reason c t = settle_effect id WebhookSkipped (Some reason) c t.
Proof.
  intros Hok. apply update_hook_total; [done|]. intros r Hr _.
  apply row_ok_set_progress; [done|]. pose proof (row_ok_attempts r Hr).
  split_and!; [lia..|done|]. left. eauto.
Qed.

Lemma mark_failed_effect id reason c t :
  ledger_ok (processed_webhooks t) →
  mark_failed_stmt id reason c t = settle_effect id WebhookFailed (Some reason) c t.
Proof.
  intros Hok. apply update_hook_total; [done|]. intros r Hr _.
  apply row_ok_set_progress; [done|]. pose proof (row_ok_attempts r Hr).
  split_and!; [lia..|eauto|]. right. eauto.
Qed.

(** *** Statements preserve well-formedness *)

Lemma claim_stmt_ok stale w c t :
  ledger_ok (processed_webhooks t) → ledger_ok (processed_webhooks (claim_stmt stale w c t).2).
Proof.
  intros Hok. destruct (claim_stmt stale w c t) as [x t'] eqn:Hc. simpl.
  apply claim_stmt_cases in Hc
    as [[-> _]|(new & _ & Hv & -> & [(_ & Hid & _)|(old & Ho & _ & ->)])]; [done|..];
    simpl; apply ledger_ok_insert; try done; try by apply violation_None.
  rewrite touch_event_id. by apply (Hok _ old Ho).
Qed.

Lemma update_hooks_ok c ids f t :
  ledger_ok (processed_webhooks t) → (∀ r, Row.event_id (f r) = Row.event_id r) →
  ledger_ok (processed_webhooks (update_hooks c ids f t).2).
Proof.
  intros Hok Hf. unfold update_hooks.
  match goal with |- context [map_imap ?g ?m] => set (m' := map_imap g m) end.
  destruct (omap _ ids) as [|v vs] eqn:Hv; [|done].
  simpl. intros k r Hr. pose proof Hr as Hr'. unfold m' in Hr'. rewrite map_lookup_imap in Hr'.
  destruct (processed_webhooks t !! k) as [x|] eqn:Hx; simplify_eq/=.
  destruct (Hok k x Hx) as [Hkey Hxok].
  case_bool_decide as Hin; [|done]. split; [by rewrite touch_event_id, Hf|].
  apply violation_None. apply eq_None_not_Some. intros [v Hvio].
  assert (v ∈ omap (λ id, m' !! id ≫= Row.violation) ids) as Hmem.
  { apply list_elem_of_omap. exists k. split; [done|]. rewrite Hr. done. }
  rewrite Hv in Hmem. by apply elem_of_nil in Hmem.
Qed.

Lemma exec_ledger_ok c o t :
  ledger_ok (processed_webhooks t) → ledger_ok (processed_webhooks (exec c o t)).
Proof.
  intros Hok.
  destruct o; simpl; try (by apply update_hook_ok); [by apply claim_stmt_ok| |].
  - unfold reclaim_stmt. case_match; [done|].
    match goal with |- context [update_hooks ?c ?i ?f ?t] =>
      pose proof (update_hooks_ok c i f t Hok) as Hu; destruct (update_hooks c i f t) as [[] ?] end;
    by apply Hu.
  - unfold purge_stmt. case_match; [done|].
    match goal with |- context [update_hooks ?c ?i ?f ?t] =>
      pose proof (update_hooks_ok c i f t Hok) as Hu; destruct (update_hooks c i f t) as [[] ?] end;
    by apply Hu.
Qed.


(** *** Settlement is not tied to the claim *)

(** Of two settlements of one claim, the second affects no row. *)
Lemma second_settlement id c2 c3 reason t r :
  ledger_ok (processed_webhooks t) → processed_webhooks t !! id = Some r →
  Row.status r = WebhookProcessing →
  ∃ t2, mark_processed_stmt id c2 t = (POk 1, t2) ∧ mark_failed_stmt id reason c3 t2 = (POk 0, t2).
Proof.
  intros Hok Hr Hst. pose proof (exec_ledger_ok c2 (OpProcessed id) t Hok) as Hok2. simpl in Hok2.
  destruct (mark_processed_stmt id c2 t) as [n t2] eqn:Hm. simpl in Hok2. exists t2.
  rewrite mark_processed_effect in Hm by done. unfold settle_effect in Hm.
  rewrite Hr, (proj2 (is_status_true _ _) Hst) in Hm. injection Hm as <- Ht2. split; [done|].
  rewrite mark_failed_effect by done. unfold settle_effect. rewrite <- Ht2 at 1. simpl.
  rewrite lookup_insert_eq. unfold is_status, settled_row. by rewrite touch_status.
Qed.

(** a worker whose claim went stale and was taken over still settles the
    event: its late settlement succeeds on the new holder's claim, and the
    new holder's own settlement then affects no row. *)
Theorem stale_worker_settles stale w c1 c2 c3 reason t r new t1 :
  let id := ProcessedWebhook.EventID w in
  ledger_ok (processed_webhooks t) →
  processed_webhooks t !! id = Some r → Row.status r = WebhookProcessing →
  claim_stmt stale w c1 t = (POk new, t1) →
  Row.attempts new = Row.attempts r + 1 ∧
  ∃ t2, mark_processed_stmt id c2 t1 = (POk 1, t2) ∧
    mark_failed_stmt id reason c3 t2 = (POk 0, t2).
Proof.
  intros id Hok Hr Hst Hc. pose proof (claim_stmt_ok stale w c1 t Hok) as Hok1. rewrite Hc in Hok1.
  apply claim_stmt_cases in Hc as [[_ [e ?]]|(x & [= <-] & _ & Ht1 & [(Hn & _)|(old & Ho & _ & Hnew)])];
    [done|unfold id in Hr; congruence|].
  unfold id in Hr. rewrite Ho in Hr. injection Hr as <-.
  split; [by rewrite Hnew, touch_attempts|].
  apply (second_settlement id c2 c3 reason t1 new Hok1).
  - rewrite Ht1. simpl. unfold id. by rewrite lookup_insert_eq.
  - by rewrite Hnew, touch_status.
Qed.

(** *** Retry budget *)

(** Operations other than a delivery of [id] itself. *)
Definition sweeper_only (id : string) (n : Z) (co : Call * ledger_op) : Prop :=
  match co.2 with
  | OpClaim _ w => ProcessedWebhook.EventID w ≠ id
  | OpRetry _ k => k ≤ n
  | _ => True
  end.

(** C27: however many sweepers run, with however stale a listing, the sweep
    never takes an event past its budget: without a new delivery of the
    event, its attempt count ends at most at the budget, or where it
    already was, and never decreases. *)
Theorem retry_budget ops t id r n :
  processed_webhooks t !! id = Some r → Forall (sweeper_only id n) ops →
  ∃ r', processed_webhooks (exec_all ops t) !! id = Some r' ∧
    Row.attempts r ≤ Row.attempts r' ≤ Z.max (Row.attempts r) n.
Proof.
  intros Hr Hops. revert t r Hr.
  induction Hops as [|[c o] ops Hco _ IH]; intros t r Hr; [exists r; split; [done|lia]|].
  pose proof (exec_row_step c o t id) as Hstep. rewrite Hr in Hstep.
  assert (∃ r1, processed_webhooks (exec c o t) !! id = Some r1 ∧
            Row.attempts r ≤ Row.attempts r1 ≤ Z.max (Row.attempts r) n) as (r1 & Hr1 & Hle).
  { unfold sweeper_only in Hco. destruct o; simpl in Hco;
      [exists r; rewrite exec_other_key; [split; [done|lia]|simpl; congruence]|..];
      inversion Hstep; subst; eexists; (split; [done|]); autorewrite with row; simpl; lia. }
  destruct (IH _ _ Hr1) as (r' & ? & ?). exists r'. split; [done|lia].
Qed.
End WellFormed.
