(* ===== verification/Purge.v ===== *)
(** * What the retention purge leaves behind

    [PurgePayloads] replaces a payload by an allowlisted skeleton built in SQL.
    This file shows that the skeleton holds nothing else, that the purge
    satisfies the table's constraints so that it is never rejected, exactly
    which rows one pass rewrites, and that repeated passes terminate. *)

From S2P Require Import Prelude GoStd Domain Database WebhookRepo Ledger.
Open Scope Z_scope.

(** ** JSON with nulls stripped *)

Section JsonInd.
Context (P : json → Prop).
Context (Hnull : P JNull) (Hbool : ∀ b, P (JBool b)) (Hnum : ∀ n, P (JNum n))
  (Hstr : ∀ s, P (JStr s)) (Harr : ∀ l, Forall P l → P (JArr l))
  (Hobj : ∀ l, Forall (λ kv, P kv.2) l → P (JObj l)).

Fixpoint json_nested_ind (j : json) : P j :=
  match j with
  | JNull => Hnull
  | JBool b => Hbool b
  | JNum n => Hnum n
  | JStr s => Hstr s
  | JArr l => Harr l ((fix go l := match l return Forall P l with
      | [] => Forall_nil_2 _
      | x :: l' => Forall_cons_2 _ _ _ (json_nested_ind x) (go l')
      end) l)
  | JObj l => Hobj l ((fix go l := match l return Forall (λ kv, P kv.2) l with
      | [] => Forall_nil_2 _
      | kv :: l' => Forall_cons_2 _ _ _ (json_nested_ind kv.2) (go l')
      end) l)
  end.
End JsonInd.

Fixpoint strip_fields (l : list (string * json)) : list (string * json) :=
  match l with
  | [] => []
  | (k, v) :: l' =>
      if bool_decide (v = JNull) then strip_fields l'
      else (k, jsonb_strip_nulls v) :: strip_fields l'
  end.

Lemma jsonb_strip_nulls_obj l : jsonb_strip_nulls (JObj l) = JObj (strip_fields l).
Proof.
  simpl. f_equal. induction l as [|[k v] l IH]; [done|]. simpl. rewrite <- IH.
  by destruct v.
Qed.

Lemma strip_nulls_null j : jsonb_strip_nulls j = JNull ↔ j = JNull.
Proof. by destruct j. Qed.

Lemma jsonb_strip_nulls_idem j : jsonb_strip_nulls (jsonb_strip_nulls j) = jsonb_strip_nulls j.
Proof.
  induction j as [| | | |l IH|l IH] using json_nested_ind; try done.
  - simpl. f_equal. induction IH as [|x l Hx _ IHl]; simpl; [done|]. by rewrite Hx, IHl.
  - rewrite !jsonb_strip_nulls_obj. f_equal.
    induction IH as [|[k v] l Hv _ IHl]; [done|]. simpl in *.
    case_bool_decide as Hn; [done|]. simpl.
    rewrite bool_decide_eq_false_2; [|by rewrite strip_nulls_null]. by rewrite Hv, IHl.
Qed.

(** Reading a stripped object. *)
Lemma assoc_strip_fields k l :
  NoDup l.*1 →
  assoc k (strip_fields l) =
    match assoc k l with
    | Some v => if bool_decide (v = JNull) then None else Some (jsonb_strip_nulls v)
    | None => None
    end.
Proof.
  induction l as [|[k' v] l IH]; [done|]. simpl. rewrite NoDup_cons. intros [Hnot Hnd].
  specialize (IH Hnd). case_bool_decide as Hn; simpl; case_bool_decide as Hk; subst; try done.
  - rewrite IH. rewrite bool_decide_eq_true_2 by done.
    destruct (assoc k' l) eqn:Ha; [|done]. exfalso. apply Hnot. clear -Ha.
    induction l as [|[a b] l IHl]; [done|]. simpl in *.
    case_bool_decide; subst; [left|right; by apply IHl].
  - by rewrite (bool_decide_eq_false_2 _ Hn).
Qed.

Lemma jget_strip_nulls k l :
  NoDup l.*1 →
  jget (jsonb_strip_nulls (JObj l)) k =
    match assoc k l with
    | Some v => if bool_decide (v = JNull) then None else Some (jsonb_strip_nulls v)
    | None => None
    end.
Proof. intros. rewrite jsonb_strip_nulls_obj. by apply assoc_strip_fields. Qed.

Section Skeleton.
Context (p : json).

Definition skeleton_keys : list string :=
  ["id"; "object"; "type"; "created"; "livemode"; "api_version"; "data"].

Definition skeleton_object : json :=
  jsonb_strip_nulls (jsonb_build_object [
    ("id", jpath p ["data"; "object"; "id"]); ("object", jpath p ["data"; "object"; "object"])]).

Lemma skeleton_data :
  jsonb_strip_nulls (JObj [("object", skeleton_object)]) = JObj [("object", skeleton_object)].
Proof.
  assert (jsonb_strip_nulls skeleton_object = skeleton_object) as Hs
    by apply jsonb_strip_nulls_idem.
  assert (skeleton_object ≠ JNull) as Hn by done.
  generalize dependent skeleton_object. intros o Hs Hn.
  rewrite jsonb_strip_nulls_obj. cbn [strip_fields].
  by rewrite (bool_decide_eq_false_2 _ Hn), Hs.
Qed.

Lemma skeleton_jget k :
  jget (payloadSkeleton p) k =
    if bool_decide (k = "data") then Some (JObj [("object", skeleton_object)])
    else if bool_decide (k ∈ skeleton_keys)
    then match jget p k with
         | Some v => if bool_decide (v = JNull) then None else Some (jsonb_strip_nulls v)
         | None => None
         end
    else None.
Proof.
  unfold payloadSkeleton, jsonb_build_object. rewrite jget_strip_nulls
    by (apply (bool_decide_eq_true _); by vm_compute).
  unfold skeleton_keys. cbn [fmap list_fmap assoc fst snd default].
  repeat match goal with
  | |- context [if bool_decide (k = ?x) then _ else _] =>
      destruct (decide (k = x)) as [->|];
      [|rewrite !(bool_decide_eq_false_2 (k = x)) by done]
  end;
  try (rewrite (bool_decide_eq_false_2 (k ∈ _)) by set_solver; done);
  rewrite ?bool_decide_eq_true_2 by done; cbn [default];
  try (destruct (jget p _) as [[]|]; done).
  rewrite bool_decide_eq_false_2 by done. f_equal. exact skeleton_data.
Qed.
End Skeleton.

(** ** What the skeleton holds *)

(** A field of the skeleton, from the field it is taken from. *)
Definition kept (o : option json) : option json :=
  match o with
  | Some v => if bool_decide (v = JNull) then None else Some (jsonb_strip_nulls v)
  | None => None
  end.

Lemma strip_fields_keys l k : k ∈ (strip_fields l).*1 → k ∈ l.*1.
Proof.
  induction l as [|[k' v] l IH]; [done|]. simpl. case_bool_decide; simpl; rewrite !elem_of_cons; tauto.
Qed.

Lemma strip_fields_NoDup l : NoDup l.*1 → NoDup (strip_fields l).*1.
Proof.
  induction l as [|[k' v] l IH]; [done|]. simpl. rewrite NoDup_cons. intros [Hk Hl].
  case_bool_decide; [by apply IH|]. simpl. apply NoDup_cons. split; [|by apply IH].
  by intros ?%strip_fields_keys.
Qed.

Lemma kept_idem o : kept (kept o) = kept o.
Proof.
  destruct o as [v|]; [|done]. unfold kept. case_bool_decide as Hn; [done|].
  by rewrite bool_decide_eq_false_2, jsonb_strip_nulls_idem by by rewrite strip_nulls_null.
Qed.

(** Building from fields already stripped gives the same object. *)
Lemma strip_build_kept l :
  jsonb_strip_nulls (jsonb_build_object ((λ ko, (ko.1, kept ko.2)) <$> l)) =
  jsonb_strip_nulls (jsonb_build_object l).
Proof.
  unfold jsonb_build_object. rewrite !jsonb_strip_nulls_obj. f_equal.
  induction l as [|[k o] l IH]; [done|].
  rewrite !fmap_cons. cbn [strip_fields fst snd]. rewrite IH.
  destruct o as [v|]; [|done]. destruct (decide (v = JNull)) as [->|Hn]; [done|].
  unfold kept. rewrite (bool_decide_eq_false_2 _ Hn). cbn [default]. unfold id.
  rewrite bool_decide_eq_false_2 by by rewrite strip_nulls_null.
  by rewrite jsonb_strip_nulls_idem, (bool_decide_eq_false_2 _ Hn).
Qed.

Section SkeletonFacts.
Context (p : json).

Lemma skeleton_kept k :
  k ∈ skeleton_keys → k ≠ "data" → jget (payloadSkeleton p) k = kept (jget p k).
Proof.
  intros Hk Hd. rewrite skeleton_jget, (bool_decide_eq_false_2 _ Hd).
  by rewrite (bool_decide_eq_true_2 _ Hk).
Qed.

Lemma skeleton_object_jget k :
  jget (skeleton_object p) k =
    if bool_decide (k ∈ ["id"; "object"]) then kept (jpath p ["data"; "object"; k]) else None.
Proof.
  unfold skeleton_object, jsonb_build_object. rewrite jget_strip_nulls
    by (apply (bool_decide_eq_true _); by vm_compute).
  cbn [fmap list_fmap assoc fst snd].
  destruct (decide (k = "id")) as [->|H1]; [by destruct (jpath p _)|].
  rewrite (bool_decide_eq_false_2 _ H1).
  destruct (decide (k = "object")) as [->|H2]; [by destruct (jpath p _)|].
  rewrite (bool_decide_eq_false_2 _ H2).
  by rewrite bool_decide_eq_false_2 by set_solver.
Qed.

Lemma skeleton_path k :
  jpath (payloadSkeleton p) ["data"; "object"; k] =
    if bool_decide (k ∈ ["id"; "object"]) then kept (jpath p ["data"; "object"; k]) else None.
Proof.
  rewrite <- skeleton_object_jget. cbn [jpath]. rewrite skeleton_jget. cbn [bool_decide].
  simpl bool_decide. cbn [jget assoc]. simpl bool_decide. cbn iota.
  by destruct (jget (skeleton_object p) k).
Qed.

Lemma skeleton_is_object : ∃ l, payloadSkeleton p = JObj l ∧ NoDup l.*1 ∧ l.*1 ⊆ skeleton_keys.
Proof.
  unfold payloadSkeleton, jsonb_build_object. rewrite jsonb_strip_nulls_obj.
  eexists. split_and!; [done| |].
  - apply strip_fields_NoDup. apply (bool_decide_eq_true _). by vm_compute.
  - intros k Hk%strip_fields_keys. exact Hk.
Qed.
End SkeletonFacts.

Section PurgeRow.
Context `{GoUnicode, Postgres}.

(** C35: the purge keeps an allowlist, whatever Stripe put in the payload: the
    stored document has only the seven named fields, [data] holds only
    [object], and [data.object] only [id] and [object]; each kept field is
    the payload's own. *)
Theorem skeleton_allowlist p :
  ∃ l, payloadSkeleton p = JObj l ∧ NoDup l.*1 ∧ l.*1 ⊆ skeleton_keys ∧
    (∀ k, k ∈ skeleton_keys → k ≠ "data" → jget (payloadSkeleton p) k = kept (jget p k)) ∧
    ∃ d, jget (payloadSkeleton p) "data" = Some (JObj [("object", JObj d)]) ∧
      d.*1 ⊆ ["id"; "object"] ∧
      ∀ k, jget (JObj d) k =
           if bool_decide (k ∈ ["id"; "object"]) then kept (jpath p ["data"; "object"; k]) else None.
Proof.
  destruct (skeleton_is_object p) as (l & Hl & Hnd & Hsub). exists l. split_and!; try done.
  - apply skeleton_kept.
  - pose proof (skeleton_object_jget p) as Hobj. rewrite skeleton_jget, bool_decide_eq_true_2 by done.
    revert Hobj. unfold skeleton_object, jsonb_build_object. rewrite jsonb_strip_nulls_obj.
    intros Hobj. eexists. split_and!; [done| |done].
    intros k Hk%strip_fields_keys. exact Hk.
Qed.

(** Purging a document already purged changes nothing. *)
Lemma payloadSkeleton_idem p : payloadSkeleton (payloadSkeleton p) = payloadSkeleton p.
Proof.
  unfold payloadSkeleton at 1. rewrite (skeleton_path p "id"), (skeleton_path p "object").
  rewrite !(bool_decide_eq_true_2 (_ ∈ ["id"; "object"])) by set_solver.
  rewrite !(skeleton_kept p) by first [done | apply (bool_decide_eq_true _); by vm_compute].
  pose proof (strip_build_kept [("id", jpath p ["data"; "object"; "id"]);
    ("object", jpath p ["data"; "object"; "object"])]) as Hin.
  cbn [fmap list_fmap fst snd] in Hin. rewrite Hin.
  etrans; [symmetry; apply strip_build_kept|]. etrans; [|apply strip_build_kept].
  cbn [fmap list_fmap fst snd]. rewrite !kept_idem.
  reflexivity.
Qed.
End PurgeRow.

(** ** One pass over the table *)

Section PurgePass.
Context `{GoUnicode, Postgres}.
Implicit Types (m : gmap string Row.t) (ids : list string).

Lemma purge_row_ok now r : row_ok r → row_ok (purge_row now r).
Proof.
  intros [Hp Hs]. split; [done|]. revert Hs. unfold static_ok, purge_row, Row.purged_ok. simpl.
  rewrite !andb_true_iff. intros [[[Hid Hty] Hobj] _]. split_and!; try done;
    destruct (Row.payload r) as [p|]; try done; cbn [fmap option_fmap option_map].
  apply negb_true_iff, andb_false_iff. right.
  cbn [jpath]. rewrite skeleton_jget, bool_decide_eq_true_2 by done.
  cbn [jpath jget assoc]. rewrite bool_decide_eq_true_2 by done.
  pose proof (skeleton_object_jget p) as Hobj'. revert Hobj'.
  unfold skeleton_object, jsonb_build_object. rewrite jsonb_strip_nulls_obj.
  intros Hg. unfold jget in Hg. cbn [jexists_any existsb jexists].
  rewrite !Hg. by vm_compute.
Qed.

Definition hooks_after (c : Call) ids (f : Row.t → Row.t) m : gmap string Row.t :=
  map_imap (λ k r, Some (if bool_decide (k ∈ ids) then Row.touch (c_now c) r (f r) else r)) m.

Lemma lookup_hooks_after c ids f m k :
  hooks_after c ids f m !! k =
    (λ r, if bool_decide (k ∈ ids) then Row.touch (c_now c) r (f r) else r) <$> m !! k.
Proof. unfold hooks_after. rewrite map_lookup_imap. by destruct (m !! k). Qed.

(** In a well-formed ledger a bulk UPDATE whose SET clause respects the
    constraints on the rows it selects is never rejected. *)
Lemma update_hooks_total c ids f t :
  (∀ k r, k ∈ ids → processed_webhooks t !! k = Some r → row_ok (f r)) →
  update_hooks c ids f t =
    (POk (omap (λ k, hooks_after c ids f (processed_webhooks t) !! k) ids),
     set_processed_webhooks (hooks_after c ids f (processed_webhooks t)) t).
Proof.
  intros Hf. unfold update_hooks. fold (hooks_after c ids f (processed_webhooks t)).
  destruct (omap _ ids) as [|v vs] eqn:Hv; [done|exfalso].
  assert (v ∈ v :: vs) as Hin by set_solver. rewrite <- Hv in Hin.
  apply list_elem_of_omap in Hin as (k & Hk & Hvio). rewrite lookup_hooks_after in Hvio.
  destruct (_ !! k) as [r|] eqn:Hr; [|done]. simpl in Hvio.
  rewrite bool_decide_eq_true_2 in Hvio by done.
  rewrite violation_touch, (proj2 (violation_None _)) in Hvio; [done|]. by eapply Hf.
Qed.

(** *** Selection *)

Definition candidates (P : Row.t → bool) (locked : list string) m : list (string * Row.t) :=
  filter (λ kr, kr.1 ∉ locked) (rows_where P m).

Lemma NoDup_candidates P locked m : NoDup (candidates P locked m).*1.
Proof.
  eapply sublist_NoDup; [apply (NoDup_rows_where P m)|]. apply fmap_sublist, sublist_filter.
Qed.

Lemma select_rows_facts P (R : relation (string * Row.t)) `{!RelDecision R, !Transitive R, !Total R}
    limit locked m :
  NoDup (select_rows P R limit locked m).*1 ∧
  length (select_rows P R limit locked m) =
    (Z.to_nat limit `min` length (candidates P locked m))%nat ∧
  (∀ k r, (k, r) ∈ candidates P locked m → k ∉ (select_rows P R limit locked m).*1 →
     Forall (λ x, R x (k, r)) (select_rows P R limit locked m)).
Proof.
  unfold select_rows. fold (candidates P locked m).
  set (l := merge_sort R (candidates P locked m)).
  assert (l ≡ₚ candidates P locked m) as Hl by apply merge_sort_Permutation.
  assert (StronglySorted R l) as Hs by by apply StronglySorted_merge_sort.
  split_and!.
  - apply (sublist_NoDup _ l.*1); [|apply fmap_sublist, sublist_take].
    rewrite Hl. apply NoDup_candidates.
  - rewrite length_take, Hl. done.
  - intros k r Hin Hnot. rewrite <- Hl in Hin.
    rewrite <- (take_drop (Z.to_nat limit) l) in Hin, Hs.
    apply elem_of_app in Hin as [Hin|Hin];
      [exfalso; apply Hnot, list_elem_of_fmap; by exists (k, r)|].
    apply Forall_forall. intros x Hx. by eapply StronglySorted_app_1_elem_of.
Qed.
#[local] Instance by_received_at_trans : Transitive by_received_at.
Proof. intros a b d. unfold by_received_at. lia. Qed.
#[local] Instance by_received_at_total : Total by_received_at.
Proof. intros a b. unfold by_received_at. lia. Qed.

(** The rows one pass selects. *)
Definition purge_batch (q : PurgeQuery) (c : Call) m : list string :=
  (select_rows (purge_due (c_now c) q) by_received_at (PurgeLimit q) (c_locked c) m).*1.

Lemma purge_batch_due q c m k :
  k ∈ purge_batch q c m → ∃ r, m !! k = Some r ∧ purge_due (c_now c) q r = true ∧ k ∉ c_locked c.
Proof. apply select_rows_selected. Qed.

Lemma purge_stmt_batch q c t :
  ledger_ok (processed_webhooks t) → 0 ≤ PurgeLimit q →
  let ids := purge_batch q c (processed_webhooks t) in
  let m' := hooks_after c ids (purge_row (c_now c)) (processed_webhooks t) in
  purge_stmt q c t = (POk (Row.status <$> omap (λ k, m' !! k) ids), set_processed_webhooks m' t).
Proof.
  intros Hok Hl ids m'. unfold purge_stmt. destruct (Z.ltb_spec (PurgeLimit q) 0); [lia|].
  fold (purge_batch q c (processed_webhooks t)). rewrite update_hooks_total; [done|].
  intros k r _ Hr. apply purge_row_ok. by apply (Hok k r Hr).
Qed.

Lemma purge_batch_in_table q c m k :
  k ∈ purge_batch q c m → is_Some (hooks_after c (purge_batch q c m) (purge_row (c_now c)) m !! k).
Proof.
  intros Hk. rewrite lookup_hooks_after. apply fmap_is_Some.
  apply purge_batch_due in Hk as (r & -> & _). eauto.
Qed.

(** a retention pass over a well-formed ledger is never rejected by the
    table's constraints.  It purges as many due rows as the limit and other
    sessions' locks allow, the oldest first, each to its skeleton with the
    purge time stamped; a row being processed, not due, or locked is left as
    it was. *)
Theorem purge_pass q c t :
  ledger_ok (processed_webhooks t) → 0 ≤ PurgeLimit q →
  ∃ ids ss t', purge_stmt q c t = (POk ss, t') ∧ NoDup ids ∧ length ss = length ids ∧
    Z.of_nat (length ids) =
      Z.min (PurgeLimit q) (Z.of_nat (length (candidates (purge_due (c_now c) q) (c_locked c)
                                               (processed_webhooks t)))) ∧
    (∀ k, processed_webhooks t' !! k =
      (λ r, if bool_decide (k ∈ ids) then Row.touch (c_now c) r (purge_row (c_now c) r) else r) <$>
        processed_webhooks t !! k) ∧
    (∀ k r, k ∈ ids → processed_webhooks t !! k = Some r →
      purge_due (c_now c) q r = true ∧ (k ∉ c_locked c) ∧
      ∀ k' r', (k', r') ∈ candidates (purge_due (c_now c) q) (c_locked c) (processed_webhooks t) →
        k' ∉ ids → Row.received_at r ≤ Row.received_at r').
Proof.
  intros Hok Hl. destruct (select_rows_facts (purge_due (c_now c) q) by_received_at (PurgeLimit q)
    (c_locked c) (processed_webhooks t)) as (Hnd & Hlen & Hold).
  eexists (purge_batch q c (processed_webhooks t)), _, _.
  split; [by apply purge_stmt_batch|]. split_and!; [done| | | |].
  - rewrite length_fmap. apply length_omap_Some. apply purge_batch_in_table.
  - unfold purge_batch. rewrite length_fmap, Hlen. lia.
  - intros k. apply lookup_hooks_after.
  - intros k r Hk Hr. pose proof (purge_batch_due _ _ _ _ Hk) as (r0 & Hr0 & Hd & Hlk).
    simplify_eq. split_and!; try done. intros k' r' Hc Hnot.
    specialize (Hold k' r' Hc Hnot). rewrite Forall_forall in Hold.
    unfold purge_batch in Hk. apply list_elem_of_fmap in Hk as ([k1 r1] & -> & Hin).
    specialize (Hold _ Hin). apply elem_of_select_rows in Hin as [Hin _]. simpl in *. simplify_eq.
    exact Hold.
Qed.

(** *** Progress *)

Lemma count_where_size P m : count_where P m = Z.of_nat (size (filter (λ kr, P kr.2 = true) m)).
Proof.
  unfold count_where, rows_where. f_equal.
  rewrite <- length_map_to_list. apply Permutation_length.
  apply NoDup_Permutation.
  - apply NoDup_filter, NoDup_map_to_list.
  - apply NoDup_map_to_list.
  - intros [k r]. rewrite list_elem_of_filter, !elem_of_map_to_list, map_lookup_filter_Some. tauto.
Qed.

Lemma count_after P c ids f m :
  NoDup ids → (∀ k, k ∈ ids → ∃ r, m !! k = Some r ∧ P r = true ∧
                 P (Row.touch (c_now c) r (f r)) = false) →
  count_where P (hooks_after c ids f m) = count_where P m - Z.of_nat (length ids).
Proof.
  intros Hnd Hids. rewrite !count_where_size.
  assert (dom (filter (λ kr, P kr.2 = true) (hooks_after c ids f m)) =
          dom (filter (λ kr, P kr.2 = true) m) ∖ (list_to_set ids : gset string)) as Hdom.
  { apply set_eq. intros k. rewrite elem_of_difference, elem_of_list_to_set, !elem_of_dom.
    unfold is_Some. setoid_rewrite map_lookup_filter_Some. simpl. rewrite lookup_hooks_after.
    destruct (decide (k ∈ ids)) as [Hk|Hk].
    - rewrite bool_decide_eq_true_2 by done. destruct (Hids k Hk) as (r & -> & _ & Hf).
      split; [|tauto]. intros (x & [= <-] & Hx). congruence.
    - rewrite bool_decide_eq_false_2 by done. destruct (m !! k); naive_solver. }
  rewrite <- !(size_dom (D := gset string)), Hdom.
  rewrite size_difference.
  - rewrite size_list_to_set by done.
    enough (size (list_to_set ids : gset string) ≤ size (dom (D := gset string) (filter (λ kr, P kr.2 = true) m)))%nat
      as Hle; [rewrite size_list_to_set in Hle by done; lia|].
    apply subseteq_size. intros k. rewrite elem_of_list_to_set, elem_of_dom. intros Hk.
    destruct (Hids k Hk) as (r & Hr & HP & _). exists r. by apply map_lookup_filter_Some.
  - intros k. rewrite elem_of_list_to_set, elem_of_dom. intros Hk.
    destruct (Hids k Hk) as (r & Hr & HP & _). exists r. by apply map_lookup_filter_Some.
Qed.

Lemma purge_due_holds now q r : purge_due now q r = true → holds_payload r = true.
Proof. unfold purge_due. rewrite !andb_true_iff. tauto. Qed.

Lemma purged_no_payload n r now : holds_payload (Row.touch n r (purge_row now r)) = false.
Proof.
  unfold holds_payload. rewrite touch_purged. apply andb_false_iff. right. by vm_compute.
Qed.

(** Every pass lowers the number of rows that still hold a payload by what it
    reports. *)
Lemma purge_stmt_progress q c t ss t' :
  ledger_ok (processed_webhooks t) → 0 ≤ PurgeLimit q → purge_stmt q c t = (POk ss, t') →
  count_where holds_payload (processed_webhooks t') =
    count_where holds_payload (processed_webhooks t) - Z.of_nat (length ss).
Proof.
  intros Hok Hl. rewrite purge_stmt_batch by done. intros [= <- <-]. simpl.
  rewrite length_fmap, length_omap_Some by apply purge_batch_in_table.
  apply count_after.
  - apply select_rows_facts; apply _.
  - intros k (r & Hr & Hd & _)%purge_batch_due. exists r. split_and!; [done| |].
    + by eapply purge_due_holds.
    + apply purged_no_payload.
Qed.

(** A short batch with no row locked by others means nothing is left due. *)
Lemma purge_stmt_drained q c t ss t' :
  ledger_ok (processed_webhooks t) → c_locked c = [] →
  purge_stmt q c t = (POk ss, t') → Z.of_nat (length ss) < PurgeLimit q →
  ∀ k r, processed_webhooks t' !! k = Some r → purge_due (c_now c) q r = false.
Proof.
  intros Hok Hlk Hp Hshort k r Hr. apply not_true_iff_false. intros Hdue.
  rewrite purge_stmt_batch in Hp by (done || lia). injection Hp as <- <-.
  rewrite length_fmap, length_omap_Some in Hshort by apply purge_batch_in_table.
  simpl in Hr. rewrite lookup_hooks_after in Hr.
  destruct (processed_webhooks t !! k) as [x|] eqn:Hx; [|done]. injection Hr as <-. revert Hdue.
  case_bool_decide as Hin.
  { intros Hd%purge_due_holds. by rewrite purged_no_payload in Hd. }
  intros Hd. apply Hin. unfold purge_batch, select_rows in *.
  fold (candidates (purge_due (c_now c) q) (c_locked c) (processed_webhooks t)) in *.
  rewrite take_ge in * by (rewrite length_fmap, length_take in Hshort; lia).
  apply list_elem_of_fmap. exists (k, x). split; [done|].
  rewrite merge_sort_Permutation. unfold candidates. rewrite Hlk.
  apply list_elem_of_filter. split; [set_solver|]. by apply elem_of_rows_where.
Qed.

Lemma tally_total ss : PurgeResult_Total (tally ss) = Z.of_nat (length ss).
Proof.
  unfold tally.
  enough (∀ acc, PurgeResult_Total (foldl (λ acc s, if bool_decide (s = WebhookFailed)
            then mkPurgeResult (Settled acc) (Unsettled acc + 1)
            else mkPurgeResult (Settled acc + 1) (Unsettled acc)) acc ss) =
          PurgeResult_Total acc + Z.of_nat (length ss)) as Hg by apply Hg.
  induction ss as [|s ss IH]; intros acc; [simpl; lia|]. cbn [foldl]. rewrite IH.
  case_bool_decide; unfold PurgeResult_Total; simpl; lia.
Qed.
End PurgePass.
