(* ===== verification/SubscriptionRepo.v ===== *)
(** * internal/repository/postgres/subscription_repo.go

    The subscriptions table with its constraints (migrations 2 and 4) and the
    repository's operations on it.  Their laws are in Subscriptions.v. *)

From S2P Require Import Prelude GoStd Domain Database WebhookRepo.
Open Scope Z_scope.

(** ** Update requests *)

Module InvoicePaymentUpdate.
Record t := mk {
  StripeSubscriptionID : string;
  Succeeded : bool;
  EventID : string;
  EventCreatedAt : Time;
  InvoiceID : option string;
  FailureReason : option string;
  NextAttemptAt : option Time;
  CurrentPeriodStart : option Time;
  CurrentPeriodEnd : option Time;
}.
End InvoicePaymentUpdate.

Module SubscriptionStatusUpdate.
Record t := mk {
  StripeSubscriptionID : string;
  Status : SubscriptionStatus;
  EventID : string;
  EventCreatedAt : Time;
  CurrentPeriodStart : option Time;
  CurrentPeriodEnd : option Time;
  CancelAtPeriodEnd : option bool;
  CancelAt : option Time;
  CanceledAt : option Time;
  EndedAt : option Time;
  TrialEnd : option Time;
  StripePriceID : option string;
  Quantity : option Z;
  LatestInvoiceID : option string;
  DefaultPaymentMethodID : option string;
}.
End SubscriptionStatusUpdate.

Definition derefOr (s : option string) (fallback : string) : string :=
  match s with
  | Some x => if bool_decide (x = "") then fallback else x
  | None => fallback
  end.

Definition nullIfEmpty (s : string) : option string :=
  if bool_decide (s = "") then None else Some s.

(** [COALESCE($n, column)] for a nullable column and for a NOT NULL one. *)
Definition coalesce {A} (new old : option A) : option A :=
  match new with Some _ => new | None => old end.
Definition coalesce_nn {A} (new : option A) (old : A) : A := default old new.

(** ** Constraints *)

Section Constraints.
Import Subscription.

Definition currency_format (c : string) : bool :=
  (len c =? 3) && str_forall is_lower c.

Definition sub_constraints (s : t) : list (string * bool) := [
  ("subscriptions_canceled_at_chk",
    negb (bool_decide (Status s = SubscriptionCanceled)) || bool_decide (is_Some (CanceledAt s)));
  ("subscriptions_currency_format_chk",
    match Currency s with Some c => currency_format c | None => true end);
  ("subscriptions_dunning_consistency_chk",
    (bool_decide (PaymentFailedAt s = None) && (PaymentFailureCount s =? 0))
    || (bool_decide (is_Some (PaymentFailedAt s)) && (0 <? PaymentFailureCount s)));
  ("subscriptions_payment_failure_count_chk", 0 <=? PaymentFailureCount s);
  ("subscriptions_period_order_chk", CurrentPeriodStart s <? CurrentPeriodEnd s);
  ("subscriptions_quantity_positive_chk", 0 <? Quantity s);
  ("subscriptions_stripe_customer_id_format_chk", Row.id_format "cus_" (StripeCustomerID s));
  ("subscriptions_stripe_price_id_format_chk", Row.id_format "price_" (StripePriceID s));
  ("subscriptions_stripe_subscription_id_format_chk",
    Row.id_format "sub_" (StripeSubscriptionID s));
  ("subscriptions_trial_order_chk",
    match TrialStart s, TrialEnd s with Some a, Some b => a <? b | _, _ => true end);
  ("subscriptions_unit_amount_non_negative_chk",
    match UnitAmount s with Some a => 0 <=? a | None => true end)
].

Definition invalid_enum (s : string) : dberr :=
  PgError "22P02" "" ("invalid input value for enum subscription_status: " +:+ dq +:+ s +:+ dq).

(** What the server reports for a row it refuses: the enum cast comes first,
    then integer arithmetic, then the checks. *)
Definition sub_violation (s : t) : option dberr :=
  if negb (SubscriptionStatus_Valid (Status s)) then Some (invalid_enum (Status s))
  else if PaymentFailureCount s <=? max_int32
  then first_violation "subscriptions" (sub_constraints s)
  else Some out_of_range.

(** [trg_subscriptions_set_updated_at]. *)
Definition sub_touch (now : Time) (old new : t) : t :=
  if bool_decide (old = new) then new else set_UpdatedAt now new.
End Constraints.

(** ** Statements *)

Section Statements.
Import Subscription.

(** The row an INSERT of [s] stores: the dunning columns take their defaults. *)
Definition inserted_row (c : Call) (s : t) : t :=
  mk (c_uuid c) (UserID s) (StripeSubscriptionID s) (StripeCustomerID s) (StripePriceID s)
     (StripeProductID s) (Status s) (Quantity s) (Currency s) (UnitAmount s)
     (CurrentPeriodStart s) (CurrentPeriodEnd s) (CancelAtPeriodEnd s) (CancelAt s)
     (CanceledAt s) (EndedAt s) (TrialStart s) (TrialEnd s) (LatestInvoiceID s)
     (DefaultPaymentMethodID s) None 0 None None None None
     (LastStripeEventID s) (LastStripeEventAt s) (Metadata s) (c_now c) (c_now c).

Definition create_subscription_stmt (s : t) (c : Call) (tb : Tables) : pgres t * Tables :=
  let row := inserted_row c s in
  match sub_violation row with
  | Some v => (PErr v, tb)
  | None =>
    if existsb (λ kr, bool_decide (ID kr.2 = c_uuid c)) (map_to_list (subscriptions tb))
    then (PErr (unique_violation "subscriptions_pkey"), tb)
    else match subscriptions tb !! StripeSubscriptionID s with
    | Some _ => (PErr (unique_violation "subscriptions_stripe_subscription_id_key"), tb)
    | None =>
      match users tb !! UserID s with
      | None => (PErr (fkey_violation "subscriptions" "subscriptions_user_id_fkey"), tb)
      | Some _ => (POk row, set_subscriptions (<[StripeSubscriptionID s := row]> (subscriptions tb)) tb)
      end
    end
  end.

(** [Scan(&s.ID, &s.CreatedAt, &s.UpdatedAt)]. *)
Definition scan_inserted (row s : t) : t :=
  mk (ID row) (UserID s) (StripeSubscriptionID s) (StripeCustomerID s) (StripePriceID s)
     (StripeProductID s) (Status s) (Quantity s) (Currency s) (UnitAmount s)
     (CurrentPeriodStart s) (CurrentPeriodEnd s) (CancelAtPeriodEnd s) (CancelAt s)
     (CanceledAt s) (EndedAt s) (TrialStart s) (TrialEnd s) (LatestInvoiceID s)
     (DefaultPaymentMethodID s) (PaymentFailedAt s) (PaymentFailureCount s)
     (LastPaymentError s) (NextPaymentAttemptAt s) (LastInvoiceEventID s)
     (LastInvoiceEventAt s) (LastStripeEventID s) (LastStripeEventAt s)
     (Metadata s) (CreatedAt row) (UpdatedAt row).

Definition get_subscription_stmt (sid : string) (c : Call) (tb : Tables) : pgres t * Tables :=
  (match subscriptions tb !! sid with Some s => POk s | None => PErr NoRows end, tb).

(** [ORDER BY created_at DESC LIMIT 1] over the user's rows. *)
Definition later (a b : t) : t := if CreatedAt a <? CreatedAt b then b else a.
Definition latest_of (l : list t) : option t :=
  match l with [] => None | s :: l' => Some (foldl later s l') end.
Definition latest_subscription_stmt (uid : UUID) (c : Call) (tb : Tables) : pgres t * Tables :=
  (match latest_of (rows_where (λ s, bool_decide (UserID s = uid)) (subscriptions tb)).*2 with
   | Some s => POk s
   | None => PErr NoRows
   end, tb).

(** [SELECT cursor FROM subscriptions WHERE stripe_subscription_id = $1 FOR UPDATE]. *)
Definition lock_stmt (cursor : t → option Time) (sid : string) (c : Call) (tb : Tables)
    : pgres (option Time) * Tables :=
  (match subscriptions tb !! sid with Some s => POk (cursor s) | None => PErr NoRows end, tb).

(** [UPDATE subscriptions SET f WHERE stripe_subscription_id = $1 RETURNING ..]. *)
Definition update_sub_stmt (sid : string) (f : t → t) (c : Call) (tb : Tables) : pgres t * Tables :=
  match subscriptions tb !! sid with
  | None => (PErr NoRows, tb)
  | Some s =>
    let s' := sub_touch (c_now c) s (f s) in
    match sub_violation s' with
    | Some v => (PErr v, tb)
    | None => (POk s', set_subscriptions (<[sid := s']> (subscriptions tb)) tb)
    end
  end.

(** The SET clause of [UpdateSubscriptionStatus]. *)
Definition apply_status (i : SubscriptionStatusUpdate.t) (s : t) : t :=
  mk (ID s) (UserID s) (StripeSubscriptionID s) (StripeCustomerID s)
     (coalesce_nn (SubscriptionStatusUpdate.StripePriceID i) (StripePriceID s))
     (StripeProductID s)
     (SubscriptionStatusUpdate.Status i)
     (coalesce_nn (SubscriptionStatusUpdate.Quantity i) (Quantity s))
     (Currency s) (UnitAmount s)
     (coalesce_nn (SubscriptionStatusUpdate.CurrentPeriodStart i) (CurrentPeriodStart s))
     (coalesce_nn (SubscriptionStatusUpdate.CurrentPeriodEnd i) (CurrentPeriodEnd s))
     (coalesce_nn (SubscriptionStatusUpdate.CancelAtPeriodEnd i) (CancelAtPeriodEnd s))
     (coalesce (SubscriptionStatusUpdate.CancelAt i) (CancelAt s))
     (coalesce (SubscriptionStatusUpdate.CanceledAt i) (CanceledAt s))
     (coalesce (SubscriptionStatusUpdate.EndedAt i) (EndedAt s))
     (TrialStart s)
     (coalesce (SubscriptionStatusUpdate.TrialEnd i) (TrialEnd s))
     (coalesce (SubscriptionStatusUpdate.LatestInvoiceID i) (LatestInvoiceID s))
     (coalesce (SubscriptionStatusUpdate.DefaultPaymentMethodID i) (DefaultPaymentMethodID s))
     (PaymentFailedAt s) (PaymentFailureCount s) (LastPaymentError s)
     (NextPaymentAttemptAt s) (LastInvoiceEventID s) (LastInvoiceEventAt s)
     (nullIfEmpty (SubscriptionStatusUpdate.EventID i))
     (Some (SubscriptionStatusUpdate.EventCreatedAt i))
     (Metadata s) (CreatedAt s) (UpdatedAt s).

(** [successQuery]. *)
Definition apply_success (i : InvoicePaymentUpdate.t) (s : t) : t :=
  mk (ID s) (UserID s) (StripeSubscriptionID s) (StripeCustomerID s) (StripePriceID s)
     (StripeProductID s) (Status s) (Quantity s) (Currency s) (UnitAmount s)
     (coalesce_nn (InvoicePaymentUpdate.CurrentPeriodStart i) (CurrentPeriodStart s))
     (coalesce_nn (InvoicePaymentUpdate.CurrentPeriodEnd i) (CurrentPeriodEnd s))
     (CancelAtPeriodEnd s) (CancelAt s) (CanceledAt s) (EndedAt s) (TrialStart s) (TrialEnd s)
     (coalesce (InvoicePaymentUpdate.InvoiceID i) (LatestInvoiceID s))
     (DefaultPaymentMethodID s)
     None 0 None None
     (nullIfEmpty (InvoicePaymentUpdate.EventID i))
     (Some (InvoicePaymentUpdate.EventCreatedAt i))
     (LastStripeEventID s) (LastStripeEventAt s)
     (Metadata s) (CreatedAt s) (UpdatedAt s).

(** [failureQuery]. *)
Definition apply_failure (i : InvoicePaymentUpdate.t) (s : t) : t :=
  mk (ID s) (UserID s) (StripeSubscriptionID s) (StripeCustomerID s) (StripePriceID s)
     (StripeProductID s) (Status s) (Quantity s) (Currency s) (UnitAmount s)
     (CurrentPeriodStart s) (CurrentPeriodEnd s)
     (CancelAtPeriodEnd s) (CancelAt s) (CanceledAt s) (EndedAt s) (TrialStart s) (TrialEnd s)
     (coalesce (InvoicePaymentUpdate.InvoiceID i) (LatestInvoiceID s))
     (DefaultPaymentMethodID s)
     (Some (InvoicePaymentUpdate.EventCreatedAt i))
     (PaymentFailureCount s + 1)
     (Some (truncate (derefOr (InvoicePaymentUpdate.FailureReason i) "payment failed")))
     (InvoicePaymentUpdate.NextAttemptAt i)
     (nullIfEmpty (InvoicePaymentUpdate.EventID i))
     (Some (InvoicePaymentUpdate.EventCreatedAt i))
     (LastStripeEventID s) (LastStripeEventAt s)
     (Metadata s) (CreatedAt s) (UpdatedAt s).

Definition apply_invoice (i : InvoicePaymentUpdate.t) : t → t :=
  if InvoicePaymentUpdate.Succeeded i then apply_success i else apply_failure i.

Definition dunning_stmt (c : Call) (tb : Tables) : pgres Z * Tables :=
  (POk (Z.of_nat (length (rows_where (λ s, bool_decide (is_Some (PaymentFailedAt s)))
                            (subscriptions tb)))), tb).
End Statements.

(** ** Methods *)

(** [appliedAt != nil && in.EventCreatedAt.Before( *appliedAt)]. *)
Definition stale_event (appliedAt : option Time) (at_ : Time) : bool :=
  match appliedAt with Some a => Before at_ a | None => false end.

(** The [error] a failed statement returns. *)
Definition orErr {A} (op : string) (r : pgres A) : result A :=
  match r with POk a => Ok a | PErr e => Err (mapError op e) end.

Section Methods.
Context `{GoUnicode}.

Definition CreateSubscription (s : Subscription.t) : M World (result Subscription.t) :=
  match Subscription.Validate s with
  | Some e => mret (Err e)
  | None =>
    r ← db_call (create_subscription_stmt s);
    match r with
    | PErr e => mret (Err (mapError "create subscription" e))
    | POk row => mret (Ok (scan_inserted row s))
    end
  end.

Definition GetSubscriptionByStripeID (sid : string) : M World (result Subscription.t) :=
  r ← db_call (get_subscription_stmt sid); mret (orErr "get subscription by stripe id" r).

Definition GetLatestSubscriptionByUserID (uid : UUID) : M World (result Subscription.t) :=
  r ← db_call (latest_subscription_stmt uid);
  mret (orErr "get latest subscription by user id" r).

Definition UpdateSubscriptionStatus (i : SubscriptionStatusUpdate.t)
    : M World (result Subscription.t) :=
  let sid := SubscriptionStatusUpdate.StripeSubscriptionID i in
  in_tx "update subscription status" (
    l ← db_call (lock_stmt Subscription.LastStripeEventAt sid);
    match l with
    | PErr e => mret (Err (mapError "update subscription status: lock row" e))
    | POk appliedAt =>
      if stale_event appliedAt (SubscriptionStatusUpdate.EventCreatedAt i)
      then mret (Err ErrStaleEvent)
      else
        r ← db_call (update_sub_stmt sid (apply_status i));
        mret (orErr "update subscription status" r)
    end).

Definition RecordInvoicePayment (i : InvoicePaymentUpdate.t) : M World (result Subscription.t) :=
  let sid := InvoicePaymentUpdate.StripeSubscriptionID i in
  in_tx "record invoice payment" (
    l ← db_call (lock_stmt Subscription.LastInvoiceEventAt sid);
    match l with
    | PErr e => mret (Err (mapError "record invoice payment: lock row" e))
    | POk appliedAt =>
      if stale_event appliedAt (InvoicePaymentUpdate.EventCreatedAt i)
      then mret (Err ErrStaleEvent)
      else
        r ← db_call (update_sub_stmt sid
               (if InvoicePaymentUpdate.Succeeded i then apply_success i else apply_failure i));
        mret (orErr "record invoice payment" r)
    end).

Definition CountInDunning : M World (result Z) :=
  r ← db_call dunning_stmt; mret (orErr "count subscriptions in dunning" r).
End Methods.
