(* ===== verification/Subscriptions.v ===== *)
(** * Laws of the subscription read model

    A Stripe event is applied to a subscription in one transaction under the
    row lock.  Here: the transaction's outcome on every branch, its atomicity
    under faults, the well-formedness of the table, and, for any interleaving
    of events, that the status columns behave as a last-writer-wins register
    and that the two event streams are independent. *)

From S2P Require Import Prelude GoStd Domain Database WebhookRepo SubscriptionRepo.
Open Scope Z_scope.

(** ** One transaction *)

Section Guarded.
Context (op sid : string) (cursor : Subscription.t → option Time) (at_ : Time)
  (f : Subscription.t → Subscription.t).

(** The body both transactions have. *)
Definition guarded_body : M World (result Subscription.t) :=
  l ← db_call (lock_stmt cursor sid);
  match l with
  | PErr e => mret (Err (mapError (op +:+ ": lock row") e))
  | POk appliedAt =>
    if stale_event appliedAt at_ then mret (Err ErrStaleEvent)
    else r ← db_call (update_sub_stmt sid f); mret (orErr op r)
  end.

(** What it does to the tables, as one step under the row lock. *)
Definition guarded (c : Call) (tb : Tables) : result Subscription.t * Tables :=
  match subscriptions tb !! sid with
  | None => (Err (mapError (op +:+ ": lock row") NoRows), tb)
  | Some s =>
    if stale_event (cursor s) at_ then (Err ErrStaleEvent, tb)
    else let '(r, tb') := update_sub_stmt sid f c tb in (orErr op r, tb')
  end.

Lemma update_sub_stmt_cases c tb r tb' :
  update_sub_stmt sid f c tb = (r, tb') →
  (tb' = tb ∧ ∃ e, r = PErr e) ∨
  (∃ s, subscriptions tb !! sid = Some s ∧ r = POk (sub_touch (c_now c) s (f s)) ∧
     sub_violation (sub_touch (c_now c) s (f s)) = None ∧
     tb' = set_subscriptions (<[sid := sub_touch (c_now c) s (f s)]> (subscriptions tb)) tb).
Proof.
  unfold update_sub_stmt. destruct (_ !! sid) as [s|]; [|intros [= <- <-]; eauto].
  destruct (sub_violation _) eqn:Hv; intros [= <- <-]; [eauto|]. right. by exists s.
Qed.

Lemma lock_stmt_pure c tb : (lock_stmt cursor sid c tb).2 = tb.
Proof. done. Qed.

Lemma update_sub_stmt_guarded c tb s :
  subscriptions tb !! sid = Some s → stale_event (cursor s) at_ = false →
  guarded c tb = let '(r, tb') := update_sub_stmt sid f c tb in (orErr op r, tb').
Proof. intros Hs Hst. unfold guarded. by rewrite Hs, Hst. Qed.

(** Whatever the calls meet, an Ok body is exactly one guarded step. *)
Lemma guarded_body_ok w s' w' :
  guarded_body w = (Ok s', w') → ∃ c, guarded c (w_db w) = (Ok s', w_db w').
Proof.
  unfold guarded_body. unfold_monad.
  destruct (db_call (lock_stmt cursor sid) w) as [[a|e] w1] eqn:Hl; [|done].
  pose proof Hl as Hl'. apply (db_call_ok _ _ _ _) in Hl as (c0 & Hl). simpl in Hl.
  unfold lock_stmt in Hl. destruct (subscriptions (w_db w) !! sid) as [s|] eqn:Hs; [|done].
  injection Hl as <- Hdb. destruct (stale_event _ _) eqn:Hst; [done|].
  destruct (db_call (update_sub_stmt sid f) w1) as [[s1|e] w2] eqn:Hu; [|done].
  intros [= -> ->]. apply db_call_ok in Hu as (c & Hu). rewrite <- Hdb in Hu.
  exists c. rewrite (update_sub_stmt_guarded c _ s Hs Hst), Hu. done.
Qed.

(** Atomicity: the tables afterwards are those before or those of one guarded
    step, and a reported success is that step. *)
Lemma guarded_tx_atomic w r w' :
  in_tx op guarded_body w = (r, w') →
  match r with
  | Ok s' => ∃ c, guarded c (w_db w) = (Ok s', w_db w')
  | Err _ => w_db w' = w_db w ∨ ∃ c s', guarded c (w_db w) = (Ok s', w_db w')
  end.
Proof.
  intros Htx. eapply (in_tx_atomic _ _ (λ t0 x t1, match x with
    | Ok s' => ∃ c, guarded c t0 = (Ok s', t1) | Err _ => True end)) in Htx.
  - destruct r as [s'|e]; [done|]. destruct Htx as [?|(a & c & ?)]; eauto.
  - intros w0 [s'|e] w1 Hb; [|done]. by apply guarded_body_ok.
Qed.

(** Without faults it is that step, on every branch. *)
Lemma guarded_tx_quiet w :
  quiet w →
  ∃ c, (in_tx op guarded_body w).1 = (guarded c (w_db w)).1 ∧
       w_db (in_tx op guarded_body w).2 = (guarded c (w_db w)).2 ∧
       w_now w ≤ c_now c.
Proof.
  intros Hq. exists (call_of (advance (advance w))).
  rewrite in_tx_quiet by done. unfold guarded_body. unfold_monad.
  rewrite db_call_quiet by auto with sps.
  unfold lock_stmt, guarded. cbn [fst snd]. rewrite !w_db_advance.
  destruct (subscriptions (w_db w) !! sid) as [s|] eqn:Hs;
    [|simpl; split_and!; try done; lia].
  destruct (stale_event _ _); [simpl; split_and!; try done; lia|].
  change (set_db (w_db w) (advance (advance w))) with (advance (advance w)).
  rewrite db_call_quiet by auto with sps. cbn [fst snd]. rewrite !w_db_advance.
  destruct (update_sub_stmt sid f _ (w_db w)) as [[s'|e] tb'] eqn:Hu; simpl.
  - rewrite tx_commit_quiet by auto with sps. simpl. split_and!; try done; lia.
  - apply update_sub_stmt_cases in Hu as [[-> _]|(? & _ & ? & _)]; [|done].
    simpl. split_and!; try done; lia.
Qed.
End Guarded.

(** ** The two transactions *)

Definition status_tx (i : SubscriptionStatusUpdate.t) : Call → Tables → result Subscription.t * Tables :=
  guarded "update subscription status" (SubscriptionStatusUpdate.StripeSubscriptionID i)
    Subscription.LastStripeEventAt (SubscriptionStatusUpdate.EventCreatedAt i) (apply_status i).

Definition invoice_tx (i : InvoicePaymentUpdate.t) : Call → Tables → result Subscription.t * Tables :=
  guarded "record invoice payment" (InvoicePaymentUpdate.StripeSubscriptionID i)
    Subscription.LastInvoiceEventAt (InvoicePaymentUpdate.EventCreatedAt i) (apply_invoice i).

(** applying a subscription event is atomic whatever faults and timeouts
    its four database calls meet: the tables afterwards are those before or
    those of the whole update under the row lock, and success is reported only
    for the latter. *)
Theorem UpdateSubscriptionStatus_atomic i w r w' :
  UpdateSubscriptionStatus i w = (r, w') →
  match r with
  | Ok s => ∃ c, status_tx i c (w_db w) = (Ok s, w_db w')
  | Err _ => w_db w' = w_db w ∨ ∃ c s, status_tx i c (w_db w) = (Ok s, w_db w')
  end.
Proof. apply guarded_tx_atomic. Qed.

(** The same for an invoice event. *)
Lemma RecordInvoicePayment_atomic i w r w' :
  RecordInvoicePayment i w = (r, w') →
  match r with
  | Ok s => ∃ c, invoice_tx i c (w_db w) = (Ok s, w_db w')
  | Err _ => w_db w' = w_db w ∨ ∃ c s, invoice_tx i c (w_db w) = (Ok s, w_db w')
  end.
Proof. apply guarded_tx_atomic. Qed.

Lemma UpdateSubscriptionStatus_quiet i w :
  quiet w →
  ∃ c, (UpdateSubscriptionStatus i w).1 = (status_tx i c (w_db w)).1 ∧
       w_db (UpdateSubscriptionStatus i w).2 = (status_tx i c (w_db w)).2 ∧
       w_now w ≤ c_now c.
Proof. apply guarded_tx_quiet. Qed.

Lemma RecordInvoicePayment_quiet i w :
  quiet w →
  ∃ c, (RecordInvoicePayment i w).1 = (invoice_tx i c (w_db w)).1 ∧
       w_db (RecordInvoicePayment i w).2 = (invoice_tx i c (w_db w)).2 ∧
       w_now w ≤ c_now c.
Proof. apply guarded_tx_quiet. Qed.

(** ** Well-formed tables *)

Definition subs_ok (m : gmap string Subscription.t) : Prop :=
  map_Forall (λ k s, Subscription.StripeSubscriptionID s = k ∧ sub_violation s = None) m.

Lemma sub_touch_sid n a b :
  Subscription.StripeSubscriptionID (sub_touch n a b) = Subscription.StripeSubscriptionID b.
Proof. unfold sub_touch. by case_bool_decide. Qed.

Lemma sub_violation_touch n a b : sub_violation (sub_touch n a b) = sub_violation b.
Proof. unfold sub_touch. by case_bool_decide. Qed.

Lemma guarded_cases op sid cursor at_ f c tb r tb' :
  guarded op sid cursor at_ f c tb = (r, tb') →
  (tb' = tb ∧ ∃ e, r = Err e) ∨
  (∃ s, subscriptions tb !! sid = Some s ∧ stale_event (cursor s) at_ = false ∧
     sub_violation (f s) = None ∧ r = Ok (sub_touch (c_now c) s (f s)) ∧
     tb' = set_subscriptions (<[sid := sub_touch (c_now c) s (f s)]> (subscriptions tb)) tb).
Proof.
  unfold guarded. destruct (_ !! sid) as [s|] eqn:Hs; [|intros [= <- <-]; eauto].
  destruct (stale_event _ _) eqn:Hst; [intros [= <- <-]; eauto|].
  destruct (update_sub_stmt _ _ _ _) as [x tb1] eqn:Hu. intros [= <- <-].
  apply update_sub_stmt_cases in Hu as [[-> [e ->]]|(s1 & Hs1 & -> & Hv & ->)]; [left; simpl; eauto|].
  right. simplify_eq. exists s. rewrite sub_violation_touch in Hv. done.
Qed.

Lemma guarded_ok op sid cursor at_ f c tb :
  (∀ s, Subscription.StripeSubscriptionID (f s) = Subscription.StripeSubscriptionID s) →
  subs_ok (subscriptions tb) → subs_ok (subscriptions (guarded op sid cursor at_ f c tb).2).
Proof.
  intros Hf Hok. destruct (guarded _ _ _ _ _ _ _) as [r tb'] eqn:Hg. simpl.
  apply guarded_cases in Hg as [[-> _]|(s & Hs & _ & Hv & _ & ->)]; [done|].
  simpl. apply map_Forall_insert_2; [|done].
  rewrite sub_touch_sid, Hf, sub_violation_touch. split; [|done]. by apply (Hok sid s Hs).
Qed.

Lemma guarded_tx_ok op sid cursor at_ f w :
  (∀ s, Subscription.StripeSubscriptionID (f s) = Subscription.StripeSubscriptionID s) →
  subs_ok (subscriptions (w_db w)) →
  subs_ok (subscriptions (w_db (in_tx op (guarded_body op sid cursor at_ f) w).2)).
Proof.
  intros Hf Hok. pose proof (λ c, guarded_ok op sid cursor at_ f c _ Hf Hok) as Hg.
  destruct (in_tx _ _ w) as [[s|e] w'] eqn:Hu; apply guarded_tx_atomic in Hu; simpl.
  - destruct Hu as [c Hu]. specialize (Hg c). by rewrite Hu in Hg.
  - destruct Hu as [->|(c & s & Hu)]; [done|]. specialize (Hg c). by rewrite Hu in Hg.
Qed.

Lemma create_stmt_ok s c tb :
  subs_ok (subscriptions tb) → subs_ok (subscriptions (create_subscription_stmt s c tb).2).
Proof.
  intros Hok. unfold create_subscription_stmt.
  destruct (sub_violation _) eqn:Hv; [done|]. case_match; [done|].
  destruct (subscriptions tb !! _); [done|]. destruct (users tb !! _); [|done].
  simpl. apply map_Forall_insert_2; done.
Qed.

Lemma apply_invoice_sid i s :
  Subscription.StripeSubscriptionID (apply_invoice i s) = Subscription.StripeSubscriptionID s.
Proof. unfold apply_invoice. by case_match. Qed.

(** under any faults, every operation that writes subscriptions leaves a
    table in which each row is stored under its Stripe id and meets every CHECK
    constraint: known status, ordered period, positive quantity, a cancellation
    time when canceled, and dunning columns that agree with each other. *)
Theorem subscriptions_wf `{GoUnicode} w :
  subs_ok (subscriptions (w_db w)) →
  (∀ s, subs_ok (subscriptions (w_db (CreateSubscription s w).2))) ∧
  (∀ i, subs_ok (subscriptions (w_db (UpdateSubscriptionStatus i w).2))) ∧
  (∀ i, subs_ok (subscriptions (w_db (RecordInvoicePayment i w).2))).
Proof.
  intros Hok. split_and!.
  - intros s. unfold CreateSubscription. destruct (Subscription.Validate s); [done|].
    unfold_monad. destruct (db_call _ w) as [r w'] eqn:Hc.
    assert (subs_ok (subscriptions (w_db w'))) as Hok'.
    { eapply (db_call_preserves _ (λ t, subs_ok (subscriptions t))); [|done|exact Hc].
      intros. by apply create_stmt_ok. }
    by destruct r.
  - intros i. by apply guarded_tx_ok.
  - intros i. apply guarded_tx_ok; [|done]. apply apply_invoice_sid.
Qed.

(** ** Streams of events *)

Inductive sub_event :=
  | EvStatus (i : SubscriptionStatusUpdate.t)
  | EvInvoice (i : InvoicePaymentUpdate.t).

Definition event_sid (e : sub_event) : string :=
  match e with
  | EvStatus i => SubscriptionStatusUpdate.StripeSubscriptionID i
  | EvInvoice i => InvoicePaymentUpdate.StripeSubscriptionID i
  end.

Definition deliver (ce : Call * sub_event) (tb : Tables) : Tables :=
  match ce.2 with
  | EvStatus i => (status_tx i ce.1 tb).2
  | EvInvoice i => (invoice_tx i ce.1 tb).2
  end.

Definition deliver_all (l : list (Call * sub_event)) (tb : Tables) : Tables :=
  foldl (λ tb ce, deliver ce tb) tb l.

(** The columns each stream owns, and its abstract register. *)
Definition status_view (s : Subscription.t) : SubscriptionStatus * option string * option Time :=
  (Subscription.Status s, Subscription.LastStripeEventID s, Subscription.LastStripeEventAt s).

Definition lww (v : SubscriptionStatus * option string * option Time)
    (i : SubscriptionStatusUpdate.t) : SubscriptionStatus * option string * option Time :=
  if stale_event v.2 (SubscriptionStatusUpdate.EventCreatedAt i) then v
  else (SubscriptionStatusUpdate.Status i, nullIfEmpty (SubscriptionStatusUpdate.EventID i),
        Some (SubscriptionStatusUpdate.EventCreatedAt i)).

Record dunning := mkDunning {
  d_failed_at : option Time; d_count : Z; d_error : option string; d_next : option Time;
  d_event : option string; d_at : option Time }.

Definition invoice_view (s : Subscription.t) : dunning :=
  mkDunning (Subscription.PaymentFailedAt s) (Subscription.PaymentFailureCount s)
    (Subscription.LastPaymentError s) (Subscription.NextPaymentAttemptAt s)
    (Subscription.LastInvoiceEventID s) (Subscription.LastInvoiceEventAt s).

Definition dun (v : dunning) (i : InvoicePaymentUpdate.t) : dunning :=
  let at_ := InvoicePaymentUpdate.EventCreatedAt i in
  let ev := nullIfEmpty (InvoicePaymentUpdate.EventID i) in
  if stale_event (d_at v) at_ then v
  else if InvoicePaymentUpdate.Succeeded i then mkDunning None 0 None None ev (Some at_)
  else mkDunning (Some at_) (d_count v + 1)
         (Some (truncate (derefOr (InvoicePaymentUpdate.FailureReason i) "payment failed")))
         (InvoicePaymentUpdate.NextAttemptAt i) ev (Some at_).

Definition statuses (l : list (Call * sub_event)) : list SubscriptionStatusUpdate.t :=
  omap (λ ce, match ce.2 with EvStatus i => Some i | EvInvoice _ => None end) l.
Definition invoices (l : list (Call * sub_event)) : list InvoicePaymentUpdate.t :=
  omap (λ ce, match ce.2 with EvInvoice i => Some i | EvStatus _ => None end) l.

(** *** Events the constraints accept whatever the row holds *)

Definition period_fits (a b : option Time) : bool :=
  match a, b with Some x, Some y => x <? y | None, None => true | _, _ => false end.

Definition status_fits (trial_start : option Time) (i : SubscriptionStatusUpdate.t) : bool :=
  SubscriptionStatus_Valid (SubscriptionStatusUpdate.Status i) &&
  (negb (bool_decide (SubscriptionStatusUpdate.Status i = SubscriptionCanceled)) ||
   bool_decide (is_Some (SubscriptionStatusUpdate.CanceledAt i))) &&
  period_fits (SubscriptionStatusUpdate.CurrentPeriodStart i)
    (SubscriptionStatusUpdate.CurrentPeriodEnd i) &&
  match SubscriptionStatusUpdate.StripePriceID i with
  | Some p => Row.id_format "price_" p | None => true end &&
  match SubscriptionStatusUpdate.Quantity i with Some q => 0 <? q | None => true end &&
  match trial_start, SubscriptionStatusUpdate.TrialEnd i with
  | Some a, Some b => a <? b | _, _ => true end.

Definition event_fits (trial_start : option Time) (e : sub_event) : bool :=
  match e with
  | EvStatus i => status_fits trial_start i
  | EvInvoice i => period_fits (InvoicePaymentUpdate.CurrentPeriodStart i)
                     (InvoicePaymentUpdate.CurrentPeriodEnd i)
  end.

Definition sub_good (s : Subscription.t) : Prop :=
  SubscriptionStatus_Valid (Subscription.Status s) = true ∧
  Subscription.PaymentFailureCount s ≤ max_int32 ∧
  Forall (λ p, p.2 = true) (sub_constraints s).

Lemma sub_violation_good s : sub_violation s = None ↔ sub_good s.
Proof.
  unfold sub_violation, sub_good. destruct (SubscriptionStatus_Valid _); cbn [negb]; [|split; [done|by intros [? _]]].
  destruct (Z.leb_spec (Subscription.PaymentFailureCount s) max_int32);
    [|split; [done|intros (_ & ? & _); lia]].
  rewrite first_violation_None. tauto.
Qed.

Lemma sub_good_count s : sub_good s → 0 ≤ Subscription.PaymentFailureCount s.
Proof.
  intros (_ & _ & Hall). unfold sub_constraints in Hall. rewrite !Forall_cons in Hall.
  simpl in Hall. apply Z.leb_le. tauto.
Qed.

Lemma period_coalesce a b x y :
  period_fits a b = true → (x <? y) = true → (coalesce_nn a x <? coalesce_nn b y) = true.
Proof. unfold period_fits, coalesce_nn. by destruct a, b. Qed.

Lemma apply_status_good i s :
  status_fits (Subscription.TrialStart s) i = true → sub_good s → sub_good (apply_status i s).
Proof.
  unfold status_fits, sub_good, sub_constraints. rewrite !andb_true_iff.
  intros (((((Hv & Hc) & Hp) & Hpr) & Hq) & Ht) (_ & Hcnt & Hall).
  rewrite !Forall_cons in Hall. simpl in Hall.
  destruct Hall as (_ & H2 & H3 & H4 & H5 & H6 & H7 & H8 & H9 & H10 & H11 & _).
  rewrite !Forall_cons. simpl. split_and!; try done.
  - apply orb_true_iff in Hc as [Hc|Hc]; [by rewrite Hc|]. apply orb_true_iff. right.
    apply bool_decide_eq_true in Hc as [x Hx]. by rewrite Hx.
  - by apply period_coalesce.
  - unfold coalesce_nn. by destruct (SubscriptionStatusUpdate.Quantity i).
  - unfold coalesce_nn. by destruct (SubscriptionStatusUpdate.StripePriceID i).
  - destruct (Subscription.TrialStart s), (SubscriptionStatusUpdate.TrialEnd i); done.
Qed.

Lemma apply_invoice_good i s :
  event_fits (Subscription.TrialStart s) (EvInvoice i) = true →
  Subscription.PaymentFailureCount s + 1 ≤ max_int32 →
  sub_good s → sub_good (apply_invoice i s).
Proof.
  unfold event_fits, sub_good, sub_constraints. intros Hp Hb (Hv & Hcnt & Hall).
  rewrite !Forall_cons in Hall. simpl in Hall.
  destruct Hall as (H1 & H2 & H3 & H4%Z.leb_le & H5 & H6 & H7 & H8 & H9 & H10 & H11 & _).
  unfold apply_invoice. destruct (InvoicePaymentUpdate.Succeeded i); simpl;
    rewrite !Forall_cons; simpl; split_and!; try done.
  - by apply period_coalesce.
  - apply Z.ltb_lt. lia.
  - apply Z.leb_le. lia.
Qed.

(** *** One event against one row *)

Lemma touch_views n a b :
  status_view (sub_touch n a b) = status_view b ∧ invoice_view (sub_touch n a b) = invoice_view b ∧
  Subscription.TrialStart (sub_touch n a b) = Subscription.TrialStart b.
Proof. unfold sub_touch. by case_bool_decide. Qed.

Lemma deliver_lookup ce tb s :
  subscriptions tb !! event_sid ce.2 = Some s → sub_good s →
  event_fits (Subscription.TrialStart s) ce.2 = true →
  Subscription.PaymentFailureCount s + 1 ≤ max_int32 →
  ∃ s', subscriptions (deliver ce tb) !! event_sid ce.2 = Some s' ∧ sub_good s' ∧
    Subscription.TrialStart s' = Subscription.TrialStart s ∧
    status_view s' = match ce.2 with EvStatus i => lww (status_view s) i | _ => status_view s end ∧
    invoice_view s' = match ce.2 with EvInvoice i => dun (invoice_view s) i | _ => invoice_view s end.
Proof.
  destruct ce as [c [i|i]]; simpl; intros Hs Hg Hfit Hcnt.
  - unfold deliver, status_tx, guarded, lww. simpl. rewrite Hs.
    destruct (stale_event _ _) eqn:Hst; [by exists s|].
    unfold update_sub_stmt. rewrite Hs.
    pose proof (apply_status_good i s Hfit Hg) as Hg'.
    rewrite sub_violation_touch, (proj2 (sub_violation_good _) Hg'). simpl.
    eexists. rewrite lookup_insert_eq. destruct (touch_views (c_now c) s (apply_status i s)) as (-> & -> & ->).
    split_and!; try done. apply sub_violation_good. by rewrite sub_violation_touch, sub_violation_good.
  - unfold deliver, invoice_tx, guarded, dun. simpl. rewrite Hs.
    destruct (stale_event _ _) eqn:Hst; [by exists s|].
    unfold update_sub_stmt. rewrite Hs.
    pose proof (apply_invoice_good i s Hfit Hcnt Hg) as Hg'.
    rewrite sub_violation_touch, (proj2 (sub_violation_good _) Hg'). simpl.
    eexists. rewrite lookup_insert_eq. destruct (touch_views (c_now c) s (apply_invoice i s)) as (-> & -> & ->).
    split_and!; try done.
    + apply sub_violation_good. by rewrite sub_violation_touch, sub_violation_good.
    + unfold apply_invoice. by destruct (InvoicePaymentUpdate.Succeeded i).
    + unfold apply_invoice. by destruct (InvoicePaymentUpdate.Succeeded i).
    + unfold apply_invoice. by destruct (InvoicePaymentUpdate.Succeeded i).
Qed.

Lemma dun_count v i : d_count (dun v i) ≤ Z.max 0 (d_count v) + 1.
Proof. unfold dun. repeat case_match; simpl; lia. Qed.

Lemma deliver_all_views l tb sid s :
  Forall (λ ce, event_sid ce.2 = sid) l →
  subscriptions tb !! sid = Some s → sub_good s →
  Forall (λ ce, event_fits (Subscription.TrialStart s) ce.2 = true) l →
  Subscription.PaymentFailureCount s + Z.of_nat (length l) ≤ max_int32 →
  ∃ s', subscriptions (deliver_all l tb) !! sid = Some s' ∧ sub_good s' ∧
    status_view s' = foldl lww (status_view s) (statuses l) ∧
    invoice_view s' = foldl dun (invoice_view s) (invoices l).
Proof.
  revert tb s. induction l as [|ce l IH]; intros tb s Hsid Hs Hg Hfit Hcnt; [by exists s|].
  inversion Hsid as [|? ? Hsid1 Hsid2]; inversion Hfit as [|? ? Hfit1 Hfit2]; subst.
  cbn [length] in Hcnt.
  destruct (deliver_lookup ce tb s Hs Hg Hfit1) as (s1 & Hs1 & Hg1 & Hts & Hsv & Hiv); [lia|].
  simpl. destruct (IH (deliver ce tb) s1) as (s' & Hs' & Hg' & Hsv' & Hiv'); try done.
  - by rewrite Hts.
  - pose proof (sub_good_count s Hg) as Hnn.
    assert (d_count (invoice_view s1) ≤ Subscription.PaymentFailureCount s + 1) as Hle.
    { rewrite Hiv. destruct ce as [c [i|i]]; simpl; [lia|].
      pose proof (dun_count (invoice_view s) i). simpl in *. lia. }
    simpl in Hle. lia.
  - exists s'. split_and!; try done.
    + rewrite Hsv', Hsv. by destruct ce as [c [i|i]].
    + rewrite Hiv', Hiv. by destruct ce as [c [i|i]].
Qed.

(** *** Theorems *)

(** however the invoice and the subscription events of one subscription
    interleave, each stream's columns are what that stream alone would have
    produced: the status columns are the last-writer-wins register of the
    subscription events, the dunning columns the counter of the invoice
    events. *)
Theorem streams_independent l tb sid s :
  Forall (λ ce, event_sid ce.2 = sid) l →
  subscriptions tb !! sid = Some s → sub_violation s = None →
  Forall (λ ce, event_fits (Subscription.TrialStart s) ce.2 = true) l →
  Subscription.PaymentFailureCount s + Z.of_nat (length l) ≤ max_int32 →
  ∃ s', subscriptions (deliver_all l tb) !! sid = Some s' ∧ sub_violation s' = None ∧
    status_view s' = foldl lww (status_view s) (statuses l) ∧
    invoice_view s' = foldl dun (invoice_view s) (invoices l).
Proof.
  intros Hsid Hs Hg Hfit Hcnt.
  destruct (deliver_all_views l tb sid s) as (s' & ? & Hg' & ?); try done;
    [by apply sub_violation_good|]. exists s'. by rewrite sub_violation_good.
Qed.

Lemma lww_newest l v i :
  i ∈ l →
  (∀ j, j ∈ l → j = i ∨
     SubscriptionStatusUpdate.EventCreatedAt j < SubscriptionStatusUpdate.EventCreatedAt i) →
  stale_event v.2 (SubscriptionStatusUpdate.EventCreatedAt i) = false →
  foldl lww v l =
    (SubscriptionStatusUpdate.Status i, nullIfEmpty (SubscriptionStatusUpdate.EventID i),
     Some (SubscriptionStatusUpdate.EventCreatedAt i)).
Proof.
  intros Hin Hmax Hst.
  assert (∀ l, (∀ j, j ∈ l → j = i ∨
     SubscriptionStatusUpdate.EventCreatedAt j < SubscriptionStatusUpdate.EventCreatedAt i) →
     let x := (SubscriptionStatusUpdate.Status i, nullIfEmpty (SubscriptionStatusUpdate.EventID i),
       Some (SubscriptionStatusUpdate.EventCreatedAt i)) in foldl lww x l = x) as Hkeep.
  { clear. intros l. induction l as [|j l IH]; intros Hm x; [done|]. simpl.
    assert (lww x j = x) as ->; [|apply IH; set_solver].
    unfold lww, x, stale_event, Before. simpl.
    destruct (Hm j) as [->|Hlt]; [set_solver| |]; case_match; done || lia. }
  revert v Hin Hst. induction l as [|j l IH]; intros v Hin Hst; [set_solver|]. simpl.
  destruct (Hmax j) as [->|Hlt]; [set_solver| |].
  - unfold lww at 2. rewrite Hst. apply Hkeep. set_solver.
  - apply IH; [set_solver|set_solver by lia|].
    unfold lww. case_match; [done|]. unfold stale_event, Before. simpl. lia.
Qed.


(** *** Dunning *)

(** Failures since the last success. *)
Fixpoint streak (n : Z) (l : list InvoicePaymentUpdate.t) : Z :=
  match l with
  | [] => n
  | i :: l' => streak (if InvoicePaymentUpdate.Succeeded i then 0 else n + 1) l'
  end.

(** Delivered in order, from the cursor on. *)
Fixpoint in_order (at_ : option Time) (l : list InvoicePaymentUpdate.t) : Prop :=
  match l with
  | [] => True
  | i :: l' => stale_event at_ (InvoicePaymentUpdate.EventCreatedAt i) = false ∧
               in_order (Some (InvoicePaymentUpdate.EventCreatedAt i)) l'
  end.

Lemma dun_streak l v :
  in_order (d_at v) l → d_count (foldl dun v l) = streak (d_count v) l.
Proof.
  revert v. induction l as [|i l IH]; intros v; [done|]. simpl. intros [Hst Hord].
  assert (d_at (dun v i) = Some (InvoicePaymentUpdate.EventCreatedAt i) ∧
          d_count (dun v i) = if InvoicePaymentUpdate.Succeeded i then 0 else d_count v + 1) as [Ha Hc].
  { unfold dun. rewrite Hst. by case_match. }
  rewrite IH; [by rewrite Hc|by rewrite Ha].
Qed.

(** when invoice events arrive in order, with subscription events anywhere
    among them, the failure count is the number of failures since the last
    success, and the subscription is in dunning exactly when it is positive. *)
Theorem dunning_counts l tb sid s :
  Forall (λ ce, event_sid ce.2 = sid) l →
  subscriptions tb !! sid = Some s → sub_violation s = None →
  Forall (λ ce, event_fits (Subscription.TrialStart s) ce.2 = true) l →
  Subscription.PaymentFailureCount s + Z.of_nat (length l) ≤ max_int32 →
  in_order (Subscription.LastInvoiceEventAt s) (invoices l) →
  ∃ s', subscriptions (deliver_all l tb) !! sid = Some s' ∧
    Subscription.PaymentFailureCount s' = streak (Subscription.PaymentFailureCount s) (invoices l) ∧
    (Subscription.InDunning s' = true ↔
     0 < streak (Subscription.PaymentFailureCount s) (invoices l)).
Proof.
  intros Hsid Hs Hg Hfit Hcnt Hord.
  destruct (deliver_all_views l tb sid s) as (s' & Hs' & Hg' & _ & Hiv); try done;
    [by apply sub_violation_good|]. exists s'.
  assert (Subscription.PaymentFailureCount s' =
          streak (Subscription.PaymentFailureCount s) (invoices l)) as Hc.
  { change (d_count (invoice_view s') = streak (d_count (invoice_view s)) (invoices l)).
    rewrite Hiv. by apply dun_streak. }
  split_and!; try done. rewrite <- Hc. destruct Hg' as (_ & _ & Hall).
  unfold sub_constraints in Hall. rewrite !Forall_cons in Hall. simpl in Hall.
  destruct Hall as (_ & _ & Hd & _). unfold Subscription.InDunning.
  rewrite bool_decide_eq_true. apply orb_true_iff in Hd as [Hd|Hd];
    apply andb_true_iff in Hd as [Hd1%bool_decide_eq_true Hd2].
  - apply Z.eqb_eq in Hd2. rewrite Hd1, Hd2. split; [by intros []|lia].
  - apply Z.ltb_lt in Hd2. tauto.
Qed.
