(* ===== verification/UserRepo.v ===== *)
(** * internal/repository/postgres/user_repo.go

    The users table with its constraints and unique indexes (migration 1) and
    the repository's operations, with the facts the services rely on: live
    users have distinct emails up to case, and a Stripe customer belongs to at
    most one user. *)

From S2P Require Import Prelude GoStd Domain Database SubscriptionRepo.
Open Scope Z_scope.

(** ** Constraints *)

(** Text split at the first, and at the last, occurrence of a byte. *)
Fixpoint split_first (b : N) (s : string) : option (string * string) :=
  match s with
  | EmptyString => None
  | String a s' =>
      if (byte_val a =? b)%N then Some ("", s')
      else match split_first b s' with
           | Some (x, y) => Some (String a x, y)
           | None => None
           end
  end.

Fixpoint split_last (b : N) (s : string) : option (string * string) :=
  match s with
  | EmptyString => None
  | String a s' =>
      match split_last b s' with
      | Some (x, y) => Some (String a x, y)
      | None => if (byte_val a =? b)%N then Some ("", s') else None
      end
  end.

(** [char_length] of UTF-8 text. *)
Fixpoint char_length (s : string) : Z :=
  match s with
  | EmptyString => 0
  | String a s' => (if RuneStart a then 1 else 0) + char_length s'
  end.

Section Constraints.
Context `{Postgres}.
Import User.

(** The regular expression of [users_email_format_chk]: no space anywhere, one
    [@] with text before it, and a domain whose last dot has text before it
    and at least two letters after it. *)
Definition email_format (s : string) : bool :=
  negb (pg_has_space s) &&
  match split_first 64 s with
  | None => false
  | Some (local, domain) =>
      negb (bool_decide (local = "")) && str_forall (λ a, negb (byte_val a =? 64)%N) domain &&
      match split_last 46 domain with
      | None => false
      | Some (name, tld) =>
          negb (bool_decide (name = "")) && (2 <=? len tld) &&
          str_forall (λ a, is_upper a || is_lower a) tld
      end
  end.

Definition user_constraints (u : t) : list (string * bool) := [
  ("users_email_format_chk", email_format (Email u));
  ("users_email_length_chk", (3 <=? char_length (Email u)) && (char_length (Email u) <=? 320));
  ("users_stripe_customer_id_format_chk",
    match StripeCustomerID u with Some c => Row.id_format "cus_" c | None => true end)
].

(** [uq_users_email_active] and [uq_users_stripe_customer_id]. *)
Definition same_email (u v : t) : bool :=
  bool_decide (DeletedAt u = None) && bool_decide (DeletedAt v = None) &&
  bool_decide (citext_fold (Email u) = citext_fold (Email v)).
Definition same_customer (u v : t) : bool :=
  match StripeCustomerID u, StripeCustomerID v with
  | Some a, Some b => bool_decide (a = b)
  | _, _ => false
  end.

(** Does another row of [m] than [id] relate to [u]? *)
Definition clashes (R : t → t → bool) (id : UUID) (u : t) (m : gmap UUID t) : bool :=
  existsb (λ kv, negb (bool_decide (kv.1 = id)) && R u kv.2) (map_to_list m).

(** What the server reports for storing [u] under [id]. *)
Definition user_violation (id : UUID) (u : t) (m : gmap UUID t) : option dberr :=
  match first_violation "users" (user_constraints u) with
  | Some v => Some v
  | None =>
    if clashes same_email id u m then Some (unique_violation "uq_users_email_active")
    else if clashes same_customer id u m
    then Some (unique_violation "uq_users_stripe_customer_id")
    else None
  end.

(** [trg_users_set_updated_at]. *)
Definition user_touch (now : Time) (old new : t) : t :=
  if bool_decide (old = new) then new else set_UpdatedAt now new.

(** ** Statements *)

Definition create_user_stmt (u : t) (c : Call) (tb : Tables) : pgres t * Tables :=
  let row := mk (c_uuid c) (Email u) (EmailVerifiedAt u) (PasswordHash u) (FullName u)
    (StripeCustomerID u) (Metadata u) (c_now c) (c_now c) None in
  match first_violation "users" (user_constraints row) with
  | Some v => (PErr v, tb)
  | None =>
    match users tb !! c_uuid c with
    | Some _ => (PErr (unique_violation "users_pkey"), tb)
    | None =>
      match user_violation (c_uuid c) row (users tb) with
      | Some v => (PErr v, tb)
      | None => (POk row, set_users (<[c_uuid c := row]> (users tb)) tb)
      end
    end
  end.

(** [SELECT .. WHERE P AND deleted_at IS NULL], at most one row wanted. *)
Definition select_user (P : t → bool) (c : Call) (tb : Tables) : pgres t * Tables :=
  (match rows_where (λ u, P u && bool_decide (DeletedAt u = None)) (users tb) with
   | (_, u) :: _ => POk u
   | [] => PErr NoRows
   end, tb).

Definition update_user_stmt (u : t) (c : Call) (tb : Tables) : pgres Time * Tables :=
  match users tb !! ID u with
  | Some old =>
    if bool_decide (DeletedAt old = None) then
      let new := user_touch (c_now c) old
        (mk (ID old) (Email u) (EmailVerifiedAt u) (PasswordHash u) (FullName u)
            (StripeCustomerID u) (Metadata u) (CreatedAt old) (UpdatedAt old) (DeletedAt old)) in
      match user_violation (ID u) new (users tb) with
      | Some v => (PErr v, tb)
      | None => (POk (UpdatedAt new), set_users (<[ID u := new]> (users tb)) tb)
      end
    else (PErr NoRows, tb)
  | None => (PErr NoRows, tb)
  end.

(** ** Methods *)

Definition CreateUser (u : t) : M World (result t) :=
  let '(u', invalid) := Validate u in
  match invalid with
  | Some e => mret (Err e)
  | None =>
    r ← db_call (create_user_stmt u');
    match r with
    | PErr e => mret (Err (mapError "create user" e))
    | POk row => mret (Ok (set_inserted (ID row) (CreatedAt row) u'))
    end
  end.

Definition GetUserByID (id : UUID) : M World (result t) :=
  r ← db_call (select_user (λ u, bool_decide (ID u = id))); mret (orErr "get user by id" r).

Definition GetUserByStripeCustomerID (customerID : string) : M World (result t) :=
  r ← db_call (select_user (λ u, bool_decide (StripeCustomerID u = Some customerID)));
  mret (orErr "get user by stripe customer id" r).

Definition GetUserByEmail (email : string) : M World (result t) :=
  r ← db_call (select_user (λ u, bool_decide (citext_fold (Email u) = citext_fold (TrimSpace email))));
  mret (orErr "get user by email" r).

Definition UpdateUser (u : t) : M World (result t) :=
  let '(u', invalid) := Validate u in
  match invalid with
  | Some e => mret (Err e)
  | None =>
    if bool_decide (ID u' = uuid_Nil)
    then mret (Err (error_of_FieldError (mkFieldError "id" "is required for update")))
    else
      r ← db_call (update_user_stmt u');
      match r with
      | PErr e => mret (Err (mapError "update user" e))
      | POk n => mret (Ok (set_UpdatedAt n u'))
      end
  end.
End Constraints.

(** ** Laws *)

Section Laws.
Context `{Postgres}.
Import User.
Implicit Types (m : gmap UUID t).

(** Rows stored under their id, meeting the CHECKs, with no two live users
    sharing an email up to case and no two sharing a Stripe customer. *)
Definition users_ok m : Prop :=
  map_Forall (λ k u, ID u = k ∧ first_violation "users" (user_constraints u) = None) m ∧
  ∀ k1 k2 u1 u2, m !! k1 = Some u1 → m !! k2 = Some u2 →
    same_email u1 u2 = true ∨ same_customer u1 u2 = true → k1 = k2.

Lemma same_email_sym u v : same_email u v = same_email v u.
Proof. unfold same_email. repeat case_bool_decide; simpl; congruence. Qed.
Lemma same_customer_sym u v : same_customer u v = same_customer v u.
Proof. unfold same_customer. repeat case_match; try done. repeat case_bool_decide; congruence. Qed.

Lemma clashes_false R id u m :
  clashes R id u m = false ↔ ∀ k v, m !! k = Some v → k ≠ id → R u v = false.
Proof.
  unfold clashes. rewrite <- not_true_iff_false, existsb_exists. split.
  - intros Hno k v Hk Hne. apply not_true_iff_false. intros HR. apply Hno. exists (k, v).
    split; [by apply list_elem_of_In, elem_of_map_to_list|]. simpl.
    by rewrite bool_decide_eq_false_2, HR.
  - intros Hall ([k v] & Hin & [Hk HR]%andb_true_iff). apply list_elem_of_In, elem_of_map_to_list in Hin.
    simpl in *. apply negb_true_iff, bool_decide_eq_false in Hk.
    by rewrite (Hall k v Hin Hk) in HR.
Qed.

Lemma users_ok_insert m id u :
  users_ok m → ID u = id → user_violation id u m = None → users_ok (<[id := u]> m).
Proof.
  intros [Hall Huq] Hid. unfold user_violation.
  destruct (first_violation _ _) eqn:Hv; [done|].
  destruct (clashes same_email _ _ _) eqn:He; [done|].
  destruct (clashes same_customer _ _ _) eqn:Hc; [done|]. intros _.
  rewrite clashes_false in He, Hc. split; [by apply map_Forall_insert_2|].
  intros k1 k2 u1 u2. rewrite !lookup_insert. repeat case_decide; subst; try done.
  - intros [= <-] H2 HR. exfalso. specialize (He k2 u2 H2). specialize (Hc k2 u2 H2).
    rewrite He, Hc in HR by done. by destruct HR.
  - intros H1 [= <-] HR. exfalso. specialize (He k1 u1 H1). specialize (Hc k1 u1 H1).
    rewrite same_email_sym, He, same_customer_sym, Hc in HR by done. by destruct HR.
  - by apply Huq.
Qed.

Lemma user_touch_id n a b : ID (user_touch n a b) = ID b.
Proof. unfold user_touch. by case_bool_decide. Qed.

Lemma create_user_stmt_ok u c tb :
  users_ok (users tb) → users_ok (users (create_user_stmt u c tb).2).
Proof.
  intros Hok. unfold create_user_stmt. case_match; [done|].
  destruct (users tb !! _); [done|]. destruct (user_violation _ _ _) eqn:Hv; [done|].
  simpl. by apply users_ok_insert.
Qed.

Lemma update_user_stmt_ok u c tb :
  users_ok (users tb) → users_ok (users (update_user_stmt u c tb).2).
Proof.
  intros Hok. unfold update_user_stmt. destruct (users tb !! ID u) as [old|] eqn:Ho; [|done].
  case_bool_decide; [|done]. destruct (user_violation _ _ _) eqn:Hv; [done|]. simpl.
  apply users_ok_insert; try done. rewrite user_touch_id. simpl. by apply (proj1 Hok).
Qed.

(** under any faults, creating or updating a user keeps every row under
    its id and valid, live emails distinct up to case, and each Stripe
    customer linked to at most one user. *)
Theorem users_unique u w :
  users_ok (users (w_db w)) →
  users_ok (users (w_db (CreateUser u w).2)) ∧ users_ok (users (w_db (UpdateUser u w).2)).
Proof.
  intros Hok. unfold CreateUser, UpdateUser. destruct (Validate u) as [u' [e|]]; [done|].
  unfold_monad. split.
  - destruct (db_call _ w) as [r w'] eqn:Hc.
    assert (users_ok (users (w_db w'))) as Hok' by
      (eapply (db_call_preserves _ (λ t, users_ok (users t))); [|done|exact Hc];
       intros; by apply create_user_stmt_ok). by destruct r.
  - case_bool_decide; [done|]. destruct (db_call _ w) as [r w'] eqn:Hc.
    assert (users_ok (users (w_db w'))) as Hok' by
      (eapply (db_call_preserves _ (λ t, users_ok (users t))); [|done|exact Hc];
       intros; by apply update_user_stmt_ok). by destruct r.
Qed.

(** A selection that at most one live row can satisfy finds it. *)
Lemma select_user_unique P c tb id u :
  users tb !! id = Some u → P u = true → DeletedAt u = None →
  (∀ k v, users tb !! k = Some v → P v = true → DeletedAt v = None → k = id) →
  select_user P c tb = (POk u, tb).
Proof.
  intros Hu HP Hd Huq. unfold select_user.
  assert ((id, u) ∈ rows_where (λ u, P u && bool_decide (DeletedAt u = None)) (users tb)) as Hin.
  { apply elem_of_rows_where. rewrite HP, bool_decide_eq_true_2; done. }
  destruct (rows_where _ _) as [|[k v] l] eqn:Hr; [set_solver|].
  assert ((k, v) ∈ (k, v) :: l) as Hk by set_solver. rewrite <- Hr in Hk.
  apply elem_of_rows_where in Hk as [Hk [HPk Hdk%bool_decide_eq_true]%andb_true_iff].
  rewrite (Huq k v) in Hk by done. by simplify_eq.
Qed.

(** a live user is found under their email in any letter case, with any
    surrounding white space, and nobody else is. *)
Theorem find_by_email w id u email :
  quiet w → users_ok (users (w_db w)) → users (w_db w) !! id = Some u → DeletedAt u = None →
  citext_fold (TrimSpace email) = citext_fold (Email u) →
  GetUserByEmail email w = (Ok u, advance w).
Proof.
  intros Hq [_ Huq] Hu Hd Heq. unfold GetUserByEmail. unfold_monad.
  rewrite db_call_quiet, (select_user_unique _ _ _ id u); try done.
  - by rewrite bool_decide_eq_true_2.
  - intros k v Hv HP%bool_decide_eq_true Hdv. apply (Huq k id v u); try done. left.
    unfold same_email. rewrite !bool_decide_eq_true_2 by congruence. done.
Qed.

(** The same for the customer a webhook names. *)
Lemma find_by_customer w id u cus :
  quiet w → users_ok (users (w_db w)) → users (w_db w) !! id = Some u → DeletedAt u = None →
  StripeCustomerID u = Some cus →
  GetUserByStripeCustomerID cus w = (Ok u, advance w).
Proof.
  intros Hq [_ Huq] Hu Hd Heq. unfold GetUserByStripeCustomerID. unfold_monad.
  rewrite db_call_quiet, (select_user_unique _ _ _ id u); try done.
  - by rewrite bool_decide_eq_true_2.
  - intros k v Hv HP%bool_decide_eq_true Hdv. apply (Huq k id v u); try done. right.
    unfold same_customer. rewrite HP, Heq. by rewrite bool_decide_eq_true_2.
Qed.

(** the entity's [Validate] is weaker than the table's constraints: it
    accepts an address with no top-level domain, which the database then
    rejects as a validation failure. *)
Theorem user_validate_gap :
  ∃ u, (Validate u).2 = None ∧
    ∀ c tb, ∃ e, create_user_stmt (Validate u).1 c tb = (PErr e, tb) ∧
      errors_Is (mapError "create user" e) ErrValidation = true.
Proof.
  exists (mk uuid_Nil "ann@host" None None None None ∅ 0 0 None). split; [by vm_compute|].
  intros c tb. unfold create_user_stmt. simpl.
  replace (email_format "ann@host") with false
    by (unfold email_format; by destruct (pg_has_space _)).
  eexists. split; [done|]. by vm_compute.
Qed.
End Laws.
