(* ===== verification/RefreshTokenRepo.v ===== *)
(** * internal/repository/postgres/refresh_token_repo.go

    Rotating refresh tokens: the table of migration 6 and the repository's
    operations on it.  The laws of rotation are in RefreshTokens.v. *)

From S2P Require Import Prelude GoStd Domain Database WebhookRepo SubscriptionRepo.
Open Scope Z_scope.

Module ConsumeRefreshToken.
Record t := mk { PresentedHash : string; SuccessorHash : string; SuccessorExpiresAt : Time }.
End ConsumeRefreshToken.

(** ** The table *)

Section Table.
Import RefreshToken.

(** [^[0-9a-f]{64}$]. *)
Definition hash_format (s : string) : bool :=
  (len s =? 64) && str_forall (λ a, is_digit a || in_range 97 102 a) s.

Definition token_constraints (t : t) : list (string * bool) := [
  ("refresh_tokens_expiry_after_issue_chk", IssuedAt t <? ExpiresAt t);
  ("refresh_tokens_revoked_reason_chk",
    bool_decide (RevokedAt t = None) || bool_decide (is_Some (RevokedReason t)));
  ("refresh_tokens_token_hash_format_chk", hash_format (TokenHash t))
].

(** [trg_refresh_tokens_set_updated_at]. *)
Definition token_touch (now : Time) (old new : t) : t :=
  if bool_decide (old = new) then new else set_UpdatedAt now new.

(** [INSERT .. VALUES (user, hash, family, expires) RETURNING ..]; [now] is
    [now()], the start of the transaction. *)
Definition insert_token_stmt (now : Time) (uid : UUID) (hash : string) (family : UUID)
    (expires : Time) (c : Call) (tb : Tables) : pgres t * Tables :=
  let row := mk (c_uuid c) uid hash family now expires None None None now now in
  match first_violation "refresh_tokens" (token_constraints row) with
  | Some v => (PErr v, tb)
  | None =>
    if existsb (λ kr, bool_decide (ID kr.2 = c_uuid c)) (map_to_list (refresh_tokens tb))
    then (PErr (unique_violation "refresh_tokens_pkey"), tb)
    else match refresh_tokens tb !! hash with
    | Some _ => (PErr (unique_violation "uq_refresh_tokens_token_hash"), tb)
    | None =>
      match users tb !! uid with
      | None => (PErr (fkey_violation "refresh_tokens" "refresh_tokens_user_id_fkey"), tb)
      | Some _ => (POk row, set_refresh_tokens (<[hash := row]> (refresh_tokens tb)) tb)
      end
    end
  end.

Definition lock_token_stmt (hash : string) (c : Call) (tb : Tables) : pgres t * Tables :=
  (match refresh_tokens tb !! hash with Some t => POk t | None => PErr NoRows end, tb).

Definition mark_used_stmt (now : Time) (id : UUID) (c : Call) (tb : Tables) : pgres unit * Tables :=
  (POk tt, set_refresh_tokens (update_where (λ t, bool_decide (ID t = id))
    (λ t, token_touch (c_now c) t (set_UsedAt (Some now) t)) (refresh_tokens tb)) tb).

(** [UPDATE .. SET revoked_at = now(), revoked_reason = $2 WHERE P AND revoked_at
    IS NULL]: rows affected.  The reason is never NULL, so the CHECK holds. *)
Definition revoke_stmt (now : Time) (P : t → bool) (reason : string) (c : Call) (tb : Tables)
    : pgres Z * Tables :=
  let Q := λ t, P t && bool_decide (RevokedAt t = None) in
  (POk (Z.of_nat (length (rows_where Q (refresh_tokens tb)))),
   set_refresh_tokens (update_where Q
     (λ t, token_touch (c_now c) t (set_revoked now reason t)) (refresh_tokens tb)) tb).

(** [family_id = (SELECT family_id FROM refresh_tokens WHERE token_hash = $1)]. *)
Definition in_family_of (hash : string) (tb : Tables) (t : t) : bool :=
  match refresh_tokens tb !! hash with
  | Some p => bool_decide (FamilyID t = FamilyID p)
  | None => false
  end.

Definition by_expiry (a b : string * t) : Prop := ExpiresAt a.2 ≤ ExpiresAt b.2.
#[export] Instance by_expiry_dec : RelDecision by_expiry :=
  λ a b, Z_le_dec (ExpiresAt a.2) (ExpiresAt b.2).

Definition delete_expired_stmt (grace : Duration) (limit : Z) (c : Call) (tb : Tables)
    : pgres Z * Tables :=
  if limit <? 0 then (PErr negative_limit, tb) else
  let ids := (take (Z.to_nat limit) (merge_sort by_expiry
    (filter (λ kt, kt.1 ∉ c_locked c)
      (rows_where (λ t, ExpiresAt t <? c_now c - grace) (refresh_tokens tb))))).*1 in
  (POk (Z.of_nat (length ids)),
   set_refresh_tokens (filter (λ kt, kt.1 ∉ ids) (refresh_tokens tb)) tb).
End Table.

(** ** Methods *)

Section Methods.
Import RefreshToken.

Definition CreateRefreshToken (t : t) : M World (result RefreshToken.t) :=
  r ← db_call (λ c, insert_token_stmt (c_now c) (UserID t) (TokenHash t) (FamilyID t) (ExpiresAt t) c);
  match r with
  | PErr e => mret (Err (mapError "create refresh token" e))
  | POk row => mret (Ok (mk (ID row) (UserID t) (TokenHash t) (FamilyID t) (IssuedAt row)
      (ExpiresAt t) (UsedAt t) (RevokedAt t) (RevokedReason t) (CreatedAt row) (UpdatedAt row)))
  end.

Definition reuse_reason : string := "refresh token reuse detected".

Definition ConsumeRefreshToken (i : ConsumeRefreshToken.t) : M World (result RefreshToken.t) :=
  b ← tx_begin;
  match b with
  | PErr e => mret (Err (mapError "consume refresh token: begin" e))
  | POk now =>
    snap ← gets w_db;
    p ← db_call (lock_token_stmt (ConsumeRefreshToken.PresentedHash i));
    match p with
    | PErr e => _ ← tx_rollback snap; mret (Err (mapError "consume refresh token: lock" e))
    | POk presented =>
      if bool_decide (is_Some (UsedAt presented)) then
        r ← db_call (revoke_stmt now (λ t, bool_decide (FamilyID t = FamilyID presented)) reuse_reason);
        match r with
        | PErr e => _ ← tx_rollback snap;
                    mret (Err (mapError "consume refresh token: revoke family" e))
        | POk _ =>
          c ← tx_commit snap;
          match c with
          | PErr e => mret (Err (mapError "consume refresh token: commit revocation" e))
          | POk _ => mret (Err ErrTokenReused)
          end
        end
      else
        clock ← gets w_now;
        if bool_decide (is_Some (RevokedAt presented)) || After clock (ExpiresAt presented)
        then _ ← tx_rollback snap; mret (Err ErrNotFound)
        else
          u ← db_call (mark_used_stmt now (ID presented));
          match u with
          | PErr e => _ ← tx_rollback snap;
                      mret (Err (mapError "consume refresh token: mark used" e))
          | POk _ =>
            s ← db_call (insert_token_stmt now (UserID presented)
                   (ConsumeRefreshToken.SuccessorHash i) (FamilyID presented)
                   (ConsumeRefreshToken.SuccessorExpiresAt i));
            match s with
            | PErr e => _ ← tx_rollback snap;
                        mret (Err (mapError "consume refresh token: issue successor" e))
            | POk successor =>
              c ← tx_commit snap;
              match c with
              | PErr e => mret (Err (mapError "consume refresh token: commit" e))
              | POk _ => mret (Ok successor)
              end
            end
          end
    end
  end.

Definition RevokeFamily (familyID : UUID) (reason : string) : M World (result Z) :=
  r ← db_call (λ c, revoke_stmt (c_now c) (λ t, bool_decide (FamilyID t = familyID)) (truncate reason) c);
  mret (orErr "revoke refresh token family" r).

Definition RevokeFamilyByToken (tokenHash reason : string) : M World (result Z) :=
  r ← db_call (λ c tb, revoke_stmt (c_now c) (in_family_of tokenHash tb) (truncate reason) c tb);
  mret (orErr "revoke refresh token family by token" r).

Definition RevokeAllForUser (userID : UUID) (reason : string) : M World (result Z) :=
  r ← db_call (λ c, revoke_stmt (c_now c) (λ t, bool_decide (UserID t = userID)) (truncate reason) c);
  mret (orErr "revoke refresh tokens for user" r).

Definition DeleteExpiredRefreshTokens (grace : Duration) (limit : Z) : M World (result Z) :=
  r ← db_call (delete_expired_stmt grace limit); mret (orErr "delete expired refresh tokens" r).
End Methods.
