(* ===== verification/RefreshTokens.v ===== *)
(** * Laws of refresh-token rotation

    The repository's operations as atomic steps in any order, and what holds
    through all of them: the table's identity invariant, one exchangeable token
    per family, exchange at most once, and revocation that is final. *)

From S2P Require Import Prelude GoStd Domain Database WebhookRepo SubscriptionRepo.
From S2P Require Import RefreshTokenRepo.
Open Scope Z_scope.
Import RefreshToken.

(** ** The exchange as one step *)

Definition same_family (f : UUID) (t : t) : bool := bool_decide (FamilyID t = f).

(** The whole transaction under the row lock: [now] is the transaction's start,
    [clock] the process's clock, [c] and [c'] its two writing calls. *)
Definition consume_tx (now clock : Time) (c c' : Call) (i : ConsumeRefreshToken.t) (tb : Tables)
    : result RefreshToken.t * Tables :=
  match refresh_tokens tb !! ConsumeRefreshToken.PresentedHash i with
  | None => (Err (mapError "consume refresh token: lock" NoRows), tb)
  | Some p =>
    if bool_decide (is_Some (UsedAt p))
    then (Err ErrTokenReused, (revoke_stmt now (same_family (FamilyID p)) reuse_reason c tb).2)
    else if bool_decide (is_Some (RevokedAt p)) || After clock (ExpiresAt p)
    then (Err ErrNotFound, tb)
    else match insert_token_stmt now (UserID p) (ConsumeRefreshToken.SuccessorHash i) (FamilyID p)
                 (ConsumeRefreshToken.SuccessorExpiresAt i) c' (mark_used_stmt now (ID p) c tb).2 with
         | (POk s, tb') => (Ok s, tb')
         | (PErr e, _) => (Err (mapError "consume refresh token: issue successor" e), tb)
         end
  end.

Lemma tx_begin_pure w r w' : tx_begin w = (r, w') → w_db w' = w_db w.
Proof.
  intros Hb. eapply (db_call_preserves _ (λ t, t = w_db w)); [|done|exact Hb]. by intros c t ->.
Qed.

Lemma tx_commit_cases snap w r w' :
  tx_commit snap w = (r, w') →
  (r = POk tt ∧ w_db w' = w_db w) ∨ (∃ m, r = PErr (DriverErr m) ∧ (w_db w' = snap ∨ w_db w' = w_db w)).
Proof.
  unfold tx_commit. destruct (ctx_done _); [intros [= <- <-]; eauto|].
  destruct (tk_fault _) as [[]|]; intros [= <- <-]; eauto.
Qed.

(** The outcome and the tables of an exchange agree with one step. *)
Definition exchanged (i : ConsumeRefreshToken.t) (tb : Tables) (r : result RefreshToken.t) (tb' : Tables)
    : Prop :=
  ∃ now clock c c', consume_tx now clock c c' i tb = (r, tb').

Lemma consume_exchanged i w r w' :
  ConsumeRefreshToken i w = (r, w') →
  match r with
  | Ok s => exchanged i (w_db w) (Ok s) (w_db w')
  | Err e => if errors_Is e ErrTokenReused then exchanged i (w_db w) (Err ErrTokenReused) (w_db w')
             else w_db w' = w_db w ∨ ∃ x, exchanged i (w_db w) x (w_db w')
  end.
Proof.
  unfold ConsumeRefreshToken, exchanged, consume_tx. unfold_monad.
  destruct (tx_begin w) as [[now|e] w1] eqn:Hb; apply tx_begin_pure in Hb;
    [|intros [= <- <-]; rewrite mapError_not_reused; simpl; eauto].
  destruct (db_call (lock_token_stmt _) w1) as [[p|e] w2] eqn:Hl;
    [|intros [= <- <-]; rewrite mapError_not_reused; simpl; eauto].
  apply db_call_ok in Hl as [c0 Hl]. unfold lock_token_stmt in Hl. rewrite Hb in Hl.
  destruct (refresh_tokens (w_db w) !! _) as [p'|]; [|done]. injection Hl as -> Hdb2.
  destruct (bool_decide (is_Some (UsedAt p))).
  - destruct (db_call _ w2) as [[n|e] w3] eqn:Hr; [|intros [= <- <-]; rewrite mapError_not_reused; simpl; eauto].
    apply db_call_ok in Hr as [c Hr]. rewrite <- Hdb2 in Hr. injection Hr as _ Hdb3.
    destruct (tx_commit (w_db w1) w3) as [x w4] eqn:Hc.
    apply tx_commit_cases in Hc as [[-> Hc]|(m & -> & Hc)]; intros [= <- <-]; simpl.
    + exists now, 0, c, c. rewrite Hc, <- Hdb3. done.
    + destruct Hc as [->| ->]; [by left|]. right.
      exists (Err ErrTokenReused), now, 0, c, c. by rewrite <- Hdb3.
  - destruct (_ || _) eqn:Hdead; [intros [= <- <-]; simpl; eauto|].
    destruct (db_call (mark_used_stmt _ _) w2) as [[[]|e] w3] eqn:Hm;
      [|intros [= <- <-]; rewrite mapError_not_reused; simpl; eauto].
    apply db_call_ok in Hm as [c Hm]. rewrite <- Hdb2 in Hm. injection Hm as Hm.
    destruct (db_call (insert_token_stmt _ _ _ _ _) w3) as [[s|e] w4] eqn:Hi;
      [|intros [= <- <-]; rewrite mapError_not_reused; simpl; eauto].
    apply db_call_ok in Hi as [c' Hi]. rewrite <- Hm in Hi.
    destruct (tx_commit (w_db w1) w4) as [x w5] eqn:Hc.
    apply tx_commit_cases in Hc as [[-> Hc]|(m & -> & Hc)]; intros [= <- <-]; simpl.
    + exists now, (w_now w2), c, c'. rewrite Hdead. unfold mark_used_stmt. simpl. by rewrite Hi, Hc.
    + destruct Hc as [->| ->]; [by left|]. right.
      exists (Ok s), now, (w_now w2), c, c'. rewrite Hdead. unfold mark_used_stmt. simpl. by rewrite Hi.
Qed.

(** C11: exchanging a token is atomic whatever faults its database calls meet.
    A returned successor, and a reported reuse, are the whole exchange; any
    other error leaves the tables as they were, unless it is the answer to the
    commit that was lost. *)
Theorem ConsumeRefreshToken_atomic i w r w' :
  ConsumeRefreshToken i w = (r, w') →
  match r with
  | Ok s => exchanged i (w_db w) (Ok s) (w_db w')
  | Err e => if errors_Is e ErrTokenReused then exchanged i (w_db w) (Err ErrTokenReused) (w_db w')
             else w_db w' = w_db w ∨ ∃ x, exchanged i (w_db w) x (w_db w')
  end.
Proof. apply consume_exchanged. Qed.

(** ** Operations in any order *)

Inductive token_op :=
  | TCreate (t : t)
  | TConsume (now clock : Time) (c' : Call) (i : ConsumeRefreshToken.t)
  | TRevokeFamily (f : UUID) (reason : string)
  | TRevokeByToken (hash reason : string)
  | TRevokeUser (uid : UUID) (reason : string)
  | TDelete (grace : Duration) (limit : Z).

Definition token_exec (c : Call) (o : token_op) (tb : Tables) : Tables :=
  match o with
  | TCreate t => (insert_token_stmt (c_now c) (UserID t) (TokenHash t) (FamilyID t) (ExpiresAt t) c tb).2
  | TConsume now clock c' i => (consume_tx now clock c c' i tb).2
  | TRevokeFamily f reason => (revoke_stmt (c_now c) (same_family f) (truncate reason) c tb).2
  | TRevokeByToken h reason => (revoke_stmt (c_now c) (in_family_of h tb) (truncate reason) c tb).2
  | TRevokeUser u reason =>
      (revoke_stmt (c_now c) (λ t, bool_decide (UserID t = u)) (truncate reason) c tb).2
  | TDelete grace limit => (delete_expired_stmt grace limit c tb).2
  end.

Definition token_run (l : list (Call * token_op)) (tb : Tables) : Tables :=
  foldl (λ tb co, token_exec co.1 co.2 tb) tb l.

(** *** What a step does to the table *)

(** An update in place: identity kept, use and revocation never undone. *)
Definition deader (t t' : t) : Prop :=
  ID t' = ID t ∧ TokenHash t' = TokenHash t ∧ FamilyID t' = FamilyID t ∧ UserID t' = UserID t ∧
  ExpiresAt t' = ExpiresAt t ∧
  (is_Some (UsedAt t) → is_Some (UsedAt t')) ∧ (is_Some (RevokedAt t) → is_Some (RevokedAt t')).

#[local] Instance deader_refl : Reflexive deader.
Proof. by intros x. Qed.

Lemma deader_touch n a b : deader a b → deader a (token_touch n a b).
Proof. unfold token_touch. by case_bool_decide. Qed.

Lemma deader_used n t : deader t (set_UsedAt (Some n) t).
Proof. by split_and!. Qed.

Lemma deader_revoked n r t : deader t (set_revoked n r t).
Proof. by split_and!. Qed.

(** Rows of [m'] are rows of [m], updated in place. *)
Definition shrinks (m m' : gmap string RefreshToken.t) : Prop :=
  ∀ k t', m' !! k = Some t' → ∃ t, m !! k = Some t ∧ deader t t'.

(** A row added to [m], under a hash and an id not in it. *)
Definition adds (m m' : gmap string RefreshToken.t) (new : RefreshToken.t) : Prop :=
  m' = <[TokenHash new := new]> m ∧ m !! TokenHash new = None ∧
  (∀ k t, m !! k = Some t → ID t ≠ ID new) ∧ UsedAt new = None ∧ RevokedAt new = None.

(** The row [p] marked as used. *)
Definition marked (now : Time) (c : Call) (p : t) (m : gmap string RefreshToken.t) :=
  update_where (λ t, bool_decide (ID t = ID p))
    (λ t, token_touch (c_now c) t (set_UsedAt (Some now) t)) m.

(** Each operation only shrinks the table, adds the row it was given, or
    exchanges a live row for one new row of its family. *)
Inductive token_step (c : Call) (m m' : gmap string RefreshToken.t) : token_op → Prop :=
  | step_shrinks o : shrinks m m' → token_step c m m' o
  | step_created t new :
      adds m m' new → TokenHash new = TokenHash t → FamilyID new = FamilyID t →
      token_step c m m' (TCreate t)
  | step_exchanged now clock c' i p new :
      m !! ConsumeRefreshToken.PresentedHash i = Some p →
      UsedAt p = None → RevokedAt p = None → clock ≤ ExpiresAt p →
      adds (marked now c p m) m' new →
      TokenHash new = ConsumeRefreshToken.SuccessorHash i → FamilyID new = FamilyID p →
      UserID new = UserID p →
      token_step c m m' (TConsume now clock c' i).

Lemma update_where_deader P f (m : gmap string RefreshToken.t) :
  (∀ t, deader t (f t)) → shrinks m (update_where P f m).
Proof.
  intros Hf k t'. rewrite lookup_update_where. destruct (m !! k) as [t|]; [|done].
  intros [= <-]. exists t. split; [done|]. by case_match.
Qed.

Lemma insert_token_cases now uid h f e c tb r tb' :
  insert_token_stmt now uid h f e c tb = (r, tb') →
  (tb' = tb ∧ ∃ x, r = PErr x) ∨
  (r = POk (mk (c_uuid c) uid h f now e None None None now now) ∧
   refresh_tokens tb !! h = None ∧
   (∀ k t, refresh_tokens tb !! k = Some t → ID t ≠ c_uuid c) ∧
   tb' = set_refresh_tokens
     (<[h := mk (c_uuid c) uid h f now e None None None now now]> (refresh_tokens tb)) tb).
Proof.
  unfold insert_token_stmt. case_match; [intros [= <- <-]; eauto|].
  destruct (existsb _ _) eqn:Hx; [intros [= <- <-]; eauto|].
  destruct (refresh_tokens tb !! h) eqn:Hh; [intros [= <- <-]; eauto|].
  destruct (users tb !! uid); intros [= <- <-]; [|eauto]. right. split_and!; try done.
  intros k t Ht Hid. apply not_true_iff_false in Hx. apply Hx, existsb_exists.
  exists (k, t). split; [by apply list_elem_of_In, elem_of_map_to_list|].
  by apply bool_decide_eq_true.
Qed.

Lemma shrinks_refl m : shrinks m m.
Proof. intros k t Ht. by exists t. Qed.

Lemma revoke_shrinks now P reason c tb :
  shrinks (refresh_tokens tb) (refresh_tokens (revoke_stmt now P reason c tb).2).
Proof. apply update_where_deader. intros t. apply deader_touch, deader_revoked. Qed.

Lemma marked_shrinks now c p m : shrinks m (marked now c p m).
Proof. apply update_where_deader. intros t. apply deader_touch, deader_used. Qed.

#[local] Hint Resolve shrinks_refl revoke_shrinks marked_shrinks : sps.

Lemma consume_step c now clock c' i tb :
  token_step c (refresh_tokens tb) (refresh_tokens (consume_tx now clock c c' i tb).2)
    (TConsume now clock c' i).
Proof.
  unfold consume_tx. destruct (refresh_tokens tb !! _) as [p|] eqn:Hp; [|constructor; auto with sps].
  case_bool_decide as Hu; [constructor; apply revoke_shrinks|].
  destruct (_ || _) eqn:Hd; [constructor; auto with sps|].
  apply orb_false_iff in Hd as [Hr%bool_decide_eq_false Ha%Z.ltb_ge].
  destruct (insert_token_stmt _ _ _ _ _ _ _) as [r tb'] eqn:Hi.
  apply insert_token_cases in Hi as [[-> [x ->]]|(-> & Hh & Hid & ->)];
    [constructor; auto with sps|].
  eapply (step_exchanged _ _ _ _ _ _ _ p (mk _ _ _ _ _ _ _ _ _ _ _));
    [exact Hp|by apply eq_None_not_Some|by apply eq_None_not_Some|exact Ha|..];
    [by split_and!|done..].
Qed.

Lemma token_exec_step c o tb :
  token_step c (refresh_tokens tb) (refresh_tokens (token_exec c o tb)) o.
Proof.
  destruct o; simpl; try (constructor; apply revoke_shrinks).
  - destruct (insert_token_stmt _ _ _ _ _ _ _) as [r tb'] eqn:Hi.
    apply insert_token_cases in Hi as [[-> _]|(-> & Hh & Hid & ->)]; [constructor; auto with sps|].
    eapply (step_created _ _ _ _ (mk _ _ _ _ _ _ _ _ _ _ _)); [by split_and!|done..].
  - apply consume_step.
  - constructor. unfold delete_expired_stmt. case_match; [auto with sps|].
    intros k t' [Ht _]%map_lookup_filter_Some. by exists t'.
Qed.

(** ** Invariant *)

Definition live (t : t) : Prop := UsedAt t = None ∧ RevokedAt t = None.

(** Rows stored under their hash, ids distinct, one live token per family. *)
Record tokens_ok (m : gmap string RefreshToken.t) : Prop := mkTokensOk {
  tok_key : ∀ k t, m !! k = Some t → TokenHash t = k;
  tok_id : ∀ k1 k2 t1 t2, m !! k1 = Some t1 → m !! k2 = Some t2 → ID t1 = ID t2 → k1 = k2;
  tok_live : ∀ k1 k2 t1 t2, m !! k1 = Some t1 → m !! k2 = Some t2 →
    FamilyID t1 = FamilyID t2 → live t1 → live t2 → k1 = k2;
}.

Lemma deader_live t t' : deader t t' → live t' → live t.
Proof.
  unfold live. intros (_ & _ & _ & _ & _ & Hu & Hr) [Hu' Hr'].
  split; apply eq_None_not_Some; intros Hs; [apply Hu in Hs|apply Hr in Hs];
    rewrite ?Hu', ?Hr' in Hs; by destruct Hs.
Qed.

Lemma shrinks_tokens_ok m m' : shrinks m m' → tokens_ok m → tokens_ok m'.
Proof.
  intros Hsh [Hk Hi Hl]. split.
  - intros k t' (t & Ht & Hd)%Hsh. destruct Hd as (_ & -> & _). eauto.
  - intros k1 k2 t1' t2' (t1 & H1 & Hd1)%Hsh (t2 & H2 & Hd2)%Hsh He.
    apply (Hi k1 k2 t1 t2); try done. destruct Hd1 as [<- _], Hd2 as [<- _]. done.
  - intros k1 k2 t1' t2' (t1 & H1 & Hd1)%Hsh (t2 & H2 & Hd2)%Hsh He L1 L2.
    apply (Hl k1 k2 t1 t2); try done; [|by eapply deader_live..].
    destruct Hd1 as (_ & _ & <- & _), Hd2 as (_ & _ & <- & _). done.
Qed.

Lemma adds_tokens_ok m m' new :
  adds m m' new → tokens_ok m →
  (∀ k t, m !! k = Some t → FamilyID t = FamilyID new → ¬ live t) → tokens_ok m'.
Proof.
  intros (-> & Hh & Hid & _ & _) [Hk Hi Hl] Hno. split.
  - intros k t. rewrite lookup_insert. case_decide; [|apply Hk]. intros [= <-]. done.
  - intros k1 k2 t1 t2. rewrite !lookup_insert. repeat case_decide; subst; try done; [..|apply Hi].
    + intros [= <-] H2 He. by destruct (Hid _ _ H2).
    + intros H1 [= <-] He. by destruct (Hid _ _ H1).
  - intros k1 k2 t1 t2. rewrite !lookup_insert. repeat case_decide; subst; try done; [..|apply Hl].
    + intros [= <-] H2 He _ L2. by destruct (Hno _ _ H2 (eq_sym He)).
    + intros H1 [= <-] He L1 _. by destruct (Hno _ _ H1 He).
Qed.

(** Once the live token of a family is marked used, none is live. *)
Lemma marked_no_live now c p m k0 k t :
  tokens_ok m → m !! k0 = Some p → live p →
  marked now c p m !! k = Some t → FamilyID t = FamilyID p → ¬ live t.
Proof.
  intros Hok Hp Hlp Ht Hf Hlt. unfold marked in Ht. rewrite lookup_update_where in Ht.
  destruct (m !! k) as [x|] eqn:Hx; [|done]. injection Ht as <-. revert Hf Hlt.
  case_bool_decide as Hid.
  - intros _ [Hu _]. revert Hu. unfold token_touch. case_bool_decide as He; [|done]. by rewrite He.
  - intros Hf Hlx. apply Hid. assert (k = k0) as -> by by eapply (tok_live m). congruence.
Qed.

(** Creating a token starts a family. *)
Definition fresh_family (co : Call * token_op) (tb : Tables) : Prop :=
  match co.2 with
  | TCreate t => ∀ k x, refresh_tokens tb !! k = Some x → FamilyID x ≠ FamilyID t
  | _ => True
  end.

Fixpoint fresh_families (l : list (Call * token_op)) (tb : Tables) : Prop :=
  match l with
  | [] => True
  | co :: l' => fresh_family co tb ∧ fresh_families l' (token_exec co.1 co.2 tb)
  end.

Lemma token_exec_ok co tb :
  tokens_ok (refresh_tokens tb) → fresh_family co tb →
  tokens_ok (refresh_tokens (token_exec co.1 co.2 tb)).
Proof.
  destruct co as [c o]. intros Hok Hfr. simpl. pose proof (token_exec_step c o tb) as Hstep.
  generalize dependent (refresh_tokens (token_exec c o tb)). intros m' Hstep. destruct Hstep.
  - by eapply shrinks_tokens_ok.
  - eapply adds_tokens_ok; [done..|]. unfold fresh_family in Hfr. simpl in Hfr.
    intros k x Hx Hf _. apply (Hfr k x Hx). congruence.
  - eapply adds_tokens_ok; [done|eapply shrinks_tokens_ok; [apply marked_shrinks|done]|].
    intros k x Hx Hf. eapply (marked_no_live _ _ p); [done..|congruence].
Qed.

(** whatever the order of logins, exchanges, revocations and cleanups, each
    session family has at most one token that can still be exchanged. *)
Theorem one_live_token l tb :
  tokens_ok (refresh_tokens tb) → fresh_families l tb →
  tokens_ok (refresh_tokens (token_run l tb)).
Proof.
  revert tb. induction l as [|co l IH]; intros tb Hok Hfr; [done|]. destruct Hfr as [Hf Hfr].
  simpl. apply IH; [|done]. by apply token_exec_ok.
Qed.

(** ** Finality *)

(** Every token of the family is revoked. *)
Definition family_revoked (f : UUID) (m : gmap string RefreshToken.t) : Prop :=
  ∀ k t, m !! k = Some t → FamilyID t = f → is_Some (RevokedAt t).

(** No login reuses the family id. *)
Definition avoids_family (f : UUID) (co : Call * token_op) : Prop :=
  match co.2 with TCreate t => FamilyID t ≠ f | _ => True end.

Lemma revoke_family_revoked now f reason c tb :
  family_revoked f (refresh_tokens (revoke_stmt now (same_family f) reason c tb).2).
Proof.
  intros k t. simpl. rewrite lookup_update_where. destruct (refresh_tokens tb !! k) as [x|]; [|done].
  intros [= <-]. unfold same_family. destruct (RevokedAt x) as [r|] eqn:Hr.
  - rewrite (bool_decide_eq_false_2 (Some r = None)), andb_false_r by done. rewrite Hr. eauto.
  - rewrite (bool_decide_eq_true_2 (None = None)), andb_true_r by done.
    case_bool_decide; [|done]. unfold token_touch. case_bool_decide as He; simpl; [|eauto].
    rewrite He. eauto.
Qed.

Lemma shrinks_family_revoked f m m' : shrinks m m' → family_revoked f m → family_revoked f m'.
Proof.
  intros Hsh Hrev k t' (t & Ht & _ & _ & Hf & _ & _ & _ & Hr)%Hsh He. apply Hr.
  apply (Hrev k t Ht). congruence.
Qed.

Lemma adds_family_revoked f m m' new :
  adds m m' new → FamilyID new ≠ f → family_revoked f m → family_revoked f m'.
Proof.
  intros (-> & _) Hne Hrev k t. rewrite lookup_insert. case_decide; [by intros [= <-]|]. apply Hrev.
Qed.

Lemma token_exec_revoked f co tb :
  avoids_family f co → family_revoked f (refresh_tokens tb) →
  family_revoked f (refresh_tokens (token_exec co.1 co.2 tb)).
Proof.
  destruct co as [c o]. intros Hav Hrev. simpl. pose proof (token_exec_step c o tb) as Hstep.
  generalize dependent (refresh_tokens (token_exec c o tb)). intros m' Hstep. destruct Hstep.
  - by eapply shrinks_family_revoked.
  - eapply adds_family_revoked; [done| |done]. unfold avoids_family in Hav. simpl in Hav. congruence.
  - eapply adds_family_revoked; [done| |eapply shrinks_family_revoked; [apply marked_shrinks|done]].
    intros Hf. destruct (Hrev _ _ H) as [x Hx]; [congruence|]. congruence.
Qed.

Lemma token_run_revoked f l tb :
  Forall (avoids_family f) l → family_revoked f (refresh_tokens tb) →
  family_revoked f (refresh_tokens (token_run l tb)).
Proof.
  intros Hl. revert tb. induction Hl as [|co l Hco _ IH]; intros tb Hrev; [done|].
  simpl. apply IH. by apply token_exec_revoked.
Qed.

(** C13: presenting a token that was already exchanged ends its session for
    good: the whole family is revoked, and through any later logins, exchanges,
    revocations and cleanups no token of the family is usable at any time and
    none can be exchanged. *)
Theorem reuse_kills_family now clock c c' i p tb l :
  refresh_tokens tb !! ConsumeRefreshToken.PresentedHash i = Some p → is_Some (UsedAt p) →
  Forall (avoids_family (FamilyID p)) l →
  let tb1 := (consume_tx now clock c c' i tb).2 in
  (consume_tx now clock c c' i tb).1 = Err ErrTokenReused ∧
  (∀ k t at_, refresh_tokens (token_run l tb1) !! k = Some t → FamilyID t = FamilyID p →
     Usable t at_ = false ∧
     ∀ n cl d d' j, ConsumeRefreshToken.PresentedHash j = k →
       ∃ e, (consume_tx n cl d d' j (token_run l tb1)).1 = Err e).
Proof.
  intros Hp Hu Hl tb1.
  assert (consume_tx now clock c c' i tb = (Err ErrTokenReused,
    (revoke_stmt now (same_family (FamilyID p)) reuse_reason c tb).2)) as Hc.
  { unfold consume_tx. by rewrite Hp, bool_decide_eq_true_2. }
  unfold tb1. rewrite Hc. split; [done|]. intros k t at_ Ht Hf.
  destruct (token_run_revoked (FamilyID p) l _ Hl
              (revoke_family_revoked now (FamilyID p) reuse_reason c tb) k t Ht Hf) as [r Hr].
  split.
  - unfold Usable. by rewrite Hr.
  - intros n cl d d' j Hj. unfold consume_tx. simpl in *. rewrite Hj, Ht, Hr.
    case_match; simpl; eauto.
Qed.

(** *** Exchange at most once *)

(** Operations that do not store the hash [h] again. *)
Definition avoids_hash (h : string) (co : Call * token_op) : Prop :=
  match co.2 with
  | TCreate t => TokenHash t ≠ h
  | TConsume _ _ _ i => ConsumeRefreshToken.SuccessorHash i ≠ h
  | _ => True
  end.

(** The token is gone, or can no longer be exchanged. *)
Definition spent (h : string) (m : gmap string RefreshToken.t) : Prop :=
  ∀ t, m !! h = Some t → is_Some (UsedAt t) ∨ is_Some (RevokedAt t).

Lemma shrinks_spent h m m' : shrinks m m' → spent h m → spent h m'.
Proof.
  intros Hsh Hsp t' (t & Ht & _ & _ & _ & _ & _ & Hu & Hr)%Hsh.
  destruct (Hsp t Ht); [left|right]; auto.
Qed.

Lemma adds_spent h m m' new : adds m m' new → TokenHash new ≠ h → spent h m → spent h m'.
Proof. intros (-> & _) Hne Hsp t. rewrite lookup_insert_ne by done. apply Hsp. Qed.

Lemma token_exec_spent h co tb :
  avoids_hash h co → spent h (refresh_tokens tb) →
  spent h (refresh_tokens (token_exec co.1 co.2 tb)).
Proof.
  destruct co as [c o]. intros Hav Hsp. simpl. pose proof (token_exec_step c o tb) as Hstep.
  generalize dependent (refresh_tokens (token_exec c o tb)). intros m' Hstep.
  unfold avoids_hash in Hav. destruct Hstep; simpl in Hav.
  - by eapply shrinks_spent.
  - eapply adds_spent; [done|congruence|done].
  - eapply adds_spent; [done|congruence|]. eapply shrinks_spent; [apply marked_shrinks|done].
Qed.

(** a refresh token is exchanged at most once.  After an exchange of it
    succeeds, no sequence of operations that does not store the same hash again
    makes a later exchange of it succeed. *)
Theorem exchanged_once now clock c c' i s tb tb1 l :
  consume_tx now clock c c' i tb = (Ok s, tb1) →
  ConsumeRefreshToken.SuccessorHash i ≠ ConsumeRefreshToken.PresentedHash i →
  Forall (avoids_hash (ConsumeRefreshToken.PresentedHash i)) l →
  ∀ n cl d d' j, ConsumeRefreshToken.PresentedHash j = ConsumeRefreshToken.PresentedHash i →
    ∃ e, (consume_tx n cl d d' j (token_run l tb1)).1 = Err e.
Proof.
  intros Hc Hne Hl.
  assert (spent (ConsumeRefreshToken.PresentedHash i) (refresh_tokens tb1)) as Hsp.
  { revert Hc. unfold consume_tx. destruct (refresh_tokens tb !! _) as [p|] eqn:Hp; [|done].
    case_bool_decide; [done|]. case_match; [done|].
    destruct (insert_token_stmt _ _ _ _ _ _ _) as [r tb2] eqn:Hi.
    apply insert_token_cases in Hi as [[-> [x ->]]|(-> & _ & _ & ->)]; [done|].
    intros [= _ <-]. intros t. simpl. rewrite lookup_insert_ne by done.
    rewrite lookup_update_where, Hp. simpl. rewrite bool_decide_eq_true_2 by done.
    intros [= <-]. left. unfold token_touch.
    destruct (bool_decide (p = _)); simpl; eauto. }
  assert (spent (ConsumeRefreshToken.PresentedHash i) (refresh_tokens (token_run l tb1))) as Hsp'.
  { clear -Hsp Hl. revert tb1 Hsp. induction Hl as [|co l Hco _ IH]; intros tb1 Hsp; [done|].
    simpl. apply IH. by apply token_exec_spent. }
  intros n cl d d' j Hj. unfold consume_tx. rewrite Hj.
  destruct (refresh_tokens _ !! _) as [t|] eqn:Ht; [|eauto].
  case_bool_decide as Hu; [eauto|]. destruct (Hsp' t Ht) as [?|Hr]; [done|].
  rewrite (bool_decide_eq_true_2 _ Hr). simpl. eauto.
Qed.
