(* ===== verification/Sessions.v ===== *)
(** * Login sessions, abstractly

    What the refresh-token table is for: a session is one string that can be
    exchanged, if the session still runs, and the strings exchanged before it.
    This file states that machine without rows, hashes' columns or timestamps,
    and shows that the table implements it: through any sequence of logins,
    exchanges, revocations and cleanups, the rows of each family are a session,
    every operation moves the sessions as the machine allows, and an exchange
    is granted, refused or answered as a replay exactly when the machine says. *)

From S2P Require Import Prelude GoStd Domain Database WebhookRepo SubscriptionRepo.
From S2P Require Import RefreshTokenRepo RefreshTokens.
Open Scope Z_scope.

(** ** The machine *)

Record Session := mkSession { s_current : option string; s_spent : gset string }.

(** No session of this family yet. *)
Definition no_session : Session := mkSession None ∅.

Definition close (s : Session) : Session := mkSession None (s_spent s).

(** Every family's session. *)
Definition Sessions := UUID → Session.

Definition put (f : UUID) (s : Session) (σ : Sessions) : Sessions :=
  λ g, if decide (g = f) then s else σ g.

#[export] Instance sessions_equiv : Equiv Sessions := pointwise_relation UUID (=).
#[export] Instance sessions_equivalence : Equivalence (≡@{Sessions}).
Proof. split; [by intros σ f|by intros σ τ Hs f|intros σ τ υ H1 H2 f; by rewrite (H1 f)]. Qed.

#[export] Instance put_proper f s : Proper ((≡) ==> (≡)) (put f s).
Proof. intros σ τ Hs g. unfold put. by case_decide. Qed.

(** What an exchange is answered. *)
Inductive Answer := Granted | Replay | Refused.

(** An exchange of [h] for [h']; [admissible] says whether the machine has
    reason to accept it if [h] is current. *)
Inductive exchange_step (admissible : Prop) (h h' : string) : Answer → Sessions → Sessions → Prop :=
  | exchange_granted f S σ σ' :
      admissible → σ f = mkSession (Some h) S →
      σ' ≡ put f (mkSession (Some h') ({[h]} ∪ S)) σ →
      exchange_step admissible h h' Granted σ σ'
  | exchange_replay f σ σ' :
      h ∈ s_spent (σ f) → σ' ≡ put f (close (σ f)) σ →
      exchange_step admissible h h' Replay σ σ'
  | exchange_refused σ σ' :
      (∀ f, h ∉ s_spent (σ f)) → (admissible → ∀ f, s_current (σ f) ≠ Some h) →
      σ' ≡ σ → exchange_step admissible h h' Refused σ σ'.

(** Forgetting removes expired strings and adds nothing. *)
Definition forgets (s s' : Session) : Prop :=
  (s_current s' = s_current s ∨ s_current s' = None) ∧ s_spent s' ⊆ s_spent s.

(** The strings of a session. *)
Definition in_session (h : string) (s : Session) : Prop := s_current s = Some h ∨ h ∈ s_spent s.
#[export] Instance in_session_dec h s : Decision (in_session h s).
Proof. unfold in_session. apply _. Defined.

(** ** The table as sessions *)

Section Abstraction.
Import RefreshToken.

Definition is_current (f : UUID) (kt : string * t) : Prop :=
  FamilyID kt.2 = f ∧ UsedAt kt.2 = None ∧ RevokedAt kt.2 = None.

Definition session_of (m : gmap string t) : Sessions := λ f,
  mkSession (fst <$> head (map_to_list (filter (is_current f) m)))
    (dom (filter (λ kt, FamilyID kt.2 = f ∧ is_Some (UsedAt kt.2)) m)).

(** The session of a family, row by row. *)
Definition represents (m : gmap string t) (f : UUID) (s : Session) : Prop :=
  (∀ h, s_current s = Some h ↔ ∃ t, m !! h = Some t ∧ FamilyID t = f ∧ live t) ∧
  (∀ h, h ∈ s_spent s ↔ ∃ t, m !! h = Some t ∧ FamilyID t = f ∧ is_Some (UsedAt t)).

Lemma represents_unique m f s s' : represents m f s → represents m f s' → s = s'.
Proof.
  destruct s as [c S], s' as [c' S']. intros [Hc HS] [Hc' HS']. simpl in *. f_equal.
  - apply option_eq. intros h. by rewrite Hc, Hc'.
  - apply set_eq. intros h. by rewrite HS, HS'.
Qed.

Lemma session_of_represents m f : tokens_ok m → represents m f (session_of m f).
Proof.
  intros Hok. split; intros h; simpl.
  - destruct (head _) as [[k t]|] eqn:Hh; simpl.
    + apply head_Some_elem_of, elem_of_map_to_list, map_lookup_filter_Some in Hh as [Ht (Hf & Hl)].
      split; [intros [= <-]; eauto|]. intros (t' & Ht' & Hf' & Hl'). f_equal.
      apply (tok_live m Hok k h t t'); [done|done| |done|done]. simpl in *. congruence.
    + apply head_None in Hh. split; [done|]. intros (t & Ht & Hf & Hl). exfalso.
      assert ((h, t) ∈ map_to_list (filter (is_current f) m)) as Hin
        by (apply elem_of_map_to_list, map_lookup_filter_Some; done).
      rewrite Hh in Hin. by apply elem_of_nil in Hin.
  - rewrite elem_of_dom. unfold is_Some at 1. setoid_rewrite map_lookup_filter_Some. naive_solver.
Qed.

(** To know the sessions of a table it is enough to represent them. *)
Lemma session_of_eq m f s : tokens_ok m → represents m f s → session_of m f = s.
Proof. intros Hok. apply represents_unique. by apply session_of_represents. Qed.
End Abstraction.

(** ** What statements do to a session *)

Create Rewrite HintDb token_row.

Section Effects.
Import RefreshToken.

Lemma token_touch_FamilyID n a b : FamilyID (token_touch n a b) = FamilyID b.
Proof. unfold token_touch. by case_bool_decide. Qed.
Lemma token_touch_UsedAt n a b : UsedAt (token_touch n a b) = UsedAt b.
Proof. unfold token_touch. by case_bool_decide. Qed.
Lemma token_touch_RevokedAt n a b : RevokedAt (token_touch n a b) = RevokedAt b.
Proof. unfold token_touch. by case_bool_decide. Qed.
#[local] Hint Rewrite token_touch_FamilyID token_touch_UsedAt token_touch_RevokedAt : token_row.

(** An UPDATE that keeps every row's family: the session afterwards, from the
    rows as they were. *)
Lemma represents_update (P : t → bool) (g : t → t) m f s :
  (∀ t, FamilyID (g t) = FamilyID t) →
  (∀ h, s_current s = Some h ↔
     ∃ t, m !! h = Some t ∧ FamilyID t = f ∧ live (if P t then g t else t)) →
  (∀ h, h ∈ s_spent s ↔
     ∃ t, m !! h = Some t ∧ FamilyID t = f ∧ is_Some (UsedAt (if P t then g t else t))) →
  represents (update_where P g m) f s.
Proof.
  intros Hfam Hc HS.
  assert (∀ (Q : t → Prop) h, (∃ t', update_where P g m !! h = Some t' ∧ FamilyID t' = f ∧ Q t') ↔
      ∃ t, m !! h = Some t ∧ FamilyID t = f ∧ Q (if P t then g t else t)) as Hrow.
  { intros Q h. rewrite lookup_update_where. split.
    - intros (t' & (t & Ht & ->)%fmap_Some & Hf & HQ). exists t. split_and!; [done| |done].
      revert Hf. case_match; [by rewrite Hfam|done].
    - intros (t & Ht & Hf & HQ). exists (if P t then g t else t). rewrite Ht.
      split_and!; [done| |done]. case_match; [by rewrite Hfam|done]. }
  split; intros h; rewrite Hrow; auto.
Qed.

Lemma represents_revoke now P reason c tb f s b :
  represents (refresh_tokens tb) f s →
  (∀ h t, refresh_tokens tb !! h = Some t → FamilyID t = f → live t → P t = b) →
  represents (refresh_tokens (revoke_stmt now P reason c tb).2) f (if b then close s else s).
Proof.
  intros Hrep HP. pose proof Hrep as [Hc HS].
  assert ((if b then close s else s) = mkSession (if b then None else s_current s) (s_spent s)) as ->
    by by destruct b, s.
  apply represents_update; [intros t; by autorewrite with token_row|..]; intros h; simpl.
  - assert (∀ t, live (if P t && bool_decide (RevokedAt t = None)
        then token_touch (c_now c) t (set_revoked now reason t) else t) ↔ live t ∧ P t = false) as Hl.
    { intros t. unfold live. destruct (P t); simpl; [|tauto].
      case_bool_decide as Hr; [|tauto]. autorewrite with token_row. simpl.
      split; [by intros [_ ?]|by intros [_ ?]]. }
    setoid_rewrite Hl. destruct b.
    + split; [done|]. intros (t & Ht & Hf & Hlt & Hfalse). by rewrite (HP h t) in Hfalse.
    + rewrite Hc. split; intros (t & Ht & Hf & Hlt); [eauto 6|]. exists t. tauto.
  - rewrite HS. assert (∀ t, UsedAt (if P t && bool_decide (RevokedAt t = None)
        then token_touch (c_now c) t (set_revoked now reason t) else t) = UsedAt t) as Hu
      by (intros t; case_match; [by autorewrite with token_row|done]).
    by setoid_rewrite Hu.
Qed.

(** The exchange marks the presented row, and no other. *)
Lemma represents_marked now c p m h f s :
  tokens_ok m → m !! h = Some p → live p → represents m f s →
  represents (marked now c p m) f
    (if decide (FamilyID p = f) then mkSession None ({[h]} ∪ s_spent s) else s).
Proof.
  intros Hok Hp Hl [Hc HS]. 
  assert (∀ k t, m !! k = Some t → ID t = ID p ↔ k = h) as Hid
    by (intros k t Ht; split; [by apply (tok_id m Hok k h t p)|congruence]).
  apply represents_update; [intros t; by autorewrite with token_row|..]; intros k.
  - transitivity (∃ t, m !! k = Some t ∧ FamilyID t = f ∧ live t ∧ k ≠ h).
    + destruct (decide (FamilyID p = f)) as [<-|Hne]; simpl.
      * split; [done|]. intros (t & Ht & Hf & Hlt & Hk). exfalso. by apply Hk, (tok_live m Hok k h t p).
      * rewrite Hc. split; [|naive_solver]. intros (t & Ht & Hf & Hlt). exists t.
        split_and!; [done..|]. intros ->. congruence.
    + split; intros (t & Ht & Hf & Hx); exists t; (split; [done|split; [done|]]);
        specialize (Hid k t Ht); revert Hx; case_bool_decide as Hd.
      * tauto.
      * tauto.
      * intros [Hx _]. by autorewrite with token_row in Hx.
      * tauto.
  - transitivity (∃ t, m !! k = Some t ∧ FamilyID t = f ∧ (is_Some (UsedAt t) ∨ k = h)).
    + destruct (decide (FamilyID p = f)) as [<-|Hne]; simpl.
      * rewrite elem_of_union, elem_of_singleton, HS. naive_solver.
      * rewrite HS. split; [naive_solver|]. intros (t & Ht & Hf & [?| ->]); [eauto|congruence].
    + split; intros (t & Ht & Hf & Hx); exists t; (split; [done|split; [done|]]);
        specialize (Hid k t Ht); revert Hx; case_bool_decide as Hd; [|tauto..|tauto].
      * intros _. autorewrite with token_row. simpl. eauto.
Qed.

Lemma represents_adds m m' new f s :
  adds m m' new → represents m f s → (FamilyID new = f → s_current s = None) →
  represents m' f (if decide (FamilyID new = f) then mkSession (Some (TokenHash new)) (s_spent s) else s).
Proof.
  intros (-> & Hh & _ & Hu & Hr) [Hc HS] Hno.
  split; intros k; setoid_rewrite lookup_insert_Some.
  - destruct (decide (FamilyID new = f)) as [<-|Hne]; simpl.
    + split; [intros [= <-]; exists new; unfold live; naive_solver|].
      intros (t & [[<- <-]|[Hk Ht]] & Hf & Hl); [done|]. exfalso.
      pose proof (proj2 (Hc k) (ex_intro _ t (conj Ht (conj Hf Hl)))) as E. by rewrite Hno in E.
    + rewrite Hc. split.
      * intros (t & Ht & Hf & Hl). exists t. split; [|done]. right. split; [congruence|done].
      * intros (t & [[<- <-]|[Hk Ht]] & Hf & Hl); [done|]. eauto.
  - assert (h_spent : k ∈ s_spent s ↔ ∃ t, (TokenHash new = k ∧ new = t ∨ TokenHash new ≠ k ∧ m !! k = Some t)
        ∧ FamilyID t = f ∧ is_Some (UsedAt t)).
    { rewrite HS. split.
      - intros (t & Ht & Hf & Hx). exists t. split; [|done]. right. split; [congruence|done].
      - intros (t & [[<- <-]|[Hk Ht]] & Hf & Hx); [|eauto]. rewrite Hu in Hx. by destruct Hx. }
    by destruct (decide (FamilyID new = f)).
Qed.

Lemma represents_subset m m' f s s' :
  m' ⊆ m → represents m f s → represents m' f s' → forgets s s'.
Proof.
  intros Hsub [Hc HS] [Hc' HS']. split.
  - destruct (s_current s') as [h|] eqn:Hs'; [left|by right]. symmetry. apply Hc.
    destruct (proj1 (Hc' h) eq_refl) as (t & Ht & Hf). exists t. split; [|done].
    by eapply lookup_weaken.
  - intros h (t & Ht & Hf)%HS'. apply HS. exists t. split; [|done]. by eapply lookup_weaken.
Qed.
End Effects.

(** ** An exchange *)

Definition answer_of {A} (r : result A) : Answer :=
  match r with
  | Ok _ => Granted
  | Err e => if errors_Is e ErrTokenReused then Replay else Refused
  end.

(** Nothing but the token's state stands in the way: the presented token has
    not expired, its user is there, and the successor is a new hash with an
    expiry ahead. *)
Record admissible (now clock : Time) (c' : Call) (i : ConsumeRefreshToken.t) (tb : Tables) : Prop := {
  adm_presented : ∀ p, refresh_tokens tb !! ConsumeRefreshToken.PresentedHash i = Some p →
    clock ≤ RefreshToken.ExpiresAt p ∧ is_Some (users tb !! RefreshToken.UserID p);
  adm_expiry : now < ConsumeRefreshToken.SuccessorExpiresAt i;
  adm_format : hash_format (ConsumeRefreshToken.SuccessorHash i) = true;
  adm_new : refresh_tokens tb !! ConsumeRefreshToken.SuccessorHash i = None;
  adm_uuid : ∀ k t, refresh_tokens tb !! k = Some t → RefreshToken.ID t ≠ c_uuid c';
}.

Section Exchange.
Import RefreshToken.

(** Two tables whose families are represented alike. *)
Lemma session_of_equiv m' (s : Sessions) :
  tokens_ok m' → (∀ f, represents m' f (s f)) → session_of m' ≡ s.
Proof. intros Hok Hrep f. by apply session_of_eq. Qed.

Lemma not_current m h p :
  tokens_ok m → m !! h = Some p → ¬ live p → ∀ f, s_current (session_of m f) ≠ Some h.
Proof.
  intros Hok Hp Hl f Hc. apply (session_of_represents m f Hok) in Hc as (t & Ht & _ & Hlt).
  by simplify_eq.
Qed.

Lemma not_spent m h :
  tokens_ok m → (∀ p, m !! h = Some p → UsedAt p = None) → ∀ f, h ∉ s_spent (session_of m f).
Proof.
  intros Hok Hp f (t & Ht & _ & [x Hx])%(session_of_represents m f Hok). by rewrite (Hp t Ht) in Hx.
Qed.

Lemma marked_uuid now c p tb x :
  existsb (λ kr, bool_decide (ID kr.2 = x)) (map_to_list (refresh_tokens (mark_used_stmt now (ID p) c tb).2))
    = false ↔ ∀ k t, refresh_tokens tb !! k = Some t → ID t ≠ x.
Proof.
  assert (∀ t, ID (if bool_decide (ID t = ID p) then token_touch (c_now c) t (set_UsedAt (Some now) t) else t)
    = ID t) as Hid by (intros t; unfold token_touch; by repeat case_match).
  rewrite <- not_true_iff_false, existsb_exists. simpl. split.
  - intros Hno k t Ht Hx. apply Hno. eexists (k, _).
    rewrite <- list_elem_of_In, elem_of_map_to_list, lookup_update_where, Ht.
    split; [done|]. apply bool_decide_eq_true. simpl. by rewrite Hid.
  - intros Hall ([k r] & Hin & Hx). apply bool_decide_eq_true in Hx. simpl in Hx.
    apply list_elem_of_In, elem_of_map_to_list in Hin. rewrite lookup_update_where in Hin.
    apply fmap_Some in Hin as (t & Ht & ->). apply (Hall k t Ht). by rewrite <- Hx, Hid.
Qed.

(** The successor's row is accepted exactly if the exchange is admissible. *)
Lemma successor_stored now clock c' i p c tb :
  refresh_tokens tb !! ConsumeRefreshToken.PresentedHash i = Some p → clock ≤ ExpiresAt p →
  (∃ s tb', insert_token_stmt now (UserID p) (ConsumeRefreshToken.SuccessorHash i) (FamilyID p)
     (ConsumeRefreshToken.SuccessorExpiresAt i) c' (mark_used_stmt now (ID p) c tb).2 = (POk s, tb'))
  ↔ admissible now clock c' i tb.
Proof.
  intros Hpres Hclock. unfold insert_token_stmt.
  destruct (first_violation _ _) as [v|] eqn:Hv.
  { split; [by intros (? & ? & ?)|]. intros [_ He Hf _ _].
    rewrite (proj2 (first_violation_None _ _)) in Hv; [done|].
    repeat constructor; simpl; [by apply Z.ltb_lt|done]. }
  apply first_violation_None in Hv. unfold token_constraints in Hv.
  rewrite !Forall_cons in Hv. simpl in Hv. destruct Hv as (He%Z.ltb_lt & _ & Hf & _).
  destruct (existsb _ _) eqn:Hex.
  { split; [by intros (? & ? & ?)|]. intros [_ _ _ _ Hu]. by rewrite (proj2 (marked_uuid _ _ _ _ _) Hu) in Hex. }
  pose proof (proj1 (marked_uuid _ _ _ _ _) Hex) as Hu. simpl. rewrite lookup_update_where.
  destruct (refresh_tokens tb !! ConsumeRefreshToken.SuccessorHash i) as [q|] eqn:Hn; simpl.
  { split; [by intros (? & ? & ?)|]. intros [_ _ _ Hx _]. congruence. }
  destruct (users tb !! UserID p) as [u|] eqn:Hus.
  - split; [|eauto]. intros _. split; [|done..]. intros p' Hp'. simplify_eq. eauto.
  - split; [by intros (? & ? & ?)|]. intros [Hx _ _ _ _]. destruct (Hx p Hpres) as [_ [? ?]]. congruence.
Qed.

Lemma revoke_family_sessions now g reason c tb :
  tokens_ok (refresh_tokens tb) →
  session_of (refresh_tokens (revoke_stmt now (same_family g) reason c tb).2) ≡
    put g (close (session_of (refresh_tokens tb) g)) (session_of (refresh_tokens tb)).
Proof.
  intros Hok. apply session_of_equiv; [by eapply shrinks_tokens_ok; [apply revoke_shrinks|]|].
  intros f. unfold put.
  pose proof (represents_revoke now (same_family g) reason c tb f _ (bool_decide (f = g))
    (session_of_represents _ f Hok)) as Hrep. case_decide as Hd; subst.
  - rewrite bool_decide_eq_true_2 in Hrep by done. apply Hrep. intros h t _ Hf _.
    unfold same_family. by rewrite Hf, bool_decide_eq_true_2.
  - rewrite bool_decide_eq_false_2 in Hrep by done. apply Hrep. intros h t _ Hf _.
    unfold same_family. by rewrite Hf, bool_decide_eq_false_2.
Qed.

Lemma exchange_sessions now c m m' h p new :
  tokens_ok m → m !! h = Some p → live p → adds (marked now c p m) m' new →
  FamilyID new = FamilyID p →
  session_of m (FamilyID p) = mkSession (Some h) (s_spent (session_of m (FamilyID p))) ∧
  session_of m' ≡ put (FamilyID p)
    (mkSession (Some (TokenHash new)) ({[h]} ∪ s_spent (session_of m (FamilyID p)))) (session_of m).
Proof.
  intros Hok Hp Hl Hadd Hf.
  pose proof (session_of_represents m (FamilyID p) Hok) as [Hc _]. split.
  { destruct (session_of m (FamilyID p)) as [cur S]. simpl in *. f_equal. apply Hc. eauto. }
  apply session_of_equiv.
  - eapply adds_tokens_ok; [done|eapply shrinks_tokens_ok; [apply marked_shrinks|done]|].
    intros k x Hx Hfx. eapply (marked_no_live _ _ p); [done..|congruence].
  - intros f. pose proof (represents_marked now c p m h f _ Hok Hp Hl (session_of_represents m f Hok)) as Hm.
    apply (represents_adds _ m' new) in Hm; [|done|by intros <-; rewrite decide_True].
    unfold put. rewrite Hf in Hm. case_decide as Hd; [subst; rewrite decide_True by done|rewrite decide_False by done]; done.
Qed.

(** A presented token is in one of three states, which decide the answer. *)
Lemma consume_refines now clock c c' i tb r tb' :
  tokens_ok (refresh_tokens tb) → consume_tx now clock c c' i tb = (r, tb') →
  exchange_step (admissible now clock c' i tb)
    (ConsumeRefreshToken.PresentedHash i) (ConsumeRefreshToken.SuccessorHash i) (answer_of r)
    (session_of (refresh_tokens tb)) (session_of (refresh_tokens tb')).
Proof.
  intros Hok. unfold consume_tx. destruct (refresh_tokens tb !! _) as [p|] eqn:Hp.
  2:{ intros [= <- <-]. simpl. constructor; [|intros _ f Hc|done].
      - apply not_spent; [done|]. intros p. by rewrite Hp.
      - apply (session_of_represents _ f Hok) in Hc as (t & Ht & _). congruence. }
  case_bool_decide as Hu.
  { intros [= <- <-]. apply (exchange_replay _ _ _ (FamilyID p)).
    - apply (session_of_represents _ _ Hok). eauto.
    - by apply (revoke_family_sessions now (FamilyID p) reuse_reason c tb). }
  assert (∀ f, ConsumeRefreshToken.PresentedHash i ∉ s_spent (session_of (refresh_tokens tb) f)) as Hns.
  { apply not_spent; [done|]. intros p'. rewrite Hp. intros [= <-]. by apply eq_None_not_Some. }
  destruct (_ || _) eqn:Hdead.
  { intros [= <- <-]. constructor; [done| |done]. intros Hadm. apply (not_current _ _ p Hok Hp).
    intros [_ Hr]. rewrite bool_decide_eq_false_2 in Hdead by (rewrite Hr; by intros [? ?]).
    destruct (adm_presented _ _ _ _ _ Hadm p Hp) as [Hx _]. unfold After in Hdead. simpl in Hdead. lia. }
  apply orb_false_iff in Hdead as [Hr%bool_decide_eq_false Hclock%Z.ltb_ge].
  pose proof (successor_stored now clock c' i p c tb Hp Hclock) as Hstored.
  destruct (insert_token_stmt _ _ _ _ _ _ _) as [x tb2] eqn:Hi.
  destruct x as [s|e]; intros [= <- <-].
  - assert (live p) as Hl by (split; by apply eq_None_not_Some).
    apply insert_token_cases in Hi as [[_ [x ?]]|([= ->] & Hh & Hid & ->)]; [done|].
    set (new := mk _ _ _ _ _ _ _ _ _ _ _) in *.
    destruct (exchange_sessions now c (refresh_tokens tb)
      (<[TokenHash new := new]> (marked now c p (refresh_tokens tb))) _ p new Hok Hp Hl)
      as [Hbefore Hafter]; [by split_and!|done|].
    eapply exchange_granted; [apply Hstored; eauto|exact Hbefore|exact Hafter].
  - unfold answer_of. rewrite mapError_not_reused. constructor; [done| |done]. intros Hadm.
    apply Hstored in Hadm as (? & ? & ?). done.
Qed.
End Exchange.

(** ** Every operation *)

(** The login's row is stored. *)
Definition stored (c : Call) (t : RefreshToken.t) (tb : Tables) : Prop :=
  ∃ row, (insert_token_stmt (c_now c) (RefreshToken.UserID t) (RefreshToken.TokenHash t)
    (RefreshToken.FamilyID t) (RefreshToken.ExpiresAt t) c tb).1 = POk row.

(** How each operation moves the sessions; [tb] is consulted for what the
    machine does not keep: expiries, users and ids. *)
Inductive sessions_step (c : Call) (tb : Tables) : token_op → Sessions → Sessions → Prop :=
  | step_opened t σ σ' :
      stored c t tb → σ (RefreshToken.FamilyID t) = no_session →
      σ' ≡ put (RefreshToken.FamilyID t) (mkSession (Some (RefreshToken.TokenHash t)) ∅) σ →
      sessions_step c tb (TCreate t) σ σ'
  | step_not_opened t σ σ' : ¬ stored c t tb → σ' ≡ σ → sessions_step c tb (TCreate t) σ σ'
  | step_exchange now clock c' i σ σ' :
      exchange_step (admissible now clock c' i tb)
        (ConsumeRefreshToken.PresentedHash i) (ConsumeRefreshToken.SuccessorHash i)
        (answer_of (consume_tx now clock c c' i tb).1) σ σ' →
      sessions_step c tb (TConsume now clock c' i) σ σ'
  | step_family_ended f reason σ σ' :
      σ' ≡ put f (close (σ f)) σ → sessions_step c tb (TRevokeFamily f reason) σ σ'
  | step_logout h reason f σ σ' :
      in_session h (σ f) → σ' ≡ put f (close (σ f)) σ → sessions_step c tb (TRevokeByToken h reason) σ σ'
  | step_logout_unknown h reason σ σ' :
      (∀ f, ¬ in_session h (σ f)) →
      (∀ f, σ' f = σ f ∨
         σ' f = close (σ f) ∧ ∃ t, refresh_tokens tb !! h = Some t ∧ RefreshToken.FamilyID t = f) →
      sessions_step c tb (TRevokeByToken h reason) σ σ'
  | step_user_out u reason σ σ' :
      (∀ f, σ' f = σ f ∨ σ' f = close (σ f)) →
      (∀ f h t, s_current (σ f) = Some h → refresh_tokens tb !! h = Some t →
         s_current (σ' f) = if bool_decide (RefreshToken.UserID t = u) then None else Some h) →
      sessions_step c tb (TRevokeUser u reason) σ σ'
  | step_forget grace limit σ σ' :
      (∀ f, forgets (σ f) (σ' f)) → sessions_step c tb (TDelete grace limit) σ σ'.

(** The table's sessions after each operation of a sequence. *)
Fixpoint simulates (l : list (Call * token_op)) (tb : Tables) : Prop :=
  match l with
  | [] => True
  | (c, o) :: l' =>
      sessions_step c tb o (session_of (refresh_tokens tb)) (session_of (refresh_tokens (token_exec c o tb)))
      ∧ simulates l' (token_exec c o tb)
  end.

Section Refinement.
Import RefreshToken.

(** One row decides whether a revocation ends the session. *)
Lemma revoke_sessions now P reason c tb :
  tokens_ok (refresh_tokens tb) →
  let σ := session_of (refresh_tokens tb) in
  let σ' := session_of (refresh_tokens (revoke_stmt now P reason c tb).2) in
  ∀ f, match s_current (σ f) with
       | Some h => ∃ t, refresh_tokens tb !! h = Some t ∧ FamilyID t = f ∧
                     σ' f = if P t then close (σ f) else σ f
       | None => σ' f = σ f
       end.
Proof.
  intros Hok σ σ' f. unfold σ, σ'.
  pose proof (session_of_represents _ f Hok) as Hrep. pose proof Hrep as [Hc _].
  assert (tokens_ok (refresh_tokens (revoke_stmt now P reason c tb).2)) as Hok'
    by (eapply shrinks_tokens_ok; [apply revoke_shrinks|done]).
  destruct (s_current (session_of (refresh_tokens tb) f)) as [h|] eqn:Hcur.
  - destruct (proj1 (Hc h) eq_refl) as (t & Ht & Hf & Hl). exists t. split_and!; [done..|].
    apply session_of_eq; [done|]. apply represents_revoke; [done|]. intros h' t' Ht' Hf' Hl'.
    assert (h' = h) as -> by (apply (tok_live _ Hok h' h t' t); congruence). congruence.
  - apply session_of_eq; [done|]. apply (represents_revoke now P reason c tb f _ false); [done|].
    intros h' t' Ht' Hf' Hl'.
    by pose proof (proj2 (Hc h') (ex_intro _ t' (conj Ht' (conj Hf' Hl')))).
Qed.

Lemma revoke_closes now P reason c tb f :
  tokens_ok (refresh_tokens tb) →
  let σ := session_of (refresh_tokens tb) in
  let σ' := session_of (refresh_tokens (revoke_stmt now P reason c tb).2) in
  σ' f = σ f ∨ σ' f = close (σ f).
Proof.
  intros Hok. pose proof (revoke_sessions now P reason c tb Hok f) as Hf. cbv zeta in *.
  destruct (s_current _); [|by left]. destruct Hf as (t & _ & _ & ->). case_match; auto.
Qed.

(** A login into a new family. *)
Lemma create_sessions c t tb :
  tokens_ok (refresh_tokens tb) → fresh_family (c, TCreate t) tb →
  let σ := session_of (refresh_tokens tb) in
  let σ' := session_of (refresh_tokens (token_exec c (TCreate t) tb)) in
  σ (FamilyID t) = no_session ∧
  (¬ stored c t tb ∧ σ' ≡ σ ∨
   stored c t tb ∧ σ' ≡ put (FamilyID t) (mkSession (Some (TokenHash t)) ∅) σ).
Proof.
  intros Hok Hfr σ σ'. pose proof (token_exec_ok (c, TCreate t) tb Hok Hfr) as Hok'.
  assert (σ (FamilyID t) = no_session) as Hno.
  { apply session_of_eq; [done|]. split; intros h; simpl; (split; [done|]);
      intros (x & Hx & Hf & _); by destruct (Hfr h x Hx). }
  split; [done|]. unfold σ', stored. simpl in *.
  destruct (insert_token_stmt _ _ _ _ _ _ _) as [r tb'] eqn:Hi. simpl in *.
  apply insert_token_cases in Hi as [[-> [x ->]]|(-> & Hh & Hid & ->)];
    [left; split; [by intros [? ?]|done]|right; split; [eauto|]].
  set (new := mk _ _ _ _ _ _ _ _ _ _ _) in *. apply session_of_equiv; [done|]. intros f.
  pose proof (represents_adds (refresh_tokens tb) (<[TokenHash t := new]> (refresh_tokens tb)) new f
    (σ f) ltac:(by split_and!) (session_of_represents _ f Hok)) as Hrep.
  change (FamilyID new) with (FamilyID t) in Hrep. change (TokenHash new) with (TokenHash t) in Hrep.
  unfold put. destruct (decide (f = FamilyID t)) as [->|Hne].
  - rewrite Hno, decide_True in Hrep by done. by apply Hrep.
  - rewrite decide_False in Hrep by done. apply Hrep. by intros <-.
Qed.

Lemma in_session_row m f h :
  tokens_ok m → in_session h (session_of m f) → ∃ t, m !! h = Some t ∧ FamilyID t = f.
Proof.
  intros Hok. pose proof (session_of_represents m f Hok) as [Hc HS].
  intros [(t & ? & ? & _)%Hc|(t & ? & ? & _)%HS]; eauto.
Qed.

Lemma logout_sessions c h reason tb :
  tokens_ok (refresh_tokens tb) →
  sessions_step c tb (TRevokeByToken h reason) (session_of (refresh_tokens tb))
    (session_of (refresh_tokens (token_exec c (TRevokeByToken h reason) tb))).
Proof.
  intros Hok. cbn [token_exec]. destruct (refresh_tokens tb !! h) as [p|] eqn:Hp.
  - assert (in_family_of h tb = same_family (FamilyID p)) as ->
      by (unfold in_family_of, same_family; by rewrite Hp).
    pose proof (revoke_family_sessions (c_now c) (FamilyID p) (truncate reason) c tb Hok) as Hput.
    destruct (decide (in_session h (session_of (refresh_tokens tb) (FamilyID p)))) as [Hin|Hout].
    + by eapply step_logout.
    + apply step_logout_unknown.
      * intros f Hin. apply Hout. assert (FamilyID p = f) as ->; [|done].
        destruct (in_session_row _ _ _ Hok Hin) as (t & Ht & Hf). congruence.
      * intros f. rewrite (Hput f). unfold put. case_decide; subst; eauto.
  - apply step_logout_unknown.
    + intros f Hin. destruct (in_session_row _ _ _ Hok Hin) as (t & Ht & _). congruence.
    + intros f. left. apply session_of_eq; [by eapply shrinks_tokens_ok; [apply revoke_shrinks|]|].
      apply (represents_revoke _ _ _ _ _ f _ false); [by apply session_of_represents|].
      intros h' t' _ _ _. unfold in_family_of. by rewrite Hp.
Qed.

Lemma token_exec_refines c o tb :
  tokens_ok (refresh_tokens tb) → fresh_family (c, o) tb →
  sessions_step c tb o (session_of (refresh_tokens tb)) (session_of (refresh_tokens (token_exec c o tb))).
Proof.
  intros Hok Hfr. destruct o as [t|now clock c' i|f reason|h reason|u reason|grace limit].
  - destruct (create_sessions c t tb Hok Hfr) as [Hno [[? Hs]|[? Hs]]]; [by apply step_not_opened|by apply step_opened].
  - apply step_exchange. simpl. destruct (consume_tx now clock c c' i tb) as [r tb'] eqn:Hc.
    by apply (consume_refines _ _ c).
  - apply step_family_ended. by apply revoke_family_sessions.
  - by apply logout_sessions.
  - apply step_user_out; [intros f; by apply revoke_closes|]. intros f h t Hcur Ht.
    pose proof (revoke_sessions (c_now c) (λ t, bool_decide (UserID t = u)) (truncate reason) c tb Hok f) as Hf.
    cbv zeta in Hf. rewrite Hcur in Hf. destruct Hf as (t' & Ht' & _ & Hf).
    change (token_exec c _ tb) with (revoke_stmt (c_now c) (λ t, bool_decide (UserID t = u))
      (truncate reason) c tb).2. rewrite Hf. simplify_eq. by case_bool_decide.
  - apply step_forget. intros f.
    pose proof (token_exec_ok (c, TDelete grace limit) tb Hok Hfr) as Hok'.
    eapply represents_subset; [|by apply session_of_represents..].
    simpl. unfold delete_expired_stmt. case_match; [done|]. simpl. apply map_filter_subseteq.
Qed.

(** C7: the table of refresh tokens implements sessions.  From any well-formed
    table, through any sequence of logins into new families, exchanges,
    revocations and cleanups, the rows of each family are one session: at most
    one current string, and the strings exchanged before.  A login opens a
    session; an exchange is granted exactly when the string is current and
    nothing else is wrong with it, and replaces it; a string exchanged before
    is answered as a replay and closes its session; a logout closes the session
    of the string presented; a cleanup only forgets.  No operation touches a
    session it does not name. *)
Theorem table_refines_sessions l tb :
  tokens_ok (refresh_tokens tb) → fresh_families l tb → simulates l tb.
Proof.
  revert tb. induction l as [|[c o] l IH]; intros tb Hok Hfr; [done|]. destruct Hfr as [Hf Hfr].
  split; [by apply token_exec_refines|]. apply IH; [|done]. by apply (token_exec_ok (c, o)).
Qed.
End Refinement.
