(* ===== verification/Columns.v ===== *)
(** * The SQL of the repositories, column by column

    The text of each statement says which column gets which parameter, and the
    [scan] functions say which field gets which column; both go by position.
    Here rows are lists of named columns, an INSERT or UPDATE is its column list
    with its expressions and its arguments in order, and scanning is positional.
    Shown: each statement, run on the columns of a row and scanned back, is the
    function on entities the other files use. *)

From S2P Require Import Prelude GoStd Domain Database WebhookRepo SubscriptionRepo UserRepo RefreshTokenRepo.
Open Scope Z_scope.

(** ** Cells and expressions *)

Inductive Cell :=
  | CNull | CUuid (u : UUID) | CText (s : string) | CInt (z : Z) | CBool (b : bool) | CTime (t : Time)
  | CMeta (m : gmap string string) | CJson (j : json).

(** A row, and the columns of a table in the order of its definition. *)
Definition SqlRow : Type := list (string * Cell).

Inductive Expr :=
  | Param (n : nat)                    (* $n, from 1 *)
  | Lit (x : Cell)
  | Column (c : string)
  | Coalesce (a b : Expr)
  | Increment (c : string)             (* c + 1 *)
  | Now | FreshUuid
  | Apply (f : Cell → Cell) (e : Expr). (* a function of jsonb *)

(** What a list of named things has under a name. *)
Fixpoint named {A} (k : string) (l : list (string * A)) : option A :=
  match l with [] => None | (k', a) :: l' => if String.eqb k k' then Some a else named k l' end.

Definition coalesce_cell (a b : Cell) : Cell := match a with CNull => b | _ => a end.

Definition col (r : SqlRow) (c : string) : Cell := default CNull (named c r).

Fixpoint eval (c : Call) (params : list Cell) (r : SqlRow) (e : Expr) : Cell :=
  match e with
  | Param n => nth (n - 1) params CNull
  | Lit x => x
  | Column k => col r k
  | Coalesce a b => coalesce_cell (eval c params r a) (eval c params r b)
  | Increment k => match col r k with CInt z => CInt (z + 1) | _ => CNull end
  | Now => CTime (c_now c)
  | FreshUuid => CUuid (c_uuid c)
  | Apply f a => f (eval c params r a)
  end.

(** A table: its columns with their defaults. *)
Definition Table := list (string * Expr).

(** [INSERT INTO table (columns) VALUES (values)]. *)
Definition insert_row (t : Table) (columns : list string) (values : list Expr) (params : list Cell)
    (c : Call) : SqlRow :=
  (λ cd, (cd.1, eval c params [] (default cd.2 (named cd.1 (zip columns values))))) <$> t.

(** [UPDATE table SET sets], on one row: every expression sees the old row. *)
Definition update_row (sets : list (string * Expr)) (params : list Cell) (c : Call) (r : SqlRow) : SqlRow :=
  (λ cv, (cv.1, match named cv.1 sets with Some e => eval c params r e | None => cv.2 end)) <$> r.

(** [SELECT columns] and [RETURNING columns]. *)
Definition select (columns : list string) (r : SqlRow) : list Cell := col r <$> columns.

(** ** Scanning

    A destination takes cells of its type; only a pointer takes NULL. *)

Definition scan_uuid (x : Cell) : option UUID := match x with CUuid u => Some u | _ => None end.
Definition scan_text (x : Cell) : option string := match x with CText s => Some s | _ => None end.
Definition scan_int (x : Cell) : option Z := match x with CInt z => Some z | _ => None end.
Definition scan_bool (x : Cell) : option bool := match x with CBool b => Some b | _ => None end.
Definition scan_time (x : Cell) : option Time := match x with CTime t => Some t | _ => None end.
Definition scan_meta (x : Cell) : option (gmap string string) :=
  match x with CMeta m => Some m | CNull => Some ∅ | _ => None end.
Definition scan_raw `{Postgres} (x : Cell) : option string :=
  match x with CJson j => Some (jsonb_out j) | CNull => Some "" | _ => None end.
Definition nullable {A} (scan : Cell → option A) (x : Cell) : option (option A) :=
  match x with CNull => Some None | _ => Some <$> scan x end.

(** An argument that is a pointer; [metadata] of an entity without any is nil. *)
Definition opt_cell {A} (f : A → Cell) (o : option A) : Cell := match o with Some a => f a | None => CNull end.
Definition meta_arg (m : gmap string string) : Cell := if bool_decide (m = ∅) then CNull else CMeta m.

Definition empty_meta : Expr := Lit (CMeta ∅).

(** *** What the cells of a row carry *)

Lemma nullable_text o : nullable scan_text (opt_cell CText o) = Some o.
Proof. by destruct o. Qed.
Lemma nullable_int o : nullable scan_int (opt_cell CInt o) = Some o.
Proof. by destruct o. Qed.
Lemma nullable_time o : nullable scan_time (opt_cell CTime o) = Some o.
Proof. by destruct o. Qed.

Section Coalesce.
Context {A} (f : A → Cell) (Hf : ∀ a, f a ≠ CNull).

Lemma coalesce_opt a b : coalesce_cell (opt_cell f a) (opt_cell f b) = opt_cell f (coalesce a b).
Proof. destruct a as [a|]; [|done]. simpl. specialize (Hf a). by destruct (f a). Qed.

Lemma coalesce_nn_cell a b : coalesce_cell (opt_cell f a) (f b) = f (coalesce_nn a b).
Proof. destruct a as [a|]; [|done]. simpl. specialize (Hf a). by destruct (f a). Qed.
End Coalesce.

Lemma coalesce_text a b : coalesce_cell (opt_cell CText a) (opt_cell CText b) = opt_cell CText (coalesce a b).
Proof. by apply coalesce_opt. Qed.
Lemma coalesce_time a b : coalesce_cell (opt_cell CTime a) (opt_cell CTime b) = opt_cell CTime (coalesce a b).
Proof. by apply coalesce_opt. Qed.
Lemma coalesce_nn_text a b : coalesce_cell (opt_cell CText a) (CText b) = CText (coalesce_nn a b).
Proof. by apply coalesce_nn_cell. Qed.
Lemma coalesce_nn_time a b : coalesce_cell (opt_cell CTime a) (CTime b) = CTime (coalesce_nn a b).
Proof. by apply coalesce_nn_cell. Qed.
Lemma coalesce_nn_int a b : coalesce_cell (opt_cell CInt a) (CInt b) = CInt (coalesce_nn a b).
Proof. by apply coalesce_nn_cell. Qed.
Lemma coalesce_nn_bool a b : coalesce_cell (opt_cell CBool a) (CBool b) = CBool (coalesce_nn a b).
Proof. by apply coalesce_nn_cell. Qed.

Lemma coalesce_meta m : coalesce_cell (meta_arg m) (CMeta ∅) = CMeta m.
Proof. unfold meta_arg. case_bool_decide as Hm; [by subst|done]. Qed.

Create Rewrite HintDb columns.
#[export] Hint Rewrite nullable_text nullable_int nullable_time coalesce_text coalesce_time coalesce_nn_text
  coalesce_nn_time coalesce_nn_int coalesce_nn_bool coalesce_meta : columns.

(** A statement on concrete columns: run it, then read the cells. *)
Ltac columns :=
  intros; cbn -[coalesce_cell opt_cell nullable coalesce coalesce_nn meta_arg nullIfEmpty truncate derefOr Z.add];
  autorewrite with columns; cbn -[coalesce coalesce_nn nullIfEmpty truncate derefOr Z.add]; reflexivity.

(** ** subscriptions *)

Section Subscriptions.
Import Subscription.

(** Migrations 2 and 4. *)
Definition subscriptions_table : Table := [
  ("id", FreshUuid); ("user_id", Lit CNull); ("stripe_subscription_id", Lit CNull);
  ("stripe_customer_id", Lit CNull); ("stripe_price_id", Lit CNull); ("stripe_product_id", Lit CNull);
  ("status", Lit CNull); ("quantity", Lit (CInt 1)); ("currency", Lit CNull); ("unit_amount", Lit CNull);
  ("current_period_start", Lit CNull); ("current_period_end", Lit CNull);
  ("cancel_at_period_end", Lit (CBool false)); ("cancel_at", Lit CNull); ("canceled_at", Lit CNull);
  ("ended_at", Lit CNull); ("trial_start", Lit CNull); ("trial_end", Lit CNull);
  ("latest_invoice_id", Lit CNull); ("default_payment_method_id", Lit CNull);
  ("last_stripe_event_id", Lit CNull); ("last_stripe_event_at", Lit CNull); ("metadata", empty_meta);
  ("created_at", Now); ("updated_at", Now);
  ("payment_failed_at", Lit CNull); ("payment_failure_count", Lit (CInt 0)); ("last_payment_error", Lit CNull);
  ("next_payment_attempt_at", Lit CNull); ("last_invoice_event_id", Lit CNull);
  ("last_invoice_event_at", Lit CNull)].

(** The columns of a stored row. *)
Definition subscription_row (s : t) : SqlRow := [
  ("id", CUuid (ID s)); ("user_id", CUuid (UserID s));
  ("stripe_subscription_id", CText (StripeSubscriptionID s)); ("stripe_customer_id", CText (StripeCustomerID s));
  ("stripe_price_id", CText (StripePriceID s)); ("stripe_product_id", opt_cell CText (StripeProductID s));
  ("status", CText (Status s)); ("quantity", CInt (Quantity s)); ("currency", opt_cell CText (Currency s));
  ("unit_amount", opt_cell CInt (UnitAmount s)); ("current_period_start", CTime (CurrentPeriodStart s));
  ("current_period_end", CTime (CurrentPeriodEnd s)); ("cancel_at_period_end", CBool (CancelAtPeriodEnd s));
  ("cancel_at", opt_cell CTime (CancelAt s)); ("canceled_at", opt_cell CTime (CanceledAt s));
  ("ended_at", opt_cell CTime (EndedAt s)); ("trial_start", opt_cell CTime (TrialStart s));
  ("trial_end", opt_cell CTime (TrialEnd s)); ("latest_invoice_id", opt_cell CText (LatestInvoiceID s));
  ("default_payment_method_id", opt_cell CText (DefaultPaymentMethodID s));
  ("last_stripe_event_id", opt_cell CText (LastStripeEventID s));
  ("last_stripe_event_at", opt_cell CTime (LastStripeEventAt s)); ("metadata", CMeta (Metadata s));
  ("created_at", CTime (CreatedAt s)); ("updated_at", CTime (UpdatedAt s));
  ("payment_failed_at", opt_cell CTime (PaymentFailedAt s));
  ("payment_failure_count", CInt (PaymentFailureCount s));
  ("last_payment_error", opt_cell CText (LastPaymentError s));
  ("next_payment_attempt_at", opt_cell CTime (NextPaymentAttemptAt s));
  ("last_invoice_event_id", opt_cell CText (LastInvoiceEventID s));
  ("last_invoice_event_at", opt_cell CTime (LastInvoiceEventAt s))].

Definition subscriptionColumns : list string := [
  "id"; "user_id"; "stripe_subscription_id"; "stripe_customer_id"; "stripe_price_id";
  "stripe_product_id"; "status"; "quantity"; "currency"; "unit_amount";
  "current_period_start"; "current_period_end"; "cancel_at_period_end"; "cancel_at";
  "canceled_at"; "ended_at"; "trial_start"; "trial_end"; "latest_invoice_id";
  "default_payment_method_id"; "last_stripe_event_id"; "last_stripe_event_at";
  "payment_failed_at"; "payment_failure_count"; "last_payment_error";
  "next_payment_attempt_at"; "last_invoice_event_id"; "last_invoice_event_at";
  "metadata"; "created_at"; "updated_at"].

(** The destinations of [Scan], in its order. *)
Definition scanSubscription (cells : list Cell) : option t :=
  match cells with
  | [x1; x2; x3; x4; x5; x6; x7; x8; x9; x10; x11; x12; x13; x14; x15; x16; x17; x18; x19; x20; x21; x22; x23;
     x24; x25; x26; x27; x28; x29; x30; x31] =>
    id ← scan_uuid x1; user ← scan_uuid x2; sid ← scan_text x3; cus ← scan_text x4; price ← scan_text x5;
    product ← nullable scan_text x6; status ← scan_text x7; quantity ← scan_int x8;
    currency ← nullable scan_text x9; amount ← nullable scan_int x10; pstart ← scan_time x11;
    pend ← scan_time x12; at_end ← scan_bool x13; cancel ← nullable scan_time x14;
    canceled ← nullable scan_time x15; ended ← nullable scan_time x16; tstart ← nullable scan_time x17;
    tend ← nullable scan_time x18; invoice ← nullable scan_text x19; method ← nullable scan_text x20;
    event ← nullable scan_text x21; event_at ← nullable scan_time x22; failed_at ← nullable scan_time x23;
    failures ← scan_int x24; error ← nullable scan_text x25; next ← nullable scan_time x26;
    inv_event ← nullable scan_text x27; inv_at ← nullable scan_time x28; meta ← scan_meta x29;
    created ← scan_time x30; updated ← scan_time x31;
    Some (mk id user sid cus price product status quantity currency amount pstart pend at_end cancel canceled
            ended tstart tend invoice method failed_at failures error next inv_event inv_at event event_at meta
            created updated)
  | _ => None
  end.

(** [INSERT INTO subscriptions], its values and its arguments. *)
Definition create_columns : list string := [
  "user_id"; "stripe_subscription_id"; "stripe_customer_id"; "stripe_price_id";
  "stripe_product_id"; "status"; "quantity"; "currency"; "unit_amount";
  "current_period_start"; "current_period_end"; "cancel_at_period_end";
  "cancel_at"; "canceled_at"; "ended_at"; "trial_start"; "trial_end";
  "latest_invoice_id"; "default_payment_method_id";
  "last_stripe_event_id"; "last_stripe_event_at"; "metadata"].
Definition create_values : list Expr :=
  (Param <$> seq 1 21) ++ [Coalesce (Param 22) empty_meta].
Definition create_args (s : t) : list Cell := [
  CUuid (UserID s); CText (StripeSubscriptionID s); CText (StripeCustomerID s); CText (StripePriceID s);
  opt_cell CText (StripeProductID s); CText (Status s); CInt (Quantity s); opt_cell CText (Currency s);
  opt_cell CInt (UnitAmount s);
  CTime (CurrentPeriodStart s); CTime (CurrentPeriodEnd s); CBool (CancelAtPeriodEnd s);
  opt_cell CTime (CancelAt s); opt_cell CTime (CanceledAt s); opt_cell CTime (EndedAt s);
  opt_cell CTime (TrialStart s); opt_cell CTime (TrialEnd s);
  opt_cell CText (LatestInvoiceID s); opt_cell CText (DefaultPaymentMethodID s);
  opt_cell CText (LastStripeEventID s); opt_cell CTime (LastStripeEventAt s); meta_arg (Metadata s)].

(** [UpdateSubscriptionStatus]. *)
Definition status_sets : list (string * Expr) := [
  ("status", Param 2);
  ("current_period_start", Coalesce (Param 3) (Column "current_period_start"));
  ("current_period_end", Coalesce (Param 4) (Column "current_period_end"));
  ("cancel_at_period_end", Coalesce (Param 5) (Column "cancel_at_period_end"));
  ("cancel_at", Coalesce (Param 6) (Column "cancel_at"));
  ("canceled_at", Coalesce (Param 7) (Column "canceled_at"));
  ("ended_at", Coalesce (Param 8) (Column "ended_at"));
  ("trial_end", Coalesce (Param 9) (Column "trial_end"));
  ("stripe_price_id", Coalesce (Param 10) (Column "stripe_price_id"));
  ("quantity", Coalesce (Param 11) (Column "quantity"));
  ("latest_invoice_id", Coalesce (Param 12) (Column "latest_invoice_id"));
  ("default_payment_method_id", Coalesce (Param 13) (Column "default_payment_method_id"));
  ("last_stripe_event_id", Param 14);
  ("last_stripe_event_at", Param 15)].
Definition status_args (i : SubscriptionStatusUpdate.t) : list Cell := [
  CText (SubscriptionStatusUpdate.StripeSubscriptionID i); CText (SubscriptionStatusUpdate.Status i);
  opt_cell CTime (SubscriptionStatusUpdate.CurrentPeriodStart i);
  opt_cell CTime (SubscriptionStatusUpdate.CurrentPeriodEnd i);
  opt_cell CBool (SubscriptionStatusUpdate.CancelAtPeriodEnd i);
  opt_cell CTime (SubscriptionStatusUpdate.CancelAt i); opt_cell CTime (SubscriptionStatusUpdate.CanceledAt i);
  opt_cell CTime (SubscriptionStatusUpdate.EndedAt i); opt_cell CTime (SubscriptionStatusUpdate.TrialEnd i);
  opt_cell CText (SubscriptionStatusUpdate.StripePriceID i); opt_cell CInt (SubscriptionStatusUpdate.Quantity i);
  opt_cell CText (SubscriptionStatusUpdate.LatestInvoiceID i);
  opt_cell CText (SubscriptionStatusUpdate.DefaultPaymentMethodID i);
  opt_cell CText (nullIfEmpty (SubscriptionStatusUpdate.EventID i));
  CTime (SubscriptionStatusUpdate.EventCreatedAt i)].

(** [RecordInvoicePayment]. *)
Definition successQuery : list (string * Expr) := [
  ("latest_invoice_id", Coalesce (Param 2) (Column "latest_invoice_id"));
  ("current_period_start", Coalesce (Param 3) (Column "current_period_start"));
  ("current_period_end", Coalesce (Param 4) (Column "current_period_end"));
  ("payment_failed_at", Lit CNull);
  ("payment_failure_count", Lit (CInt 0));
  ("last_payment_error", Lit CNull);
  ("next_payment_attempt_at", Lit CNull);
  ("last_invoice_event_id", Param 5);
  ("last_invoice_event_at", Param 6)].
Definition success_args (i : InvoicePaymentUpdate.t) : list Cell := [
  CText (InvoicePaymentUpdate.StripeSubscriptionID i); opt_cell CText (InvoicePaymentUpdate.InvoiceID i);
  opt_cell CTime (InvoicePaymentUpdate.CurrentPeriodStart i);
  opt_cell CTime (InvoicePaymentUpdate.CurrentPeriodEnd i);
  opt_cell CText (nullIfEmpty (InvoicePaymentUpdate.EventID i));
  CTime (InvoicePaymentUpdate.EventCreatedAt i)].

Definition failureQuery : list (string * Expr) := [
  ("latest_invoice_id", Coalesce (Param 2) (Column "latest_invoice_id"));
  ("payment_failed_at", Param 3);
  ("payment_failure_count", Increment "payment_failure_count");
  ("last_payment_error", Param 4);
  ("next_payment_attempt_at", Param 5);
  ("last_invoice_event_id", Param 6);
  ("last_invoice_event_at", Param 7)].
Definition failure_args (i : InvoicePaymentUpdate.t) : list Cell := [
  CText (InvoicePaymentUpdate.StripeSubscriptionID i); opt_cell CText (InvoicePaymentUpdate.InvoiceID i);
  CTime (InvoicePaymentUpdate.EventCreatedAt i);
  CText (truncate (derefOr (InvoicePaymentUpdate.FailureReason i) "payment failed"));
  opt_cell CTime (InvoicePaymentUpdate.NextAttemptAt i);
  opt_cell CText (nullIfEmpty (InvoicePaymentUpdate.EventID i));
  CTime (InvoicePaymentUpdate.EventCreatedAt i)].

(** What [scanSubscription] reads from a row. *)
Definition read_subscription (r : SqlRow) : option t := scanSubscription (select subscriptionColumns r).

(** C25: the subscription statements, taken column by column, do what the
    repository model says. A stored row is read back into the same entity; an
    INSERT stores the entity under a fresh id with the dunning columns at their
    defaults; and the status update, the paid-invoice update and the
    failed-invoice update each change the row exactly as [apply_status],
    [apply_success] and [apply_failure] do: no column gets another's
    parameter, and no field another's column. *)
Theorem subscription_sql (c : Call) (s : t) (i : SubscriptionStatusUpdate.t) (p : InvoicePaymentUpdate.t) :
  read_subscription (subscription_row s) = Some s ∧
  read_subscription (insert_row subscriptions_table create_columns create_values (create_args s) c)
    = Some (inserted_row c s) ∧
  read_subscription (update_row status_sets (status_args i) c (subscription_row s)) = Some (apply_status i s) ∧
  read_subscription (update_row successQuery (success_args p) c (subscription_row s))
    = Some (apply_success p s) ∧
  read_subscription (update_row failureQuery (failure_args p) c (subscription_row s))
    = Some (apply_failure p s).
Proof. destruct s, i, p. repeat split; columns. Qed.
End Subscriptions.

(** ** users *)

Section Users.
Import User.

(** Migration 1. *)
Definition users_table : Table := [
  ("id", FreshUuid); ("email", Lit CNull); ("email_verified_at", Lit CNull); ("password_hash", Lit CNull);
  ("full_name", Lit CNull); ("stripe_customer_id", Lit CNull); ("metadata", empty_meta);
  ("created_at", Now); ("updated_at", Now); ("deleted_at", Lit CNull)].

Definition user_row (u : t) : SqlRow := [
  ("id", CUuid (ID u)); ("email", CText (Email u)); ("email_verified_at", opt_cell CTime (EmailVerifiedAt u));
  ("password_hash", opt_cell CText (PasswordHash u)); ("full_name", opt_cell CText (FullName u));
  ("stripe_customer_id", opt_cell CText (StripeCustomerID u)); ("metadata", CMeta (Metadata u));
  ("created_at", CTime (CreatedAt u)); ("updated_at", CTime (UpdatedAt u));
  ("deleted_at", opt_cell CTime (DeletedAt u))].

Definition userColumns : list string := [
  "id"; "email"; "email_verified_at"; "password_hash"; "full_name";
  "stripe_customer_id"; "metadata"; "created_at"; "updated_at"; "deleted_at"].

Definition scanUser (cells : list Cell) : option t :=
  match cells with
  | [x1; x2; x3; x4; x5; x6; x7; x8; x9; x10] =>
    id ← scan_uuid x1; email ← scan_text x2; verified ← nullable scan_time x3;
    hash ← nullable scan_text x4; name ← nullable scan_text x5; cus ← nullable scan_text x6;
    meta ← scan_meta x7; created ← scan_time x8; updated ← scan_time x9; deleted ← nullable scan_time x10;
    Some (mk id email verified hash name cus meta created updated deleted)
  | _ => None
  end.

(** [CreateUser]. *)
Definition create_user_columns : list string :=
  ["email"; "email_verified_at"; "password_hash"; "full_name"; "stripe_customer_id"; "metadata"].
Definition create_user_values : list Expr :=
  [Param 1; Param 2; Param 3; Param 4; Param 5; Coalesce (Param 6) empty_meta].
Definition create_user_args (u : t) : list Cell := [
  CText (Email u); opt_cell CTime (EmailVerifiedAt u); opt_cell CText (PasswordHash u);
  opt_cell CText (FullName u); opt_cell CText (StripeCustomerID u); meta_arg (Metadata u)].

(** [UpdateUser]. *)
Definition update_user_sets : list (string * Expr) := [
  ("email", Param 2); ("email_verified_at", Param 3); ("password_hash", Param 4); ("full_name", Param 5);
  ("stripe_customer_id", Param 6); ("metadata", Coalesce (Param 7) empty_meta)].
Definition update_user_args (u : t) : list Cell := [
  CUuid (ID u); CText (Email u); opt_cell CTime (EmailVerifiedAt u); opt_cell CText (PasswordHash u);
  opt_cell CText (FullName u); opt_cell CText (StripeCustomerID u); meta_arg (Metadata u)].

Definition read_user (r : SqlRow) : option t := scanUser (select userColumns r).

(** a stored user is read back; [CreateUser] stores, and [UpdateUser] changes,
    exactly the columns the repository model says. *)
Theorem user_sql (c : Call) (u old : t) :
  read_user (user_row u) = Some u ∧
  read_user (insert_row users_table create_user_columns create_user_values (create_user_args u) c)
    = Some (mk (c_uuid c) (Email u) (EmailVerifiedAt u) (PasswordHash u) (FullName u) (StripeCustomerID u)
              (Metadata u) (c_now c) (c_now c) None) ∧
  read_user (update_row update_user_sets (update_user_args u) c (user_row old))
    = Some (mk (ID old) (Email u) (EmailVerifiedAt u) (PasswordHash u) (FullName u) (StripeCustomerID u)
              (Metadata u) (CreatedAt old) (UpdatedAt old) (DeletedAt old)).
Proof. destruct u, old. repeat split; columns. Qed.
End Users.

(** ** refresh_tokens *)

Section Tokens.
Import RefreshToken.

(** Migration 6. *)
Definition refresh_tokens_table : Table := [
  ("id", FreshUuid); ("user_id", Lit CNull); ("token_hash", Lit CNull); ("family_id", Lit CNull);
  ("issued_at", Now); ("expires_at", Lit CNull); ("used_at", Lit CNull); ("revoked_at", Lit CNull);
  ("revoked_reason", Lit CNull); ("created_at", Now); ("updated_at", Now)].

Definition token_row (t : t) : SqlRow := [
  ("id", CUuid (ID t)); ("user_id", CUuid (UserID t)); ("token_hash", CText (TokenHash t));
  ("family_id", CUuid (FamilyID t)); ("issued_at", CTime (IssuedAt t)); ("expires_at", CTime (ExpiresAt t));
  ("used_at", opt_cell CTime (UsedAt t)); ("revoked_at", opt_cell CTime (RevokedAt t));
  ("revoked_reason", opt_cell CText (RevokedReason t)); ("created_at", CTime (CreatedAt t));
  ("updated_at", CTime (UpdatedAt t))].

Definition refreshTokenColumns : list string := [
  "id"; "user_id"; "token_hash"; "family_id"; "issued_at"; "expires_at";
  "used_at"; "revoked_at"; "revoked_reason"; "created_at"; "updated_at"].

Definition scanRefreshToken (cells : list Cell) : option t :=
  match cells with
  | [x1; x2; x3; x4; x5; x6; x7; x8; x9; x10; x11] =>
    id ← scan_uuid x1; user ← scan_uuid x2; hash ← scan_text x3; family ← scan_uuid x4;
    issued ← scan_time x5; expires ← scan_time x6; used ← nullable scan_time x7;
    revoked ← nullable scan_time x8; reason ← nullable scan_text x9; created ← scan_time x10;
    updated ← scan_time x11;
    Some (mk id user hash family issued expires used revoked reason created updated)
  | _ => None
  end.

(** The INSERT of [CreateRefreshToken] and of [ConsumeRefreshToken]; the
    UPDATE that marks a token used and the one that revokes. *)
Definition insert_token_columns : list string := ["user_id"; "token_hash"; "family_id"; "expires_at"].
Definition insert_token_values : list Expr := [Param 1; Param 2; Param 3; Param 4].
Definition insert_token_args (uid : UUID) (hash : string) (family : UUID) (expires : Time) : list Cell :=
  [CUuid uid; CText hash; CUuid family; CTime expires].
Definition markUsed : list (string * Expr) := [("used_at", Now)].
Definition revoke_sets : list (string * Expr) := [("revoked_at", Now); ("revoked_reason", Param 2)].
Definition revoke_args (key : Cell) (reason : string) : list Cell := [key; CText reason].

Definition read_token (r : SqlRow) : option t := scanRefreshToken (select refreshTokenColumns r).

(** a stored token is read back; a statement whose transaction began at
    [c_now] inserts the successor row, marks a token used and revokes one as
    the repository model says. *)
Theorem token_sql (c : Call) (t : t) uid hash family expires key reason tb :
  read_token (token_row t) = Some t ∧
  (∀ row tb', insert_token_stmt (c_now c) uid hash family expires c tb = (POk row, tb') →
    read_token (insert_row refresh_tokens_table insert_token_columns insert_token_values
                  (insert_token_args uid hash family expires) c) = Some row) ∧
  read_token (update_row markUsed [CUuid (ID t)] c (token_row t)) = Some (set_UsedAt (Some (c_now c)) t) ∧
  read_token (update_row revoke_sets (revoke_args key reason) c (token_row t))
    = Some (set_revoked (c_now c) reason t).
Proof.
  destruct t. repeat split; try by columns. intros row tb' Hi. transitivity (Some
    (mk (c_uuid c) uid hash family (c_now c) expires None None None (c_now c) (c_now c))); [columns|].
  unfold insert_token_stmt in Hi. repeat case_match; by simplify_eq.
Qed.
End Tokens.

(** ** processed_webhooks *)

Section Webhooks.
Context `{GoUnicode, Postgres}.
Import Row.

(** Migrations 3 and 5. *)
Definition processed_webhooks_table : Table := [
  ("event_id", Lit CNull); ("event_type", Lit CNull); ("api_version", Lit CNull);
  ("livemode", Lit (CBool false)); ("request_id", Lit CNull); ("status", Lit (CText WebhookProcessing));
  ("attempts", Lit (CInt 1)); ("last_error", Lit CNull); ("payload", Lit CNull);
  ("stripe_created_at", Lit CNull); ("received_at", Now); ("processed_at", Lit CNull);
  ("created_at", Now); ("updated_at", Now); ("payload_purged_at", Lit CNull)].

Definition webhook_row (r : t) : SqlRow := [
  ("event_id", CText (event_id r)); ("event_type", CText (event_type r));
  ("api_version", opt_cell CText (api_version r)); ("livemode", CBool (livemode r));
  ("request_id", opt_cell CText (request_id r)); ("status", CText (status r));
  ("attempts", CInt (attempts r)); ("last_error", opt_cell CText (last_error r));
  ("payload", opt_cell CJson (payload r)); ("stripe_created_at", CTime (stripe_created_at r));
  ("received_at", CTime (received_at r)); ("processed_at", opt_cell CTime (processed_at r));
  ("created_at", CTime (created_at r)); ("updated_at", CTime (updated_at r));
  ("payload_purged_at", opt_cell CTime (payload_purged_at r))].

Definition webhookColumns : list string := [
  "event_id"; "event_type"; "api_version"; "livemode"; "request_id";
  "status"; "attempts"; "last_error"; "payload";
  "stripe_created_at"; "received_at"; "processed_at"; "created_at"; "updated_at"].

Definition scan_cells (cells : list Cell) : option ProcessedWebhook.t :=
  match cells with
  | [x1; x2; x3; x4; x5; x6; x7; x8; x9; x10; x11; x12; x13; x14] =>
    id ← scan_text x1; type ← scan_text x2; version ← nullable scan_text x3; live ← scan_bool x4;
    request ← nullable scan_text x5; status ← scan_text x6; attempts ← scan_int x7;
    error ← nullable scan_text x8; payload ← scan_raw x9; stripe ← scan_time x10; received ← scan_time x11;
    processed ← nullable scan_time x12; created ← scan_time x13; updated ← scan_time x14;
    Some (ProcessedWebhook.mk id type version live request status attempts error payload stripe received
            processed created updated)
  | _ => None
  end.

(** [TryClaimEvent]: the INSERT, and the SET of its ON CONFLICT branch. *)
Definition claim_columns : list string := [
  "event_id"; "event_type"; "api_version"; "livemode"; "request_id";
  "stripe_created_at"; "payload"; "status"; "attempts"].
Definition claim_values : list Expr :=
  (Param <$> seq 1 7) ++ [Lit (CText "processing"); Lit (CInt 1)].
Definition claim_args (w : ProcessedWebhook.t) (payload : option json) : list Cell := [
  CText (ProcessedWebhook.EventID w); CText (ProcessedWebhook.EventType w);
  opt_cell CText (ProcessedWebhook.APIVersion w); CBool (ProcessedWebhook.Livemode w);
  opt_cell CText (ProcessedWebhook.RequestID w);
  CTime (ProcessedWebhook.StripeCreatedAt w); opt_cell CJson payload].
Definition reclaim_claim_sets : list (string * Expr) := [
  ("status", Lit (CText "processing")); ("attempts", Increment "attempts"); ("last_error", Lit CNull)].

(** The three ways to settle, the sweeper's reclaim and retry, and the purge. *)
Definition processed_sets : list (string * Expr) := [
  ("status", Lit (CText "succeeded")); ("processed_at", Now); ("last_error", Lit CNull)].
Definition skipped_sets : list (string * Expr) := [
  ("status", Lit (CText "skipped")); ("processed_at", Now); ("last_error", Param 2)].
Definition failed_sets : list (string * Expr) := [
  ("status", Lit (CText "failed")); ("last_error", Param 2); ("processed_at", Lit CNull)].
Definition abandoned_sets : list (string * Expr) := [
  ("status", Lit (CText "failed")); ("last_error", Param 3); ("processed_at", Lit CNull)].
Definition retry_sets : list (string * Expr) := [
  ("status", Lit (CText "processing")); ("attempts", Increment "attempts"); ("last_error", Lit CNull)].

Definition on_json (f : json → json) (x : Cell) : Cell :=
  match x with CJson j => CJson (f j) | _ => CNull end.
Definition purge_sets : list (string * Expr) := [
  ("payload", Apply (on_json payloadSkeleton) (Column "payload")); ("payload_purged_at", Now)].

Lemma scan_raw_opt (o : option json) :
  scan_raw (opt_cell CJson o) = Some (match o with Some j => jsonb_out j | None => "" end).
Proof. by destruct o. Qed.
Lemma on_json_opt f (o : option json) : on_json f (opt_cell CJson o) = opt_cell CJson (f <$> o).
Proof. by destruct o. Qed.

(** the ledger statements, taken column by column, do what the
    repository model says: a claim's INSERT makes the new row, and each UPDATE
    (a claim taken over, the three settlements, the sweeper's reclaim and
    retry, the purge) makes of a stored row exactly the row the model makes of
    it; and [scanWebhook] reads every field back from its own column. *)
Theorem ledger_sql (c : Call) (r : t) (w : ProcessedWebhook.t) (p : option json) (id reason : Cell) (why : string) :
  insert_row processed_webhooks_table claim_columns claim_values (claim_args w p) c
    = webhook_row (mk (ProcessedWebhook.EventID w) (ProcessedWebhook.EventType w) (ProcessedWebhook.APIVersion w)
        (ProcessedWebhook.Livemode w) (ProcessedWebhook.RequestID w) WebhookProcessing 1 None p
        (ProcessedWebhook.StripeCreatedAt w) (c_now c) None (c_now c) (c_now c) None) ∧
  update_row reclaim_claim_sets [] c (webhook_row r)
    = webhook_row (set_progress WebhookProcessing (attempts r + 1) None (processed_at r) r) ∧
  update_row processed_sets [id] c (webhook_row r)
    = webhook_row (set_progress WebhookSucceeded (attempts r) None (Some (c_now c)) r) ∧
  update_row skipped_sets [id; CText why] c (webhook_row r)
    = webhook_row (set_progress WebhookSkipped (attempts r) (Some why) (Some (c_now c)) r) ∧
  update_row failed_sets [id; CText why] c (webhook_row r)
    = webhook_row (set_progress WebhookFailed (attempts r) (Some why) None r) ∧
  update_row abandoned_sets [id; reason; CText abandoned_reason] c (webhook_row r)
    = webhook_row (set_progress WebhookFailed (attempts r) (Some abandoned_reason) None r) ∧
  update_row retry_sets [id] c (webhook_row r)
    = webhook_row (set_progress WebhookProcessing (attempts r + 1) None (processed_at r) r) ∧
  update_row purge_sets [] c (webhook_row r) = webhook_row (purge_row (c_now c) r) ∧
  scan_cells (select webhookColumns (webhook_row r)) = Some (scanWebhook r).
Proof.
  destruct r. repeat split; try reflexivity.
  - unfold purge_row, set_payload, webhook_row. cbn -[payloadSkeleton opt_cell on_json]. by rewrite on_json_opt.
  - cbn -[opt_cell nullable scan_raw]. autorewrite with columns. rewrite scan_raw_opt. reflexivity.
Qed.
End Webhooks.
