(* ===== verification/Migrations.v ===== *)
(** * migrations/*.sql

    The schema: every migration as the list of its statements, run on a catalog
    of what PostgreSQL keeps - extensions, functions, enum types, tables with
    their columns and constraints, indexes, triggers, comments - with the
    dependencies that make it refuse a statement.  The catalog the six Up
    scripts build is the one the repositories' statements are modelled on, and
    every Down script returns to the catalog before it. *)

From S2P Require Import Prelude GoStd Domain Database WebhookRepo SubscriptionRepo UserRepo.
From S2P Require Import RefreshTokenRepo Columns.
Local Open Scope nat_scope.

(** ** The catalog *)

(** A DEFAULT clause. *)
Inductive DefaultClause :=
  | NoDefault
  | GenRandomUuid
  | NowDefault
  | EmptyObject                (* '{}'::jsonb *)
  | IntDefault (z : Z)
  | FalseDefault
  | TextDefault (s : string).

Record ColumnDef := mkColumn {
  col_name : string; col_type : string; col_not_null : bool; col_default : DefaultClause }.

(** A constraint and the columns it mentions. *)
Inductive ConstraintDef :=
  | PrimaryKey (cols : list string)
  | Unique (cols : list string)
  | ForeignKey (cols : list string) (target : string)
  | CheckExpr (cols : list string).

Record TableDef := mkTable {
  td_columns : list ColumnDef;
  td_constraints : list (string * ConstraintDef) }.

(** An index: its table, whether it is unique, and the columns of its key and
    of its predicate. *)
Record IndexDef := mkIndex { ix_table : string; ix_unique : bool; ix_key : list string; ix_where : list string }.

Record Catalog := mkCatalog {
  ct_extensions : gset string;
  ct_functions : gset string;
  ct_types : gmap string (list string);
  ct_tables : gmap string TableDef;
  ct_indexes : gmap string IndexDef;
  ct_triggers : gmap (string * string) string;         (* (table, trigger) to function *)
  ct_comments : gmap (string * option string) string;  (* of a table or a column *)
}.

#[export] Instance DefaultClause_eq_dec : EqDecision DefaultClause.
Proof. solve_decision. Defined.
#[export] Instance ColumnDef_eq_dec : EqDecision ColumnDef.
Proof. solve_decision. Defined.
#[export] Instance ConstraintDef_eq_dec : EqDecision ConstraintDef.
Proof. solve_decision. Defined.
#[export] Instance TableDef_eq_dec : EqDecision TableDef.
Proof. solve_decision. Defined.
#[export] Instance IndexDef_eq_dec : EqDecision IndexDef.
Proof. solve_decision. Defined.
#[export] Instance Catalog_eq_dec : EqDecision Catalog.
Proof. solve_decision. Defined.

Definition empty_catalog : Catalog := mkCatalog ∅ ∅ ∅ ∅ ∅ ∅ ∅.

(** ** Statements *)

Inductive TableChange :=
  | AddColumn (c : ColumnDef)
  | AddConstraint (name : string) (d : ConstraintDef)
  | DropConstraint (name : string)
  | DropColumn (name : string).

Inductive Ddl :=
  | CreateExtension (name : string)                      (* IF NOT EXISTS *)
  | CreateFunction (name : string)                       (* OR REPLACE *)
  | CreateType (name : string) (labels : list string)
  | CreateTable (name : string) (d : TableDef)
  | CreateIndex (name : string) (d : IndexDef)
  | CreateTrigger (name table function : string)
  | CommentOn (table : string) (column : option string) (text : string)
  | AlterTable (name : string) (changes : list TableChange)
  | DropTrigger (name table : string)                    (* IF EXISTS, as all that follow *)
  | DropTable (name : string)
  | DropFunction (name : string)
  | DropType (name : string)
  | DropExtension (name : string)
  | DropIndex (name : string).

Definition set_tables (m : gmap string TableDef) (c : Catalog) : Catalog :=
  mkCatalog (ct_extensions c) (ct_functions c) (ct_types c) m (ct_indexes c) (ct_triggers c) (ct_comments c).
Definition set_indexes (m : gmap string IndexDef) (c : Catalog) : Catalog :=
  mkCatalog (ct_extensions c) (ct_functions c) (ct_types c) (ct_tables c) m (ct_triggers c) (ct_comments c).
Definition set_triggers (m : gmap (string * string) string) (c : Catalog) : Catalog :=
  mkCatalog (ct_extensions c) (ct_functions c) (ct_types c) (ct_tables c) (ct_indexes c) m (ct_comments c).
Definition set_comments (m : gmap (string * option string) string) (c : Catalog) : Catalog :=
  mkCatalog (ct_extensions c) (ct_functions c) (ct_types c) (ct_tables c) (ct_indexes c) (ct_triggers c) m.
Definition set_types (m : gmap string (list string)) (c : Catalog) : Catalog :=
  mkCatalog (ct_extensions c) (ct_functions c) m (ct_tables c) (ct_indexes c) (ct_triggers c) (ct_comments c).
Definition set_names (extensions functions : gset string) (c : Catalog) : Catalog :=
  mkCatalog extensions functions (ct_types c) (ct_tables c) (ct_indexes c) (ct_triggers c) (ct_comments c).

Definition builtin_types : list string := ["UUID"; "TEXT"; "TIMESTAMPTZ"; "JSONB"; "INTEGER"; "BIGINT"; "BOOLEAN"].

Definition type_known (c : Catalog) (ty : string) : bool :=
  one_of ty builtin_types || bool_decide (is_Some (ct_types c !! ty)) ||
  (bool_decide (ty = "CITEXT") && bool_decide ("citext" ∈ ct_extensions c)).

Definition column_names (d : TableDef) : list string := col_name <$> td_columns d.

Definition mentions (d : ConstraintDef) : list string :=
  match d with PrimaryKey l | Unique l | ForeignKey l _ | CheckExpr l => l end.

Definition refers_to (table : string) (d : ConstraintDef) : bool :=
  match d with ForeignKey _ t => bool_decide (t = table) | _ => false end.

Definition table_has (P : TableDef → bool) (m : gmap string TableDef) : bool :=
  existsb (λ kt, P kt.2) (map_to_list m).

(** A column of any table has the type. *)
Definition type_used (ty : string) (c : Catalog) : bool :=
  table_has (λ d, existsb (λ k, bool_decide (col_type k = ty)) (td_columns d)) (ct_tables c).

Definition covers (cols : list string) (d : TableDef) : bool :=
  forallb (λ k, one_of k (column_names d)) cols.

Definition constraint_valid (tables : gmap string TableDef) (d : TableDef) (k : ConstraintDef) : bool :=
  covers (mentions k) d &&
  match k with ForeignKey _ t => bool_decide (is_Some (tables !! t)) | _ => true end.

Definition guard_ {A} (b : bool) (a : A) : option A := if b then Some a else None.

(** A constraint kept by an index of its name. *)
Definition has_index (d : ConstraintDef) : bool :=
  match d with PrimaryKey _ | Unique _ => true | _ => false end.

(** A relation of that name exists: a table, an index, or a constraint's index. *)
Definition relation_exists (name : string) (c : Catalog) : bool :=
  bool_decide (is_Some (ct_tables c !! name)) || bool_decide (is_Some (ct_indexes c !! name)) ||
  table_has (λ d, existsb (λ nk, has_index nk.2 && bool_decide (nk.1 = name)) (td_constraints d)) (ct_tables c).

(** Dropping a column takes the constraints and indexes that mention it along,
    and its comment. *)
Definition drop_column (table k : string) (d : TableDef) (c : Catalog) : Catalog :=
  let keep := λ cols, negb (one_of k cols) in
  set_comments (delete (table, Some k) (ct_comments c))
    (set_indexes (filter (λ ix, negb (bool_decide (ix_table ix.2 = table)) ||
                                keep (ix_key ix.2 ++ ix_where ix.2) = true) (ct_indexes c))
      (set_tables (<[table := mkTable (filter (λ x, col_name x ≠ k) (td_columns d))
                                (filter (λ nk, keep (mentions nk.2) = true) (td_constraints d))]>
        (ct_tables c)) c)).

Definition alter_table (table : string) (ch : TableChange) (c : Catalog) : option Catalog :=
  d ← ct_tables c !! table;
  match ch with
  | AddColumn x =>
      guard_ (negb (one_of (col_name x) (column_names d)) && type_known c (col_type x))
        (set_tables (<[table := mkTable (td_columns d ++ [x]) (td_constraints d)]> (ct_tables c)) c)
  | AddConstraint n k =>
      guard_ (negb (one_of n (td_constraints d).*1) && constraint_valid (ct_tables c) d k)
        (set_tables (<[table := mkTable (td_columns d) (td_constraints d ++ [(n, k)])]> (ct_tables c)) c)
  | DropConstraint n =>
      Some (set_tables (<[table := mkTable (td_columns d) (filter (λ nk, nk.1 ≠ n) (td_constraints d))]>
        (ct_tables c)) c)
  | DropColumn k => Some (drop_column table k d c)
  end.

Definition drop_table (name : string) (c : Catalog) : option Catalog :=
  guard_ (negb (table_has (λ d, existsb (λ nk, refers_to name nk.2) (td_constraints d))
                  (delete name (ct_tables c))))
    (set_comments (filter (λ kc, kc.1.1 ≠ name) (ct_comments c))
      (set_triggers (filter (λ kt, kt.1.1 ≠ name) (ct_triggers c))
        (set_indexes (filter (λ ix, ix_table ix.2 ≠ name) (ct_indexes c))
          (set_tables (delete name (ct_tables c)) c)))).

(** One statement; [None] is an error. *)
Definition exec_ddl (s : Ddl) (c : Catalog) : option Catalog :=
  match s with
  | CreateExtension n => Some (set_names ({[n]} ∪ ct_extensions c) (ct_functions c) c)
  | CreateFunction n => Some (set_names (ct_extensions c) ({[n]} ∪ ct_functions c) c)
  | CreateType n labels =>
      guard_ (negb (bool_decide (is_Some (ct_types c !! n)))) (set_types (<[n := labels]> (ct_types c)) c)
  | CreateTable n d =>
      guard_ (negb (relation_exists n c) && forallb (λ k, type_known c (col_type k)) (td_columns d) &&
              forallb (λ nk, constraint_valid (<[n := d]> (ct_tables c)) d nk.2) (td_constraints d))
        (set_tables (<[n := d]> (ct_tables c)) c)
  | CreateIndex n ix =>
      d ← ct_tables c !! ix_table ix;
      guard_ (negb (relation_exists n c) && covers (ix_key ix ++ ix_where ix) d)
        (set_indexes (<[n := ix]> (ct_indexes c)) c)
  | CreateTrigger n t f =>
      guard_ (bool_decide (is_Some (ct_tables c !! t)) && bool_decide (f ∈ ct_functions c) &&
              negb (bool_decide (is_Some (ct_triggers c !! (t, n)))))
        (set_triggers (<[(t, n) := f]> (ct_triggers c)) c)
  | CommentOn t k text =>
      d ← ct_tables c !! t;
      guard_ (match k with Some k => one_of k (column_names d) | None => true end)
        (set_comments (<[(t, k) := text]> (ct_comments c)) c)
  | AlterTable n chs => foldl (λ c ch, c ≫= alter_table n ch) (Some c) chs
  | DropTrigger n t => Some (set_triggers (delete (t, n) (ct_triggers c)) c)
  | DropTable n => drop_table n c
  | DropFunction n =>
      guard_ (negb (existsb (λ kt, bool_decide (kt.2 = n)) (map_to_list (ct_triggers c))))
        (set_names (ct_extensions c) (ct_functions c ∖ {[n]}) c)
  | DropType n => guard_ (negb (type_used n c)) (set_types (delete n (ct_types c)) c)
  | DropExtension n =>
      guard_ (negb (bool_decide (n = "citext") && type_used "CITEXT" c))
        (set_names (ct_extensions c ∖ {[n]}) (ct_functions c) c)
  | DropIndex n => Some (set_indexes (delete n (ct_indexes c)) c)
  end.

Definition run_ddl (l : list Ddl) (c : Catalog) : option Catalog := foldl (λ c s, c ≫= exec_ddl s) (Some c) l.

(** ** The scripts *)

Definition up_1 : list Ddl :=
  [CreateExtension "citext";
   CreateFunction "set_updated_at";
   CreateTable "users" (mkTable [
      mkColumn "id" "UUID" true GenRandomUuid;
      mkColumn "email" "CITEXT" true NoDefault;
      mkColumn "email_verified_at" "TIMESTAMPTZ" false NoDefault;
      mkColumn "password_hash" "TEXT" false NoDefault;
      mkColumn "full_name" "TEXT" false NoDefault;
      mkColumn "stripe_customer_id" "TEXT" false NoDefault;
      mkColumn "metadata" "JSONB" true EmptyObject;
      mkColumn "created_at" "TIMESTAMPTZ" true NowDefault;
      mkColumn "updated_at" "TIMESTAMPTZ" true NowDefault;
      mkColumn "deleted_at" "TIMESTAMPTZ" false NoDefault]
     [("users_pkey", PrimaryKey ["id"]);
      ("users_email_format_chk", CheckExpr ["email"]);
      ("users_email_length_chk", CheckExpr ["email"]);
      ("users_stripe_customer_id_format_chk", CheckExpr ["stripe_customer_id"]);
      ("users_metadata_is_object_chk", CheckExpr ["metadata"])]);
   CreateIndex "uq_users_email_active" (mkIndex "users" true ["email"] ["deleted_at"]);
   CreateIndex "uq_users_stripe_customer_id" (mkIndex "users" true ["stripe_customer_id"] ["stripe_customer_id"]);
   CreateIndex "idx_users_created_at" (mkIndex "users" false ["created_at"] []);
   CreateTrigger "trg_users_set_updated_at" "users" "set_updated_at";
   CommentOn "users" None "Application identity and its 1:1 mapping to a Stripe Customer.";
   CommentOn "users" (Some "stripe_customer_id") "Stripe Customer id (cus_...). NULL until first checkout provisions one.";
   CommentOn "users" (Some "deleted_at") "Soft delete marker. Billing records are retained for audit/tax purposes."].

Definition down_1 : list Ddl :=
  [DropTrigger "trg_users_set_updated_at" "users";
   DropTable "users";
   DropFunction "set_updated_at";
   DropExtension "citext"].

Definition up_2 : list Ddl :=
  [CreateType "subscription_status" ["incomplete"; "incomplete_expired"; "trialing"; "active"; "past_due"; "canceled"; "unpaid"; "paused"];
   CreateTable "subscriptions" (mkTable [
      mkColumn "id" "UUID" true GenRandomUuid;
      mkColumn "user_id" "UUID" true NoDefault;
      mkColumn "stripe_subscription_id" "TEXT" true NoDefault;
      mkColumn "stripe_customer_id" "TEXT" true NoDefault;
      mkColumn "stripe_price_id" "TEXT" true NoDefault;
      mkColumn "stripe_product_id" "TEXT" false NoDefault;
      mkColumn "status" "subscription_status" true NoDefault;
      mkColumn "quantity" "INTEGER" true (IntDefault 1);
      mkColumn "currency" "TEXT" false NoDefault;
      mkColumn "unit_amount" "BIGINT" false NoDefault;
      mkColumn "current_period_start" "TIMESTAMPTZ" true NoDefault;
      mkColumn "current_period_end" "TIMESTAMPTZ" true NoDefault;
      mkColumn "cancel_at_period_end" "BOOLEAN" true FalseDefault;
      mkColumn "cancel_at" "TIMESTAMPTZ" false NoDefault;
      mkColumn "canceled_at" "TIMESTAMPTZ" false NoDefault;
      mkColumn "ended_at" "TIMESTAMPTZ" false NoDefault;
      mkColumn "trial_start" "TIMESTAMPTZ" false NoDefault;
      mkColumn "trial_end" "TIMESTAMPTZ" false NoDefault;
      mkColumn "latest_invoice_id" "TEXT" false NoDefault;
      mkColumn "default_payment_method_id" "TEXT" false NoDefault;
      mkColumn "last_stripe_event_id" "TEXT" false NoDefault;
      mkColumn "last_stripe_event_at" "TIMESTAMPTZ" false NoDefault;
      mkColumn "metadata" "JSONB" true EmptyObject;
      mkColumn "created_at" "TIMESTAMPTZ" true NowDefault;
      mkColumn "updated_at" "TIMESTAMPTZ" true NowDefault]
     [("subscriptions_pkey", PrimaryKey ["id"]);
      ("subscriptions_user_id_fkey", ForeignKey ["user_id"] "users");
      ("subscriptions_stripe_subscription_id_key", Unique ["stripe_subscription_id"]);
      ("subscriptions_stripe_subscription_id_format_chk", CheckExpr ["stripe_subscription_id"]);
      ("subscriptions_stripe_customer_id_format_chk", CheckExpr ["stripe_customer_id"]);
      ("subscriptions_stripe_price_id_format_chk", CheckExpr ["stripe_price_id"]);
      ("subscriptions_quantity_positive_chk", CheckExpr ["quantity"]);
      ("subscriptions_currency_format_chk", CheckExpr ["currency"]);
      ("subscriptions_unit_amount_non_negative_chk", CheckExpr ["unit_amount"]);
      ("subscriptions_period_order_chk", CheckExpr ["current_period_start"; "current_period_end"]);
      ("subscriptions_trial_order_chk", CheckExpr ["trial_start"; "trial_end"]);
      ("subscriptions_canceled_at_chk", CheckExpr ["status"; "canceled_at"]);
      ("subscriptions_metadata_is_object_chk", CheckExpr ["metadata"])]);
   CreateIndex "idx_subscriptions_user_id_created_at" (mkIndex "subscriptions" false ["user_id"; "created_at"] []);
   CreateIndex "idx_subscriptions_user_id_live" (mkIndex "subscriptions" false ["user_id"] ["status"]);
   CreateIndex "idx_subscriptions_stripe_customer_id" (mkIndex "subscriptions" false ["stripe_customer_id"] []);
   CreateIndex "idx_subscriptions_stripe_price_id" (mkIndex "subscriptions" false ["stripe_price_id"] []);
   CreateIndex "idx_subscriptions_status" (mkIndex "subscriptions" false ["status"] []);
   CreateIndex "idx_subscriptions_current_period_end_live" (mkIndex "subscriptions" false ["current_period_end"] ["status"]);
   CreateIndex "idx_subscriptions_trial_end" (mkIndex "subscriptions" false ["trial_end"] ["status"; "trial_end"]);
   CreateTrigger "trg_subscriptions_set_updated_at" "subscriptions" "set_updated_at";
   CommentOn "subscriptions" None "Local read-model of Stripe Subscriptions, kept current by webhook processing.";
   CommentOn "subscriptions" (Some "stripe_customer_id") "Denormalized from users.stripe_customer_id for join-free webhook routing.";
   CommentOn "subscriptions" (Some "last_stripe_event_at") "Stripe `event.created` of the newest event applied to this row; guards against out-of-order delivery.";
   CommentOn "subscriptions" (Some "unit_amount") "Price in the currency minor unit (e.g. cents). NULL for metered/usage prices."].

Definition down_2 : list Ddl :=
  [DropTrigger "trg_subscriptions_set_updated_at" "subscriptions";
   DropTable "subscriptions";
   DropType "subscription_status"].

Definition up_3 : list Ddl :=
  [CreateType "webhook_status" ["processing"; "succeeded"; "failed"; "skipped"];
   CreateTable "processed_webhooks" (mkTable [
      mkColumn "event_id" "TEXT" true NoDefault;
      mkColumn "event_type" "TEXT" true NoDefault;
      mkColumn "api_version" "TEXT" false NoDefault;
      mkColumn "livemode" "BOOLEAN" true FalseDefault;
      mkColumn "request_id" "TEXT" false NoDefault;
      mkColumn "status" "webhook_status" true (TextDefault "processing");
      mkColumn "attempts" "INTEGER" true (IntDefault 1);
      mkColumn "last_error" "TEXT" false NoDefault;
      mkColumn "payload" "JSONB" false NoDefault;
      mkColumn "stripe_created_at" "TIMESTAMPTZ" true NoDefault;
      mkColumn "received_at" "TIMESTAMPTZ" true NowDefault;
      mkColumn "processed_at" "TIMESTAMPTZ" false NoDefault;
      mkColumn "created_at" "TIMESTAMPTZ" true NowDefault;
      mkColumn "updated_at" "TIMESTAMPTZ" true NowDefault]
     [("processed_webhooks_pkey", PrimaryKey ["event_id"]);
      ("processed_webhooks_event_id_format_chk", CheckExpr ["event_id"]);
      ("processed_webhooks_event_type_not_blank_chk", CheckExpr ["event_type"]);
      ("processed_webhooks_attempts_positive_chk", CheckExpr ["attempts"]);
      ("processed_webhooks_processed_at_chk", CheckExpr ["status"; "processed_at"]);
      ("processed_webhooks_last_error_chk", CheckExpr ["status"; "last_error"]);
      ("processed_webhooks_payload_is_object_chk", CheckExpr ["payload"])]);
   CreateIndex "idx_processed_webhooks_unsettled" (mkIndex "processed_webhooks" false ["status"; "updated_at"] ["status"]);
   CreateIndex "idx_processed_webhooks_event_type_created" (mkIndex "processed_webhooks" false ["event_type"; "stripe_created_at"] []);
   CreateIndex "idx_processed_webhooks_received_at_brin" (mkIndex "processed_webhooks" false ["received_at"] []);
   CreateTrigger "trg_processed_webhooks_set_updated_at" "processed_webhooks" "set_updated_at";
   CommentOn "processed_webhooks" None "Idempotency ledger for Stripe webhook events. One row per event id, ever.";
   CommentOn "processed_webhooks" (Some "event_id") "Stripe event id (evt_...). Primary key: the dedupe guarantee.";
   CommentOn "processed_webhooks" (Some "stripe_created_at") "event.created. Compared against subscriptions.last_stripe_event_at to reject out-of-order updates.";
   CommentOn "processed_webhooks" (Some "payload") "Raw event JSON for replay/audit. May contain PII - subject to retention policy.";
   CommentOn "processed_webhooks" (Some "attempts") "Number of times this event has been claimed for processing."].

Definition down_3 : list Ddl :=
  [DropTrigger "trg_processed_webhooks_set_updated_at" "processed_webhooks";
   DropTable "processed_webhooks";
   DropType "webhook_status"].

Definition up_4 : list Ddl :=
  [AlterTable "subscriptions" [
      AddColumn (mkColumn "payment_failed_at" "TIMESTAMPTZ" false NoDefault);
      AddColumn (mkColumn "payment_failure_count" "INTEGER" true (IntDefault 0));
      AddColumn (mkColumn "last_payment_error" "TEXT" false NoDefault);
      AddColumn (mkColumn "next_payment_attempt_at" "TIMESTAMPTZ" false NoDefault);
      AddColumn (mkColumn "last_invoice_event_id" "TEXT" false NoDefault);
      AddColumn (mkColumn "last_invoice_event_at" "TIMESTAMPTZ" false NoDefault);
      AddConstraint "subscriptions_payment_failure_count_chk" (CheckExpr ["payment_failure_count"]);
      AddConstraint "subscriptions_dunning_consistency_chk" (CheckExpr ["payment_failed_at"; "payment_failure_count"])];
   CreateIndex "idx_subscriptions_dunning" (mkIndex "subscriptions" false ["payment_failed_at"] ["payment_failed_at"]);
   CreateIndex "idx_subscriptions_next_payment_attempt" (mkIndex "subscriptions" false ["next_payment_attempt_at"] ["next_payment_attempt_at"]);
   CommentOn "subscriptions" (Some "payment_failed_at") "When the most recent invoice payment failed. NULL means no outstanding failure.";
   CommentOn "subscriptions" (Some "payment_failure_count") "Consecutive failed payment attempts; reset to 0 on success.";
   CommentOn "subscriptions" (Some "next_payment_attempt_at") "Stripe invoice.next_payment_attempt - when the dunning retry is scheduled.";
   CommentOn "subscriptions" (Some "last_invoice_event_at") "Ordering cursor for the invoice.* event stream, kept separate from last_stripe_event_at so the two streams cannot reject each other."].

Definition down_4 : list Ddl :=
  [DropIndex "idx_subscriptions_next_payment_attempt";
   DropIndex "idx_subscriptions_dunning";
   AlterTable "subscriptions" [
      DropConstraint "subscriptions_dunning_consistency_chk";
      DropConstraint "subscriptions_payment_failure_count_chk";
      DropColumn "last_invoice_event_at";
      DropColumn "last_invoice_event_id";
      DropColumn "next_payment_attempt_at";
      DropColumn "last_payment_error";
      DropColumn "payment_failure_count";
      DropColumn "payment_failed_at"]].

Definition up_5 : list Ddl :=
  [AlterTable "processed_webhooks" [
      AddColumn (mkColumn "payload_purged_at" "TIMESTAMPTZ" false NoDefault);
      AddConstraint "processed_webhooks_purged_payload_chk" (CheckExpr ["payload"; "payload_purged_at"])];
   CreateIndex "idx_processed_webhooks_payload_retention" (mkIndex "processed_webhooks" false ["received_at"] ["payload"]);
   CommentOn "processed_webhooks" (Some "payload") "Raw event JSON for replay/audit. Contains personal data until retention replaces it with an allowlisted skeleton; see migration 00005.";
   CommentOn "processed_webhooks" (Some "payload_purged_at") "When retention reduced this payload to its non-identifying skeleton. NULL means the full event is still stored."].

Definition down_5 : list Ddl :=
  [DropIndex "idx_processed_webhooks_payload_retention";
   AlterTable "processed_webhooks" [
      DropConstraint "processed_webhooks_purged_payload_chk";
      DropColumn "payload_purged_at"];
   CommentOn "processed_webhooks" (Some "payload") "Raw event JSON for replay/audit. May contain PII - subject to retention policy."].

Definition up_6 : list Ddl :=
  [CreateTable "refresh_tokens" (mkTable [
      mkColumn "id" "UUID" true GenRandomUuid;
      mkColumn "user_id" "UUID" true NoDefault;
      mkColumn "token_hash" "TEXT" true NoDefault;
      mkColumn "family_id" "UUID" true NoDefault;
      mkColumn "issued_at" "TIMESTAMPTZ" true NowDefault;
      mkColumn "expires_at" "TIMESTAMPTZ" true NoDefault;
      mkColumn "used_at" "TIMESTAMPTZ" false NoDefault;
      mkColumn "revoked_at" "TIMESTAMPTZ" false NoDefault;
      mkColumn "revoked_reason" "TEXT" false NoDefault;
      mkColumn "created_at" "TIMESTAMPTZ" true NowDefault;
      mkColumn "updated_at" "TIMESTAMPTZ" true NowDefault]
     [("refresh_tokens_pkey", PrimaryKey ["id"]);
      ("refresh_tokens_user_id_fkey", ForeignKey ["user_id"] "users");
      ("refresh_tokens_token_hash_format_chk", CheckExpr ["token_hash"]);
      ("refresh_tokens_expiry_after_issue_chk", CheckExpr ["issued_at"; "expires_at"]);
      ("refresh_tokens_revoked_reason_chk", CheckExpr ["revoked_at"; "revoked_reason"])]);
   CreateIndex "uq_refresh_tokens_token_hash" (mkIndex "refresh_tokens" true ["token_hash"] []);
   CreateIndex "idx_refresh_tokens_user_id" (mkIndex "refresh_tokens" false ["user_id"] []);
   CreateIndex "idx_refresh_tokens_family_active" (mkIndex "refresh_tokens" false ["family_id"] ["revoked_at"]);
   CreateIndex "idx_refresh_tokens_expires_at" (mkIndex "refresh_tokens" false ["expires_at"] []);
   CreateTrigger "trg_refresh_tokens_set_updated_at" "refresh_tokens" "set_updated_at";
   CommentOn "refresh_tokens" None "Rotating refresh tokens with per-family reuse detection.";
   CommentOn "refresh_tokens" (Some "token_hash") "SHA-256 of the token, hex. The token itself is never stored.";
   CommentOn "refresh_tokens" (Some "family_id") "Rotation lineage from one login; revoked as a unit when reuse is detected.";
   CommentOn "refresh_tokens" (Some "used_at") "When this token was exchanged. Presenting a used token is treated as theft."].

Definition down_6 : list Ddl :=
  [DropTrigger "trg_refresh_tokens_set_updated_at" "refresh_tokens";
   DropTable "refresh_tokens"].

(** Up and Down, by version. *)
Definition migrations : list (list Ddl * list Ddl) :=
  [(up_1, down_1); (up_2, down_2); (up_3, down_3); (up_4, down_4); (up_5, down_5); (up_6, down_6)].

(** The catalog a database is at after the first [n] migrations. *)
Definition schema_at (n : nat) : option Catalog :=
  foldl (λ c m, c ≫= run_ddl m.1) (Some empty_catalog) (take n migrations).


(** The Down scripts of the [k] versions up to [n], the newest first. *)
Fixpoint roll_back (k n : nat) (c : Catalog) : option Catalog :=
  match k, n with
  | S k', S n' =>
      m ← migrations !! n';
      c' ← run_ddl m.2 c;
      roll_back k' n' c'
  | _, _ => Some c
  end.

(** ** What the other files take from the schema *)

Definition schema : Catalog := default empty_catalog (schema_at (length migrations)).

Definition table_of (name : string) : TableDef := default (mkTable [] []) (ct_tables schema !! name).

(** What an insert evaluates for a column it does not name; NULL without a
    DEFAULT clause. *)
Definition default_expr (d : DefaultClause) : Expr :=
  match d with
  | NoDefault => Lit CNull
  | GenRandomUuid => FreshUuid
  | NowDefault => Now
  | EmptyObject => empty_meta
  | IntDefault z => Lit (CInt z)
  | FalseDefault => Lit (CBool false)
  | TextDefault s => Lit (CText s)
  end.

Definition columns_of (name : string) : Table := (λ k, (col_name k, default_expr (col_default k))) <$> td_columns (table_of name).

(** The labels of an enum type. *)
Definition labels_of (type : string) : list string := default [] (ct_types schema !! type).

(** Names of the CHECK constraints of a table. *)
Definition checks_of (name : string) : gset string :=
  list_to_set (omap (λ nk, match nk.2 with CheckExpr _ => Some nk.1 | _ => None end) (td_constraints (table_of name))).

(** Names of what a table's inserts can violate besides: its keys, unique
    indexes and foreign keys. *)
Definition keys_of (name : string) : gset string :=
  list_to_set (omap (λ nk, match nk.2 with CheckExpr _ => None | _ => Some nk.1 end) (td_constraints (table_of name)))
  ∪ dom (filter (λ ix, (ix_unique ix.2 && bool_decide (ix_table ix.2 = name)) = true) (ct_indexes schema)).

Definition names_of {A} (l : list (string * A)) : gset string := list_to_set l.*1.

(** Every name of [l] is a constraint or a unique index of some table. *)
Definition reportable (l : list (string * string)) : bool :=
  forallb (λ nm, existsb (λ t, bool_decide (nm.1 ∈ checks_of t ∪ keys_of t)) (map_to_list (ct_tables schema)).*1) l.

(** The cell is one of the column's type; NULL where the column takes it. *)
Definition cell_fits (k : ColumnDef) (x : Cell) : bool :=
  match x with
  | CNull => negb (col_not_null k)
  | CUuid _ => bool_decide (col_type k = "UUID")
  | CText _ => one_of (col_type k) ["TEXT"; "CITEXT"; "subscription_status"; "webhook_status"]
  | CInt _ => one_of (col_type k) ["INTEGER"; "BIGINT"]
  | CBool _ => bool_decide (col_type k = "BOOLEAN")
  | CTime _ => bool_decide (col_type k = "TIMESTAMPTZ")
  | CMeta _ | CJson _ => bool_decide (col_type k = "JSONB")
  end.

(** The row has the table's columns, in order, each with a cell that fits. *)
Fixpoint row_fits (ks : list ColumnDef) (r : SqlRow) : bool :=
  match ks, r with
  | [], [] => true
  | k :: ks', (n, x) :: r' => bool_decide (col_name k = n) && cell_fits k x && row_fits ks' r'
  | _, _ => false
  end.

(** ** Every version can be reached and left *)

(** Up and Down of version [n + 1], from the version before it. *)
Definition step_ok (n : nat) : bool :=
  match migrations !! n, schema_at n with
  | Some m, Some c => match run_ddl m.1 c with
                      | Some c' => bool_decide (schema_at (S n) = Some c') && bool_decide (run_ddl m.2 c' = Some c)
                      | None => false
                      end
  | _, _ => false
  end.

Lemma steps_ok : forallb step_ok (seq 0 (length migrations)) = true.
Proof. vm_compute. reflexivity. Qed.

Lemma version_step n :
  n < length migrations →
  ∃ m c c', migrations !! n = Some m ∧ schema_at n = Some c ∧ run_ddl m.1 c = Some c' ∧
    schema_at (S n) = Some c' ∧ run_ddl m.2 c' = Some c.
Proof.
  intros Hn. pose proof steps_ok as Hall. rewrite forallb_forall in Hall.
  specialize (Hall n ltac:(apply in_seq; lia)). unfold step_ok in Hall.
  destruct (migrations !! n) as [m|]; [|done]. destruct (schema_at n) as [c|]; [|done].
  destruct (run_ddl m.1 c) as [c'|] eqn:Hu; [|done].
  apply andb_true_iff in Hall as [?%bool_decide_eq_true ?%bool_decide_eq_true]. by exists m, c, c'.
Qed.

(** C24: every Up script runs, from an empty database and in order, without an
    error; and from any version the Down scripts lead back, statement by
    statement without an error, to exactly the catalog any earlier version had:
    its types, tables, columns, constraints, indexes, triggers and comments. *)
Theorem migrations_reversible (k n : nat) (Hn : n ≤ length migrations) (Hk : k ≤ n) :
  ∃ c, schema_at n = Some c ∧ roll_back k n c = schema_at (n - k) ∧ is_Some (schema_at (n - k)).
Proof.
  revert k Hk. induction n as [|n IH]; intros k Hk.
  - assert (k = 0) as -> by lia. by exists empty_catalog.
  - destruct (version_step n ltac:(lia)) as (m & c0 & c & Hm & Hc0 & _ & Hc & Hd).
    exists c. split; [done|]. destruct k as [|k]; [rewrite Nat.sub_0_r, Hc; eauto|].
    destruct (IH ltac:(lia) k ltac:(lia)) as (c1 & Hc1 & Hback & His).
    rewrite Hc0 in Hc1. simplify_eq. cbn [roll_back]. rewrite Hm. simpl. by rewrite Hd.
Qed.

(** ** The schema the repositories' statements are modelled on *)

(** A fact of closed finite data. *)
Ltac closed_data := refine (bool_decide_eq_true_1 _ _); vm_compute; reflexivity.

(** The cells of [e]'s row, one by one, against the columns of its table. *)
Ltac row_fits e :=
  match goal with |- row_fits ?l _ = true => let l' := eval vm_compute in l in
    let H := fresh in assert (l = l') as H by (vm_compute; reflexivity); rewrite H; clear H end;
  destruct e; cbn -[cell_fits opt_cell];
  repeat (apply andb_true_intro; split);
  first [reflexivity | match goal with |- context [opt_cell _ ?o] => destruct o; reflexivity end].

Section Schema.
Context `{GoUnicode, Postgres}.

(** *** Rows *)

Lemma user_fits u : row_fits (td_columns (table_of "users")) (user_row u) = true.
Proof. row_fits u. Qed.
Lemma subscription_fits s : row_fits (td_columns (table_of "subscriptions")) (subscription_row s) = true.
Proof. row_fits s. Qed.
Lemma webhook_fits w : row_fits (td_columns (table_of "processed_webhooks")) (webhook_row w) = true.
Proof. row_fits w. Qed.
Lemma token_fits r : row_fits (td_columns (table_of "refresh_tokens")) (token_row r) = true.
Proof. row_fits r. Qed.

(** *** Constraints *)

Lemma user_checks u : checks_of "users" = names_of (user_constraints u) ∪ {["users_metadata_is_object_chk"]}.
Proof. unfold names_of. lazy [user_constraints fmap list_fmap fst]. closed_data. Qed.
Lemma subscription_checks s :
  checks_of "subscriptions" = names_of (sub_constraints s) ∪ {["subscriptions_metadata_is_object_chk"]}.
Proof. unfold names_of. lazy [sub_constraints fmap list_fmap fst]. closed_data. Qed.
Lemma webhook_checks w : checks_of "processed_webhooks" = names_of (Row.constraints w).
Proof. unfold names_of. lazy [Row.constraints fmap list_fmap fst]. closed_data. Qed.
Lemma token_checks r : checks_of "refresh_tokens" = names_of (token_constraints r).
Proof. unfold names_of. lazy [token_constraints fmap list_fmap fst]. closed_data. Qed.

(** *** Closed facts *)

Lemma tables_agree :
  columns_of "users" = users_table ∧ columns_of "subscriptions" = subscriptions_table ∧
  columns_of "processed_webhooks" = processed_webhooks_table ∧
  columns_of "refresh_tokens" = refresh_tokens_table.
Proof. split_and!; vm_compute; reflexivity. Qed.

Lemma keys_agree :
  keys_of "users" = {["users_pkey"; "uq_users_email_active"; "uq_users_stripe_customer_id"]} ∧
  keys_of "subscriptions" = {["subscriptions_pkey"; "subscriptions_stripe_subscription_id_key";
                              "subscriptions_user_id_fkey"]} ∧
  keys_of "processed_webhooks" = {["processed_webhooks_pkey"]} ∧
  keys_of "refresh_tokens" = {["refresh_tokens_pkey"; "uq_refresh_tokens_token_hash";
                               "refresh_tokens_user_id_fkey"]}.
Proof. split_and!; closed_data. Qed.

Lemma triggers_agree : (map_to_list (ct_triggers schema)).*2 = replicate 4 "set_updated_at".
Proof. vm_compute. reflexivity. Qed.

Lemma messages_reportable : reportable constraintMessages = true.
Proof. vm_compute. reflexivity. Qed.

Lemma enums_agree :
  SubscriptionStatus_Valid = (λ x, one_of x (labels_of "subscription_status")) ∧
  WebhookStatus_Valid = (λ x, one_of x (labels_of "webhook_status")).
Proof.
  assert (labels_of "subscription_status" =
    ["incomplete"; "incomplete_expired"; "trialing"; "active"; "past_due"; "canceled"; "unpaid"; "paused"]) as ->
    by closed_data.
  assert (labels_of "webhook_status" = ["processing"; "succeeded"; "failed"; "skipped"]) as -> by closed_data.
  done.
Qed.

(** the tables that the six migrations build are the ones the repository models
    assume: the columns with their defaults, the labels of both enum types, the
    CHECK constraints each statement tests (those on [metadata], a map here,
    apart), the keys it can violate, and the trigger that keeps [updated_at];
    every name [constraintMessages] knows is one the database can report; and a
    stored entity has exactly its table's columns, each with a cell of the
    column's type, NULL only where that is allowed. *)
Theorem schema_agrees (u : User.t) (s : Subscription.t) (w : Row.t) (r : RefreshToken.t) :
  (columns_of "users" = users_table ∧ columns_of "subscriptions" = subscriptions_table ∧
   columns_of "processed_webhooks" = processed_webhooks_table ∧
   columns_of "refresh_tokens" = refresh_tokens_table) ∧
  (SubscriptionStatus_Valid = (λ x, one_of x (labels_of "subscription_status")) ∧
   WebhookStatus_Valid = (λ x, one_of x (labels_of "webhook_status"))) ∧
  (checks_of "users" = names_of (user_constraints u) ∪ {["users_metadata_is_object_chk"]} ∧
   checks_of "subscriptions" = names_of (sub_constraints s) ∪ {["subscriptions_metadata_is_object_chk"]} ∧
   checks_of "processed_webhooks" = names_of (Row.constraints w) ∧
   checks_of "refresh_tokens" = names_of (token_constraints r)) ∧
  (keys_of "users" = {["users_pkey"; "uq_users_email_active"; "uq_users_stripe_customer_id"]} ∧
   keys_of "subscriptions" = {["subscriptions_pkey"; "subscriptions_stripe_subscription_id_key";
                               "subscriptions_user_id_fkey"]} ∧
   keys_of "processed_webhooks" = {["processed_webhooks_pkey"]} ∧
   keys_of "refresh_tokens" = {["refresh_tokens_pkey"; "uq_refresh_tokens_token_hash";
                                "refresh_tokens_user_id_fkey"]}) ∧
  ((map_to_list (ct_triggers schema)).*2 = replicate 4 "set_updated_at" ∧
   reportable constraintMessages = true) ∧
  (row_fits (td_columns (table_of "users")) (user_row u) = true ∧
   row_fits (td_columns (table_of "subscriptions")) (subscription_row s) = true ∧
   row_fits (td_columns (table_of "processed_webhooks")) (webhook_row w) = true ∧
   row_fits (td_columns (table_of "refresh_tokens")) (token_row r) = true).
Proof.
  refine (conj tables_agree (conj enums_agree (conj _ (conj keys_agree
    (conj (conj triggers_agree messages_reportable) _))))); split_and!.
  - apply user_checks.
  - apply subscription_checks.
  - apply webhook_checks.
  - apply token_checks.
  - apply user_fits.
  - apply subscription_fits.
  - apply webhook_fits.
  - apply token_fits.
Qed.
End Schema.
