(* ===== verification/StripeClient.v ===== *)
(** * internal/stripe/client.go

    The wrapper around the Stripe SDK.  The SDK itself, which is not part of
    this repository, is a parameter: the objects it decodes are records with
    the fields this program reads, and its calls are the members of the class
    [StripeSDK].  A pointer the program tests for nil is an [option]; [Data] of
    an event and the items of a subscription, which it dereferences without a
    test, are taken to be present. *)

From S2P Require Import Prelude GoStd Domain Database.
Open Scope Z_scope.

(** ** SDK objects *)

Module SDK.
Module Event.
Record t := mk {
  ID : string;
  Type_ : string;
  Livemode : bool;
  Created : Z;
  APIVersion : string;
  Request : option string;    (* Request.ID, when Request is not nil *)
  Raw : string;               (* Data.Raw *)
}.
End Event.

Module CheckoutSession.
Record t := mk {
  Mode : string;
  Subscription : option string;
  Customer : option string;
  ClientReferenceID : string;
  Metadata : gmap string string;
}.
End CheckoutSession.

Module Price.
Record t := mk { ID : string; Currency : string; UnitAmount : Z; Product : option string }.
End Price.

Module SubscriptionItem.
Record t := mk {
  Price : option Price.t;
  Quantity : Z;
  CurrentPeriodStart : Z;
  CurrentPeriodEnd : Z;
}.
End SubscriptionItem.

Module Subscription.
Record t := mk {
  ID : string;
  Customer : option string;
  Status : string;
  Items : option (list SubscriptionItem.t);
  CancelAtPeriodEnd : bool;
  CancelAt : Z;
  CanceledAt : Z;
  EndedAt : Z;
  TrialStart : Z;
  TrialEnd : Z;
  LatestInvoice : option string;
  DefaultPaymentMethod : option string;
  Metadata : gmap string string;
}.
End Subscription.

(** [stripesdk.Error]; its type as far as this program distinguishes it. *)
Inductive ErrorType :=
  | ErrorTypeAPI | ErrorTypeRateLimit | ErrorTypeInvalidRequest | ErrorTypeCard | ErrorTypeOther.

Module Error.
Record t := mk {
  Type_ : ErrorType; Code : string; DeclineCode : string; Msg : string;
  RequestID : string; HTTPStatusCode : Z }.
End Error.

Module Invoice.
Record t := mk {
  ID : string;
  (* Parent, its SubscriptionDetails, its Subscription, and that one's ID *)
  Parent : option (option (option string));
  (* Lines.Data: each line, its Subscription, and that one's ID *)
  Lines : option (list (option (option string)));
  PeriodStart : Z;
  PeriodEnd : Z;
  NextPaymentAttempt : Z;
  LastFinalizationError : option Error.t;
}.
End Invoice.

(** What an SDK call returns in place of a value. *)
Inductive err :=
  | ApiError (e : Error.t)
  | OtherError (text : string).

Module CreatedSession.
Record t := mk { ID : string; URL : string; ClientSecret : string; ExpiresAt : Z }.
End CreatedSession.

Module SessionParams.
Record t := mk {
  Mode : string;
  Price : string;
  Quantity : Z;
  SubscriptionMetadata : gmap string string;
  Metadata : gmap string string;
  UIMode : option string;
  ReturnURL : option string;
  SuccessURL : option string;
  CancelURL : option string;
  ClientReferenceID : option string;
  Customer : option string;
  CustomerEmail : option string;
  TrialPeriodDays : option Z;
  AllowPromotionCodes : option bool;
}.
End SessionParams.
End SDK.

(** The SDK and the libraries that decode what Stripe sends.  Remote calls take
    the number of the request, so that two calls may be answered differently. *)
Class StripeSDK := {
  APIVersion : string;
  CheckoutSessionModeSubscription : string;
  CheckoutSessionUIModeEmbeddedPage : string;
  (* webhook.ConstructEventWithOptions at a time, with secret, tolerance and
     the version switch *)
  ConstructEvent : Time → string → string → string → Duration → bool → SDK.Event.t + string;
  (* json.Unmarshal at each type *)
  UnmarshalEvent : string → SDK.Event.t + string;
  UnmarshalCheckoutSession : string → SDK.CheckoutSession.t + string;
  UnmarshalSubscription : string → SDK.Subscription.t + string;
  UnmarshalInvoice : string → SDK.Invoice.t + string;
  (* the API *)
  SessionsCreate : nat → SDK.SessionParams.t → SDK.CreatedSession.t + SDK.err;
  PortalSessionsCreate : nat → string → string → (string * string) + SDK.err;
  SubscriptionsRetrieve : nat → string → SDK.Subscription.t + SDK.err;
  (* github.com/google/uuid *)
  uuid_Parse : string → option UUID;
  uuid_String : UUID → string;
}.

(** ** Configuration *)

Module Config.
Record t := mk {
  SecretKey : string;
  WebhookSecret : string;
  APIVersion : string;
  MaxNetworkRetries : Z;
  HTTPTimeout : Duration;
  WebhookTolerance : Duration;
  IgnoreAPIVersionMismatch : bool;
}.
End Config.

Module Client.
Record t := mk {
  timeout : Duration;
  retries : Z;
  webhookSecret : string;
  webhookTolerance : Duration;
  ignoreAPIVersionMismatch : bool;
}.
End Client.

Definition defaultHTTPTimeout : Duration := 20 * Second.
Definition defaultWebhookTolerance : Duration := 5 * Minute.

Definition New (cfg : Config.t) : result Client.t :=
  if bool_decide (TrimSpace (Config.SecretKey cfg) = "")
  then Err (errors_New "stripe: secret key is required")
  else if bool_decide (TrimSpace (Config.WebhookSecret cfg) = "")
  then Err (errors_New "stripe: webhook secret is required")
  else
    let timeout := if Config.HTTPTimeout cfg <=? 0 then defaultHTTPTimeout else Config.HTTPTimeout cfg in
    let tolerance := if Config.WebhookTolerance cfg <=? 0 then defaultWebhookTolerance
                     else Config.WebhookTolerance cfg in
    let retries := if Config.MaxNetworkRetries cfg <? 0 then 0 else Config.MaxNetworkRetries cfg in
    Ok (Client.mk timeout retries (Config.WebhookSecret cfg) tolerance
          (Config.IgnoreAPIVersionMismatch cfg)).

(** The text after the last dot, if there is one: [s[LastIndex(s, ".")+1:]]. *)
Fixpoint after_last_dot (s : string) : option string :=
  match s with
  | EmptyString => None
  | String a s' =>
      match after_last_dot s' with
      | Some t => Some t
      | None => if (byte_val a =? 46)%N then Some s' else None
      end
  end.

Definition sameReleaseTrain (a b : string) : bool :=
  match after_last_dot a, after_last_dot b with
  | Some x, Some y => bool_decide (x = y)
  | _, _ => false
  end.

(** ** Errors *)

Definition classify (op : string) (e : SDK.err) : error :=
  match e with
  | SDK.OtherError text => wrapf op (sentinelf ErrUpstream text)
  | SDK.ApiError serr =>
    let detail :=
      if bool_decide (SDK.Error.RequestID serr = "") then SDK.Error.Msg serr
      else SDK.Error.Msg serr +:+ " (request_id=" +:+ SDK.Error.RequestID serr +:+ ")" in
    match SDK.Error.Type_ serr with
    | SDK.ErrorTypeAPI | SDK.ErrorTypeRateLimit => wrapf op (sentinelf ErrUpstream detail)
    | SDK.ErrorTypeInvalidRequest | SDK.ErrorTypeCard => wrapf op (sentinelf ErrInvalidRequest detail)
    | SDK.ErrorTypeOther =>
      if (500 <=? SDK.Error.HTTPStatusCode serr) || (SDK.Error.HTTPStatusCode serr =? 429)
      then wrapf op (sentinelf ErrUpstream detail)
      else wrapf op (sentinelf ErrInvalidRequest detail)
    end
  end.

Definition IsRetryable (e : error) : bool := errors_Is e ErrUpstream.

(** ** Checkout input *)

Definition UIMode := string.
Definition UIModeHosted : UIMode := "hosted".
Definition UIModeEmbedded : UIMode := "embedded".
Definition UIMode_valid (m : UIMode) : bool := one_of m [UIModeHosted; UIModeEmbedded; ""].

Module CheckoutSessionInput.
Record t := mk {
  UIMode_ : UIMode;
  ReturnURL : string;
  PriceID : string;
  Quantity : Z;
  CustomerID : string;
  CustomerEmail : string;
  ClientReferenceID : string;
  SuccessURL : string;
  CancelURL : string;
  TrialPeriodDays : Z;
  AllowPromotionCodes : bool;
  Metadata : gmap string string;
}.

(** [if c { problems = append(problems, p) }]. *)
Definition problem (c : bool) (p : string) : list string := if c then [p] else [].
Definition empty (s : string) : bool := bool_decide (s = "").

Definition problems (i : t) : list string :=
  problem (negb (HasPrefix (PriceID i) "price_")) "price_id must begin with price_" ++
  problem (Quantity i <=? 0) "quantity must be greater than zero" ++
  problem (negb (empty (CustomerID i)) && negb (HasPrefix (CustomerID i) "cus_"))
    "customer_id must begin with cus_" ++
  problem (negb (empty (CustomerID i)) && negb (empty (CustomerEmail i)))
    "customer_id and customer_email are mutually exclusive" ++
  (if bool_decide (UIMode_ i = UIModeEmbedded) then []
   else problem (empty (SuccessURL i)) "success_url is required" ++
        problem (empty (CancelURL i)) "cancel_url is required") ++
  problem (TrialPeriodDays i <? 0) "trial_period_days must not be negative" ++
  problem (negb (UIMode_valid (UIMode_ i))) "ui_mode must be hosted or embedded" ++
  problem (bool_decide (UIMode_ i = UIModeEmbedded) && empty (ReturnURL i))
    "return_url is required for embedded checkout".

Definition validate (i : t) : option error :=
  match problems i with
  | [] => None
  | ps => Some (sentinelf ErrInvalidRequest (Join ps "; "))
  end.
End CheckoutSessionInput.

Module CheckoutSession.
Record t := mk { ID : string; URL : string; ClientSecret : string; ExpiresAt : Time }.
End CheckoutSession.

Module PortalSession.
Record t := mk { ID : string; URL : string }.
End PortalSession.

(** ** Calls *)

(** A request to Stripe: it takes time and can be cut off by the context. *)
Definition api_call {A} (f : nat → A + SDK.err) : M World (A + SDK.err) := λ w,
  let w' := advance w in
  if ctx_done w' then (inr (SDK.OtherError "context canceled"), w') else (f (w_draws w), w').

Section Calls.
Context `{GoUnicode, StripeSDK}.

Definition VerifyWebhook (c : Client.t) (payload signatureHeader : string)
    : M World (result SDK.Event.t) :=
  now ← gets w_now;
  mret (match ConstructEvent now payload signatureHeader (Client.webhookSecret c)
                (Client.webhookTolerance c) (Client.ignoreAPIVersionMismatch c) with
        | inl event => Ok event
        | inr text => Err (sentinelf ErrSignatureVerification text)
        end).

Definition opt (s : string) : option string := if bool_decide (s = "") then None else Some s.

Definition session_params (i : CheckoutSessionInput.t) : SDK.SessionParams.t :=
  let embedded := bool_decide (CheckoutSessionInput.UIMode_ i = UIModeEmbedded) in
  SDK.SessionParams.mk
    CheckoutSessionModeSubscription
    (CheckoutSessionInput.PriceID i) (CheckoutSessionInput.Quantity i)
    (CheckoutSessionInput.Metadata i) (CheckoutSessionInput.Metadata i)
    (if embedded then Some CheckoutSessionUIModeEmbeddedPage else None)
    (if embedded then Some (CheckoutSessionInput.ReturnURL i) else None)
    (if embedded then None else Some (CheckoutSessionInput.SuccessURL i))
    (if embedded then None else Some (CheckoutSessionInput.CancelURL i))
    (opt (CheckoutSessionInput.ClientReferenceID i))
    (opt (CheckoutSessionInput.CustomerID i))
    (if bool_decide (CheckoutSessionInput.CustomerID i = "")
     then opt (CheckoutSessionInput.CustomerEmail i) else None)
    (if 0 <? CheckoutSessionInput.TrialPeriodDays i
     then Some (CheckoutSessionInput.TrialPeriodDays i) else None)
    (if CheckoutSessionInput.AllowPromotionCodes i then Some true else None).

Definition CreateCheckoutSession (i : CheckoutSessionInput.t) : M World (result CheckoutSession.t) :=
  match CheckoutSessionInput.validate i with
  | Some e => mret (Err e)
  | None =>
    r ← api_call (λ n, SessionsCreate n (session_params i));
    mret (match r with
          | inr e => Err (classify "create checkout session" e)
          | inl s => Ok (CheckoutSession.mk (SDK.CreatedSession.ID s) (SDK.CreatedSession.URL s)
              (SDK.CreatedSession.ClientSecret s)
              (if 0 <? SDK.CreatedSession.ExpiresAt s then time_Unix (SDK.CreatedSession.ExpiresAt s)
               else time_zero))
          end)
  end.

Definition CreatePortalSession (customerID returnURL : string) : M World (result PortalSession.t) :=
  if negb (HasPrefix customerID "cus_")
  then mret (Err (sentinelf ErrInvalidRequest
               ("customer id " +:+ Quote customerID +:+ " must begin with cus_")))
  else if bool_decide (returnURL = "")
  then mret (Err (sentinelf ErrInvalidRequest "return_url is required"))
  else
    r ← api_call (λ n, PortalSessionsCreate n customerID returnURL);
    mret (match r with
          | inr e => Err (classify "create billing portal session" e)
          | inl (id, url) => Ok (PortalSession.mk id url)
          end).

Definition GetSubscription (id : string) : M World (result SDK.Subscription.t) :=
  if negb (HasPrefix id "sub_")
  then mret (Err (sentinelf ErrInvalidRequest
               ("subscription id " +:+ Quote id +:+ " must begin with sub_")))
  else
    r ← api_call (λ n, SubscriptionsRetrieve n id);
    mret (match r with
          | inr e => Err (classify "retrieve subscription" e)
          | inl s => Ok s
          end).
End Calls.

(** ** Laws *)

(** Every SDK failure is either retryable or a rejected request, never both. *)
Lemma classify_dichotomy op e :
  errors_Is (classify op e) ErrUpstream = negb (errors_Is (classify op e) ErrInvalidRequest).
Proof. destruct e as [serr|text]; [|done]. unfold classify. by repeat case_match. Qed.
