(* ===== verification/Ports.v ===== *)
(** * The repository interfaces the services depend on

    The Go interfaces [UserRepository], [SubscriptionRepository],
    [WebhookRepository] and [RefreshTokenRepository] as classes of operations,
    the PostgreSQL repositories as their instances, and the contract of the
    ledger that the webhook service is verified against: what claiming and
    settling do to the status of an event, and that no other call disturbs it. *)

From S2P Require Import Prelude GoStd Domain Database WebhookRepo Ledger SubscriptionRepo.
From S2P Require Import Subscriptions UserRepo RefreshTokenRepo.
Open Scope Z_scope.

(** ** Operations *)

Class UserRepository := {
  users_CreateUser : User.t → M World (result User.t);
  users_GetUserByID : UUID → M World (result User.t);
  users_GetUserByStripeCustomerID : string → M World (result User.t);
  users_GetUserByEmail : string → M World (result User.t);
  users_UpdateUser : User.t → M World (result User.t);
}.

Class SubscriptionRepository := {
  subs_CreateSubscription : Subscription.t → M World (result Subscription.t);
  subs_GetSubscriptionByStripeID : string → M World (result Subscription.t);
  subs_GetLatestSubscriptionByUserID : UUID → M World (result Subscription.t);
  subs_UpdateSubscriptionStatus : SubscriptionStatusUpdate.t → M World (result Subscription.t);
  subs_RecordInvoicePayment : InvoicePaymentUpdate.t → M World (result Subscription.t);
  subs_CountInDunning : M World (result Z);
}.

Class WebhookRepository := {
  hooks_TryClaimEvent : ProcessedWebhook.t → M World (result (bool * ProcessedWebhook.t));
  hooks_MarkEventProcessed : string → M World (result unit);
  hooks_MarkEventSkipped : string → string → M World (result unit);
  hooks_MarkEventFailed : string → option error → M World (result unit);
  hooks_ReclaimAbandonedEvents : Duration → Z → M World (result (list string));
  hooks_ListRetryableEvents : RetryQuery → M World (result (list ProcessedWebhook.t));
  hooks_ClaimEventForRetry : string → Z → M World (result bool);
  hooks_GetLedgerStats : Z → M World (result LedgerStats);
  hooks_PurgePayloads : PurgeQuery → M World (result PurgeResult);
  hooks_GetRetentionStats : PurgeQuery → M World (result RetentionStats);
}.

Class RefreshTokenRepository := {
  tokens_CreateRefreshToken : RefreshToken.t → M World (result RefreshToken.t);
  tokens_ConsumeRefreshToken : ConsumeRefreshToken.t → M World (result RefreshToken.t);
  tokens_RevokeFamily : UUID → string → M World (result Z);
  tokens_RevokeFamilyByToken : string → string → M World (result Z);
  tokens_RevokeAllForUser : UUID → string → M World (result Z);
  tokens_DeleteExpiredRefreshTokens : Duration → Z → M World (result Z);
}.

(** ** The PostgreSQL implementation *)

Section Postgres.
Context `{GoUnicode, Postgres}.

Definition UserRepo : UserRepository := {|
  users_CreateUser := CreateUser;
  users_GetUserByID := GetUserByID;
  users_GetUserByStripeCustomerID := GetUserByStripeCustomerID;
  users_GetUserByEmail := GetUserByEmail;
  users_UpdateUser := UpdateUser;
|}.

Definition SubscriptionRepo : SubscriptionRepository := {|
  subs_CreateSubscription := CreateSubscription;
  subs_GetSubscriptionByStripeID := GetSubscriptionByStripeID;
  subs_GetLatestSubscriptionByUserID := GetLatestSubscriptionByUserID;
  subs_UpdateSubscriptionStatus := UpdateSubscriptionStatus;
  subs_RecordInvoicePayment := RecordInvoicePayment;
  subs_CountInDunning := CountInDunning;
|}.

Definition RefreshTokenRepo : RefreshTokenRepository := {|
  tokens_CreateRefreshToken := CreateRefreshToken;
  tokens_ConsumeRefreshToken := RefreshTokenRepo.ConsumeRefreshToken;
  tokens_RevokeFamily := RevokeFamily;
  tokens_RevokeFamilyByToken := RevokeFamilyByToken;
  tokens_RevokeAllForUser := RevokeAllForUser;
  tokens_DeleteExpiredRefreshTokens := DeleteExpiredRefreshTokens;
|}.

(** [NewWebhookRepo(pool, d)]. *)
Definition WebhookRepo_of (d : Duration) : WebhookRepository := {|
  hooks_TryClaimEvent := TryClaimEvent (NewWebhookRepo d);
  hooks_MarkEventProcessed := MarkEventProcessed;
  hooks_MarkEventSkipped := MarkEventSkipped;
  hooks_MarkEventFailed := MarkEventFailed;
  hooks_ReclaimAbandonedEvents := ReclaimAbandonedEvents;
  hooks_ListRetryableEvents := ListRetryableEvents;
  hooks_ClaimEventForRetry := ClaimEventForRetry;
  hooks_GetLedgerStats := GetLedgerStats;
  hooks_PurgePayloads := PurgePayloads;
  hooks_GetRetentionStats := GetRetentionStats;
|}.
End Postgres.

(** ** The contract *)

(** An event's standing: its status, and how often it was attempted. *)
Definition Standing : Type := WebhookStatus * Z.

(** A representation invariant [I], and what a world shows of the ledger, [S]. *)
Section Framed.
Context {X : Type} (I : World → Prop) (S : World → X).

(** A computation that, without faults, keeps the invariant and the ledger. *)
Definition framed {A} (c : M World A) : Prop :=
  ∀ w, quiet w → I w → quiet (c w).2 ∧ I (c w).2 ∧ S (c w).2 = S w.

Lemma framed_ret {A} (a : A) : framed (mret a).
Proof. by intros w. Qed.

Lemma framed_bind {A B} (c : M World A) (k : A → M World B) :
  framed c → (∀ a, framed (k a)) → framed (c ≫= k).
Proof.
  intros Hc Hk w Hq HI. unfold mbind, M_bind. specialize (Hc w Hq HI).
  destruct (c w) as [a w1]. destruct Hc as (Hq1 & HI1 & HS1).
  destruct (Hk a w1 Hq1 HI1) as (? & ? & HS2). split_and!; try done. by rewrite HS2.
Qed.

Lemma framed_bind_ok {A B} (c : M World (result A)) (k : A → M World (result B)) :
  framed c → (∀ a, framed (k a)) → framed (bind_ok c k).
Proof.
  intros Hc Hk. unfold bind_ok. apply framed_bind; [done|]. intros [a|e]; [done|apply framed_ret].
Qed.

End Framed.

(** A settlement of [id] by [c], which must hold the claim. *)
Definition settles (I : World → Prop) (S : World → string → option Standing)
    (id : string) (c : M World (result unit)) (st : WebhookStatus) : Prop :=
  ∀ w n, quiet w → I w → S w id = Some (WebhookProcessing, n) →
    (c w).1 = Ok tt ∧ quiet (c w).2 ∧ I (c w).2 ∧
    S (c w).2 id = Some (st, n) ∧ ∀ k, k ≠ id → S (c w).2 k = S w k.

(** How a ledger is seen: its invariant and its rows. *)
Class LedgerView := {
  led_inv : World → Prop;
  led_rows : World → gmap string Row.t;
}.

Definition led_standing `{LedgerView} (w : World) (id : string) : option Standing :=
  (λ r, (Row.status r, Row.attempts r)) <$> led_rows w !! id.

(** An event's status alone. *)
Definition led_status `{LedgerView} (w : World) (id : string) : option WebhookStatus :=
  fst <$> led_standing w id.

(** The attempt a claim is, of an event that stands so. *)
Definition next_attempt (s : option Standing) : Z :=
  match s with Some (_, n) => n + 1 | None => 1 end.

Class EventLedger (U : UserRepository) (B : SubscriptionRepository) (R : WebhookRepository) := {
  led_view :: LedgerView;
  (* observations outside the tables do not matter *)
  led_metric : ∀ m w, led_inv w → led_inv (add_metric m w) ∧ led_rows (add_metric m w) = led_rows w;
  led_advance : ∀ w, led_inv w → led_inv (advance w) ∧ led_rows (advance w) = led_rows w;
  (* a claim takes the event, or changes no table; it is refused as a duplicate
     only for an event that is settled or held *)
  led_claim : ∀ e w, quiet w → led_inv w →
    let '(r, w') := hooks_TryClaimEvent e w in
    quiet w' ∧ led_inv w' ∧
    match r with
    | Ok (true, e') =>
        led_standing w' (ProcessedWebhook.EventID e) =
          Some (WebhookProcessing, next_attempt (led_standing w (ProcessedWebhook.EventID e))) ∧
        (∀ k, k ≠ ProcessedWebhook.EventID e → led_standing w' k = led_standing w k) ∧
        (∀ n, led_standing w (ProcessedWebhook.EventID e) ≠ Some (WebhookSucceeded, n) ∧
              led_standing w (ProcessedWebhook.EventID e) ≠ Some (WebhookSkipped, n))
    | Ok (false, _) =>
        w_db w' = w_db w ∧ led_standing w' = led_standing w ∧
        led_standing w (ProcessedWebhook.EventID e) ≠ None ∧
        ∀ n, led_standing w (ProcessedWebhook.EventID e) ≠ Some (WebhookFailed, n)
    | Err _ => w_db w' = w_db w ∧ led_standing w' = led_standing w
    end;
  (* settling *)
  led_processed : ∀ id, settles led_inv led_standing id (hooks_MarkEventProcessed id) WebhookSucceeded;
  led_skipped : ∀ id reason,
    settles led_inv led_standing id (hooks_MarkEventSkipped id reason) WebhookSkipped;
  led_failed : ∀ id cause,
    settles led_inv led_standing id (hooks_MarkEventFailed id cause) WebhookFailed;
  (* the sweeper's claim, which a failed event within the budget is always given *)
  led_retry : ∀ id m w, quiet w → led_inv w →
    let '(r, w') := hooks_ClaimEventForRetry id m w in
    quiet w' ∧ led_inv w' ∧
    match r with
    | Ok true => ∃ n, n < m ∧ led_standing w id = Some (WebhookFailed, n) ∧
                 led_standing w' id = Some (WebhookProcessing, n + 1) ∧
                 ∀ k, k ≠ id → led_standing w' k = led_standing w k
    | _ => led_standing w' = led_standing w
    end;
  led_retry_given : ∀ id m n w, quiet w → led_inv w →
    led_standing w id = Some (WebhookFailed, n) → n < m ≤ max_int32 →
    (hooks_ClaimEventForRetry id m w).1 = Ok true;
  (* abandoned claims become failures, and nothing else changes *)
  led_reclaim : ∀ d n w, quiet w → led_inv w →
    let '(r, w') := hooks_ReclaimAbandonedEvents d n w in
    quiet w' ∧ led_inv w' ∧
    ∀ k, led_standing w' k = led_standing w k ∨
         (∃ n, led_standing w k = Some (WebhookProcessing, n) ∧
               led_standing w' k = Some (WebhookFailed, n));
  led_list : ∀ q, framed led_inv led_rows (hooks_ListRetryableEvents q);
  led_stats : ∀ n, framed led_inv led_rows (hooks_GetLedgerStats n);
  (* the other repositories leave the ledger alone *)
  led_GetUserByID : ∀ id, framed led_inv led_rows (users_GetUserByID id);
  led_GetUserByCustomer : ∀ c, framed led_inv led_rows (users_GetUserByStripeCustomerID c);
  led_UpdateUser : ∀ u, framed led_inv led_rows (users_UpdateUser u);
  led_CreateSubscription : ∀ s, framed led_inv led_rows (subs_CreateSubscription s);
  led_UpdateSubscription : ∀ i, framed led_inv led_rows (subs_UpdateSubscriptionStatus i);
  led_RecordInvoice : ∀ i, framed led_inv led_rows (subs_RecordInvoicePayment i);
  led_CountInDunning : framed led_inv led_rows subs_CountInDunning;
}.

Section Status.
Context `{LedgerView}.

Lemma same_rows w w' : led_rows w' = led_rows w → led_standing w' = led_standing w.
Proof. unfold led_standing. by intros ->. Qed.

Lemma same_status w w' : led_standing w' = led_standing w → led_status w' = led_status w.
Proof. unfold led_status. by intros ->. Qed.

Lemma same_status_at w w' id : led_standing w' id = led_standing w id → led_status w' id = led_status w id.
Proof. unfold led_status. by intros ->. Qed.

Lemma status_standing w id st : led_status w id = Some st ↔ ∃ n, led_standing w id = Some (st, n).
Proof.
  unfold led_status. destruct (led_standing w id) as [[s n]|]; simpl; [|naive_solver].
  split; [intros [= ->]; eauto|]. by intros [m [= -> _]].
Qed.

Lemma standing_status w id st n : led_standing w id = Some (st, n) → led_status w id = Some st.
Proof. intros Hs. apply status_standing. eauto. Qed.
End Status.

(** ** The PostgreSQL repositories meet it *)

Section Instance.
Context `{GoUnicode, Postgres} (d : Duration).

(** The ledger is well formed. *)
Definition pg_inv (w : World) : Prop := ledger_ok (processed_webhooks (w_db w)).

Definition pg_rows (w : World) : gmap string Row.t := processed_webhooks (w_db w).

Definition pg_standing (w : World) (id : string) : option Standing :=
  (λ r, (Row.status r, Row.attempts r)) <$> pg_rows w !! id.

Definition pg_framed {A} : M World A → Prop := framed pg_inv pg_rows.

Lemma pg_same w w' : pg_rows w' = pg_rows w → pg_inv w → pg_inv w' ∧ pg_rows w' = pg_rows w.
Proof. intros He Hi. split; [|done]. unfold pg_inv, pg_rows in *. by rewrite He. Qed.

(** A statement that does not write the ledger. *)
Lemma pg_framed_call {A} (op : Call → Tables → pgres A * Tables) :
  (∀ c t, processed_webhooks (op c t).2 = processed_webhooks t) → pg_framed (db_call op).
Proof.
  intros Hop w Hq HI. rewrite db_call_quiet by done. simpl.
  split; [auto with sps|]. apply pg_same; [|done]. simpl. apply Hop.
Qed.

Lemma pg_framed_tx {A} op (body : M World (result A)) : pg_framed body → pg_framed (in_tx op body).
Proof.
  intros Hb w Hq HI. rewrite in_tx_quiet by done.
  destruct (Hb (advance w) (quiet_advance w Hq) HI) as (Hq1 & HI1 & HS1).
  destruct (body (advance w)) as [[a|e] w1]; simpl in *; [|by split_and!].
  rewrite tx_commit_quiet by done. simpl. split_and!; auto with sps.
Qed.

Lemma update_sub_stmt_ledger sid f c t :
  processed_webhooks (update_sub_stmt sid f c t).2 = processed_webhooks t.
Proof. unfold update_sub_stmt. repeat case_match; done. Qed.

Lemma pg_framed_guarded op sid cursor at_ f :
  pg_framed (in_tx op (guarded_body op sid cursor at_ f)).
Proof.
  apply pg_framed_tx, framed_bind; [by apply pg_framed_call|].
  intros [a|e]; [|apply framed_ret]. case_match; [apply framed_ret|].
  apply framed_bind; [apply pg_framed_call, update_sub_stmt_ledger|]. intros r. apply framed_ret.
Qed.

Lemma pg_framed_map {A B} (op : Call → Tables → pgres A * Tables) (k : pgres A → B) :
  (∀ c t, processed_webhooks (op c t).2 = processed_webhooks t) →
  pg_framed (r ← db_call op; mret (k r)).
Proof. intros. apply framed_bind; [by apply pg_framed_call|]. intros. apply framed_ret. Qed.

Lemma pg_UpdateUser u : pg_framed (UpdateUser u).
Proof.
  unfold UpdateUser. destruct (User.Validate u) as [u' [e|]]; [apply framed_ret|].
  case_bool_decide; [apply framed_ret|]. apply framed_bind; [|intros []; apply framed_ret].
  apply pg_framed_call. intros c t. unfold update_user_stmt. repeat case_match; done.
Qed.

Lemma pg_CreateSubscription s : pg_framed (CreateSubscription s).
Proof.
  unfold CreateSubscription. case_match; [apply framed_ret|].
  apply framed_bind; [|intros []; apply framed_ret].
  apply pg_framed_call. intros c t. unfold create_subscription_stmt. repeat case_match; done.
Qed.

(** A settlement whose statement has the effect of [settle_effect]. *)
Lemma pg_settles id st e op (stmt : Call → Tables → pgres Z * Tables) :
  (∀ c t, ledger_ok (processed_webhooks t) → stmt c t = settle_effect id st e c t) →
  (∀ c t, ledger_ok (processed_webhooks t) → ledger_ok (processed_webhooks (stmt c t).2)) →
  settles pg_inv pg_standing id (r ← db_call stmt; mret (settle_result op id r)) st.
Proof.
  intros Heff Hok w n Hq HI HS. unfold_monad. rewrite db_call_quiet by done. cbn [fst snd].
  specialize (Hok (call_of w) (w_db w) HI). unfold pg_inv, pg_standing, pg_rows in *. simpl.
  rewrite Heff in Hok |- * by done. unfold settle_effect in *.
  destruct (processed_webhooks (w_db w) !! id) as [r|] eqn:Hr; [|done].
  injection HS as HS Hn. unfold is_status in *. rewrite HS, bool_decide_eq_true_2 in * by done.
  simpl in *. split_and!; auto with sps.
  - rewrite lookup_insert_eq. simpl. unfold settled_row. rewrite touch_status, touch_attempts.
    simpl. by rewrite Hn.
  - intros k Hk. by rewrite lookup_insert_ne.
Qed.

Lemma pg_claim e w :
  quiet w → pg_inv w →
  let '(r, w') := TryClaimEvent (NewWebhookRepo d) e w in
  quiet w' ∧ pg_inv w' ∧
  match r with
  | Ok (true, e') =>
      pg_standing w' (ProcessedWebhook.EventID e) =
        Some (WebhookProcessing, next_attempt (pg_standing w (ProcessedWebhook.EventID e))) ∧
      (∀ k, k ≠ ProcessedWebhook.EventID e → pg_standing w' k = pg_standing w k) ∧
      (∀ n, pg_standing w (ProcessedWebhook.EventID e) ≠ Some (WebhookSucceeded, n) ∧
            pg_standing w (ProcessedWebhook.EventID e) ≠ Some (WebhookSkipped, n))
  | Ok (false, _) =>
      w_db w' = w_db w ∧ pg_standing w' = pg_standing w ∧
      pg_standing w (ProcessedWebhook.EventID e) ≠ None ∧
      ∀ n, pg_standing w (ProcessedWebhook.EventID e) ≠ Some (WebhookFailed, n)
  | Err _ => w_db w' = w_db w ∧ pg_standing w' = pg_standing w
  end.
Proof.
  intros Hq HI. unfold TryClaimEvent. destruct (ProcessedWebhook.Validate e); [done|].
  unfold_monad. rewrite db_call_quiet by done. cbn [fst snd].
  pose proof (claim_stmt_ok (NewWebhookRepo d) e (call_of w) (w_db w) HI) as Hok.
  pose proof (claim_refused (NewWebhookRepo d) e (call_of w) (w_db w)) as Href.
  destruct (claim_stmt _ _ _ _) as [r t'] eqn:Hc. simpl in Hok, Href |- *.
  apply claim_stmt_cases in Hc as [[-> [x ->]]|(new & -> & _ & -> & Hnew)].
  - destruct x; simpl; split_and!; auto with sps; unfold pg_standing, pg_rows;
      destruct (Href eq_refl) as (old & -> & Hn); [done|].
    intros n [= He _]. unfold reclaimable in Hn. by rewrite (proj2 (is_status_true _ _) He) in Hn.
  - simpl. split; [auto with sps|]. split; [done|]. unfold pg_standing, pg_rows. simpl.
    rewrite lookup_insert_eq. simpl. split_and!; [|intros k Hk; by rewrite lookup_insert_ne|].
    + destruct Hnew as [(Hn & _ & -> & -> & _)|(old & Ho & Hrec & ->)]; autorewrite with row; simpl.
      * by rewrite Hn.
      * by rewrite Ho.
    + intros n. destruct Hnew as [(Hn & _)|(old & Ho & Hrec & _)]; [by rewrite Hn|].
      apply reclaimable_true in Hrec. rewrite Ho. simpl.
      split; intros [= He _]; destruct Hrec as [|[? _]]; status_clash.
Qed.

Lemma pg_retry id m w :
  quiet w → pg_inv w →
  let '(r, w') := ClaimEventForRetry id m w in
  quiet w' ∧ pg_inv w' ∧
  match r with
  | Ok true => ∃ n, n < m ∧ pg_standing w id = Some (WebhookFailed, n) ∧
               pg_standing w' id = Some (WebhookProcessing, n + 1) ∧
               ∀ k, k ≠ id → pg_standing w' k = pg_standing w k
  | _ => pg_standing w' = pg_standing w
  end.
Proof.
  intros Hq HI. unfold ClaimEventForRetry. unfold_monad. rewrite db_call_quiet by done. cbn [fst snd].
  pose proof (exec_ledger_ok (call_of w) (OpRetry id m) (w_db w) HI) as Hok. simpl in Hok.
  destruct (claim_retry_stmt id m _ _) as [r t'] eqn:Hc. simpl in Hok |- *.
  split; [auto with sps|]. split; [done|].
  apply update_hook_cases in Hc as [[-> Hne]|(old & Ho & HP & -> & _ & ->)].
  - destruct r as [z|x]; simpl; [|done]. destruct (Z.eqb_spec z 1); [subst; done|done].
  - simpl. apply andb_true_iff in HP as [HP%is_status_true Hlt%Z.ltb_lt].
    exists (Row.attempts old). unfold pg_standing, pg_rows. simpl.
    rewrite Ho, lookup_insert_eq. simpl. autorewrite with row. rewrite HP. split_and!; try done.
    intros k Hk. by rewrite lookup_insert_ne.
Qed.

Lemma pg_retry_given id m n w :
  quiet w → pg_inv w → pg_standing w id = Some (WebhookFailed, n) → n < m ≤ max_int32 →
  (ClaimEventForRetry id m w).1 = Ok true.
Proof.
  intros Hq HI HS Hn. unfold ClaimEventForRetry. unfold_monad. rewrite db_call_quiet by done.
  cbn [fst snd]. unfold pg_standing, pg_rows in HS.
  destruct (processed_webhooks (w_db w) !! id) as [r|] eqn:Hr; [|done]. injection HS as Hst Ha.
  unfold claim_retry_stmt. rewrite update_hook_total, Hr; [|done|].
  - unfold is_status. rewrite bool_decide_eq_true_2 by done.
    rewrite (proj2 (Z.ltb_lt _ _)) by lia. done.
  - intros x Hok [Hx%is_status_true Hlt%Z.ltb_lt]%andb_true_iff.
    apply row_ok_set_progress; [done|]. pose proof (row_ok_attempts x Hok).
    split_and!; [lia|lia|done|]. right. split; [auto|]. apply row_ok_unprocessed; auto.
Qed.

Lemma pg_reclaim stale n w :
  quiet w → pg_inv w →
  let '(r, w') := ReclaimAbandonedEvents stale n w in
  quiet w' ∧ pg_inv w' ∧
  ∀ k, pg_standing w' k = pg_standing w k ∨
       (∃ a, pg_standing w k = Some (WebhookProcessing, a) ∧ pg_standing w' k = Some (WebhookFailed, a)).
Proof.
  intros Hq HI. unfold ReclaimAbandonedEvents. unfold_monad. rewrite db_call_quiet by done.
  cbn [fst snd]. split; [auto with sps|].
  split; [apply (exec_ledger_ok (call_of w) (OpReclaim stale n) (w_db w) HI)|].
  intros k. pose proof (exec_row_step (call_of w) (OpReclaim stale n) (w_db w) k) as Hs.
  unfold pg_standing, pg_rows. simpl in *.
  inversion Hs; subst; guards; simpl; [by left|right]. autorewrite with row. simpl.
  match goal with Hst : Row.status ?r = _ |- _ => rewrite Hst; by exists (Row.attempts r) end.
Qed.

(** The contract holds of the three repositories together. *)
#[export, refine] Instance pg_ledger : EventLedger UserRepo SubscriptionRepo (WebhookRepo_of d) := {|
  led_view := {| led_inv := pg_inv; led_rows := pg_rows |};
|}.
Proof.
  - done.
  - done.
  - exact pg_claim.
  - intros id. apply (pg_settles _ _ None); intros c t Hok; [by apply mark_processed_effect|].
    by apply (exec_ledger_ok c (OpProcessed id)).
  - intros id reason. apply (pg_settles _ _ (Some (truncate reason))); intros c t Hok;
      [by apply mark_skipped_effect|]. by apply (exec_ledger_ok c (OpSkipped id (truncate reason))).
  - intros id cause. apply (pg_settles _ _ (Some (failureReason cause))); intros c t Hok;
      [by apply mark_failed_effect|]. by apply (exec_ledger_ok c (OpFailed id (failureReason cause))).
  - exact pg_retry.
  - exact pg_retry_given.
  - exact pg_reclaim.
  - intros q. apply pg_framed_map. intros c t. unfold list_retryable_stmt. by case_match.
  - intros n. by apply pg_framed_map.
  - intros id. by apply pg_framed_map.
  - intros c. by apply pg_framed_map.
  - exact pg_UpdateUser.
  - exact pg_CreateSubscription.
  - intros i. apply pg_framed_guarded.
  - intros i. apply pg_framed_guarded.
  - by apply pg_framed_map.
Defined.

Lemma pg_status w id :
  led_status (H := @led_view _ _ _ pg_ledger) w id = Row.status <$> processed_webhooks (w_db w) !! id.
Proof. unfold led_status, led_standing. simpl. unfold pg_rows. by destruct (_ !! id). Qed.
End Instance.
