(* ===== verification/WebhookService.v ===== *)
(** * internal/service/webhook_service.go

    The use case at the heart of the program: authenticate a delivery, claim
    it, dispatch it to the handler of its type, settle it.  The service is
    written against the repository interfaces of [Ports]; log lines are not
    modelled, metric observations are. *)

From S2P Require Import Prelude GoStd Strconv Domain Database WebhookRepo SubscriptionRepo StripeClient.
From S2P Require Import Ports.
Open Scope Z_scope.

(** ** Outcomes *)

Inductive Outcome :=
  | OutcomeProcessed | OutcomeDuplicate | OutcomeSkipped | OutcomeStale | OutcomeFailed.

#[global] Instance Outcome_eq_dec : EqDecision Outcome.
Proof. solve_decision. Defined.

Definition Outcome_string (o : Outcome) : string :=
  match o with
  | OutcomeProcessed => "processed"
  | OutcomeDuplicate => "duplicate"
  | OutcomeSkipped => "skipped"
  | OutcomeStale => "stale"
  | OutcomeFailed => "failed"
  end.

Definition Acknowledge (o : Outcome) : bool := negb (bool_decide (o = OutcomeFailed)).

Definition handledEventTypes : list string := [
  "checkout.session.completed";
  "customer.subscription.updated";
  "customer.subscription.deleted";
  "customer.subscription.created";
  "customer.subscription.paused";
  "customer.subscription.resumed";
  "invoice.payment_failed";
  "invoice.payment_succeeded"
].

Definition handled (eventType : string) : bool := one_of eventType handledEventTypes.

(** ** Mapping Stripe objects *)

Definition unixPtr (sec : Z) : option Time := if sec <=? 0 then None else Some (time_Unix sec).

Definition customerIDOf (c : option string) : string := default "" c.

Definition ensureCanceledAt (status : SubscriptionStatus) (at_ : option Time) (fallback : Time)
    : option Time :=
  if bool_decide (status = SubscriptionCanceled) && bool_decide (at_ = None)
  then Some fallback else at_.

(** A pointer to a non-empty id. *)
Definition idPtr (o : option string) : option string :=
  match o with
  | Some id => if bool_decide (id = "") then None else Some id
  | None => None
  end.

Definition primaryItem (sub : SDK.Subscription.t) : result SDK.SubscriptionItem.t :=
  match SDK.Subscription.Items sub with
  | Some (item :: _) => Ok item
  | _ => Err (errors_New ("subscription " +:+ SDK.Subscription.ID sub +:+ " carries no items"))
  end.

Definition subscriptionFrom (userID : UUID) (sub : SDK.Subscription.t) (event : SDK.Event.t)
    : result Subscription.t :=
  match primaryItem sub with
  | Err e => Err e
  | Ok item =>
    match SDK.SubscriptionItem.Price item with
    | None => Err (errors_New ("subscription " +:+ SDK.Subscription.ID sub +:+ " item carries no price"))
    | Some price =>
      let eventAt := time_Unix (SDK.Event.Created event) in
      let status := SDK.Subscription.Status sub in
      let quantity := int32 (SDK.SubscriptionItem.Quantity item) in
      Ok (Subscription.mk uuid_Nil userID (SDK.Subscription.ID sub)
        (customerIDOf (SDK.Subscription.Customer sub)) (SDK.Price.ID price)
        (idPtr (SDK.Price.Product price))
        status
        (if quantity <=? 0 then 1 else quantity)
        (idPtr (Some (SDK.Price.Currency price)))
        (if 0 <? SDK.Price.UnitAmount price then Some (SDK.Price.UnitAmount price) else None)
        (time_Unix (SDK.SubscriptionItem.CurrentPeriodStart item))
        (time_Unix (SDK.SubscriptionItem.CurrentPeriodEnd item))
        (SDK.Subscription.CancelAtPeriodEnd sub)
        (unixPtr (SDK.Subscription.CancelAt sub))
        (ensureCanceledAt status (unixPtr (SDK.Subscription.CanceledAt sub)) eventAt)
        (unixPtr (SDK.Subscription.EndedAt sub))
        (unixPtr (SDK.Subscription.TrialStart sub))
        (unixPtr (SDK.Subscription.TrialEnd sub))
        None None None 0 None None None None
        (Some (SDK.Event.ID event)) (Some eventAt)
        (SDK.Subscription.Metadata sub) time_zero time_zero)
    end
  end.

(** ** Invoices *)

Definition line_subscription (line : option (option string)) : string :=
  match line with Some (Some id) => id | _ => "" end.

Definition subscriptionIDOf (invoice : SDK.Invoice.t) : string :=
  let parent := match SDK.Invoice.Parent invoice with Some (Some (Some id)) => id | _ => "" end in
  if bool_decide (parent = "") then
    match SDK.Invoice.Lines invoice with
    | Some lines =>
        default "" (head (filter (λ id, id ≠ "") (line_subscription <$> lines)))
    | None => ""
    end
  else parent.

Definition declineReason (invoice : SDK.Invoice.t) : string :=
  match SDK.Invoice.LastFinalizationError invoice with
  | None => ""
  | Some err =>
    if negb (bool_decide (SDK.Error.DeclineCode err = ""))
    then SDK.Error.DeclineCode err +:+ ": " +:+ SDK.Error.Msg err
    else if negb (bool_decide (SDK.Error.Code err = ""))
    then SDK.Error.Code err +:+ ": " +:+ SDK.Error.Msg err
    else SDK.Error.Msg err
  end.

Definition invoiceUpdateFrom (invoice : SDK.Invoice.t) (event : SDK.Event.t) (succeeded : bool)
    : InvoicePaymentUpdate.t :=
  InvoicePaymentUpdate.mk (subscriptionIDOf invoice) succeeded (SDK.Event.ID event)
    (time_Unix (SDK.Event.Created event))
    (idPtr (Some (SDK.Invoice.ID invoice)))
    (if succeeded then None else idPtr (Some (declineReason invoice)))
    (unixPtr (SDK.Invoice.NextPaymentAttempt invoice))
    (if succeeded then unixPtr (SDK.Invoice.PeriodStart invoice) else None)
    (if succeeded then unixPtr (SDK.Invoice.PeriodEnd invoice) else None).

(** ** The service *)

(** [WebhookService], less its ports: the Stripe client, and whether a metrics
    registry is attached. *)
Record WebhookService := mkWebhookService { svc_stripe : Client.t; svc_metrics : bool }.

Definition NewWebhookService (stripe : Client.t) : WebhookService := mkWebhookService stripe false.

Definition WebhookService_WithMetrics (s : WebhookService) : WebhookService :=
  mkWebhookService (svc_stripe s) true.

Section Service.
Context `{GoUnicode, StripeSDK, UserRepository, SubscriptionRepository, WebhookRepository}.
Context (s : WebhookService).

Definition statusUpdateFrom (sub : SDK.Subscription.t) (event : SDK.Event.t) (deleted : bool)
    : result SubscriptionStatusUpdate.t :=
  match primaryItem sub with
  | Err e => Err e
  | Ok item =>
    let status := if deleted then SubscriptionCanceled else SDK.Subscription.Status sub in
    if negb (SubscriptionStatus_Valid status)
    then Err (errors_New ("subscription " +:+ SDK.Subscription.ID sub +:+ " has unknown status " +:+
               Quote (SDK.Subscription.Status sub)))
    else
      let eventAt := time_Unix (SDK.Event.Created event) in
      Ok (SubscriptionStatusUpdate.mk (SDK.Subscription.ID sub) status (SDK.Event.ID event) eventAt
        (unixPtr (SDK.SubscriptionItem.CurrentPeriodStart item))
        (unixPtr (SDK.SubscriptionItem.CurrentPeriodEnd item))
        (Some (SDK.Subscription.CancelAtPeriodEnd sub))
        (unixPtr (SDK.Subscription.CancelAt sub))
        (ensureCanceledAt status (unixPtr (SDK.Subscription.CanceledAt sub)) eventAt)
        (unixPtr (SDK.Subscription.EndedAt sub))
        (unixPtr (SDK.Subscription.TrialEnd sub))
        (match SDK.SubscriptionItem.Price item with
         | Some price => idPtr (Some (SDK.Price.ID price))
         | None => None
         end)
        (if 0 <? SDK.SubscriptionItem.Quantity item
         then Some (int32 (SDK.SubscriptionItem.Quantity item)) else None)
        (idPtr (SDK.Subscription.LatestInvoice sub))
        (idPtr (SDK.Subscription.DefaultPaymentMethod sub)))
  end.

Definition observe (eventType outcome : string) (started : Time) : M World unit :=
  if svc_metrics s
  then modify (λ w, add_metric (ObserveWebhook eventType outcome (Seconds (w_now w - started))) w)
  else mret tt.

(** [(Outcome, error)]. *)
Definition Handled : Type := M World (Outcome * option error).

Definition fail (e : error) : Handled := mret (OutcomeFailed, Some e).
Definition done_ (o : Outcome) : Handled := mret (o, None).

(** *** Users *)

Definition lookupByCustomer (customerID : string) : M World (result (option User.t)) :=
  if bool_decide (customerID = "") then mret (Ok None)
  else
    r ← users_GetUserByStripeCustomerID customerID;
    mret (match r with
          | Ok user => Ok (Some user)
          | Err e => if errors_Is e ErrNotFound then Ok None
                     else Err (wrapf "look up user by customer" e)
          end).

Definition resolveUser (clientRef customerID : string) (metadata : gmap string string)
    : M World (result (option User.t)) :=
  let candidate := if bool_decide (clientRef = "") then default "" (metadata !! "user_id")
                   else clientRef in
  match (if bool_decide (candidate = "") then None else uuid_Parse candidate) with
  | Some id =>
    r ← users_GetUserByID id;
    match r with
    | Ok user => mret (Ok (Some user))
    | Err e => if negb (errors_Is e ErrNotFound)
               then mret (Err (wrapf ("look up user " +:+ uuid_String id) e))
               else lookupByCustomer customerID
    end
  | None => lookupByCustomer customerID
  end.

Definition linkCustomer (user : User.t) (customerID : string) : M World (option error) :=
  if bool_decide (customerID = "") then mret None
  else match User.StripeCustomerID user with
  | Some _ => mret None
  | None =>
    r ← users_UpdateUser (User.set_StripeCustomerID (Some customerID) user);
    mret (match r with
          | Ok _ => None
          | Err e => if errors_Is e ErrConflict then None
                     else Some (wrapf "link stripe customer to user" e)
          end)
  end.

(** *** Subscriptions *)

Definition upsertSubscription (userID : UUID) (sub : SDK.Subscription.t) (event : SDK.Event.t)
    : Handled :=
  match subscriptionFrom userID sub event with
  | Err e => fail e
  | Ok record =>
    r ← subs_CreateSubscription record;
    match r with
    | Ok _ => done_ OutcomeProcessed
    | Err e =>
      if errors_Is e ErrConflict then
        match statusUpdateFrom sub event false with
        | Err uerr => fail uerr
        | Ok update =>
          u ← subs_UpdateSubscriptionStatus update;
          match u with
          | Ok _ => done_ OutcomeProcessed
          | Err uerr =>
            if errors_Is uerr ErrStaleEvent then done_ OutcomeStale
            else fail (wrapf ("update existing subscription " +:+ SDK.Subscription.ID sub) uerr)
          end
        end
      else fail (wrapf ("create subscription " +:+ SDK.Subscription.ID sub) e)
    end
  end.

Definition createFromEvent (sub : SDK.Subscription.t) (event : SDK.Event.t) : Handled :=
  r ← resolveUser "" (customerIDOf (SDK.Subscription.Customer sub)) (SDK.Subscription.Metadata sub);
  match r with
  | Err e => fail e
  | Ok None => done_ OutcomeSkipped
  | Ok (Some user) =>
    u ← upsertSubscription (User.ID user) sub event;
    match u with
    | (_, Some e) => fail e
    | (_, None) => done_ OutcomeProcessed
    end
  end.

Definition handleSubscriptionChanged (event : SDK.Event.t) (deleted : bool) : Handled :=
  match UnmarshalSubscription (SDK.Event.Raw event) with
  | inr text => fail (wrapf "decode subscription" (errors_New text))
  | inl sub =>
    if bool_decide (SDK.Subscription.ID sub = "")
    then fail (errors_New "subscription event carried no subscription id")
    else match statusUpdateFrom sub event deleted with
    | Err e => fail e
    | Ok update =>
      r ← subs_UpdateSubscriptionStatus update;
      match r with
      | Ok _ => done_ OutcomeProcessed
      | Err e =>
        if errors_Is e ErrStaleEvent then done_ OutcomeStale
        else if errors_Is e ErrNotFound then createFromEvent sub event
        else fail (wrapf ("update subscription " +:+ SDK.Subscription.ID sub) e)
      end
    end
  end.

Definition handleCheckoutCompleted (event : SDK.Event.t) : Handled :=
  match UnmarshalCheckoutSession (SDK.Event.Raw event) with
  | inr text => fail (wrapf "decode checkout session" (errors_New text))
  | inl session =>
    if negb (bool_decide (SDK.CheckoutSession.Mode session = CheckoutSessionModeSubscription))
    then done_ OutcomeSkipped
    else match idPtr (SDK.CheckoutSession.Subscription session) with
    | None => done_ OutcomeSkipped
    | Some subscriptionID =>
      let customerID := customerIDOf (SDK.CheckoutSession.Customer session) in
      r ← resolveUser (SDK.CheckoutSession.ClientReferenceID session) customerID
            (SDK.CheckoutSession.Metadata session);
      match r with
      | Err e => fail e
      | Ok None => done_ OutcomeSkipped
      | Ok (Some user) =>
        l ← linkCustomer user customerID;
        match l with
        | Some e => fail e
        | None =>
          g ← GetSubscription subscriptionID;
          match g with
          | Err e => fail e
          | Ok sub =>
            u ← upsertSubscription (User.ID user) sub event;
            match u with
            | (_, Some e) => fail e
            | (_, None) => done_ OutcomeProcessed
            end
          end
        end
      end
    end
  end.

Definition handleInvoicePayment (event : SDK.Event.t) (succeeded : bool) : Handled :=
  match UnmarshalInvoice (SDK.Event.Raw event) with
  | inr text => fail (wrapf "decode invoice" (errors_New text))
  | inl invoice =>
    let subscriptionID := subscriptionIDOf invoice in
    if bool_decide (subscriptionID = "") then done_ OutcomeSkipped
    else
      r ← subs_RecordInvoicePayment (invoiceUpdateFrom invoice event succeeded);
      match r with
      | Ok _ => done_ OutcomeProcessed
      | Err e =>
        if errors_Is e ErrStaleEvent then done_ OutcomeStale
        else if errors_Is e ErrNotFound then done_ OutcomeSkipped
        else fail (wrapf ("record invoice payment for " +:+ subscriptionID) e)
      end
  end.

Definition dispatch (event : SDK.Event.t) : Handled :=
  let ty := SDK.Event.Type_ event in
  if bool_decide (ty = "checkout.session.completed") then handleCheckoutCompleted event
  else if bool_decide (ty = "customer.subscription.deleted") then handleSubscriptionChanged event true
  else if bool_decide (ty = "invoice.payment_succeeded") then handleInvoicePayment event true
  else if bool_decide (ty = "invoice.payment_failed") then handleInvoicePayment event false
  else handleSubscriptionChanged event false.

(** *** Processing *)

Definition settleSkipped (eventID reason : string) : Handled :=
  _ ← hooks_MarkEventSkipped eventID reason; done_ OutcomeSkipped.

Definition record_of (event : SDK.Event.t) (payload : string) : ProcessedWebhook.t :=
  ProcessedWebhook.mk (SDK.Event.ID event) (SDK.Event.Type_ event)
    (idPtr (Some (SDK.Event.APIVersion event))) (SDK.Event.Livemode event)
    (idPtr (SDK.Event.Request event)) "" 0 None payload
    (time_Unix (SDK.Event.Created event)) time_zero None time_zero time_zero.

(** The part of [ProcessEvent] after the claim was taken. *)
Definition apply_claimed (event : SDK.Event.t) (started : Time) : Handled :=
  if negb (handled (SDK.Event.Type_ event))
  then settleSkipped (SDK.Event.ID event) "event type not subscribed"
  else
    h ← dispatch event;
    match h with
    | (_, Some err) =>
      _ ← hooks_MarkEventFailed (SDK.Event.ID event) (Some err);
      _ ← observe (SDK.Event.Type_ event) (Outcome_string OutcomeFailed) started;
      fail err
    | (OutcomeSkipped, None) =>
      settleSkipped (SDK.Event.ID event) "no action required for this event"
    | (outcome, None) =>
      _ ← hooks_MarkEventProcessed (SDK.Event.ID event);
      _ ← observe (SDK.Event.Type_ event) (Outcome_string outcome) started;
      done_ outcome
    end.

Definition ProcessEvent (payload signatureHeader : string) : Handled :=
  started ← gets w_now;
  v ← VerifyWebhook (svc_stripe s) payload signatureHeader;
  match v with
  | Err err =>
    _ ← observe "unverified" "signature_rejected" started;
    fail err
  | Ok event =>
    c ← hooks_TryClaimEvent (record_of event payload);
    match c with
    | Err err => fail (wrapf "claim event" err)
    | Ok (false, _) =>
      _ ← observe (SDK.Event.Type_ event) (Outcome_string OutcomeDuplicate) started;
      done_ OutcomeDuplicate
    | Ok (true, _) => apply_claimed event started
    end
  end.

Definition ReplayEvent (record : ProcessedWebhook.t) : Handled :=
  let id := ProcessedWebhook.EventID record in
  if len (ProcessedWebhook.Payload record) =? 0 then
    _ ← hooks_MarkEventSkipped id "payload no longer retained; cannot replay";
    done_ OutcomeSkipped
  else match UnmarshalEvent (ProcessedWebhook.Payload record) with
  | inr _ =>
    _ ← hooks_MarkEventSkipped id "stored payload is not valid Stripe event JSON";
    done_ OutcomeSkipped
  | inl event =>
    if negb (handled (SDK.Event.Type_ event))
    then settleSkipped id "event type not subscribed"
    else
      h ← dispatch event;
      match h with
      | (_, Some err) =>
        _ ← hooks_MarkEventFailed id (Some err);
        fail err
      | (OutcomeSkipped, None) => settleSkipped id "no action required for this event"
      | (outcome, None) => _ ← hooks_MarkEventProcessed id; done_ outcome
      end
  end.
End Service.
