(* ===== verification/Processing.v ===== *)
(** * Webhook processing, end to end

    What [ProcessEvent] and [ReplayEvent] guarantee, proved against the
    contract [EventLedger] and so for any repositories that meet it: nothing
    unauthenticated has an effect, an acknowledged delivery is settled, a
    settled event is never applied again, and a failed one is never lost. *)

From S2P Require Import Prelude GoStd Strconv Domain Database WebhookRepo SubscriptionRepo Subscriptions.
From S2P Require Import StripeClient Ports WebhookService.
Open Scope Z_scope.

(** ** What handlers return *)

Definition handler_result (x : Outcome * option error) : Prop :=
  match x with
  | (o, Some _) => o = OutcomeFailed
  | (o, None) => o = OutcomeProcessed ∨ o = OutcomeSkipped ∨ o = OutcomeStale
  end.

(** Every result of a computation satisfies [P]. *)
Definition returns {A} (P : A → Prop) (c : M World A) : Prop := ∀ w, P (c w).1.

Lemma returns_bind {A B} (P : B → Prop) (c : M World A) (k : A → M World B) :
  (∀ a, returns P (k a)) → returns P (c ≫= k).
Proof. intros Hk w. unfold mbind, M_bind. destruct (c w) as [a w1]. apply Hk. Qed.

Lemma returns_ret {A} (P : A → Prop) a : P a → returns P (mret a).
Proof. by intros HP w. Qed.

Lemma returns_fail e : returns handler_result (fail e).
Proof. by intros w. Qed.

Lemma returns_done o :
  o = OutcomeProcessed ∨ o = OutcomeSkipped ∨ o = OutcomeStale → returns handler_result (done_ o).
Proof. by intros Ho w. Qed.

#[local] Hint Resolve returns_fail returns_done : sps.

(** Follow a handler to its returns. *)
Ltac handler :=
  repeat match goal with
  | |- returns _ (mbind _ _) => apply returns_bind; intros
  | |- returns _ (fail _) => apply returns_fail
  | |- returns _ (done_ _) => apply returns_done; tauto
  | |- returns _ (match ?x with _ => _ end) => destruct x
  | |- returns _ (if ?x then _ else _) => destruct x
  end.

Section Outcomes.
Context `{GoUnicode, StripeSDK, UserRepository, SubscriptionRepository, WebhookRepository}.

Lemma upsert_result uid sub ev : returns handler_result (upsertSubscription uid sub ev).
Proof. unfold upsertSubscription. handler. Qed.

Lemma createFromEvent_result sub ev : returns handler_result (createFromEvent sub ev).
Proof. unfold createFromEvent. handler. Qed.

Lemma subscription_result ev d : returns handler_result (handleSubscriptionChanged ev d).
Proof. unfold handleSubscriptionChanged. handler. apply createFromEvent_result. Qed.

Lemma checkout_result ev : returns handler_result (handleCheckoutCompleted ev).
Proof. unfold handleCheckoutCompleted. handler. Qed.

Lemma invoice_result ev b : returns handler_result (handleInvoicePayment ev b).
Proof. unfold handleInvoicePayment. handler. Qed.

Lemma dispatch_result ev : returns handler_result (dispatch ev).
Proof.
  unfold dispatch. repeat case_match;
    auto using checkout_result, subscription_result, invoice_result.
Qed.
End Outcomes.

(** ** Handlers leave the ledger alone *)

Section Framing.
Context `{GoUnicode, StripeSDK} {U : UserRepository} {B : SubscriptionRepository}
  {R : WebhookRepository} {L : EventLedger U B R}.

Definition keeps {A} : M World A → Prop := framed led_inv led_rows.

Lemma keeps_ret {A} (a : A) : keeps (mret a).
Proof. apply framed_ret. Qed.

Lemma keeps_api {A} (f : nat → A + SDK.err) : keeps (api_call f).
Proof.
  intros w Hq HI. unfold api_call. rewrite (quiet_ctx (advance w)) by auto with sps. simpl.
  split; [auto with sps|]. by apply led_advance.
Qed.

Lemma keeps_observe s a b st : keeps (observe s a b st).
Proof.
  unfold observe. case_match; [|apply keeps_ret]. intros w Hq HI. simpl.
  split; [auto with sps|]. by apply led_metric.
Qed.

Lemma keeps_lookup c : keeps (lookupByCustomer c).
Proof.
  unfold lookupByCustomer. case_match; [apply keeps_ret|].
  apply framed_bind; [apply led_GetUserByCustomer|]. intros. apply keeps_ret.
Qed.

Lemma keeps_resolve ref c m : keeps (resolveUser ref c m).
Proof.
  unfold resolveUser. destruct (if bool_decide _ then None else uuid_Parse _); [|apply keeps_lookup].
  apply framed_bind; [apply led_GetUserByID|]. intros [x|e]; [apply keeps_ret|].
  destruct (negb _); [apply keeps_ret|apply keeps_lookup].
Qed.

Lemma keeps_link u c : keeps (linkCustomer u c).
Proof.
  unfold linkCustomer. repeat case_match; try apply keeps_ret.
  apply framed_bind; [apply led_UpdateUser|]. intros. apply keeps_ret.
Qed.

Lemma keeps_retrieve id : keeps (GetSubscription id).
Proof.
  unfold GetSubscription. case_match; [apply keeps_ret|].
  apply framed_bind; [apply keeps_api|]. intros. apply keeps_ret.
Qed.

#[local] Hint Resolve keeps_ret keeps_api keeps_observe keeps_lookup keeps_resolve keeps_link
  keeps_retrieve led_CreateSubscription led_UpdateSubscription led_RecordInvoice : sps.

(** Follow a computation through calls that are known to keep the ledger. *)
Ltac keeping :=
  repeat match goal with
  | |- keeps (mbind _ ?c) =>
      apply framed_bind; [solve [auto with sps | change (keeps c); auto with sps]|intros]
  | |- keeps (fail _) => apply keeps_ret
  | |- keeps (done_ _) => apply keeps_ret
  | |- keeps (match ?x with _ => _ end) => destruct x
  | |- keeps (if ?x then _ else _) => destruct x
  | |- framed led_inv led_rows _ => fold (@keeps (Outcome * option error))
  end.

Lemma keeps_upsert uid sub ev : keeps (upsertSubscription uid sub ev).
Proof. unfold upsertSubscription. keeping. Qed.

#[local] Hint Resolve keeps_upsert : sps.

Lemma keeps_create sub ev : keeps (createFromEvent sub ev).
Proof. unfold createFromEvent. keeping. Qed.

Lemma keeps_dispatch ev : keeps (dispatch ev).
Proof.
  unfold dispatch, handleCheckoutCompleted, handleSubscriptionChanged, handleInvoicePayment.
  keeping; apply keeps_create.
Qed.
End Framing.

(** ** Theorems *)

Section Guarantees.
Context `{GoUnicode, StripeSDK} {U : UserRepository} {B : SubscriptionRepository}
  {R : WebhookRepository} {L : EventLedger U B R}.
Context (s : WebhookService).

(** The event a delivery carries, if its signature verifies at [w]'s clock. *)
Definition verified (payload header : string) (w : World) : option SDK.Event.t :=
  match ConstructEvent (w_now w) payload header (Client.webhookSecret (svc_stripe s))
          (Client.webhookTolerance (svc_stripe s))
          (Client.ignoreAPIVersionMismatch (svc_stripe s)) with
  | inl ev => Some ev
  | inr _ => None
  end.

Lemma ProcessEvent_verified payload header w ev :
  verified payload header w = Some ev →
  ProcessEvent s payload header w =
    (c ← hooks_TryClaimEvent (record_of ev payload);
     match c with
     | Err err => fail (wrapf "claim event" err)
     | Ok (false, _) =>
       _ ← observe s (SDK.Event.Type_ ev) (Outcome_string OutcomeDuplicate) (w_now w);
       done_ OutcomeDuplicate
     | Ok (true, _) => apply_claimed s ev (w_now w)
     end) w.
Proof.
  unfold verified, ProcessEvent, VerifyWebhook. unfold_monad.
  destruct (ConstructEvent _ _ _ _ _ _); [|done]. by intros [= ->].
Qed.

(** a delivery whose signature does not verify has no effect: it is
    answered with a signature error, and no repository is called, so the
    tables, the clock and the pending calls are untouched. *)
Theorem unverified_no_effect payload header w :
  verified payload header w = None →
  let '((o, e), w') := ProcessEvent s payload header w in
  o = OutcomeFailed ∧ (∃ err, e = Some err ∧ errors_Is err ErrSignatureVerification = true) ∧
  (w' = w ∨ ∃ seconds, w' = add_metric (ObserveWebhook "unverified" "signature_rejected" seconds) w).
Proof.
  unfold verified, ProcessEvent, VerifyWebhook, observe. unfold_monad.
  destruct (ConstructEvent _ _ _ _ _ _); [done|]. intros _.
  destruct (svc_metrics s); simpl; split_and!; eauto.
Qed.

(** Settling an event whose claim is held ends in [st], at the same attempt. *)
Lemma settle_then {A} id (c : M World (result unit)) st (k : M World A) (P : A → Prop) w n :
  settles led_inv led_standing id c st → keeps k → returns P k →
  quiet w → led_inv w → led_standing w id = Some (WebhookProcessing, n) →
  let '(a, w') := (_ ← c; k) w in
  P a ∧ quiet w' ∧ led_inv w' ∧ led_standing w' id = Some (st, n) ∧
  ∀ j, j ≠ id → led_standing w' j = led_standing w j.
Proof.
  intros Hs Hk HP Hq HI HS. destruct (Hs w n Hq HI HS) as (_ & Hq1 & HI1 & HS1 & Ho1).
  unfold mbind, M_bind. destruct (c w) as [r w1]. simpl in *.
  destruct (Hk w1 Hq1 HI1) as (Hq2 & HI2 & HS2). specialize (HP w1).
  destruct (k w1) as [a w2]. simpl in *. rewrite (same_rows _ _ HS2). done.
Qed.

Definition settled_as (o : Outcome) : WebhookStatus :=
  match o with
  | OutcomeSkipped => WebhookSkipped
  | OutcomeFailed => WebhookFailed
  | _ => WebhookSucceeded
  end.

(** What a run that holds the claim on [id] ends with. *)
Definition settled_run (id : string) (w : World) (x : (Outcome * option error) * World) : Prop :=
  let '((o, e), w') := x in
  handler_result (o, e) ∧ quiet w' ∧ led_inv w' ∧
  (∃ n, led_standing w id = Some (WebhookProcessing, n) ∧ led_standing w' id = Some (settled_as o, n)) ∧
  ∀ j, j ≠ id → led_standing w' j = led_standing w j.

Lemma settle_run id (c : M World (result unit)) k o e w :
  settles led_inv led_standing id c (settled_as o) → keeps k → handler_result (o, e) →
  returns (λ x, x = (o, e)) k →
  quiet w → led_inv w → led_status w id = Some WebhookProcessing →
  settled_run id w ((_ ← c; k) w).
Proof.
  intros Hs Hk Hr HP Hq HI [n HS]%status_standing.
  pose proof (settle_then id c (settled_as o) k _ w n Hs Hk HP Hq HI HS) as Hst.
  destruct ((_ ← c; k) w) as [x w']. destruct Hst as (-> & ? & ? & ? & ?).
  split_and!; try done. by exists n.
Qed.

Lemma settled_run_trans id w w1 x :
  led_standing w1 = led_standing w → settled_run id w1 x → settled_run id w x.
Proof. unfold settled_run. intros <-. done. Qed.

(** The statuses a run that holds the claim on [id] leaves. *)
Lemma settled_run_status id w o e w' :
  settled_run id w ((o, e), w') →
  led_status w' id = Some (settled_as o) ∧ ∀ j, j ≠ id → led_status w' j = led_status w j.
Proof.
  intros (_ & _ & _ & (n & _ & Hst) & Ho). split; [by eapply standing_status|].
  intros j Hj. by apply same_status_at, Ho.
Qed.

Lemma keeps_observe_then a b st (k : Handled) : keeps k → keeps (_ ← observe s a b st; k).
Proof. intros. apply framed_bind; [apply keeps_observe|done]. Qed.

Lemma returns_observe_then a b st x (k : Handled) :
  returns (λ y, y = x) k → returns (λ y, y = x) (_ ← observe s a b st; k).
Proof. intros. by apply returns_bind. Qed.

#[local] Hint Resolve keeps_observe_then returns_observe_then : sps.

(** The settlement that ends a run, observed or not. *)
Ltac settle_with o e law :=
  apply (settle_run _ _ _ o e); [apply law| |first [done|simpl; tauto]| |done..];
  [first [apply keeps_ret | apply keeps_observe_then, keeps_ret]
  |first [by intros ? | apply returns_observe_then; by intros ?]].

Lemma apply_claimed_settles ev st w :
  quiet w → led_inv w → led_status w (SDK.Event.ID ev) = Some WebhookProcessing →
  settled_run (SDK.Event.ID ev) w (apply_claimed s ev st w).
Proof.
  intros Hq HI HS. unfold apply_claimed.
  destruct (negb _); [settle_with OutcomeSkipped (@None error) led_skipped|].
  unfold mbind at 1, M_bind at 1.
  pose proof (dispatch_result ev w) as Hres. destruct (keeps_dispatch ev w Hq HI) as (Hq1 & HI1 & HS1).
  destruct (dispatch ev w) as [[o e] w1]. simpl in *.
  apply same_rows in HS1. apply (settled_run_trans _ _ w1); [done|]. rewrite <- (same_status _ _ HS1) in HS.
  destruct e as [err|]; simpl in Hres; [subst; settle_with OutcomeFailed (Some err) led_failed|].
  destruct Hres as [->|[->| ->]].
  - settle_with OutcomeProcessed (@None error) led_processed.
  - settle_with OutcomeSkipped (@None error) led_skipped.
  - settle_with OutcomeStale (@None error) led_processed.
Qed.

(** The claim, then what follows it. *)
Lemma ProcessEvent_cases payload header w ev :
  quiet w → led_inv w → verified payload header w = Some ev →
  let '((o, e), w') := ProcessEvent s payload header w in
  quiet w' ∧ led_inv w' ∧
  (∀ j, j ≠ SDK.Event.ID ev → led_status w' j = led_status w j) ∧
  match o with
  | OutcomeProcessed | OutcomeStale =>
      e = None ∧ led_status w' (SDK.Event.ID ev) = Some WebhookSucceeded
  | OutcomeSkipped => e = None ∧ led_status w' (SDK.Event.ID ev) = Some WebhookSkipped
  | OutcomeDuplicate =>
      e = None ∧ w_db w' = w_db w ∧ led_status w' = led_status w ∧
      led_status w (SDK.Event.ID ev) ≠ None ∧ led_status w (SDK.Event.ID ev) ≠ Some WebhookFailed
  | OutcomeFailed =>
      is_Some e ∧ (led_status w' (SDK.Event.ID ev) = Some WebhookFailed ∨
                   w_db w' = w_db w ∧ led_status w' = led_status w)
  end.
Proof.
  intros Hq HI Hv. rewrite (ProcessEvent_verified _ _ _ ev Hv).
  pose proof (led_claim (record_of ev payload) w Hq HI) as Hc.
  unfold mbind at 1, M_bind at 1. destruct (hooks_TryClaimEvent _ w) as [r w1].
  destruct Hc as (Hq1 & HI1 & Hc). destruct r as [[[] e']|err].
  - destruct Hc as (Hp & Ho & _).
    pose proof (apply_claimed_settles ev (w_now w) w1 Hq1 HI1 (standing_status _ _ _ _ Hp)) as Hrun.
    destruct (apply_claimed s ev (w_now w) w1) as [[o e] w2].
    destruct (settled_run_status _ _ _ _ _ Hrun) as [Hst Hoth]. destruct Hrun as (Hh & ? & ? & _).
    split_and!; try done; [intros j Hj; rewrite Hoth by done; by apply same_status_at, Ho|].
    destruct o, e; simpl in Hh, Hst; naive_solver.
  - destruct Hc as (Hdb & HS%same_status & Hn & Hf).
    assert (led_status w (SDK.Event.ID ev) ≠ None ∧ led_status w (SDK.Event.ID ev) ≠ Some WebhookFailed)
      as [Hn' Hf'] by (split; [by intros ?%fmap_None|intros (n & He)%status_standing; by apply (Hf n)]).
    unfold observe. unfold_monad. destruct (svc_metrics s); simpl.
    + destruct (led_metric (ObserveWebhook (SDK.Event.Type_ ev) "duplicate" (Seconds (w_now w1 - w_now w))) w1 HI1)
        as [HI2 HS2%same_rows%same_status].
      rewrite HS2, HS. split_and!; try done.
    + rewrite HS. split_and!; try done.
  - destruct Hc as (Hdb & HS%same_status). simpl. rewrite HS. split_and!; eauto.
Qed.

(** every way a verified delivery can end.  Acknowledged as processed or
    stale: the event is recorded succeeded.  Skipped: recorded skipped.
    Duplicate: no table changed, and the event was settled or in someone's
    hands.  Failed: recorded failed, or, when the claim itself failed, no
    table changed.  Other events are never affected. *)
Theorem ProcessEvent_outcomes payload header w ev :
  quiet w → led_inv w → verified payload header w = Some ev →
  let '((o, e), w') := ProcessEvent s payload header w in
  quiet w' ∧ led_inv w' ∧
  (∀ j, j ≠ SDK.Event.ID ev → led_status w' j = led_status w j) ∧
  match o with
  | OutcomeProcessed | OutcomeStale =>
      e = None ∧ led_status w' (SDK.Event.ID ev) = Some WebhookSucceeded
  | OutcomeSkipped => e = None ∧ led_status w' (SDK.Event.ID ev) = Some WebhookSkipped
  | OutcomeDuplicate =>
      e = None ∧ w_db w' = w_db w ∧ led_status w' = led_status w ∧
      led_status w (SDK.Event.ID ev) ≠ None ∧ led_status w (SDK.Event.ID ev) ≠ Some WebhookFailed
  | OutcomeFailed =>
      is_Some e ∧ (led_status w' (SDK.Event.ID ev) = Some WebhookFailed ∨
                   w_db w' = w_db w ∧ led_status w' = led_status w)
  end.
Proof. apply ProcessEvent_cases. Qed.

Lemma ReplayEvent_run r w :
  quiet w → led_inv w → led_status w (ProcessedWebhook.EventID r) = Some WebhookProcessing →
  settled_run (ProcessedWebhook.EventID r) w (ReplayEvent r w).
Proof.
  intros Hq HI HS. unfold ReplayEvent.
  destruct (len _ =? 0); [settle_with OutcomeSkipped (@None error) led_skipped|].
  destruct (UnmarshalEvent _) as [ev|]; [|settle_with OutcomeSkipped (@None error) led_skipped].
  destruct (negb _); [settle_with OutcomeSkipped (@None error) led_skipped|].
  unfold mbind at 1, M_bind at 1.
  pose proof (dispatch_result ev w) as Hres. destruct (keeps_dispatch ev w Hq HI) as (Hq1 & HI1 & HS1).
  destruct (dispatch ev w) as [[o e] w1]. simpl in *.
  apply same_rows in HS1. apply (settled_run_trans _ _ w1); [done|]. rewrite <- (same_status _ _ HS1) in HS.
  destruct e as [err|]; simpl in Hres; [subst; settle_with OutcomeFailed (Some err) led_failed|].
  destruct Hres as [->|[->| ->]].
  - settle_with OutcomeProcessed (@None error) led_processed.
  - settle_with OutcomeSkipped (@None error) led_skipped.
  - settle_with OutcomeStale (@None error) led_processed.
Qed.

(** A delivery of an event that is settled. *)
Lemma settled_no_effect payload header w ev :
  quiet w → led_inv w → verified payload header w = Some ev →
  led_status w (SDK.Event.ID ev) = Some WebhookSucceeded ∨
  led_status w (SDK.Event.ID ev) = Some WebhookSkipped →
  let '((o, e), w') := ProcessEvent s payload header w in
  (o = OutcomeDuplicate ∨ o = OutcomeFailed) ∧ w_db w' = w_db w.
Proof.
  intros Hq HI Hv Hset. rewrite (ProcessEvent_verified _ _ _ ev Hv).
  pose proof (led_claim (record_of ev payload) w Hq HI) as Hc.
  unfold mbind at 1, M_bind at 1. destruct (hooks_TryClaimEvent _ w) as [r w1].
  destruct Hc as (_ & _ & Hc). destruct r as [[[] e']|err].
  - destruct Hc as (_ & _ & Hc). destruct Hset as [[n Hs]%status_standing|[n Hs]%status_standing];
      by destruct (Hc n).
  - destruct Hc as (Hdb & _). unfold observe. unfold_monad.
    destruct (svc_metrics s); simpl; auto.
  - destruct Hc as (Hdb & _). simpl. auto.
Qed.



(** a replay of a claimed event always settles it: succeeded, skipped,
    or failed again with its error, whatever its stored payload is. *)
Theorem ReplayEvent_settles r w :
  quiet w → led_inv w → led_status w (ProcessedWebhook.EventID r) = Some WebhookProcessing →
  settled_run (ProcessedWebhook.EventID r) w (ReplayEvent r w).
Proof. apply ReplayEvent_run. Qed.
End Guarantees.

(** ** Mapping Stripe's objects *)

Section Mapping.
Context `{GoUnicode, StripeSDK}.

(** A subscription object as Stripe documents it: an item with a price, a
    positive period and a quantity that fits the column. *)
Definition well_formed (sub : SDK.Subscription.t) : bool :=
  match SDK.Subscription.Items sub with
  | Some (item :: _) =>
      (0 <? SDK.SubscriptionItem.CurrentPeriodStart item) &&
      (SDK.SubscriptionItem.CurrentPeriodStart item <? SDK.SubscriptionItem.CurrentPeriodEnd item) &&
      (SDK.SubscriptionItem.Quantity item <=? max_int32) &&
      match SDK.SubscriptionItem.Price item with
      | Some p => Row.id_format "price_" (SDK.Price.ID p)
      | None => true
      end
  | _ => false
  end.

Lemma ensureCanceledAt_some at_ fallback :
  is_Some (ensureCanceledAt SubscriptionCanceled at_ fallback).
Proof. unfold ensureCanceledAt. destruct at_; simpl; eauto. Qed.

Lemma unixPtr_period a b :
  0 < a → a < b → period_fits (unixPtr a) (unixPtr b) = true.
Proof.
  intros Ha Hb. unfold unixPtr. destruct (Z.leb_spec a 0), (Z.leb_spec b 0); try lia.
  simpl. apply Z.ltb_lt. unfold time_Unix, Second. lia.
Qed.

(** the update built from a subscription event is one the database
    accepts whatever the row holds, up to the trial dates: its status is
    known, a canceled one carries a cancellation time, its period is ordered.
    A deletion is a cancellation, whatever status the object reports. *)
Theorem mapped_update_fits sub ev deleted u :
  well_formed sub = true → statusUpdateFrom sub ev deleted = Ok u →
  status_fits None u = true ∧
  SubscriptionStatusUpdate.StripeSubscriptionID u = SDK.Subscription.ID sub ∧
  SubscriptionStatusUpdate.EventCreatedAt u = time_Unix (SDK.Event.Created ev) ∧
  SubscriptionStatusUpdate.Status u =
    if deleted then SubscriptionCanceled else SDK.Subscription.Status sub.
Proof.
  unfold well_formed, statusUpdateFrom, primaryItem.
  destruct (SDK.Subscription.Items sub) as [[|item items]|]; [done| |done].
  rewrite !andb_true_iff, !Z.ltb_lt, Z.leb_le. intros [[[Hs He] Hq] Hp].
  set (status := if deleted then SubscriptionCanceled else SDK.Subscription.Status sub).
  destruct (SubscriptionStatus_Valid status) eqn:Hv; [|done]. intros [= <-].
  split_and!; try done. unfold status_fits. simpl.
  rewrite Hv, unixPtr_period by done. rewrite !andb_true_iff. split_and!; try done.
  - destruct (decide (status = SubscriptionCanceled)) as [->|Hne].
    + rewrite (bool_decide_eq_true_2 (is_Some _)); [by rewrite orb_true_r|].
      apply ensureCanceledAt_some.
    + by rewrite (bool_decide_eq_false_2 _ Hne).
  - destruct (SDK.SubscriptionItem.Price item) as [p|]; [|done]. simpl. by case_bool_decide.
  - destruct (Z.ltb_spec 0 (SDK.SubscriptionItem.Quantity item)) as [Hq0|]; [|done].
    rewrite int32_id; [by apply Z.ltb_lt|]. lia.
Qed.
End Mapping.

(** ** A deletion seen first *)

Section FirstSeen.
Context `{GoUnicode, StripeSDK, UserRepository, SubscriptionRepository, WebhookRepository}.

(** a [customer.subscription.deleted] event for a subscription that is
    not recorded yet is acknowledged as processed, but the row it creates has
    the status the object reports, not canceled. *)
Theorem deleted_first_seen ev sub u e user rec rec' w w1 w2 w3 :
  UnmarshalSubscription (SDK.Event.Raw ev) = inl sub → SDK.Subscription.ID sub ≠ "" →
  statusUpdateFrom sub ev true = Ok u →
  subs_UpdateSubscriptionStatus u w = (Err e, w1) →
  errors_Is e ErrStaleEvent = false → errors_Is e ErrNotFound = true →
  resolveUser "" (customerIDOf (SDK.Subscription.Customer sub)) (SDK.Subscription.Metadata sub) w1 =
    (Ok (Some user), w2) →
  subscriptionFrom (User.ID user) sub ev = Ok rec →
  subs_CreateSubscription rec w2 = (Ok rec', w3) →
  handleSubscriptionChanged ev true w = ((OutcomeProcessed, None), w3) ∧
  Subscription.Status rec = SDK.Subscription.Status sub.
Proof.
  intros Hdec Hid Hu Hup Hst Hnf Hres Hfrom Hcr. split.
  - unfold handleSubscriptionChanged, createFromEvent, upsertSubscription, mbind, M_bind.
    rewrite Hdec, bool_decide_eq_false_2, Hu, Hup, Hst, Hnf, Hres, Hfrom, Hcr by done. done.
  - revert Hfrom. unfold subscriptionFrom. destruct (primaryItem sub) as [item|]; [|done].
    destruct (SDK.SubscriptionItem.Price item); [|done]. by intros [= <-].
Qed.
End FirstSeen.
