(* ===== verification/Sweeper.v ===== *)
(** * internal/worker/webhook_sweeper.go

    One pass of the sweeper: reclaim abandoned claims, replay failed events,
    report.  The timer loop of [Run] is in Workers.v.  Verified against the
    ledger's contract: a pass leaves nothing it touched in processing, reopens
    nothing that is settled, and counts what it did. *)

From S2P Require Import Prelude GoStd Domain Database WebhookRepo SubscriptionRepo StripeClient.
From S2P Require Import Ports WebhookService Processing.
Open Scope Z_scope.

Module SweeperConfig.
Record t := mk {
  Interval : Duration;
  StaleClaimAfter : Duration;
  MaxAttempts : Z;
  BaseBackoff : Duration;
  MaxBackoff : Duration;
  BatchSize : Z;
  AlertAfter : Duration;
}.

Definition defaultInterval : Duration := Minute.
Definition defaultMaxAttempts : Z := 6.
Definition defaultBaseBackoff : Duration := 30 * Second.
Definition defaultMaxBackoff : Duration := 30 * Minute.
Definition defaultBatchSize : Z := 100.
Definition defaultAlertAfter : Duration := Hour.

(** [if x <= 0 { x = d }]. *)
Definition or_default (x d : Z) : Z := if x <=? 0 then d else x.

Definition withDefaults (c : t) : t :=
  mk (or_default (Interval c) defaultInterval)
     (or_default (StaleClaimAfter c) (5 * Minute))
     (or_default (MaxAttempts c) defaultMaxAttempts)
     (or_default (BaseBackoff c) defaultBaseBackoff)
     (or_default (MaxBackoff c) defaultMaxBackoff)
     (or_default (BatchSize c) defaultBatchSize)
     (or_default (AlertAfter c) defaultAlertAfter).
End SweeperConfig.

Record SweepResult := mkSweepResult {
  Reclaimed : Z; Retried : Z; Recovered : Z; Stats : LedgerStats }.

Definition zeroStats : LedgerStats := mkLedgerStats 0 0 0 None.

(** How [report] logs the state of the ledger. *)
Inductive Alert := AlertClean | AlertDeadLettered | AlertStale | AlertDraining.

(** [WebhookSweeper], less its ports: the configuration, whether a metrics
    registry is attached, and whether a subscription repository came with it. *)
Record WebhookSweeper := mkWebhookSweeper {
  sw_cfg : SweeperConfig.t; sw_metrics : bool; sw_subs : bool }.

Definition NewWebhookSweeper (cfg : SweeperConfig.t) : WebhookSweeper :=
  mkWebhookSweeper (SweeperConfig.withDefaults cfg) false false.

Definition WithMetrics (s : WebhookSweeper) : WebhookSweeper :=
  mkWebhookSweeper (sw_cfg s) true true.

Section Sweep.
Context `{GoUnicode, StripeSDK, UserRepository, SubscriptionRepository, WebhookRepository}.
Context (s : WebhookSweeper).

Definition reclaimAbandoned : M World Z :=
  r ← hooks_ReclaimAbandonedEvents (SweeperConfig.StaleClaimAfter (sw_cfg s))
        (SweeperConfig.BatchSize (sw_cfg s));
  mret (match r with Ok ids => Z.of_nat (length ids) | Err _ => 0 end).

(** The loop of [retryFailed] from the counts reached. *)
Fixpoint retry_loop (events : list ProcessedWebhook.t) (attempted recovered : Z)
    : M World (Z * Z) :=
  match events with
  | [] => mret (attempted, recovered)
  | event :: rest =>
    stop ← gets ctx_done;
    if stop : bool then mret (attempted, recovered)
    else
      c ← hooks_ClaimEventForRetry (ProcessedWebhook.EventID event)
            (SweeperConfig.MaxAttempts (sw_cfg s));
      match c with
      | Err _ => retry_loop rest attempted recovered
      | Ok false => retry_loop rest attempted recovered
      | Ok true =>
        h ← ReplayEvent (ProcessedWebhook.set_Attempts (int32 (ProcessedWebhook.Attempts event + 1)) event);
        let recovered' := match h with
          | (_, Some _) => recovered
          | (OutcomeFailed, None) => recovered
          | (_, None) => recovered + 1
          end in
        retry_loop rest (attempted + 1) recovered'
      end
  end.

Definition retryFailed : M World (Z * Z) :=
  r ← hooks_ListRetryableEvents (mkRetryQuery (SweeperConfig.MaxAttempts (sw_cfg s))
        (SweeperConfig.BaseBackoff (sw_cfg s)) (SweeperConfig.MaxBackoff (sw_cfg s))
        (SweeperConfig.BatchSize (sw_cfg s)));
  match r with
  | Err _ => mret (0, 0)
  | Ok events => retry_loop events 0 0
  end.

Definition alert_of (now : Time) (stats : LedgerStats) : Alert :=
  if LedgerStats_Unsettled stats =? 0 then AlertClean
  else
    let stale := match OldestUnsettled stats with
      | Some t => SweeperConfig.AlertAfter (sw_cfg s) <? now - t
      | None => false
      end in
    if 0 <? DeadLettered stats then AlertDeadLettered
    else if stale then AlertStale else AlertDraining.

Definition publish (stats : LedgerStats) : M World unit :=
  if sw_metrics s then
    _ ← modify (add_metric (SetLedger (Processing stats) (Retryable stats) (DeadLettered stats)));
    if sw_subs s then
      n ← subs_CountInDunning;
      match n with
      | Ok n => modify (add_metric (SetDunning n))
      | Err _ => mret tt
      end
    else mret tt
  else mret tt.

(** The statistics, and the alert that is logged for them. *)
Definition report : M World (LedgerStats * option Alert) :=
  r ← hooks_GetLedgerStats (SweeperConfig.MaxAttempts (sw_cfg s));
  match r with
  | Err _ => mret (zeroStats, None)
  | Ok stats =>
    _ ← publish stats;
    now ← gets w_now;
    mret (stats, Some (alert_of now stats))
  end.

Definition Sweep : M World SweepResult :=
  reclaimed ← reclaimAbandoned;
  counts ← retryFailed;
  stats ← report;
  mret (mkSweepResult reclaimed counts.1 counts.2 stats.1).

Definition HealthCheck : M World (LedgerStats * option error) :=
  r ← hooks_GetLedgerStats (SweeperConfig.MaxAttempts (sw_cfg s));
  mret (match r with
        | Err e => (zeroStats, Some e)
        | Ok stats =>
          if 0 <? DeadLettered stats
          then (stats, Some (sentinelf ErrDeadLettered (Itoa (DeadLettered stats) +:+ " event(s)")))
          else (stats, None)
        end).
End Sweep.

(** ** Guarantees *)

Section Guarantees.
Context `{GoUnicode, StripeSDK} {U : UserRepository} {B : SubscriptionRepository}
  {R : WebhookRepository} {L : EventLedger U B R}.
Context (s : WebhookSweeper).

(** How a pass may move events: nothing settled is reopened, and nothing is
    left in processing that was not there. *)
Definition swept (w w' : World) : Prop :=
  ∀ k, (led_status w' k = Some WebhookProcessing → led_status w k = Some WebhookProcessing) ∧
       (led_status w k = Some WebhookSucceeded → led_status w' k = Some WebhookSucceeded) ∧
       (led_status w k = Some WebhookSkipped → led_status w' k = Some WebhookSkipped) ∧
       (led_status w k = None → led_status w' k = None).

#[global] Instance swept_refl : Reflexive swept.
Proof. intros w k. tauto. Qed.

#[global] Instance swept_trans : Transitive swept.
Proof.
  intros w1 w2 w3 H12 H23 k. destruct (H12 k) as (A1 & A2 & A3 & A4), (H23 k) as (B1 & B2 & B3 & B4).
  tauto.
Qed.

Lemma swept_same w w' : led_status w' = led_status w → swept w w'.
Proof. unfold swept. intros ->. tauto. Qed.

(** A computation that, without faults, only sweeps. *)
Definition sweeps {A} (c : M World A) : Prop :=
  ∀ w, quiet w → led_inv w → quiet (c w).2 ∧ led_inv (c w).2 ∧ swept w (c w).2.

Lemma sweeps_bind {A C} (c : M World A) (k : A → M World C) :
  sweeps c → (∀ a, sweeps (k a)) → sweeps (c ≫= k).
Proof.
  intros Hc Hk w Hq HI. unfold mbind, M_bind. specialize (Hc w Hq HI).
  destruct (c w) as [a w1]. destruct Hc as (Hq1 & HI1 & HS1).
  destruct (Hk a w1 Hq1 HI1) as (? & ? & HS2). split_and!; try done. by transitivity w1.
Qed.

Lemma keeps_sweeps {A} (c : M World A) : keeps c → sweeps c.
Proof.
  intros Hc w Hq HI. destruct (Hc w Hq HI) as (? & ? & ?). split_and!; try done.
  by apply swept_same, same_status, same_rows.
Qed.

Lemma sweeps_ret {A} (a : A) : sweeps (mret a).
Proof. apply keeps_sweeps, keeps_ret. Qed.

Lemma sweeps_reclaim : sweeps (reclaimAbandoned s).
Proof.
  apply sweeps_bind; [|intros; apply sweeps_ret]. intros w Hq HI.
  pose proof (led_reclaim (SweeperConfig.StaleClaimAfter (sw_cfg s))
    (SweeperConfig.BatchSize (sw_cfg s)) w Hq HI) as Hr.
  destruct (hooks_ReclaimAbandonedEvents _ _ w) as [r w']. destruct Hr as (? & ? & Hk).
  split_and!; try done. intros k. simpl. unfold led_status.
  destruct (Hk k) as [->|(n & -> & ->)]; [tauto|]. split_and!; done.
Qed.

(** One event: claimed and settled again, or left as it was. *)
Lemma replay_after_claim id n ev w w1 :
  quiet w → led_inv w → hooks_ClaimEventForRetry id n w = (Ok true, w1) →
  ProcessedWebhook.EventID ev = id →
  let '(h, w2) := ReplayEvent ev w1 in quiet w2 ∧ led_inv w2 ∧ swept w w2.
Proof.
  intros Hq HI Hc Hid. pose proof (led_retry id n w Hq HI) as Hr. rewrite Hc in Hr.
  destruct Hr as (Hq1 & HI1 & n' & _ & Hf%standing_status & Hp%standing_status & Ho). rewrite <- Hid in Hp.
  pose proof (ReplayEvent_run ev w1 Hq1 HI1 Hp) as Hrun.
  destruct (ReplayEvent ev w1) as [[o e] w2].
  destruct (settled_run_status _ _ _ _ _ Hrun) as [Hst Hoth]. destruct Hrun as (Hres & ? & ? & _).
  split_and!; try done. intros k. rewrite Hid in Hst, Hoth.
  destruct (decide (k = id)) as [->|Hk].
  - rewrite Hf, Hst. split_and!; try done. by destruct o.
  - rewrite Hoth, (same_status_at w w1 k) by auto. tauto.
Qed.

Lemma sweeps_retry_loop events a r : sweeps (retry_loop s events a r).
Proof.
  revert a r. induction events as [|ev events IH]; intros a r; [apply sweeps_ret|].
  assert (∀ a r w w1 x w', swept w w1 → quiet w1 → led_inv w1 →
    retry_loop s events a r w1 = (x, w') → quiet w' ∧ led_inv w' ∧ swept w w') as Hrest.
  { intros a0 r0 w w1 x w' Hsw Hq1 HI1 Hrun. destruct (IH a0 r0 w1 Hq1 HI1) as (HA & HB & HC).
    rewrite Hrun in HA, HB, HC. split_and!; try done. by transitivity w1. }
  intros w Hq HI. destruct (retry_loop s (ev :: events) a r w) as [x w'] eqn:Hrun. simpl.
  cbn [retry_loop] in Hrun. unfold mbind, M_bind, gets in Hrun. rewrite quiet_ctx in Hrun by done.
  pose proof (led_retry (ProcessedWebhook.EventID ev) (SweeperConfig.MaxAttempts (sw_cfg s)) w Hq HI)
    as Hr.
  destruct (hooks_ClaimEventForRetry _ _ w) as [[[]|e] w1] eqn:Hc.
  - pose proof (replay_after_claim _ _
      (ProcessedWebhook.set_Attempts (ProcessedWebhook.Attempts ev + 1) ev) w w1 Hq HI Hc eq_refl) as Hre.
    destruct (ReplayEvent _ w1) as [h w2]. destruct Hre as (Hq2 & HI2 & Hsw).
    by eapply Hrest.
  - destruct Hr as (Hq1 & HI1 & HS%same_status%swept_same). by eapply Hrest.
  - destruct Hr as (Hq1 & HI1 & HS%same_status%swept_same). by eapply Hrest.
Qed.

Lemma keeps_report : keeps (report s).
Proof.
  apply framed_bind; [apply led_stats|]. intros [stats|e]; [|apply keeps_ret].
  apply framed_bind; [|intros; apply framed_bind; [by intros w|intros; apply keeps_ret]].
  unfold publish. destruct (sw_metrics s); [|apply keeps_ret].
  assert (∀ m, keeps (modify (add_metric m))) as Hm
    by (intros m w Hq HI; simpl; split; [auto with sps|by apply led_metric]).
  apply framed_bind; [apply Hm|intros]. destruct (sw_subs s); [|apply keeps_ret].
  apply framed_bind; [apply led_CountInDunning|]. intros [n|e]; [apply Hm|apply keeps_ret].
Qed.

(** A whole pass. *)
Lemma sweeps_Sweep : sweeps (Sweep s).
Proof.
  apply sweeps_bind; [apply sweeps_reclaim|]. intros n.
  apply sweeps_bind; [|intros; apply sweeps_bind; [apply keeps_sweeps, keeps_report|intros; apply sweeps_ret]].
  apply sweeps_bind; [apply keeps_sweeps, led_list|]. intros [events|e]; [|apply sweeps_ret].
  apply sweeps_retry_loop.
Qed.


Lemma retry_loop_counts events a r w a' r' w' :
  retry_loop s events a r w = ((a', r'), w') →
  a ≤ a' ≤ a + Z.of_nat (length events) ∧ r ≤ r' ∧ r' - r ≤ a' - a.
Proof.
  revert a r w. induction events as [|ev events IH]; intros a r w Hrun; cbn [length].
  { injection Hrun as <- <- _. lia. }
  cbn [retry_loop] in Hrun. unfold mbind, M_bind, gets in Hrun.
  destruct (ctx_done w); [injection Hrun as <- <- _; lia|].
  destruct (hooks_ClaimEventForRetry _ _ w) as [[[]|e] w1]; [|apply IH in Hrun; lia..].
  destruct (ReplayEvent _ w1) as [[o [x|]] w2]; destruct o; apply IH in Hrun; lia.
Qed.
End Guarantees.

Section Counts.
Context `{GoUnicode, StripeSDK, Postgres, SubscriptionRepository, UserRepository} (d : Duration).
Context (s : WebhookSweeper).

Lemma list_retryable_length q w ws w' :
  ListRetryableEvents q w = (Ok ws, w') → Z.of_nat (length ws) ≤ Z.max 0 (RetryLimit q).
Proof.
  unfold ListRetryableEvents. unfold_monad.
  destruct (db_call _ w) as [[l|e] w1] eqn:Hc; [|done]. intros [= <- <-].
  apply db_call_ok in Hc as [c Hc]. revert Hc. unfold list_retryable_stmt.
  case_match; [done|]. intros [= <- _]. rewrite !length_fmap. unfold select_rows.
  rewrite length_take. lia.
Qed.

(** The counts a sweep reports are honest, and bounded, under any faults:
    events recovered are among those retried, and a sweep retries no more
    events than its batch size. *)
Theorem sweep_counts w res w' :
  @Sweep _ _ _ _ (WebhookRepo_of d) s w = (res, w') →
  0 ≤ Recovered res ≤ Retried res ∧ Retried res ≤ Z.max 0 (SweeperConfig.BatchSize (sw_cfg s)).
Proof.
  unfold Sweep, retryFailed. unfold mbind, M_bind, mret, M_ret.
  destruct (reclaimAbandoned s w) as [n w1]. simpl.
  destruct (ListRetryableEvents _ w1) as [[events|e] w2] eqn:Hlist.
  - apply list_retryable_length in Hlist. simpl in Hlist.
    destruct (retry_loop s events 0 0 w2) as [[a r] w3] eqn:Hl. apply retry_loop_counts in Hl.
    destruct (report s w3) as [st w4]. intros [= <- <-]. simpl. lia.
  - destruct (report s w2) as [st w4]. intros [= <- <-]. simpl. lia.
Qed.
End Counts.
