(* ===== verification/Recovery.v ===== *)
(** * Failed events are recovered

    The sweeper as a promise: an event that failed, with no delivery to come,
    ends settled or dead-lettered after finitely many passes, whatever each
    replay comes to.  A pass that finds the event due, with a batch that covers
    the backlog, attempts it; every attempt settles it or uses up one of its
    budget. *)

From S2P Require Import Prelude GoStd Domain Database WebhookRepo Ledger SubscriptionRepo StripeClient.
From S2P Require Import Ports WebhookService Processing Sweeper.
Open Scope Z_scope.

(** ** One pass, against the contract *)

(** The event is settled, or has failed with at least [n] attempts made. *)
Definition attempted (n : Z) (s : option Standing) : Prop :=
  match s with
  | Some (st, a) => st = WebhookSucceeded ∨ st = WebhookSkipped ∨ (st = WebhookFailed ∧ n ≤ a)
  | None => False
  end.

Lemma attempted_mono n m s : m ≤ n → attempted n s → attempted m s.
Proof. destruct s as [[st a]|]; simpl; [|done]. intros ? [|[|[? ?]]]; auto. right; right. split; [done|lia]. Qed.

Section Pass.
Context `{GoUnicode, StripeSDK} {U : UserRepository} {B : SubscriptionRepository}
  {R : WebhookRepository} {L : EventLedger U B R}.
Context (s : WebhookSweeper).

(** A claim and its replay, for the event that is claimed and for the others. *)
Lemma replay_standing id m ev w w1 :
  quiet w → led_inv w → hooks_ClaimEventForRetry id m w = (Ok true, w1) →
  ProcessedWebhook.EventID ev = id →
  let w2 := (ReplayEvent ev w1).2 in
  quiet w2 ∧ led_inv w2 ∧
  (∃ n, led_standing w id = Some (WebhookFailed, n) ∧ attempted (n + 1) (led_standing w2 id)) ∧
  ∀ k, k ≠ id → led_standing w2 k = led_standing w k.
Proof.
  intros Hq HI Hc Hid. pose proof (led_retry id m w Hq HI) as Hr. rewrite Hc in Hr.
  destruct Hr as (Hq1 & HI1 & n & _ & Hf & Hp & Ho).
  rewrite <- Hid in Hp.
  pose proof (ReplayEvent_run ev w1 Hq1 HI1 (standing_status _ _ _ _ Hp)) as Hrun.
  destruct (ReplayEvent ev w1) as [[o e] w2]. destruct Hrun as (Hres & Hq2 & HI2 & (n' & Hp' & Hst) & Hoth).
  rewrite Hid in *. split_and!; [done|done| |].
  - exists n. split; [done|]. rewrite Hp in Hp'. injection Hp' as <-.
    simpl. rewrite Hst. destruct o; simpl; auto. right; right. split; [done|lia].
  - intros k Hk. by rewrite Hoth, Ho.
Qed.

(** What one event's turn in the loop does. *)
Lemma retry_turn ev events a r w :
  quiet w → led_inv w →
  ∃ a' r' w1, retry_loop s (ev :: events) a r w = retry_loop s events a' r' w1 ∧
    quiet w1 ∧ led_inv w1 ∧
    (∀ k, led_standing w1 k = led_standing w k ∨
       k = ProcessedWebhook.EventID ev ∧
       ∃ n, led_standing w k = Some (WebhookFailed, n) ∧ attempted (n + 1) (led_standing w1 k)) ∧
    (∀ n, led_standing w (ProcessedWebhook.EventID ev) = Some (WebhookFailed, n) →
       n < SweeperConfig.MaxAttempts (sw_cfg s) ≤ max_int32 →
       attempted (n + 1) (led_standing w1 (ProcessedWebhook.EventID ev))).
Proof.
  intros Hq HI. set (id := ProcessedWebhook.EventID ev). set (m := SweeperConfig.MaxAttempts (sw_cfg s)).
  cbn [retry_loop]. unfold mbind, M_bind, gets. rewrite quiet_ctx by done.
  pose proof (led_retry id m w Hq HI) as Hr. pose proof (λ n, led_retry_given id m n w Hq HI) as Hg.
  fold id m. set (ev' := ProcessedWebhook.set_Attempts _ ev).
  pose proof (replay_standing id m ev' w) as Hre.
  destruct (hooks_ClaimEventForRetry id m w) as [x w1]. simpl in Hg.
  destruct x as [[]|e].
  - specialize (Hre w1 Hq HI eq_refl eq_refl). destruct (ReplayEvent ev' w1) as [h w2].
    destruct Hre as (Hq2 & HI2 & (n & Hf & Ha) & Ho). do 3 eexists. split_and!; [done..| |].
    + intros k. destruct (decide (k = id)) as [->|Hk]; [right; eauto|left; auto].
    + intros n' Hf' _. rewrite Hf in Hf'. by injection Hf' as <-.
  - destruct Hr as (Hq1 & HI1 & HS). do 3 eexists. split_and!; [done..| |].
    + intros k. left. by rewrite HS.
    + intros n Hf Hn. by specialize (Hg n Hf Hn).
  - destruct Hr as (Hq1 & HI1 & HS). do 3 eexists. split_and!; [done..| |].
    + intros k. left. by rewrite HS.
    + intros n Hf Hn. by specialize (Hg n Hf Hn).
Qed.

(** Through the loop: what was attempted stays so, and what is in the list and
    within the budget is attempted. *)
Lemma loop_attempts events a r w id n :
  quiet w → led_inv w → led_standing w id = Some (WebhookFailed, n) →
  let w' := (retry_loop s events a r w).2 in
  attempted n (led_standing w' id) ∧
  (id ∈ ProcessedWebhook.EventID <$> events → n < SweeperConfig.MaxAttempts (sw_cfg s) ≤ max_int32 →
   attempted (n + 1) (led_standing w' id)).
Proof.
  assert (∀ events a r w k m, quiet w → led_inv w → attempted m (led_standing w k) →
    attempted m (led_standing (retry_loop s events a r w).2 k)) as Hkeep.
  { clear. intros events. induction events as [|ev events IH]; intros a r w k m Hq HI Hm; [done|].
    destruct (retry_turn ev events a r w Hq HI) as (a' & r' & w1 & -> & Hq1 & HI1 & Hk & _).
    apply IH; [done|done|]. destruct (Hk k) as [->|(_ & n & Hf & Ha)]; [done|].
    rewrite Hf in Hm. simpl in Hm. eapply attempted_mono; [|exact Ha].
    destruct Hm as [?|[?|[_ ?]]]; [status_clash..|lia]. }
  intros Hq HI Hf. split.
  { apply Hkeep; [done|done|]. rewrite Hf. simpl. right; right. split; [done|lia]. }
  revert a r w Hq HI Hf. induction events as [|ev events IH]; intros a r w Hq HI Hf Hin Hn.
  { by apply elem_of_nil in Hin. }
  destruct (retry_turn ev events a r w Hq HI) as (a' & r' & w1 & -> & Hq1 & HI1 & Hk & Hturn).
  destruct (decide (id = ProcessedWebhook.EventID ev)) as [->|Hne].
  - apply Hkeep; [done|done|]. by apply Hturn.
  - cbn [fmap list_fmap] in Hin. apply elem_of_cons in Hin as [|Hin]; [done|].
    apply IH; [done|done| |done|done]. destruct (Hk id) as [->|[? _]]; done.
Qed.
End Pass.

(** ** The listing *)

Section Listing.
Context `{GoUnicode, Postgres} (d : Duration).

Definition row_of (w : World) (id : string) : option Row.t := processed_webhooks (w_db w) !! id.

(** The events the ledger has not settled. *)
Definition backlog (w : World) : Z := count_where unsettled (processed_webhooks (w_db w)).

(** Within the limit, the listing misses no event that is due. *)
Lemma listed_due q c t id r :
  processed_webhooks t !! id = Some r → retry_due (c_now c) q r = true →
  ledger_ok (processed_webhooks t) → count_where unsettled (processed_webhooks t) ≤ RetryLimit q →
  ∃ ws, (list_retryable_stmt q c t).1 = POk ws ∧ id ∈ ProcessedWebhook.EventID <$> ws.
Proof.
  intros Hr Hdue Hok Hlim. unfold list_retryable_stmt.
  assert (0 ≤ count_where unsettled (processed_webhooks t)) by (unfold count_where; lia).
  destruct (Z.ltb_spec (RetryLimit q) 0); [lia|]. eexists. split; [done|].
  apply list_elem_of_fmap. exists (scanWebhook r). split; [symmetry; by apply (Hok id r Hr)|].
  apply list_elem_of_fmap. exists r. split; [done|].
  apply list_elem_of_fmap. exists (id, r). split; [done|].
  unfold select_rows. rewrite take_ge.
  - rewrite merge_sort_Permutation. apply list_elem_of_filter. split; [by apply not_elem_of_nil|].
    by apply elem_of_rows_where.
  - rewrite merge_sort_Permutation. etransitivity; [apply length_filter_le|].
    enough (count_where (retry_due (c_now c) q) (processed_webhooks t) ≤ RetryLimit q) as Hc
      by (unfold count_where in Hc; lia).
    etransitivity; [|exact Hlim]. apply Nat2Z.inj_le, rows_where_mono. intros k r' Hr' Hd. exists r'. split; [done|].
    unfold retry_due in Hd. unfold unsettled. apply andb_true_iff in Hd as [[-> _]%andb_true_iff _].
    apply orb_true_r.
Qed.
End Listing.

(** ** Passes *)

Section Passes.
Context `{GoUnicode, StripeSDK, Postgres} (d : Duration) (s : WebhookSweeper).
#[local] Existing Instances UserRepo SubscriptionRepo.
#[local] Instance sweeper_hooks : WebhookRepository := WebhookRepo_of d.
#[local] Instance sweeper_ledger : EventLedger UserRepo SubscriptionRepo sweeper_hooks := pg_ledger d.

Definition retry_query : RetryQuery :=
  mkRetryQuery (SweeperConfig.MaxAttempts (sw_cfg s)) (SweeperConfig.BaseBackoff (sw_cfg s))
    (SweeperConfig.MaxBackoff (sw_cfg s)) (SweeperConfig.BatchSize (sw_cfg s)).

(** The event's turn has come: the batch covers everything unsettled, and if it
    failed, the longest backoff has passed since. *)
Definition its_turn (id : string) (w : World) : Prop :=
  backlog w ≤ SweeperConfig.BatchSize (sw_cfg s) ∧
  ∀ r, row_of w id = Some r → Row.status r = WebhookFailed →
    Row.updated_at r < w_now w - SweeperConfig.MaxBackoff (sw_cfg s).

(** Reclaiming leaves a failed row, and the size of the backlog, alone. *)
Lemma reclaim_keeps id r w :
  quiet w → pg_inv w → row_of w id = Some r → Row.status r = WebhookFailed →
  let w1 := (reclaimAbandoned s w).2 in
  quiet w1 ∧ pg_inv w1 ∧ row_of w1 id = Some r ∧ backlog w1 ≤ backlog w ∧ w_now w ≤ w_now w1.
Proof.
  intros Hq HI Hr Hst. unfold reclaimAbandoned. unfold mbind, M_bind. simpl.
  unfold ReclaimAbandonedEvents. unfold_monad. rewrite db_call_quiet by done. simpl.
  set (o := OpReclaim (SweeperConfig.StaleClaimAfter (sw_cfg s)) (SweeperConfig.BatchSize (sw_cfg s))).
  pose proof (exec_row_step (call_of w) o (w_db w)) as Hstep.
  split_and!; [auto with sps|by apply (exec_ledger_ok (call_of w) o)| | |lia].
  - specialize (Hstep id). unfold row_of in *. simpl in *. rewrite Hr in Hstep.
    inversion Hstep; subst; guards; [done|status_clash].
  - unfold backlog, count_where. apply Nat2Z.inj_le, rows_where_mono. intros k r' Hr' Hun.
    specialize (Hstep k). simpl in *. rewrite Hr' in Hstep. unfold unsettled in *.
    inversion Hstep; subst; guards; eauto.
    match goal with Hs : Row.status ?x = _ |- ∃ r, Some ?x = _ ∧ _ => exists x; split; [done|];
      by rewrite (proj2 (is_status_true _ _) Hs) end.
Qed.

(** The pass from the listing on: what is listed is attempted. *)
Lemma retry_attempts id n w :
  quiet w → pg_inv w → pg_standing w id = Some (WebhookFailed, n) →
  let w' := (retryFailed s w).2 in
  quiet w' ∧ pg_inv w' ∧ attempted n (pg_standing w' id) ∧
  (∀ r, row_of w id = Some r → retry_due (w_now (advance w)) retry_query r = true →
     backlog w ≤ SweeperConfig.BatchSize (sw_cfg s) →
     n < SweeperConfig.MaxAttempts (sw_cfg s) ≤ max_int32 →
     attempted (n + 1) (pg_standing w' id)).
Proof.
  intros Hq HI HS. unfold retryFailed. fold retry_query. unfold mbind at 1, M_bind at 1.
  simpl hooks_ListRetryableEvents. unfold ListRetryableEvents. unfold_monad. rewrite db_call_quiet by done.
  assert ((list_retryable_stmt retry_query (call_of w) (w_db w)).2 = w_db w) as Hdb
    by (unfold list_retryable_stmt; by case_match).
  pose proof (listed_due retry_query (call_of w) (w_db w) id) as Hlist.
  destruct (list_retryable_stmt _ _ _) as [l t]. simpl in Hdb, Hlist |- *. subst t.
  set (w1 := set_db (w_db w) (advance w)).
  assert (quiet w1) as Hq1 by (unfold w1; auto with sps).
  destruct l as [ws|e]; simpl.
  - destruct (sweeps_retry_loop (L := sweeper_ledger) s ws 0 0 w1 Hq1 HI) as (Hq2 & HI2 & _).
    destruct (loop_attempts (L := sweeper_ledger) s ws 0 0 w1 id n Hq1 HI HS) as [Hn Hn1].
    split_and!; [done|done|done|]. intros r Hr Hdue Hb Hm. apply Hn1; [|done].
    destruct (Hlist r Hr Hdue HI Hb) as (ws' & [= <-] & Hin). done.
  - split_and!; [done|done| |].
    + unfold pg_standing, pg_rows in *. simpl. rewrite HS. simpl. right; right. split; [done|lia].
    + intros r Hr Hdue Hb Hm. by destruct (Hlist r Hr Hdue HI Hb) as (ws' & ? & _).
Qed.

(** A pass that is the event's turn attempts it, unless its budget is spent. *)
Lemma turn_attempted id w n :
  quiet w → pg_inv w → its_turn id w → pg_standing w id = Some (WebhookFailed, n) →
  SweeperConfig.MaxAttempts (sw_cfg s) ≤ max_int32 →
  let w' := (Sweep s w).2 in
  quiet w' ∧ pg_inv w' ∧
  attempted (Z.min (n + 1) (Z.max n (SweeperConfig.MaxAttempts (sw_cfg s)))) (pg_standing w' id).
Proof.
  intros Hq HI [Hb Hdue] HS Hmax. unfold pg_standing, pg_rows in HS.
  destruct (processed_webhooks (w_db w) !! id) as [r|] eqn:Hr; [|done]. injection HS as Hst Ha.
  specialize (Hdue r Hr Hst). destruct (reclaim_keeps id r w Hq HI Hr Hst) as (Hq1 & HI1 & Hr1 & Hb1 & Hn1).
  unfold Sweep. unfold mbind, M_bind. destruct (reclaimAbandoned s w) as [x w1]. simpl in *.
  assert (pg_standing w1 id = Some (WebhookFailed, n)) as HS1.
  { unfold pg_standing, pg_rows. unfold row_of in Hr1. rewrite Hr1. simpl. by rewrite Hst, Ha. }
  destruct (retry_attempts id n w1 Hq1 HI1 HS1) as (Hq2 & HI2 & Hatt & Hdo).
  destruct (retryFailed s w1) as [y w2]. simpl in *.
  destruct (keeps_report (L := sweeper_ledger) s w2 Hq2 HI2) as (Hq3 & HI3 & HS3). destruct (report s w2) as [z w3]. simpl in *.
  split_and!; [done|done|]. apply (same_rows (H := @led_view _ _ _ sweeper_ledger)) in HS3.
  change (pg_standing w3 = pg_standing w2) in HS3. rewrite HS3.
  destruct (Z_lt_le_dec n (SweeperConfig.MaxAttempts (sw_cfg s))) as [Hlt|Hge].
  - eapply attempted_mono; [|apply (Hdo r Hr1); [|lia|lia]]; [lia|].
    unfold retry_due. rewrite (proj2 (is_status_true _ _) Hst), Ha. simpl.
    apply andb_true_iff. split; [by apply Z.ltb_lt|]. apply Z.ltb_lt. unfold backoff. simpl. lia.
  - eapply attempted_mono; [|exact Hatt]. lia.
Qed.

(** [k] passes that were the event's turn.  In between, time passes and anything
    else may happen that leaves the event's row alone. *)
Inductive attended (id : string) : nat → World → World → Prop :=
  | attended_start w : attended id 0 w w
  | attended_between k w w1 w2 :
      attended id k w w1 → quiet w2 → pg_inv w2 → row_of w2 id = row_of w1 id → attended id k w w2
  | attended_pass k w w1 :
      attended id k w w1 → its_turn id w1 → attended id (S k) w (Sweep s w1).2.

Lemma attended_attempts id n k w w' :
  quiet w → pg_inv w → pg_standing w id = Some (WebhookFailed, n) →
  SweeperConfig.MaxAttempts (sw_cfg s) ≤ max_int32 → attended id k w w' →
  quiet w' ∧ pg_inv w' ∧
  attempted (Z.min (n + Z.of_nat k) (Z.max n (SweeperConfig.MaxAttempts (sw_cfg s)))) (pg_standing w' id).
Proof.
  intros Hq HI HS Hmax Hrun.
  induction Hrun as [w|k w w1 w2 _ IH Hq2 HI2 Hrow|k w w1 _ IH Hturn].
  - split_and!; [done..|]. rewrite HS. simpl. right; right. split; [done|lia].
  - destruct (IH Hq HI HS) as (_ & _ & Ha). split_and!; [done..|].
    unfold pg_standing, pg_rows, row_of in *. by rewrite Hrow.
  - destruct (IH Hq HI HS) as (Hq1 & HI1 & Ha).
    destruct (sweeps_Sweep (L := sweeper_ledger) s w1 Hq1 HI1) as (Hq2 & HI2 & Hsw). split_and!; [done..|].
    destruct (pg_standing w1 id) as [[st a]|] eqn:HS1; [|done].
    destruct (decide (st = WebhookFailed)) as [->|Hne].
    + destruct (turn_attempted id w1 a Hq1 HI1 Hturn HS1 Hmax) as (_ & _ & Hatt).
      eapply attempted_mono; [|exact Hatt].
      destruct Ha as [?|[?|[_ Ha]]]; [status_clash..|]. lia.
    + destruct (Hsw id) as (_ & Hsucc & Hskip & _).
      assert (∀ v, led_status (H := @led_view _ _ _ sweeper_ledger) v id = fst <$> pg_standing v id)
        as Hls by done.
      rewrite !Hls, HS1 in Hsucc, Hskip.
      destruct (pg_standing (Sweep s w1).2 id) as [[st' a']|]; simpl in *;
        destruct Ha as [->|[->|[? _]]]; try done; naive_solver.
Qed.

End Passes.
