(* ===== verification/Retention.v ===== *)
(** * internal/worker/retention.go

    The retention worker: purge payloads in batches until a short batch, then
    delete expired refresh tokens the same way, then report.  Both loops are
    unbounded in the source; here they carry fuel, and the theorems show that
    more fuel than there are rows is always enough, and what a finished pass has
    achieved.  The timer loop of [Run] is in Workers.v. *)

From S2P Require Import Prelude GoStd Domain Database WebhookRepo Ledger Purge SubscriptionRepo.
From S2P Require Import UserRepo RefreshTokenRepo Ports.
Open Scope Z_scope.

Module RetentionConfig.
Record t := mk {
  Interval : Duration;
  SettledAfter : Duration;
  UnsettledAfter : Duration;
  BatchSize : Z;
  RefreshTokenGrace : Duration;
}.

Definition defaultRetentionInterval : Duration := 6 * Hour.
Definition defaultSettledAfter : Duration := 30 * (24 * Hour).
Definition defaultUnsettledAfter : Duration := 90 * (24 * Hour).
Definition defaultRetentionBatch : Z := 500.
Definition defaultRefreshTokenGrace : Duration := 7 * (24 * Hour).

(** [if x <= 0 { x = d }]. *)
Definition or_default (x d : Z) : Z := if x <=? 0 then d else x.

Definition withDefaults (c : t) : t :=
  mk (or_default (Interval c) defaultRetentionInterval)
     (or_default (SettledAfter c) defaultSettledAfter)
     (or_default (UnsettledAfter c) defaultUnsettledAfter)
     (or_default (BatchSize c) defaultRetentionBatch)
     (or_default (RefreshTokenGrace c) defaultRefreshTokenGrace).

Definition query (c : t) (limit : Z) : PurgeQuery :=
  mkPurgeQuery (SettledAfter c) (UnsettledAfter c) limit.
End RetentionConfig.

(** [RetentionWorker], less its ports: whether a token repository and a metrics
    registry are attached, and the configuration. *)
Record RetentionWorker := mkRetentionWorker {
  rw_cfg : RetentionConfig.t; rw_tokens : bool; rw_metrics : bool }.

Definition NewRetentionWorker (tokens : bool) (cfg : RetentionConfig.t) : RetentionWorker :=
  mkRetentionWorker (RetentionConfig.withDefaults cfg) tokens false.

Definition RetentionWorker_WithMetrics (rw : RetentionWorker) : RetentionWorker :=
  mkRetentionWorker (rw_cfg rw) (rw_tokens rw) true.

Section Worker.
Context `{WebhookRepository, RefreshTokenRepository}.
Context (rw : RetentionWorker).

Definition batch_size : Z := RetentionConfig.BatchSize (rw_cfg rw).

Definition add_result (a b : PurgeResult) : PurgeResult :=
  mkPurgeResult (Settled a + Settled b) (Unsettled a + Unsettled b).

(** The purge loop of [RunOnce]; [None] when the fuel runs out. *)
Fixpoint purge_loop (fuel : nat) (total : PurgeResult) : M World (option PurgeResult) :=
  match fuel with
  | O => mret None
  | S fuel' =>
    stop ← gets ctx_done;
    if stop : bool then mret (Some total)
    else
      r ← hooks_PurgePayloads (RetentionConfig.query (rw_cfg rw) batch_size);
      match r with
      | Err _ => mret (Some total)
      | Ok batch =>
        let total' := add_result total batch in
        if PurgeResult_Total batch <? batch_size then mret (Some total')
        else purge_loop fuel' total'
      end
  end.

(** The loop of [pruneRefreshTokens]. *)
Fixpoint prune_loop (fuel : nat) (total : Z) : M World (option Z) :=
  match fuel with
  | O => mret None
  | S fuel' =>
    stop ← gets ctx_done;
    if stop : bool then mret (Some total)
    else
      r ← tokens_DeleteExpiredRefreshTokens (RetentionConfig.RefreshTokenGrace (rw_cfg rw)) batch_size;
      match r with
      | Err _ => mret (Some total)
      | Ok deleted =>
        if deleted <? batch_size then mret (Some (total + deleted))
        else prune_loop fuel' (total + deleted)
      end
  end.

Definition pruneRefreshTokens (fuel : nat) : M World (option Z) :=
  if rw_tokens rw then prune_loop fuel 0 else mret (Some 0).

Definition report : M World unit :=
  r ← hooks_GetRetentionStats (RetentionConfig.query (rw_cfg rw) 0);
  match r with
  | Err _ => mret tt
  | Ok stats =>
    if rw_metrics rw then modify (add_metric (SetPayloadsPastWindow (DueNow stats))) else mret tt
  end.

Definition RunOnce (fuel : nat) : M World (option PurgeResult) :=
  total ← purge_loop fuel (mkPurgeResult 0 0);
  match total with
  | None => mret None
  | Some total =>
    p ← pruneRefreshTokens fuel;
    match p with
    | None => mret None
    | Some _ => _ ← report; mret (Some total)
    end
  end.

Definition Stats : M World (result RetentionStats) :=
  hooks_GetRetentionStats (RetentionConfig.query (rw_cfg rw) 0).
End Worker.

(** ** Termination *)

Section Termination.
Context `{GoUnicode, Postgres} (d : Duration) (rw : RetentionWorker).
#[local] Existing Instance RefreshTokenRepo.

Definition held (w : World) : Z := count_where holds_payload (processed_webhooks (w_db w)).

(** A batch that is reported was taken off the payloads held. *)
Lemma PurgePayloads_progress q w b w' :
  ledger_ok (processed_webhooks (w_db w)) → 0 ≤ PurgeLimit q →
  PurgePayloads q w = (Ok b, w') →
  held w' = held w - PurgeResult_Total b.
Proof.
  intros Hok Hl. unfold PurgePayloads. unfold_monad.
  destruct (db_call _ w) as [[ss|e] w1] eqn:Hc; [|done]. intros [= <- <-].
  apply db_call_ok in Hc as [c Hc]. rewrite tally_total. unfold held.
  by eapply purge_stmt_progress.
Qed.

Lemma PurgePayloads_ok q w r w' :
  ledger_ok (processed_webhooks (w_db w)) → PurgePayloads q w = (r, w') →
  ledger_ok (processed_webhooks (w_db w')).
Proof.
  intros Hok. unfold PurgePayloads. unfold_monad.
  destruct (db_call _ w) as [x w1] eqn:Hc. intros [= <- <-].
  eapply (db_call_preserves _ (λ t, ledger_ok (processed_webhooks t))); [|done|exact Hc].
  intros c t. apply (exec_ledger_ok c (OpPurge q)).
Qed.

Lemma held_nonneg w : 0 ≤ held w.
Proof. unfold held, count_where. lia. Qed.

Lemma purge_loop_total fuel total w :
  ledger_ok (processed_webhooks (w_db w)) → 0 < batch_size rw → held w < Z.of_nat fuel →
  ∃ res w', purge_loop (H := WebhookRepo_of d) rw fuel total w = (Some res, w') ∧
    ledger_ok (processed_webhooks (w_db w')).
Proof.
  revert total w. induction fuel as [|fuel IH]; intros total w Hok Hb Hf.
  { pose proof (held_nonneg w). lia. }
  cbn [purge_loop]. unfold mbind, M_bind, gets, mret, M_ret.
  destruct (ctx_done w); [eauto|]. simpl.
  destruct (PurgePayloads _ w) as [[b|e] w1] eqn:Hp.
  - pose proof (PurgePayloads_ok _ _ _ _ Hok Hp) as Hok1.
    apply PurgePayloads_progress in Hp as Hpr; [|done|by apply Z.lt_le_incl].
    destruct (Z.ltb_spec (PurgeResult_Total b) (batch_size rw)); [eauto|].
    apply IH; try done. lia.
  - pose proof (PurgePayloads_ok _ _ _ _ Hok Hp). eauto.
Qed.

Lemma size_filter_not_in (m : gmap string RefreshToken.t) (ids : list string) :
  NoDup ids → (∀ k, k ∈ ids → is_Some (m !! k)) →
  (size (filter (λ kt, kt.1 ∉ ids) m) = size m - length ids)%nat.
Proof.
  intros Hnd Hin.
  assert (dom (filter (λ kt, kt.1 ∉ ids) m) = dom m ∖ (list_to_set ids : gset string)) as Hdom.
  { apply set_eq. intros k. rewrite elem_of_difference, elem_of_list_to_set, !elem_of_dom.
    unfold is_Some. setoid_rewrite map_lookup_filter_Some. simpl. naive_solver. }
  rewrite <- !(size_dom (D := gset string)), Hdom, size_difference, size_list_to_set; [done..|].
  intros k. rewrite elem_of_list_to_set, elem_of_dom. apply Hin.
Qed.

Definition stored_tokens (w : World) : Z := Z.of_nat (size (refresh_tokens (w_db w))).

Lemma DeleteExpired_progress g n w x w' :
  DeleteExpiredRefreshTokens g n w = (Ok x, w') → stored_tokens w' = stored_tokens w - x.
Proof.
  unfold DeleteExpiredRefreshTokens. unfold_monad.
  destruct (db_call _ w) as [[k|e] w1] eqn:Hc; [|done]. intros [= <- <-].
  apply db_call_ok in Hc as [c Hc]. revert Hc. unfold delete_expired_stmt. case_match; [done|].
  match goal with |- context [take ?a ?b] => set (sel := take a b) end.
  unfold stored_tokens. intros [= <- <-]. simpl.
  assert (∀ kt, kt ∈ sel → refresh_tokens (w_db w) !! kt.1 = Some kt.2) as Hsel.
  { intros [k t] Hk. unfold sel in Hk. apply elem_of_take in Hk as (i & Hk & _).
    apply list_elem_of_lookup_2 in Hk. rewrite merge_sort_Permutation in Hk.
    apply list_elem_of_filter in Hk as [_ Hk]. by apply elem_of_rows_where in Hk as [Hk _]. }
  assert (NoDup sel.*1) as Hnd.
  { unfold sel. eapply sublist_NoDup; [|apply fmap_sublist, sublist_take].
    rewrite merge_sort_Permutation.
    eapply sublist_NoDup;
      [apply (NoDup_rows_where (λ t, RefreshToken.ExpiresAt t <? c_now c - g) (refresh_tokens (w_db w)))|].
    apply fmap_sublist, sublist_filter. }
  assert (∀ k, k ∈ sel.*1 → is_Some (refresh_tokens (w_db w) !! k)) as Hin.
  { intros k (kt & -> & Hkt)%list_elem_of_fmap. rewrite (Hsel kt Hkt). eauto. }
  rewrite size_filter_not_in by done.
  enough (length sel.*1 ≤ size (refresh_tokens (w_db w)))%nat by lia.
  rewrite <- (size_dom (D := gset string)), <- (size_list_to_set (C := gset string) sel.*1) by done.
  apply subseteq_size. intros k. rewrite elem_of_list_to_set, elem_of_dom. apply Hin.
Qed.

Lemma prune_loop_total fuel total w :
  0 < batch_size rw → stored_tokens w < Z.of_nat fuel →
  ∃ res w', prune_loop rw fuel total w = (Some res, w').
Proof.
  revert total w. induction fuel as [|fuel IH]; intros total w Hb Hf.
  { unfold stored_tokens in Hf. lia. }
  cbn [prune_loop]. unfold mbind, M_bind, gets, mret, M_ret.
  destruct (ctx_done w); [eauto|]. simpl.
  destruct (DeleteExpiredRefreshTokens _ _ w) as [[x|e] w1] eqn:Hp; [|eauto].
  apply DeleteExpired_progress in Hp.
  destruct (Z.ltb_spec x (batch_size rw)); [eauto|]. apply IH; [done|]. lia.
Qed.

Lemma PurgePayloads_tokens q w r w' :
  PurgePayloads q w = (r, w') → refresh_tokens (w_db w') = refresh_tokens (w_db w).
Proof.
  unfold PurgePayloads. unfold_monad. destruct (db_call _ w) as [x w1] eqn:Hc. intros [= <- <-].
  eapply (db_call_preserves _ (λ t, refresh_tokens t = refresh_tokens (w_db w))); [|done|exact Hc].
  intros c t <-. unfold purge_stmt, update_hooks. by repeat case_match; simplify_eq.
Qed.

Lemma purge_loop_tokens fuel total w res w' :
  purge_loop (H := WebhookRepo_of d) rw fuel total w = (res, w') →
  refresh_tokens (w_db w') = refresh_tokens (w_db w).
Proof.
  revert total w. induction fuel as [|fuel IH]; intros total w; [by intros [= <- <-]|].
  cbn [purge_loop]. unfold mbind, M_bind, gets, mret, M_ret.
  destruct (ctx_done w); [by intros [= <- <-]|]. simpl.
  destruct (PurgePayloads _ w) as [[b|e] w1] eqn:Hp; apply PurgePayloads_tokens in Hp.
  - destruct (_ <? _); [intros [= <- <-]; done|]. intros Hl%IH. congruence.
  - by intros [= <- <-].
Qed.

(** C37: a retention pass always ends, whatever faults, timeouts and locks it
    meets: with a positive batch size, as much fuel as there are payloads
    held and tokens stored, plus one, is enough for both loops. *)
Theorem RunOnce_terminates fuel w :
  ledger_ok (processed_webhooks (w_db w)) → 0 < batch_size rw →
  held w < Z.of_nat fuel → stored_tokens w < Z.of_nat fuel →
  ∃ res w', RunOnce (H := WebhookRepo_of d) rw fuel w = (Some res, w').
Proof.
  intros Hok Hb Hh Ht. unfold RunOnce. unfold mbind, M_bind, mret, M_ret.
  destruct (purge_loop_total fuel (mkPurgeResult 0 0) w Hok Hb Hh) as (res & w1 & Hl & _).
  rewrite Hl. apply purge_loop_tokens in Hl. unfold pruneRefreshTokens.
  destruct (rw_tokens rw).
  - destruct (prune_loop_total fuel 0 w1 Hb) as (x & w2 & Hp).
    { unfold stored_tokens. by rewrite Hl. }
    rewrite Hp. destruct (report (H := WebhookRepo_of d) rw w2) as [[] w3]. eauto.
  - unfold mret, M_ret. destruct (report (H := WebhookRepo_of d) rw w1) as [[] w3]. eauto.
Qed.

(** ** What a pass achieves *)

(** No other session holds row locks. *)
Definition unlocked (w : World) : Prop := Forall (λ k, tk_locked k = []) (w_script w).

Lemma unlocked_advance w : unlocked w → unlocked (advance w).
Proof. unfold unlocked. simpl. by destruct 1. Qed.

Lemma unlocked_call w : unlocked w → c_locked (call_of w) = [].
Proof. unfold unlocked, call_of, next_tick. simpl. by destruct 1. Qed.

Definition no_payload_due (now : Time) (m : gmap string Row.t) : Prop :=
  ∀ k r, m !! k = Some r →
    purge_due now (RetentionConfig.query (rw_cfg rw) (batch_size rw)) r = false.

Lemma PurgePayloads_quiet q w :
  quiet w → unlocked w → ledger_ok (processed_webhooks (w_db w)) → 0 ≤ PurgeLimit q →
  ∃ b w', PurgePayloads q w = (Ok b, w') ∧ quiet w' ∧ unlocked w' ∧ w_now w ≤ w_now w' ∧
    (PurgeResult_Total b < PurgeLimit q →
     ∀ k r, processed_webhooks (w_db w') !! k = Some r → purge_due (w_now w') q r = false).
Proof.
  intros Hq Hu Hok Hl. unfold PurgePayloads. unfold_monad. rewrite db_call_quiet by done.
  destruct (purge_stmt q (call_of w) (w_db w)) as [r t'] eqn:Hp. pose proof Hp as Hp'.
  rewrite purge_stmt_batch in Hp' by done. injection Hp' as Hss _. subst r. simpl.
  eexists _, _. split; [done|]. split_and!; [auto with sps|by apply (unlocked_advance w)|simpl; lia|].
  rewrite tally_total. intros Hs.
  apply (purge_stmt_drained q (call_of w) (w_db w) _ _ Hok (unlocked_call w Hu) Hp Hs).
Qed.

Lemma purge_loop_drains fuel total w :
  quiet w → unlocked w → ledger_ok (processed_webhooks (w_db w)) → 0 < batch_size rw →
  held w < Z.of_nat fuel →
  ∃ res w', purge_loop (H := WebhookRepo_of d) rw fuel total w = (Some res, w') ∧
    quiet w' ∧ w_now w ≤ w_now w' ∧ no_payload_due (w_now w') (processed_webhooks (w_db w')) ∧
    PurgeResult_Total res = PurgeResult_Total total + (held w - held w').
Proof.
  revert total w. induction fuel as [|fuel IH]; intros total w Hq Hu Hok Hb Hf.
  { pose proof (held_nonneg w). lia. }
  cbn [purge_loop]. unfold mbind, M_bind, gets, mret, M_ret. rewrite quiet_ctx by done. simpl.
  set (q := RetentionConfig.query (rw_cfg rw) (batch_size rw)).
  assert (0 ≤ PurgeLimit q) as Hl by by apply Z.lt_le_incl.
  destruct (PurgePayloads_quiet q w Hq Hu Hok Hl) as (b & w1 & Hp & Hq1 & Hu1 & Hn & Hd).
  pose proof (PurgePayloads_ok _ _ _ _ Hok Hp) as Hok1.
  pose proof (PurgePayloads_progress _ _ _ _ Hok Hl Hp) as Hpr. rewrite Hp.
  destruct (Z.ltb_spec (PurgeResult_Total b) (batch_size rw)) as [Hs|Hs].
  - eexists _, w1. split_and!; [done..|exact (Hd Hs)|].
    unfold PurgeResult_Total in *; simpl; lia.
  - destruct (IH (add_result total b) w1) as (res & w' & Hrun & ? & ? & ? & Ht); try done; [lia|].
    exists res, w'. split_and!; try done; [lia|].
    unfold PurgeResult_Total in *; simpl in *; lia.
Qed.

(** The rest of a pass does not touch the ledger. *)
Lemma prune_loop_hooks fuel total w res w' :
  prune_loop rw fuel total w = (res, w') →
  processed_webhooks (w_db w') = processed_webhooks (w_db w).
Proof.
  revert total w. induction fuel as [|fuel IH]; intros total w; [by intros [= <- <-]|].
  cbn [prune_loop]. unfold mbind, M_bind, gets, mret, M_ret.
  destruct (ctx_done w); [by intros [= <- <-]|]. simpl.
  destruct (DeleteExpiredRefreshTokens _ _ w) as [r w1] eqn:Hp.
  assert (processed_webhooks (w_db w1) = processed_webhooks (w_db w)) as He.
  { revert Hp. unfold DeleteExpiredRefreshTokens. unfold_monad.
    destruct (db_call _ w) as [x w2] eqn:Hc. intros [= <- <-].
    eapply (db_call_preserves _ (λ t, processed_webhooks t = processed_webhooks (w_db w)));
      [|done|exact Hc]. intros c t <-. unfold delete_expired_stmt. by case_match. }
  destruct r as [x|e]; [|by intros [= <- <-]].
  destruct (x <? _); [by intros [= <- <-]|]. intros Hl%IH. congruence.
Qed.

Lemma report_hooks w r w' :
  report (H := WebhookRepo_of d) rw w = (r, w') →
  processed_webhooks (w_db w') = processed_webhooks (w_db w).
Proof.
  unfold report. simpl. unfold GetRetentionStats. unfold_monad.
  destruct (db_call _ w) as [x w1] eqn:Hc.
  assert (processed_webhooks (w_db w1) = processed_webhooks (w_db w)) as He.
  { eapply (db_call_preserves _ (λ t, processed_webhooks t = processed_webhooks (w_db w)));
      [|done|exact Hc]. by intros c t <-. }
  destruct x; simpl; [destruct (rw_metrics rw)|]; by intros [= <- <-].
Qed.

(** C36: when nothing faults and no other session holds locks, a retention
    pass leaves no payload past its window as of the last batch, and the
    number it reports is the number of payloads that are gone. *)
Theorem RunOnce_drains fuel w :
  quiet w → unlocked w → ledger_ok (processed_webhooks (w_db w)) → 0 < batch_size rw →
  held w < Z.of_nat fuel → stored_tokens w < Z.of_nat fuel →
  ∃ res w' now, RunOnce (H := WebhookRepo_of d) rw fuel w = (Some res, w') ∧
    w_now w ≤ now ∧ no_payload_due now (processed_webhooks (w_db w')) ∧
    PurgeResult_Total res = held w - held w'.
Proof.
  intros Hq Hu Hok Hb Hf Htk. unfold RunOnce. unfold mbind, M_bind, mret, M_ret.
  destruct (purge_loop_drains fuel (mkPurgeResult 0 0) w) as (res & w1 & Hl & Hq1 & Hn & Hd & Ht);
    try done. rewrite Hl. apply purge_loop_tokens in Hl.
  assert (∃ x w2, pruneRefreshTokens rw fuel w1 = (Some x, w2) ∧
            processed_webhooks (w_db w2) = processed_webhooks (w_db w1)) as (x & w2 & Hp & H2).
  { unfold pruneRefreshTokens. destruct (rw_tokens rw); [|by exists 0, w1].
    destruct (prune_loop_total fuel 0 w1 Hb) as (x & w2 & Hp); [unfold stored_tokens; by rewrite Hl|].
    exists x, w2. split; [done|]. by eapply prune_loop_hooks. }
  rewrite Hp. destruct (report (H := WebhookRepo_of d) rw w2) as [[] w3] eqn:Hr.
  apply report_hooks in Hr. exists res, w3, (w_now w1). split; [done|].
  unfold held in *. rewrite Hr, H2. split_and!; [done..|]. rewrite Ht. unfold PurgeResult_Total.
  simpl. lia.
Qed.
End Termination.
