(* ===== verification/Auth.v ===== *)
(** * internal/auth: password.go, token.go, refresh.go

    Password policy and hashing, access tokens, refresh tokens.  bcrypt, JWT
    signing, SHA-256 and base64 are libraries and so members of a class; what
    this program decides with them is here. *)

From S2P Require Import Prelude GoStd Domain Database StripeClient.
Open Scope Z_scope.

(** The claims of an access token. *)
Module Claims.
Record t := mk {
  Subject : string;
  Issuer : string;
  Audience : list string;
  IssuedAt : Time;
  NotBefore : Time;
  ExpiresAt : Time;
  ID : string;
  Email : string;
}.
End Claims.

(** What [jwt.Parser.ParseWithClaims] reports. *)
Inductive JwtResult :=
  | JwtExpired
  | JwtError (text : string)
  | JwtParsed (valid : bool) (c : Claims.t).

Class AuthLib := {
  bcrypt_MinCost : Z;
  bcrypt_MaxCost : Z;
  (* GenerateFromPassword with its salt, password and cost *)
  bcrypt_Generate : N → string → Z → string + string;
  (* CompareHashAndPassword returns nil *)
  bcrypt_Compare : string → string → bool;
  bcrypt_Cost : string → option Z;
  (* NewNumericDate: the instant as a token can carry it *)
  jwt_NumericDate : Time → Time;
  (* SignedString under HS256 *)
  jwt_Sign : string → Claims.t → string + string;
  (* ParseWithClaims under HS256 at a time, for issuer, audience and key *)
  jwt_Parse : Time → string → string → string → string → JwtResult;
  (* rand.Read of 32 bytes, from a draw *)
  rand_Read : N → N + string;
  base64_RawURL : N → string;
  sha256_hex : string → string;
}.

(** ** Passwords *)

Definition MinPasswordBytes : Z := 12.
Definition MaxPasswordBytes : Z := 72.
Definition DefaultBcryptCost : Z := 12.

Definition ValidatePassword (password : string) : option error :=
  if negb (ValidString password) then Some (ErrPasswordInvalid : error)
  else if len password <? MinPasswordBytes then Some (ErrPasswordTooShort : error)
  else if MaxPasswordBytes <? len password then Some (ErrPasswordTooLong : error)
  else None.

Record Hasher := mkHasher { cost : Z; decoy : string }.

Section Auth.
Context `{AuthLib, StripeSDK}.

Definition NewHasher (c : Z) : M World (result Hasher) :=
  let c := if c =? 0 then DefaultBcryptCost else c in
  if (c <? bcrypt_MinCost) || (bcrypt_MaxCost <? c)
  then mret (Err (errors_New ("bcrypt cost " +:+ Itoa c +:+ " is outside the supported range " +:+
                   Itoa bcrypt_MinCost +:+ "-" +:+ Itoa bcrypt_MaxCost)))
  else
    salt ← draw;
    mret (match bcrypt_Generate salt "decoy-for-constant-time-login" c with
          | inl d => Ok (mkHasher c d)
          | inr text => Err (wrapf "build decoy digest" (errors_New text))
          end).

Definition Hash (h : Hasher) (password : string) : M World (result string) :=
  match ValidatePassword password with
  | Some e => mret (Err e)
  | None =>
    salt ← draw;
    mret (match bcrypt_Generate salt password (cost h) with
          | inl d => Ok d
          | inr text => Err (wrapf "hash password" (errors_New text))
          end)
  end.

(** [bcrypt.CompareHashAndPassword], and the work it spends. *)
Definition compare (digest candidate : string) : M World bool :=
  _ ← modify (add_metric (BcryptCompare digest)); mret (bcrypt_Compare digest candidate).

Definition DummyCompare (h : Hasher) : M World unit :=
  _ ← compare (decoy h) "not-the-password"; mret tt.

Definition Verify (h : Hasher) (digest candidate : string) : M World (option error) :=
  if bool_decide (digest = "") then
    _ ← DummyCompare h; mret (Some (ErrCredentialsMismatch : error))
  else
    ok ← compare digest candidate;
    mret (if ok : bool then None else Some (ErrCredentialsMismatch : error)).

Definition NeedsRehash (h : Hasher) (digest : string) : bool :=
  match bcrypt_Cost digest with Some c => c <? cost h | None => false end.

(** ** Access tokens *)

Definition MinSecretBytes : Z := 32.

Record TokenConfig := mkTokenConfig {
  tc_Secret : string; tc_Issuer : string; tc_Audience : string; tc_TTL : Duration }.
Record TokenService := mkTokenService {
  secret : string; issuer : string; audience : string; ttl : Duration }.

Definition NewTokenService (cfg : TokenConfig) : result TokenService :=
  if len (tc_Secret cfg) <? MinSecretBytes
  then Err (errors_New ("jwt secret must be at least " +:+ Itoa MinSecretBytes +:+ " bytes, got " +:+
              Itoa (len (tc_Secret cfg))))
  else if bool_decide (tc_Issuer cfg = "") || bool_decide (tc_Audience cfg = "")
  then Err (errors_New "jwt issuer and audience are required")
  else if tc_TTL cfg <=? 0 then Err (errors_New "jwt ttl must be positive")
  else Ok (mkTokenService (tc_Secret cfg) (tc_Issuer cfg) (tc_Audience cfg) (tc_TTL cfg)).

Definition TTL (s : TokenService) : Duration := ttl s.

Definition Issue (s : TokenService) (userID : UUID) (email : string)
    : M World (result (string * Time)) :=
  now ← gets w_now;
  let expiresAt := now + ttl s in
  id ← draw;
  let claims := Claims.mk (uuid_String userID) (issuer s) [audience s] (jwt_NumericDate now)
    (jwt_NumericDate now) (jwt_NumericDate expiresAt) (uuid_String id) email in
  mret (match jwt_Sign (secret s) claims with
        | inl signed => Ok (signed, expiresAt)
        | inr text => Err (wrapf "sign token" (errors_New text))
        end).

Definition Parse (s : TokenService) (token : string) : M World (result (UUID * Claims.t)) :=
  now ← gets w_now;
  mret (match jwt_Parse now (issuer s) (audience s) (secret s) token with
        | JwtExpired => Err ErrTokenExpired
        | JwtError text => Err (sentinelf ErrTokenInvalid text)
        | JwtParsed false _ => Err ErrTokenInvalid
        | JwtParsed true claims =>
          match uuid_Parse (Claims.Subject claims) with
          | Some userID => Ok (userID, claims)
          | None => Err (sentinelf ErrTokenInvalid "subject is not a uuid")
          end
        end).

(** [subtle.ConstantTimeCompare] returns 1 exactly for equal contents. *)
Definition SecretsEqual (a b : string) : bool := bool_decide (a = b).

(** ** Refresh tokens *)

Definition HashRefreshToken (token : string) : string := sha256_hex token.

Definition NewRefreshToken : M World (result (string * string)) :=
  n ← draw;
  mret (match rand_Read n with
        | inr text => Err (wrapf "generate refresh token" (errors_New text))
        | inl buf => let token := base64_RawURL buf in Ok (token, HashRefreshToken token)
        end).
End Auth.

(** ** Laws *)

(** The policy, in bytes. *)
Lemma ValidatePassword_ok p :
  ValidatePassword p = None ↔ ValidString p = true ∧ 12 ≤ len p ≤ 72.
Proof.
  unfold ValidatePassword, MinPasswordBytes, MaxPasswordBytes. destruct (ValidString p); simpl.
  - destruct (Z.ltb_spec (len p) 12); [split; [done|lia]|].
    destruct (Z.ltb_spec 72 (len p)); [split; [done|lia]|]. split; [lia|done].
  - split; [done|by intros [? _]].
Qed.

Section Laws.
Context `{AuthLib, StripeSDK}.

(** What the program relies on the token library for: tokens carry dates to
    the whole second, and a token whose dates are such verifies as the claims
    that were signed, under the same key, issuer and audience, from when it
    was issued until it expires. *)
Record jwt_sound : Prop := {
  numeric_date_near : ∀ t, t - Second < jwt_NumericDate t ≤ t;
  numeric_date_idem : ∀ t, jwt_NumericDate (jwt_NumericDate t) = jwt_NumericDate t;
  sign_parse : ∀ key c token now aud,
    jwt_Sign key c = inl token → Claims.Audience c = [aud] →
    Forall (λ t, jwt_NumericDate t = t) [Claims.IssuedAt c; Claims.NotBefore c; Claims.ExpiresAt c] →
    Claims.IssuedAt c ≤ now → Claims.NotBefore c ≤ now → now < Claims.ExpiresAt c →
    jwt_Parse now (Claims.Issuer c) aud key token = JwtParsed true c;
}.

(** An identifier prints to text that parses back to it. *)
Definition uuid_sound : Prop := ∀ u, uuid_Parse (uuid_String u) = Some u.

(** an access token that [Issue] returns parses back to the user it was
    issued to and carries their email, at any time until one second before
    the expiry it reports, whose fraction the token does not carry. *)
Theorem issue_parse s uid email w token expires w1 w2 :
  jwt_sound → uuid_sound →
  Issue s uid email w = (Ok (token, expires), w1) →
  w_now w ≤ w_now w2 → w_now w2 + Second ≤ expires →
  ∃ c, Parse s token w2 = (Ok (uid, c), w2) ∧ Claims.Email c = email ∧ expires = w_now w + ttl s.
Proof.
  intros Hjwt Huuid. unfold Issue, Parse, draw. unfold_monad. cbn beta iota zeta.
  destruct (jwt_Sign _ _) as [tok|] eqn:Hs; [|done]. intros [= <- <- <-] H1 H2.
  pose proof (sign_parse Hjwt _ _ _ (w_now w2) (audience s) Hs) as Hp. simpl in Hp.
  pose proof (numeric_date_near Hjwt (w_now w)). pose proof (numeric_date_near Hjwt (w_now w + ttl s)).
  eexists. rewrite Hp; [simpl; by rewrite Huuid|done| |lia..].
  repeat constructor; apply (numeric_date_idem Hjwt).
Qed.
End Laws.
