(* ===== verification/AuthService.v ===== *)
(** * internal/service/auth_service.go

    Registration, login, token refresh, logout.  Shown: a failed login answers
    and costs the same whether or not the account exists, a refresh rotates the
    session, a replayed refresh ends it, and logout ends it for good. *)

From S2P Require Import Prelude GoStd Domain Database WebhookRepo SubscriptionRepo UserRepo.
From S2P Require Import RefreshTokenRepo RefreshTokens StripeClient Ports Auth.
Open Scope Z_scope.

Module UserView.
Record t := mk { ID : UUID; Email : string; FullName : option string }.
End UserView.

Definition viewOf (u : User.t) : UserView.t :=
  UserView.mk (User.ID u) (User.Email u) (User.FullName u).

Module AuthResult.
Record t := mk {
  Token : string;
  ExpiresAt : Time;
  User_ : UserView.t;
  RefreshToken : string;
  RefreshTokenExpiresAt : Time;
}.
End AuthResult.

(** [AuthService], less its ports. *)
Record AuthService := mkAuthService {
  as_hasher : Hasher; as_tokens : TokenService; as_refreshTTL : Duration; as_metrics : bool }.

Definition NewAuthService (h : Hasher) (t : TokenService) (refreshTTL : Duration) : AuthService :=
  mkAuthService h t (if refreshTTL <=? 0 then 30 * (24 * Hour) else refreshTTL) false.

Definition AuthService_WithMetrics (s : AuthService) : AuthService :=
  mkAuthService (as_hasher s) (as_tokens s) (as_refreshTTL s) true.

Section Service.
Context `{AuthLib, StripeSDK, UserRepository, RefreshTokenRepository}.
Context (s : AuthService).

Definition countAuth (operation outcome : string) : M World unit :=
  if as_metrics s then modify (add_metric (IncAuth operation outcome)) else mret tt.

Definition countRefresh (outcome : string) : M World unit :=
  if as_metrics s then modify (add_metric (IncTokenRefresh outcome)) else mret tt.

Definition newUser (email : string) (digest : option string) (fullName : option string) : User.t :=
  User.mk uuid_Nil email None digest fullName None ∅ time_zero time_zero None.

Definition newToken (uid : UUID) (hash : string) (family : UUID) (expires : Time) : RefreshToken.t :=
  RefreshToken.mk uuid_Nil uid hash family time_zero expires None None None time_zero time_zero.

Definition issue (user : User.t) : M World (result AuthResult.t) :=
  a ← Issue (as_tokens s) (User.ID user) (User.Email user);
  match a with
  | Err e => mret (Err (wrapf "issue token" e))
  | Ok (access, expiresAt) =>
    r ← NewRefreshToken;
    match r with
    | Err e => mret (Err (wrapf "mint refresh token" e))
    | Ok (refreshToken, refreshHash) =>
      family ← draw;
      now ← gets w_now;
      let record := newToken (User.ID user) refreshHash family (now + as_refreshTTL s) in
      c ← tokens_CreateRefreshToken record;
      mret (match c with
            | Err e => Err (wrapf "store refresh token" e)
            | Ok _ => Ok (AuthResult.mk access expiresAt (viewOf user) refreshToken
                            (RefreshToken.ExpiresAt record))
            end)
    end
  end.

Definition Register (email password : string) (fullName : option string)
    : M World (result AuthResult.t) :=
  let email := TrimSpace email in
  match ValidatePassword password with
  | Some e => mret (Err (sentinelf ErrValidation (err_msg e)))
  | None =>
    d ← Hash (as_hasher s) password;
    match d with
    | Err e => mret (Err (wrapf "hash password" e))
    | Ok digest =>
      c ← users_CreateUser (newUser email (Some digest) fullName);
      match c with
      | Err e =>
        if errors_Is e ErrValidation || errors_Is e ErrConflict then
          _ ← countAuth "register" "rejected"; mret (Err e)
        else
          _ ← countAuth "register" "error"; mret (Err (wrapf "create user" e))
      | Ok user => _ ← countAuth "register" "success"; issue user
      end
    end
  end.

(** The cost upgrade that rides along on a successful login. *)
Definition rehash (user : User.t) (digest password : string) : M World User.t :=
  if NeedsRehash (as_hasher s) digest then
    r ← Hash (as_hasher s) password;
    match r with
    | Err _ => mret user
    | Ok rehashed =>
      let user' := User.set_PasswordHash (Some rehashed) user in
      u ← users_UpdateUser user';
      (* [UpdateUser] stores the trimmed email, and the time, in its argument *)
      mret (match u with Ok u' => u' | Err _ => (User.Validate user').1 end)
    end
  else mret user.

Definition Login (email password : string) : M World (result AuthResult.t) :=
  g ← users_GetUserByEmail (TrimSpace email);
  match g with
  | Err e =>
    if errors_Is e ErrNotFound then
      _ ← DummyCompare (as_hasher s);
      _ ← countAuth "login" "failed";
      mret (Err ErrCredentialsMismatch)
    else
      _ ← countAuth "login" "error";
      mret (Err (wrapf "look up user" e))
  | Ok user =>
    let digest := default "" (User.PasswordHash user) in
    v ← Verify (as_hasher s) digest password;
    match v with
    | Some _ =>
      _ ← countAuth "login" "failed";
      mret (Err ErrCredentialsMismatch)
    | None =>
      _ ← countAuth "login" "success";
      user' ← rehash user digest password;
      issue user'
    end
  end.

Definition Me (userID : UUID) : M World (result UserView.t) :=
  g ← users_GetUserByID userID;
  mret (match g with
        | Ok user => Ok (viewOf user)
        | Err e => if errors_Is e ErrNotFound then Err e else Err (wrapf "load user" e)
        end).

Definition Refresh (presented : string) : M World (result AuthResult.t) :=
  if bool_decide (presented = "") then mret (Err ErrNotFound)
  else
    n ← NewRefreshToken;
    match n with
    | Err e => mret (Err (wrapf "mint refresh token" e))
    | Ok (successorToken, successorHash) =>
      now ← gets w_now;
      c ← tokens_ConsumeRefreshToken
            (ConsumeRefreshToken.mk (HashRefreshToken presented) successorHash (now + as_refreshTTL s));
      match c with
      | Err e =>
        if errors_Is e ErrTokenReused
        then _ ← countRefresh "reuse_detected"; mret (Err e)
        else _ ← countRefresh "rejected"; mret (Err e)
      | Ok stored =>
        g ← users_GetUserByID (RefreshToken.UserID stored);
        match g with
        | Err _ => mret (Err ErrNotFound)
        | Ok user =>
          a ← Issue (as_tokens s) (User.ID user) (User.Email user);
          match a with
          | Err e => mret (Err (wrapf "issue access token" e))
          | Ok (access, expiresAt) =>
            _ ← countRefresh "success";
            mret (Ok (AuthResult.mk access expiresAt (viewOf user) successorToken
                        (RefreshToken.ExpiresAt stored)))
          end
        end
      end
    end.

Definition Logout (presented : string) : M World (option error) :=
  if bool_decide (presented = "") then mret None
  else
    r ← tokens_RevokeFamilyByToken (HashRefreshToken presented) "signed out";
    mret (match r with
          | Ok _ => None
          | Err e => if errors_Is e ErrNotFound then None else Some (wrapf "revoke session" e)
          end).

Definition RevokeAllSessions (userID : UUID) (reason : string) : M World (option error) :=
  r ← tokens_RevokeAllForUser userID reason;
  mret (match r with Ok _ => None | Err e => Some (wrapf "revoke sessions" e) end).
End Service.

(** ** Login gives nothing away *)

Section Uniform.
Context `{AuthLib, StripeSDK, UserRepository, RefreshTokenRepository}.
Context (s : AuthService).

Definition counted : list Metric :=
  if as_metrics s then [IncAuth "login" "failed"] else [].

(** The digest a rejected login is compared against: the account's, or the
    decoy when there is no account or no password. *)
Definition compared (g : result User.t) : string :=
  match g with
  | Ok user => match User.PasswordHash user with
               | Some d => if bool_decide (d = "") then decoy (as_hasher s) else d
               | None => decoy (as_hasher s)
               end
  | Err _ => decoy (as_hasher s)
  end.

(** C30: a login that fails because there is no such account, because the
    account has no password, or because the password is wrong returns the
    same error, spends exactly one bcrypt comparison, publishes the same
    metric, and changes nothing else. *)
Theorem login_uniform email password w g w1 :
  users_GetUserByEmail (TrimSpace email) w = (g, w1) →
  match g with
  | Err e => errors_Is e ErrNotFound = true
  | Ok user => default "" (User.PasswordHash user) = "" ∨
               bcrypt_Compare (default "" (User.PasswordHash user)) password = false
  end →
  ∃ w', Login s email password w = (Err ErrCredentialsMismatch, w') ∧
    w_db w' = w_db w1 ∧ w_now w' = w_now w1 ∧
    w_metrics w' = counted ++ BcryptCompare (compared g) :: w_metrics w1.
Proof.
  intros Hg Hfail. unfold Login, countAuth, counted. unfold mbind at 1, M_bind at 1. rewrite Hg.
  destruct g as [user|e].
  - unfold Verify, DummyCompare, compare, compared. unfold_monad.
    destruct (User.PasswordHash user) as [d|]; simpl in *.
    + case_bool_decide as Hd; simpl.
      * destruct (as_metrics s); simpl; eauto.
      * destruct Hfail as [| ->]; [done|]. destruct (as_metrics s); simpl; eauto.
    + destruct (as_metrics s); simpl; eauto.
  - rewrite Hfail. unfold DummyCompare, compare, compared. unfold_monad.
    destruct (as_metrics s); simpl; eauto.
Qed.
End Uniform.

(** ** Sessions *)

Section Sessions.
Context `{AuthLib, StripeSDK, Postgres}.
Context (s : AuthService).
#[local] Existing Instance UserRepo.
#[local] Existing Instance RefreshTokenRepo.

Lemma GetUserByID_found id w u w' :
  GetUserByID id w = (Ok u, w') → User.ID u = id ∧ w_db w' = w_db w.
Proof.
  unfold GetUserByID. unfold_monad. destruct (db_call _ w) as [[x|e] w1] eqn:Hc; [|done].
  intros [= -> <-]. apply db_call_ok in Hc as [c Hc]. revert Hc. unfold select_user.
  destruct (rows_where _ _) as [|[k v] l] eqn:Hr; [done|]. intros [= -> Hdb]. split; [|done].
  assert ((k, u) ∈ (k, u) :: l) as Hin by set_solver. rewrite <- Hr in Hin.
  apply elem_of_rows_where in Hin as [_ [Hid%bool_decide_eq_true _]%andb_true_iff]. done.
Qed.

Lemma Issue_db t uid email w r w' : Issue t uid email w = (r, w') → w_db w' = w_db w.
Proof. unfold Issue, draw. unfold_monad. by intros [= _ <-]. Qed.

Lemma consumed now clock c c' i tb new tb' :
  consume_tx now clock c c' i tb = (Ok new, tb') →
  ∃ p, refresh_tokens tb !! ConsumeRefreshToken.PresentedHash i = Some p ∧ live p ∧
    clock ≤ RefreshToken.ExpiresAt p ∧
    refresh_tokens tb' !! ConsumeRefreshToken.SuccessorHash i = Some new ∧ live new ∧
    RefreshToken.FamilyID new = RefreshToken.FamilyID p ∧
    RefreshToken.UserID new = RefreshToken.UserID p ∧
    RefreshToken.ExpiresAt new = ConsumeRefreshToken.SuccessorExpiresAt i ∧
    ∃ p', refresh_tokens tb' !! ConsumeRefreshToken.PresentedHash i = Some p' ∧
      is_Some (RefreshToken.UsedAt p').
Proof.
  unfold consume_tx. destruct (refresh_tokens tb !! _) as [p|] eqn:Hp; [|done].
  case_bool_decide as Hu; [done|]. destruct (_ || _) eqn:Hd; [done|].
  apply orb_false_iff in Hd as [Hr%bool_decide_eq_false Ha%Z.ltb_ge].
  destruct (insert_token_stmt _ _ _ _ _ _ _) as [r tb1] eqn:Hi.
  apply insert_token_cases in Hi as [[-> [x ->]]|(-> & Hh & _ & ->)]; [done|].
  intros [= <- <-]. exists p. simpl.
  assert (refresh_tokens (mark_used_stmt now (RefreshToken.ID p) c tb).2 !!
    ConsumeRefreshToken.PresentedHash i = Some (token_touch (c_now c) p
      (RefreshToken.set_UsedAt (Some now) p))) as Hm.
  { simpl. rewrite lookup_update_where, Hp. simpl. by rewrite bool_decide_eq_true_2. }
  split_and!; try done.
  - split; by apply eq_None_not_Some.
  - by rewrite lookup_insert_eq.
  - eexists. rewrite lookup_insert_ne; [split; [exact Hm|]|].
    + unfold token_touch. destruct (bool_decide (p = _)); simpl; eauto.
    + intros He. rewrite He in Hh. simpl in Hh, Hm. congruence.
Qed.

(** C31: whatever faults occur, a refresh that succeeds rotated the session:
    the token presented was live and is now used, the token returned is the
    one live successor stored in the same family for the same user, and the
    identity returned is that user's. *)
Theorem refresh_rotates presented w res w' :
  Refresh s presented w = (Ok res, w') →
  ∃ p p' new,
    refresh_tokens (w_db w) !! HashRefreshToken presented = Some p ∧ live p ∧
    refresh_tokens (w_db w') !! HashRefreshToken presented = Some p' ∧
    is_Some (RefreshToken.UsedAt p') ∧
    refresh_tokens (w_db w') !! HashRefreshToken (AuthResult.RefreshToken res) = Some new ∧ live new ∧
    RefreshToken.FamilyID new = RefreshToken.FamilyID p ∧
    RefreshToken.UserID new = RefreshToken.UserID p ∧
    RefreshToken.ExpiresAt new = AuthResult.RefreshTokenExpiresAt res ∧
    UserView.ID (AuthResult.User_ res) = RefreshToken.UserID p.
Proof.
  unfold Refresh, NewRefreshToken, draw, countRefresh. unfold_monad. case_bool_decide; [done|].
  cbn beta iota zeta. destruct (rand_Read _) as [buf|]; [|done].
  simpl (tokens_ConsumeRefreshToken _). simpl (users_GetUserByID _).
  destruct (RefreshTokenRepo.ConsumeRefreshToken _ _) as [[stored|e] w1] eqn:Hc;
    [|destruct (errors_Is _ _), (as_metrics s); done].
  apply consume_exchanged in Hc as (now & clock & c & c' & Hc).
  apply consumed in Hc as (p & Hp & Hlp & _ & Hnew & Hln & Hf & Hu & He & p' & Hp' & Hus).
  destruct (GetUserByID _ w1) as [[user|e] w2] eqn:Hg; [|done].
  apply GetUserByID_found in Hg as [Hid Hdb2].
  destruct (Issue _ _ _ w2) as [[[access ex]|e] w3] eqn:Hi; [|done]. apply Issue_db in Hi.
  intros Hres.
  assert (w_db w' = w_db w1 ∧ res = AuthResult.mk access ex (viewOf user) (base64_RawURL buf)
    (RefreshToken.ExpiresAt stored)) as [Hdb ->].
  { destruct (as_metrics s); injection Hres as <- <-; split; try done; simpl; congruence. }
  exists p, p', stored. rewrite Hdb. simpl. split_and!; try done. congruence.
Qed.

(** C32: logging out ends the session for good.  When it reports no error,
    whatever faults occurred, every token of the presented token's family is
    revoked, and no later login, exchange, revocation or cleanup makes any of
    them usable or exchangeable. *)
Theorem logout_final presented w w' p l :
  Logout presented w = (None, w') → presented ≠ "" →
  refresh_tokens (w_db w) !! HashRefreshToken presented = Some p →
  Forall (avoids_family (RefreshToken.FamilyID p)) l →
  ∀ k t at_, refresh_tokens (token_run l (w_db w')) !! k = Some t →
    RefreshToken.FamilyID t = RefreshToken.FamilyID p → RefreshToken.Usable t at_ = false.
Proof.
  unfold Logout. intros Hlog Hne Hp Hl. rewrite bool_decide_eq_false_2 in Hlog by done.
  simpl in Hlog. unfold RevokeFamilyByToken in Hlog. unfold mbind, M_bind, mret, M_ret in Hlog.
  destruct (db_call _ w) as [[n|e] w1] eqn:Hc.
  - injection Hlog as <-. apply db_call_ok in Hc as [c Hc].
    assert (family_revoked (RefreshToken.FamilyID p) (refresh_tokens (w_db w1))) as Hrev.
    { pose proof (revoke_family_revoked (c_now c) (RefreshToken.FamilyID p) (truncate "signed out") c
        (w_db w)) as Hr. unfold same_family in Hr. revert Hc. unfold revoke_stmt, in_family_of.
      rewrite Hp. intros [= _ <-]. exact Hr. }
    intros k t at_ Ht Hf.
    destruct (token_run_revoked _ l _ Hl Hrev k t Ht Hf) as [r Hr].
    unfold RefreshToken.Usable. by rewrite Hr.
  - simpl in Hlog. destruct (errors_Is _ _) eqn:He in Hlog; [|done].
    apply mapError_not_found in He as ->. exfalso. revert Hc. unfold db_call.
    destruct (ctx_done _); [done|]. destruct (tk_fault _) as [[]|]; done.
Qed.
End Sessions.
