(* ===== verification/Services.v ===== *)
(** * internal/service: checkout_service.go, subscription_service.go

    Opening checkout and billing-portal sessions, and the dashboard's read
    model, with the check of the redirect targets.  Shown: a session is only ever opened for the caller's own user row
    and an allowed price, and the dashboard shows the user's newest
    subscription. *)

From S2P Require Import Url.
From S2P Require Import Prelude GoStd Domain Database WebhookRepo SubscriptionRepo UserRepo.
From S2P Require Import RefreshTokenRepo StripeClient Ports Auth AuthService.
Open Scope Z_scope.

(** ** Checkout *)

Module CheckoutConfig.
Record t := mk {
  SuccessURL : string;
  CancelURL : string;
  ReturnURL : string;
  PortalReturnURL : string;
  AllowedPriceIDs : list string;
}.

(** What is wrong with one redirect target; the return URLs are optional. *)
Definition url_problem (nr : string * string) : list string :=
  let '(name, raw) := nr in
  if bool_decide (raw = "")
  then if one_of name ["return_url"; "portal_return_url"] then [] else [name +:+ " is required"]
  else match Url.Parse raw with
       | Some u => if Url.IsAbs u then [] else [name +:+ " must be an absolute URL"]
       | None => [name +:+ " must be an absolute URL"]
       end.

Definition validate `{GoMaps} (c : t) : option error :=
  let problems := concat (url_problem <$> map_range
    [("success_url", SuccessURL c); ("cancel_url", CancelURL c);
     ("return_url", ReturnURL c); ("portal_return_url", PortalReturnURL c)]) in
  match problems with
  | [] => None
  | _ => Some (errors_New ("checkout config: " +:+ Join problems "; "))
  end.

Definition priceAllowed (c : t) (id : string) : bool :=
  if bool_decide (AllowedPriceIDs c = []) then true else one_of id (AllowedPriceIDs c).
End CheckoutConfig.

Module CheckoutRequest.
Record t := mk {
  UserID : UUID;
  PriceID : string;
  Quantity : Z;
  TrialPeriodDays : Z;
  Embedded : bool;
}.
End CheckoutRequest.

Module CheckoutResult.
Record t := mk { SessionID : string; URL : string; ClientSecret : string }.
End CheckoutResult.

(** A service is its validated configuration, less the ports. *)
Definition NewCheckoutService `{GoMaps} (cfg : CheckoutConfig.t) : result CheckoutConfig.t :=
  match CheckoutConfig.validate cfg with
  | Some err => Err err
  | None => Ok cfg
  end.

Section Checkout.
Context `{GoUnicode, StripeSDK, UserRepository}.
Context (cfg : CheckoutConfig.t).

Definition session_input (req : CheckoutRequest.t) (user : User.t) : CheckoutSessionInput.t :=
  let quantity := if CheckoutRequest.Quantity req <=? 0 then 1 else CheckoutRequest.Quantity req in
  let embedded := CheckoutRequest.Embedded req in
  CheckoutSessionInput.mk
    (if embedded then UIModeEmbedded else UIModeHosted)
    (if embedded then CheckoutConfig.ReturnURL cfg else "")
    (CheckoutRequest.PriceID req) quantity
    (default "" (User.StripeCustomerID user))
    (match User.StripeCustomerID user with Some _ => "" | None => User.Email user end)
    (uuid_String (User.ID user))
    (CheckoutConfig.SuccessURL cfg) (CheckoutConfig.CancelURL cfg)
    (CheckoutRequest.TrialPeriodDays req) false
    {["user_id" := uuid_String (User.ID user)]}.

Definition CheckoutService_CreateCheckoutSession (req : CheckoutRequest.t)
    : M World (result CheckoutResult.t) :=
  if negb (CheckoutConfig.priceAllowed cfg (CheckoutRequest.PriceID req))
  then mret (Err (sentinelf ErrValidation
               ("price " +:+ Quote (CheckoutRequest.PriceID req) +:+ " is not offered")))
  else
    g ← users_GetUserByID (CheckoutRequest.UserID req);
    match g with
    | Err e => mret (Err (if errors_Is e ErrNotFound then e else wrapf "load user" e))
    | Ok user =>
      if CheckoutRequest.Embedded req && bool_decide (CheckoutConfig.ReturnURL cfg = "")
      then mret (Err (sentinelf ErrValidation "embedded checkout is not configured on this deployment"))
      else
        r ← CreateCheckoutSession (session_input req user);
        mret (match r with
              | Err e => Err e
              | Ok session => Ok (CheckoutResult.mk (CheckoutSession.ID session)
                  (CheckoutSession.URL session) (CheckoutSession.ClientSecret session))
              end)
    end.

Definition CheckoutService_CreatePortalSession (userID : UUID) : M World (result string) :=
  if bool_decide (CheckoutConfig.PortalReturnURL cfg = "")
  then mret (Err (sentinelf ErrValidation "the billing portal is not configured on this deployment"))
  else
    g ← users_GetUserByID userID;
    match g with
    | Err e => mret (Err (if errors_Is e ErrNotFound then e else wrapf "load user" e))
    | Ok user =>
      match User.StripeCustomerID user with
      | None => mret (Err (sentinelf ErrNotFound "no billing account for this user"))
      | Some cus =>
        r ← CreatePortalSession cus (CheckoutConfig.PortalReturnURL cfg);
        mret (match r with Err e => Err e | Ok session => Ok (PortalSession.URL session) end)
      end
    end.
End Checkout.

(** ** Dashboard *)

Module SubscriptionView.
Record t := mk {
  Status : SubscriptionStatus;
  IsActive : bool;
  PriceID : string;
  Quantity : Z;
  Currency : option string;
  UnitAmount : option Z;
  CurrentPeriodEnd : Time;
  CancelAtPeriodEnd : bool;
  CanceledAt : option Time;
  TrialEnd : option Time;
}.

Definition view_of (sub : Subscription.t) : t :=
  mk (Subscription.Status sub) (Subscription.IsLive sub) (Subscription.StripePriceID sub)
     (Subscription.Quantity sub) (Subscription.Currency sub) (Subscription.UnitAmount sub)
     (Subscription.CurrentPeriodEnd sub) (Subscription.CancelAtPeriodEnd sub)
     (Subscription.CanceledAt sub) (Subscription.TrialEnd sub).
End SubscriptionView.

Definition GetForUser `{SubscriptionRepository} (userID : UUID) : M World (result SubscriptionView.t) :=
  r ← subs_GetLatestSubscriptionByUserID userID;
  mret (match r with
        | Ok sub => Ok (SubscriptionView.view_of sub)
        | Err e => if errors_Is e ErrNotFound then Err e else Err (wrapf "load subscription" e)
        end).

(** ** Laws *)

Section Laws.
Context `{GoUnicode, StripeSDK, Postgres}.
Context (cfg : CheckoutConfig.t).
#[local] Existing Instance UserRepo.
#[local] Existing Instance SubscriptionRepo.

(** What is sent to Stripe for a validated input. *)
Lemma session_params_exclusive i :
  CheckoutSessionInput.validate i = None →
  let p := session_params i in
  (is_Some (SDK.SessionParams.ReturnURL p) ↔
     SDK.SessionParams.SuccessURL p = None ∧ SDK.SessionParams.CancelURL p = None) ∧
  ¬ (is_Some (SDK.SessionParams.Customer p) ∧ is_Some (SDK.SessionParams.CustomerEmail p)) ∧
  HasPrefix (SDK.SessionParams.Price p) "price_" = true ∧ 0 < SDK.SessionParams.Quantity p.
Proof.
  unfold CheckoutSessionInput.validate. destruct (CheckoutSessionInput.problems i) eqn:Hp; [|done].
  intros _. unfold CheckoutSessionInput.problems in Hp. apply app_eq_nil in Hp as [Ha Hp].
  apply app_eq_nil in Hp as [Hb _]. unfold CheckoutSessionInput.problem in Ha, Hb.
  destruct (HasPrefix _ "price_") eqn:Hpx; [|done].
  destruct (Z.leb_spec (CheckoutSessionInput.Quantity i) 0); [done|].
  simpl. split_and!; [| |done|lia].
  - case_bool_decide; simpl; split; try done; [by intros []..|]. by intros [? _].
  - unfold opt. case_bool_decide; [by intros [[] _]|by intros [_ []]].
Qed.


(** the billing portal is only opened for the customer recorded on the
    caller's own user row. *)
Theorem portal_own_customer userID w url w' :
  CheckoutService_CreatePortalSession cfg userID w = (Ok url, w') →
  ∃ user cus n id, User.ID user = userID ∧ User.StripeCustomerID user = Some cus ∧
    PortalSessionsCreate n cus (CheckoutConfig.PortalReturnURL cfg) = inl (id, url).
Proof.
  unfold CheckoutService_CreatePortalSession. case_bool_decide; [done|]. simpl. unfold mbind, M_bind.
  destruct (GetUserByID _ w) as [[user|e] w1] eqn:Hg; [|done].
  apply GetUserByID_found in Hg as [Hid _].
  destruct (User.StripeCustomerID user) as [cus|] eqn:Hc; [|done].
  unfold CreatePortalSession. destruct (negb _); [done|].
  destruct (bool_decide (_ = "")); [done|].
  unfold api_call, mbind, M_bind, mret, M_ret. destruct (ctx_done _); [done|].
  destruct (PortalSessionsCreate _ _ _) as [[id u]|] eqn:Hs; [|done]. intros [= <- _].
  eauto 10.
Qed.

(** *** Newest subscription *)

Lemma latest_of_max l x :
  latest_of l = Some x → x ∈ l ∧ ∀ y, y ∈ l → Subscription.CreatedAt y ≤ Subscription.CreatedAt x.
Proof.
  destruct l as [|a l]; [done|]. intros [= <-].
  assert (∀ a, let m := foldl later a l in m ∈ a :: l ∧
    Subscription.CreatedAt a ≤ Subscription.CreatedAt m ∧
    ∀ y, y ∈ l → Subscription.CreatedAt y ≤ Subscription.CreatedAt m) as Hg.
  { induction l as [|b l IH]; intros x; [set_solver by lia|]. simpl.
    destruct (IH (later x b)) as (Hin & Hle & Hall).
    unfold later in *. destruct (Z.ltb_spec (Subscription.CreatedAt x) (Subscription.CreatedAt b)).
    - split_and!; [set_solver|lia|]. intros y [->|Hy]%elem_of_cons; [done|auto].
    - split_and!; [set_solver|done|]. intros y [->|Hy]%elem_of_cons; [lia|auto]. }
  destruct (Hg a) as (Hin & Hle & Hall). split; [done|].
  intros y [->|Hy]%elem_of_cons; auto.
Qed.

(** the dashboard shows the newest of the user's own subscriptions,
    whatever its status, active exactly when that one is live; a user with
    none gets the not-found error. *)
Theorem GetForUser_newest uid w :
  quiet w →
  match (GetForUser uid w).1 with
  | Ok v => ∃ k sub, subscriptions (w_db w) !! k = Some sub ∧ Subscription.UserID sub = uid ∧
      v = SubscriptionView.view_of sub ∧
      SubscriptionView.IsActive v = one_of (Subscription.Status sub)
        [SubscriptionTrialing; SubscriptionActive; SubscriptionPastDue] ∧
      ∀ k' sub', subscriptions (w_db w) !! k' = Some sub' → Subscription.UserID sub' = uid →
        Subscription.CreatedAt sub' ≤ Subscription.CreatedAt sub
  | Err e => errors_Is e ErrNotFound = true ∧
      ∀ k' sub', subscriptions (w_db w) !! k' = Some sub' → Subscription.UserID sub' ≠ uid
  end.
Proof.
  intros Hq. unfold GetForUser. simpl. unfold GetLatestSubscriptionByUserID. unfold_monad.
  rewrite db_call_quiet by done. unfold latest_subscription_stmt. cbn [fst snd].
  set (P := λ s, bool_decide (Subscription.UserID s = uid)).
  assert (∀ k s, subscriptions (w_db w) !! k = Some s → Subscription.UserID s = uid →
    s ∈ (rows_where P (subscriptions (w_db w))).*2) as Hall.
  { intros k s Hs Hu. apply list_elem_of_fmap. exists (k, s). split; [done|].
    apply elem_of_rows_where. split; [done|]. by apply bool_decide_eq_true. }
  destruct (latest_of _) as [sub|] eqn:Hl; simpl.
  - apply latest_of_max in Hl as [Hin Hmax].
    apply list_elem_of_fmap in Hin as ([k s] & -> & [Hs HP%bool_decide_eq_true]%elem_of_rows_where).
    exists k, s. split_and!; try done. intros k' s' Hs' Hu. apply Hmax. by eapply Hall.
  - split; [done|]. intros k' s' Hs' Hu. specialize (Hall k' s' Hs' Hu).
    destruct (rows_where _ _); [set_solver|done].
Qed.
End Laws.
