(* ===== verification/RateLimit.v ===== *)
(** * internal/handler/middleware/ratelimit.go

    The per-client token buckets and the choice of the client's key.  The token
    bucket itself is golang.org/x/time/rate and so a parameter; what is here is
    the bounded map of buckets, shared by requests that each take two steps (the
    section under the mutex, then the reservation on the limiter they hold a
    pointer to), and the address a request is counted against.  The janitor
    and [Close] are in Workers.v, the layer around the handlers in
    Middleware.v. *)

From Stdlib Require Import Ascii.
From stdpp Require Import fin_maps.
From S2P Require Import Prelude GoStd Strconv Network.
Open Scope Z_scope.

(** ** Configuration *)

Module RateLimitConfig.
Record t := mk {
  Rate : float64;
  Burst : Z;
  TTL : Duration;
  MaxEntries : Z;
}.

Definition defaultRateLimitTTL : Duration := 15 * Minute.
Definition defaultRateLimitMaxEntries : Z := 50000.

Definition withDefaults (c : t) : t :=
  mk (if float_leb (Rate c) float_zero then float_decimal false 2 (-1) else Rate c)
     (if Burst c <=? 0 then 5 else Burst c)
     (if TTL c <=? 0 then defaultRateLimitTTL else TTL c)
     (if MaxEntries c <=? 0 then defaultRateLimitMaxEntries else MaxEntries c).
End RateLimitConfig.

(** [rate.Limiter] and [rate.Reservation]. *)
Class RateLib := {
  Limiter : Type;
  Reservation : Type;
  NewLimiter : float64 → Z → Limiter;
  ReserveN : Limiter → Time → Reservation * Limiter;
  Reservation_OK : Reservation → bool;
  DelayFrom : Reservation → Time → Duration;
  CancelAt : Reservation → Time → Limiter → Limiter;
}.

Section Limiter.
Context `{RateLib}.

(** A bucket points to its limiter; limiters live in a heap of their own, since
    a request may still hold one that the map has dropped. *)
Record bucket := mkBucket { limiter : nat; lastSeen : Time }.

Record RateLimiter := mkRateLimiter {
  cfg : RateLimitConfig.t;
  buckets : gmap string bucket;
  heap : gmap nat Limiter;
  next : nat;
}.

Definition NewRateLimiter (c : RateLimitConfig.t) : RateLimiter :=
  mkRateLimiter (RateLimitConfig.withDefaults c) ∅ ∅ 0.

Definition prune (now : Time) (rl : RateLimiter) : RateLimiter :=
  mkRateLimiter (cfg rl)
    (filter (λ kb, ¬ RateLimitConfig.TTL (cfg rl) < now - lastSeen kb.2) (buckets rl))
    (heap rl) (next rl).

(** [allow] up to the unlock: the limiter the request then uses. *)
Definition acquire (key : string) (now : Time) : M RateLimiter nat := λ rl,
  match buckets rl !! key with
  | Some b =>
      (limiter b, mkRateLimiter (cfg rl) (<[key := mkBucket (limiter b) now]> (buckets rl)) (heap rl) (next rl))
  | None =>
      let m := if RateLimitConfig.MaxEntries (cfg rl) <=? Z.of_nat (size (buckets rl))
               then ∅ else buckets rl in
      let l := NewLimiter (RateLimitConfig.Rate (cfg rl)) (RateLimitConfig.Burst (cfg rl)) in
      (next rl, mkRateLimiter (cfg rl) (<[key := mkBucket (next rl) now]> m)
                  (<[next rl := l]> (heap rl)) (S (next rl)))
  end.

(** [time.Duration(float64(time.Second) / rate)]. *)
Definition retryAfter (c : RateLimitConfig.t) : Duration :=
  if float_leb (RateLimitConfig.Rate c) float_zero then Minute
  else float_to_int64 (float_div (float_of_Z Second) (RateLimitConfig.Rate c)).

Definition set_limiter (i : nat) (l : Limiter) (rl : RateLimiter) : RateLimiter :=
  mkRateLimiter (cfg rl) (buckets rl) (<[i := l]> (heap rl)) (next rl).

(** [allow] after the unlock; [i] came from [acquire], so it is allocated. *)
Definition reserve (i : nat) (now : Time) : M RateLimiter (bool * Duration) := λ rl,
  match heap rl !! i with
  | None => ((false, 0), rl)
  | Some l =>
    let '(r, l') := ReserveN l now in
    if negb (Reservation_OK r) then ((false, retryAfter (cfg rl)), set_limiter i l' rl)
    else
      let delay := DelayFrom r now in
      if 0 <? delay then ((false, delay), set_limiter i (CancelAt r now l') rl)
      else ((true, 0), set_limiter i l' rl)
  end.

Definition allow (key : string) (now : Time) : M RateLimiter (bool * Duration) :=
  i ← acquire key now; reserve i now.

(** The [Retry-After] seconds of a refusal: [math.Ceil], at least one. *)
Definition retry_seconds (d : Duration) : Z :=
  let s := float_ceil (Seconds d) in if s <? 1 then 1 else s.
End Limiter.

(** ** Client addresses *)

(** What the key is computed from. *)
Record Peer := mkPeer { RemoteAddr : string; ForwardedFor : list string }.

(** [ClientIP] of logger.go. *)
Definition ClientIP (r : Peer) : string := default (RemoteAddr r) (SplitHostPort (RemoteAddr r)).

Definition is_blank (a : ascii) : bool := (byte_val a =? 32)%N || (byte_val a =? 9)%N.

Fixpoint trim_left (s : string) : string :=
  match s with
  | EmptyString => ""
  | String a s' => if is_blank a then trim_left s' else s
  end.

Definition trimSpace (s : string) : string :=
  string_rev (trim_left (string_rev (trim_left s) "")) "".

Definition splitAndTrim (header : string) : list string :=
  filter (λ p, p ≠ "") (trimSpace <$> split_on 44 header).

Definition clientAddr (r : Peer) (trustedProxies : Z) : string :=
  let direct := ClientIP r in
  if trustedProxies <=? 0 then direct
  else
    let hops := concat (splitAndTrim <$> ForwardedFor r) ++ [direct] in
    let idx := Z.of_nat (length hops) - 1 - trustedProxies in
    if idx <? 0 then direct else default direct (hops !! Z.to_nat idx).

Definition normaliseIP (addr : string) : string :=
  match ParseIP addr with
  | None => addr
  | Some ip =>
    match To4 ip with
    | Some v4 => v4_String v4
    | None => v6_String (mask64 ip) +:+ "/64"
    end
  end.

Definition ClientKeyFunc (trustedProxies : Z) (r : Peer) : string :=
  normaliseIP (clientAddr r trustedProxies).

Example key_v6 : ClientKeyFunc 0 (mkPeer "[2001:db8::1:2]:5000" []) = "2001:db8::/64".
Proof. reflexivity. Qed.
Example key_spoofed :
  ClientKeyFunc 1 (mkPeer "10.0.0.1:5000" ["1.1.1.1 ,, 2.2.2.2"; "203.0.113.9"]) = "203.0.113.9".
Proof. reflexivity. Qed.

(** ** The map of buckets *)

Section Buckets.
Context `{RateLib}.

(** What concurrent requests and the janitor do to the limiter, one critical
    section or one reservation at a time. *)
Inductive rl_op :=
  | OpAcquire (key : string) (now : Time)
  | OpReserve (i : nat) (now : Time)
  | OpPrune (now : Time).

Definition rl_exec (o : rl_op) (rl : RateLimiter) : RateLimiter :=
  match o with
  | OpAcquire key now => (acquire key now rl).2
  | OpReserve i now => (reserve i now rl).2
  | OpPrune now => prune now rl
  end.

Definition rl_run (ops : list rl_op) (rl : RateLimiter) : RateLimiter :=
  foldl (λ rl o, rl_exec o rl) rl ops.

Record rl_inv (rl : RateLimiter) : Prop := mkInv {
  inv_room : 0 < RateLimitConfig.MaxEntries (cfg rl);
  inv_size : Z.of_nat (size (buckets rl)) ≤ RateLimitConfig.MaxEntries (cfg rl);
  inv_heap : ∀ i, (i < next rl)%nat ↔ is_Some (heap rl !! i);
  inv_points : ∀ k b, buckets rl !! k = Some b → (limiter b < next rl)%nat;
  inv_apart : ∀ k k' b b', buckets rl !! k = Some b → buckets rl !! k' = Some b' →
    limiter b = limiter b' → k = k';
}.

Lemma new_inv c : rl_inv (NewRateLimiter c).
Proof.
  split; simpl; try done.
  - destruct (Z.leb_spec (RateLimitConfig.MaxEntries c) 0); [done|lia].
  - rewrite map_size_empty. destruct (Z.leb_spec (RateLimitConfig.MaxEntries c) 0); [done|lia].
  - intros i. rewrite lookup_empty. split; [lia|by intros []].
Qed.

Lemma prune_inv now rl : rl_inv rl → rl_inv (prune now rl).
Proof.
  intros [Hr Hs Hh Hp Ha]. split; simpl; try done.
  - etrans; [|exact Hs]. apply inj_le. apply map_subseteq_size, map_filter_subseteq.
  - intros k b [Hb _]%map_lookup_filter_Some. eauto.
  - intros k k' b b' [Hb _]%map_lookup_filter_Some [Hb' _]%map_lookup_filter_Some. eauto.
Qed.

Lemma set_limiter_inv i l rl : is_Some (heap rl !! i) → rl_inv rl → rl_inv (set_limiter i l rl).
Proof.
  intros Hi [Hr Hs Hh Hp Ha]. split; simpl; try done. intros j.
  destruct (decide (j = i)) as [->|Hn].
  - rewrite lookup_insert_eq. split; [eauto|]. intros _. by apply Hh.
  - by rewrite lookup_insert_ne by done.
Qed.

Lemma reserve_inv i now rl : rl_inv rl → rl_inv (reserve i now rl).2.
Proof.
  intros HI. unfold reserve. destruct (heap rl !! i) as [l|] eqn:Hl; [|done].
  destruct (ReserveN l now) as [r l']. destruct (negb _); [by apply set_limiter_inv|].
  destruct (0 <? _); by apply set_limiter_inv.
Qed.

Lemma acquire_inv key now rl : rl_inv rl → rl_inv (acquire key now rl).2.
Proof.
  intros [Hr Hs Hh Hp Ha]. unfold acquire. destruct (buckets rl !! key) as [b|] eqn:Hb; simpl.
  - split; simpl; try done.
    + by rewrite map_size_insert_Some.
    + intros k b' [[<- <-]|[_ ?]]%lookup_insert_Some; simpl; eauto.
    + intros k k' b1 b2 [[<- <-]|[? H1]]%lookup_insert_Some [[<- <-]|[? H2]]%lookup_insert_Some;
        simpl; eauto.
  - set (m := if _ : bool then _ else _).
    assert (m !! key = None) as Hm by (unfold m; destruct (_ <=? _); [apply lookup_empty|done]).
    assert (∀ k x, m !! k = Some x → buckets rl !! k = Some x) as Hsub.
    { intros k x. unfold m. destruct (_ <=? _); [by rewrite lookup_empty|done]. }
    split; simpl; try done.
    + rewrite map_size_insert_None by done. unfold m.
      destruct (Z.leb_spec (RateLimitConfig.MaxEntries (cfg rl)) (Z.of_nat (size (buckets rl)))).
      * rewrite map_size_empty. lia.
      * lia.
    + intros i. destruct (decide (i = next rl)) as [->|Hn].
      * rewrite lookup_insert_eq. split; [eauto|lia].
      * rewrite lookup_insert_ne by done. rewrite <- Hh. lia.
    + intros k b [[<- <-]|[_ Hk%Hsub]]%lookup_insert_Some; simpl; [lia|]. apply Hp in Hk. lia.
    + intros k k' b1 b2 [[<- <-]|[? H1%Hsub]]%lookup_insert_Some [[<- <-]|[? H2%Hsub]]%lookup_insert_Some;
        simpl; intros Heq; eauto.
      * apply Hp in H2. lia.
      * apply Hp in H1. lia.
Qed.

(** whatever requests arrive, from however many addresses and however they
    interleave with each other and with the janitor, the map of buckets never
    exceeds its capacity, every bucket has its limiter, and no two clients share
    one. *)
Theorem buckets_bounded c ops :
  let rl := rl_run ops (NewRateLimiter c) in
  Z.of_nat (size (buckets rl)) ≤ RateLimitConfig.MaxEntries (cfg rl) ∧
  (∀ k b, buckets rl !! k = Some b → is_Some (heap rl !! limiter b)) ∧
  (∀ k k' b b', buckets rl !! k = Some b → buckets rl !! k' = Some b' →
    limiter b = limiter b' → k = k').
Proof.
  assert (∀ rl, rl_inv rl → rl_inv (rl_run ops rl)) as Hrun.
  { induction ops as [|o ops IH]; intros rl HI; [done|]. apply IH. destruct o; simpl.
    - by apply acquire_inv.
    - by apply reserve_inv.
    - by apply prune_inv. }
  destruct (Hrun _ (new_inv c)) as [_ Hs Hh Hp Ha]. split; [done|]. split; [|done].
  intros k b Hb. apply Hh. by apply (Hp k).
Qed.
End Buckets.

(** ** Forwarded addresses *)

(** An address as a proxy writes it. *)
Definition clean (a : string) : Prop :=
  a ≠ "" ∧ trimSpace a = a ∧ str_forall (λ c, negb (byte_val c =? 44)%N) a = true.

(** A proxy that got headers [hs] from a peer at [a] passes on [hs'], with the
    peer's address in a header line of its own or at the end of the last one. *)
Inductive proxied (a : string) : list string → list string → Prop :=
  | proxied_line hs : proxied a hs (hs ++ [a])
  | proxied_append hs h : proxied a (hs ++ [h]) (hs ++ [h +:+ ", " +:+ a]).

(** [hs] sent from [peer] through [n] proxies arrives as [hs'] from [direct]. *)
Inductive via : nat → list string → string → list string → string → Prop :=
  | via_none hs peer : via 0 hs peer hs peer
  | via_proxy n hs peer hs' hs'' peer' direct :
      clean peer → proxied peer hs hs' → via n hs' peer' hs'' direct →
      via (S n) hs peer hs'' direct.

Definition hops_of (hs : list string) : list string := concat (splitAndTrim <$> hs).

Lemma hops_of_app hs hs' : hops_of (hs ++ hs') = hops_of hs ++ hops_of hs'.
Proof. unfold hops_of. by rewrite fmap_app, concat_app. Qed.

Lemma trimSpace_blank (c : ascii) s : is_blank c = true → trimSpace (String c s) = trimSpace s.
Proof. intros Hc. unfold trimSpace. simpl. by rewrite Hc. Qed.

Lemma splitAndTrim_clean a : clean a → splitAndTrim a = [a].
Proof.
  intros (Hne & Ht & Hc). unfold splitAndTrim. rewrite split_on_none by done. simpl.
  rewrite Ht. by rewrite filter_cons_True by done.
Qed.

Lemma splitAndTrim_append h a : clean a → splitAndTrim (h +:+ ", " +:+ a) = splitAndTrim h ++ [a].
Proof.
  intros Ha. rewrite <- (splitAndTrim_clean a) by done. destruct Ha as (_ & _ & Hc).
  unfold splitAndTrim. change (h +:+ ", " +:+ a) with (h +:+ String "," (String " " a)).
  rewrite split_on_app, fmap_app, filter_app by done. f_equal. rewrite !split_on_none by done.
  cbn [fmap list_fmap]. by rewrite trimSpace_blank.
Qed.

Lemma hops_proxied a hs hs' : clean a → proxied a hs hs' → hops_of hs' = hops_of hs ++ [a].
Proof.
  intros Ha [gs|gs h]; rewrite !hops_of_app; unfold hops_of; simpl; rewrite !app_nil_r.
  - by rewrite splitAndTrim_clean.
  - rewrite splitAndTrim_append by done. by rewrite app_assoc.
Qed.

Lemma hops_via n hs peer hs' direct :
  via n hs peer hs' direct →
  ∃ ps, hops_of hs' ++ [direct] = hops_of hs ++ peer :: ps ∧ length ps = n.
Proof.
  induction 1 as [hs peer|n hs peer hs' hs'' peer' direct Hc Hp Hv (ps & Heq & Hl)]; [by exists []|].
  exists (peer' :: ps). rewrite Heq, (hops_proxied peer hs hs') by done. split; [|simpl; lia].
  by rewrite <- app_assoc.
Qed.

(** C38: a client behind the configured number of proxies is counted under its
    own address whatever [X-Forwarded-For] headers it sends itself: the address
    chosen is the one the outermost trusted proxy saw. *)
Theorem client_addr_unspoofable n forged client hs r :
  via n forged client hs (ClientIP r) → ForwardedFor r = hs →
  clientAddr r (Z.of_nat n) = client.
Proof.
  intros Hv Hf. unfold clientAddr. destruct (Z.leb_spec (Z.of_nat n) 0).
  - destruct n; [|lia]. by inversion Hv.
  - apply hops_via in Hv as (ps & Heq & Hl). fold (hops_of (ForwardedFor r)). rewrite Hf, Heq.
    rewrite length_app. simpl. destruct (Z.ltb_spec (Z.of_nat (length (hops_of forged) + S (length ps))
      - 1 - Z.of_nat n) 0); [lia|].
    replace (Z.to_nat _) with (length (hops_of forged)) by lia.
    by rewrite list_lookup_middle.
Qed.
