(* ===== verification/Workers.v ===== *)
(** * The goroutines: WebhookSweeper.Run, RetentionWorker.Run, the janitor of
      the rate limiter

    A loop that waits on a timer and on its context is a step relation: time
    passes, during which other sessions may write; the timer fires and a pass
    runs; the context ends and the loop returns.  When several can happen any
    of them may, as with [select].  Shown: passes keep their distance, so their
    number is bounded by the time elapsed, and once the context is done no pass
    writes anything. *)

From stdpp Require Import relations.
From S2P Require Import Prelude GoStd Domain Database WebhookRepo SubscriptionRepo UserRepo RefreshTokenRepo.
From S2P Require Import StripeClient Ports WebhookService Sweeper Retention RateLimit.
Open Scope Z_scope.

(** ** A timer loop *)

(** [rand.Int64N(n)] from a random value; it panics when there is nothing to
    choose from. *)
Definition Int64N (n : Z) (random : N) : option Z := if n <=? 0 then None else Some (Z.of_N random mod n).

Record Loop := mkLoop {
  lp_world : World;
  lp_due : option Time;                 (* when the timer fires; [None] once [Run] has returned *)
  lp_passes : list (Time * Time);       (* when each pass began and ended, newest first *)
}.

Section Loop.
Context (interval : Duration) (pass : World → World → Prop).

Inductive loop_step : Loop → Loop → Prop :=
  | Elapse l w :
      w_now (lp_world l) ≤ w_now w → w_ctx w = w_ctx (lp_world l) →
      loop_step l (mkLoop w (lp_due l) (lp_passes l))
  | Fire l due w :
      lp_due l = Some due → due ≤ w_now (lp_world l) →
      pass (lp_world l) w → w_now (lp_world l) ≤ w_now w →
      loop_step l (mkLoop w (Some (w_now w + interval)) ((w_now (lp_world l), w_now w) :: lp_passes l))
  | Done l due :
      lp_due l = Some due → ctx_done (lp_world l) = true →
      loop_step l (mkLoop (lp_world l) None (lp_passes l)).

(** A loop whose timer is first set to [jitter]. *)
Definition loop_start (jitter : Duration) (w : World) : Loop := mkLoop w (Some (w_now w + jitter)) [].

(** Every pass begins an interval after the one before it has ended, and the
    first one not before [t]. *)
Fixpoint spaced (t : Time) (l : list (Time * Time)) : Prop :=
  match l with
  | [] => True
  | (b, e) :: l' => b ≤ e ∧ spaced t l' ∧
      match l' with [] => t ≤ b | (_, e') :: _ => e' + interval ≤ b end
  end.

(** Nor does the timer fire before that. *)
Record loop_ok (t : Time) (l : Loop) : Prop := mkLoopOk {
  lo_spaced : spaced t (lp_passes l);
  lo_past : match lp_passes l with [] => True | (_, e) :: _ => e ≤ w_now (lp_world l) end;
  lo_due : ∀ due, lp_due l = Some due →
    match lp_passes l with [] => t ≤ due | (_, e) :: _ => e + interval ≤ due end;
}.

Lemma loop_ok_start jitter w : loop_ok (w_now w + jitter) (loop_start jitter w).
Proof. split; simpl; [done..|]. by intros due [= <-]. Qed.

Lemma loop_ok_step t l l' : loop_step l l' → loop_ok t l → loop_ok t l'.
Proof.
  intros Hs [Hsp Hp Hd]. destruct Hs as [l w Hn _|l due w Hdue Hle _ Hn|l due Hdue Hc]; split; simpl in *; try done.
  - destruct (lp_passes l) as [|[b e] ps]; [done|]. lia.
  - specialize (Hd _ Hdue). split_and!; [done|done|]. destruct (lp_passes l) as [|[b e] ps]; lia.
  - intros d [= <-]. lia.
Qed.

Lemma loop_ok_steps t l l' : rtc loop_step l l' → loop_ok t l → loop_ok t l'.
Proof. induction 1; eauto using loop_ok_step. Qed.

Lemma spaced_length t l : 0 ≤ interval → spaced t l →
  match l with
  | [] => True
  | (b, e) :: l' => t + Z.of_nat (length l') * interval ≤ b ∧ b ≤ e
  end.
Proof.
  intros Hi. induction l as [|[b e] l IH]; [done|]. simpl. intros (Hbe & Hs & Hb). split; [|done].
  specialize (IH Hs). destruct l as [|[b' e'] l]; simpl in *; lia.
Qed.

(** In [d] after the timer was first due there is no time for more than
    [1 + d / interval] passes. *)
Lemma loop_bound jitter w l :
  0 ≤ interval → rtc loop_step (loop_start jitter w) l →
  spaced (w_now w + jitter) (lp_passes l) ∧
  (lp_passes l ≠ [] →
   Z.of_nat (length (lp_passes l) - 1) * interval ≤ w_now (lp_world l) - (w_now w + jitter)).
Proof.
  intros Hi Hr. pose proof (loop_ok_steps _ _ _ Hr (loop_ok_start jitter w)) as [Hs Hp _].
  split; [done|]. intros Hne. pose proof (spaced_length _ _ Hi Hs) as Hl.
  destruct (lp_passes l) as [|[b e] ps]; simpl in *; [done|]. rewrite Nat.sub_0_r. lia.
Qed.

(** A pass that a done context keeps from writing. *)
Definition idle_when_done : Prop :=
  ∀ w w', pass w w' → ctx_done w = true → w_db w' = w_db w ∧ w_ctx w' = w_ctx w.

Lemma ctx_done_later w w' :
  ctx_done w = true → w_ctx w' = w_ctx w → w_now w ≤ w_now w' → ctx_done w' = true.
Proof. unfold ctx_done. intros Hd -> Hn. destruct (w_ctx w); [|done]. lia. Qed.

Lemma loop_idle l l' :
  idle_when_done → loop_step l l' → ctx_done (lp_world l) = true →
  ctx_done (lp_world l') = true ∧ (lp_passes l' ≠ lp_passes l → w_db (lp_world l') = w_db (lp_world l)).
Proof.
  intros Hidle [m w Hn Hc|m due w Hdue Hle Hp Hn|m due Hdue Hc] Hd; simpl in *.
  - split; [by eapply ctx_done_later|done].
  - destruct (Hidle _ _ Hp Hd) as [-> Hcx]. split; [by eapply ctx_done_later|done].
  - done.
Qed.
End Loop.

(** ** The two workers *)

Section Workers.
Context `{GoUnicode, StripeSDK, Postgres}.

(** [WebhookSweeper.Run]: [None] is the panic of its jitter. *)
Definition sweeper_pass (stale : Duration) (s : WebhookSweeper) (w w' : World) : Prop :=
  w' = (@Sweep _ _ UserRepo SubscriptionRepo (WebhookRepo_of stale) s w).2.
Definition sweeper_start (s : WebhookSweeper) (random : N) (w : World) : option Loop :=
  jitter ← Int64N (Z.quot (SweeperConfig.Interval (sw_cfg s)) 4) random; Some (loop_start jitter w).

(** [RetentionWorker.Run]; a pass ends with whatever fuel its loops need. *)
Definition retention_pass (stale : Duration) (rw : RetentionWorker) (w w' : World) : Prop :=
  ∃ fuel r, @RunOnce (WebhookRepo_of stale) RefreshTokenRepo rw fuel w = (Some r, w').
Definition retention_start (random : N) (w : World) : option Loop :=
  jitter ← Int64N Minute random; Some (loop_start jitter w).

(** *** Once the context is done *)

Lemma db_call_done {A} (op : Call → Tables → pgres A * Tables) w :
  ctx_done w = true → db_call op w = (PErr (DriverErr "context canceled"), advance w) ∧ ctx_done (advance w) = true.
Proof.
  intros Hd. assert (ctx_done (advance w) = true) as Ha.
  { eapply (ctx_done_later w); [done|done|]. simpl. lia. }
  unfold db_call. by rewrite Ha.
Qed.

Lemma sweeper_idle stale s : idle_when_done (sweeper_pass stale s).
Proof.
  intros w w' -> Hd. unfold Sweep, reclaimAbandoned, retryFailed, Sweeper.report.
  cbn [hooks_ReclaimAbandonedEvents hooks_ListRetryableEvents hooks_GetLedgerStats WebhookRepo_of].
  unfold ReclaimAbandonedEvents, ListRetryableEvents, GetLedgerStats. unfold_monad.
  destruct (db_call_done (reclaim_stmt (SweeperConfig.StaleClaimAfter (sw_cfg s)) (SweeperConfig.BatchSize (sw_cfg s))) w Hd)
    as [-> Hd1]. simpl.
  match goal with |- context [db_call (list_retryable_stmt ?q) ?w1] =>
    destruct (db_call_done (list_retryable_stmt q) w1 Hd1) as [-> Hd2] end. simpl.
  match goal with |- context [db_call (ledger_stats_stmt ?q) ?w1] =>
    destruct (db_call_done (ledger_stats_stmt q) w1 Hd2) as [-> Hd3] end. done.
Qed.

Lemma retention_idle stale rw : idle_when_done (retention_pass stale rw).
Proof.
  intros w w' (fuel & r & Hr) Hd. unfold RunOnce, pruneRefreshTokens in Hr.
  destruct fuel as [|fuel]; [done|]. simpl in Hr. unfold_monad. rewrite Hd in Hr. simpl in Hr.
  assert (∀ w1, ctx_done w1 = true → (Retention.report (H:=WebhookRepo_of stale) rw w1) = (tt, advance w1)) as Hrep.
  { intros w1 Hd1. unfold Retention.report, hooks_GetRetentionStats, WebhookRepo_of, GetRetentionStats. unfold_monad.
    match goal with |- context [db_call ?op w1] => destruct (db_call_done op w1 Hd1) as [-> _] end. done. }
  destruct (rw_tokens rw); rewrite ?Hd in Hr; simpl in Hr; rewrite Hrep in Hr by done; by injection Hr as <- <-.
Qed.
End Workers.

Section Paced.
Context `{GoUnicode, StripeSDK, Postgres}.

Lemma Int64N_range n k j : Int64N n k = Some j → 0 ≤ j < n.
Proof. unfold Int64N. destruct (Z.leb_spec n 0); [done|]. intros [= <-]. by apply Z.mod_pos_bound. Qed.

Lemma new_sweeper_interval cfg : 0 < SweeperConfig.Interval (sw_cfg (NewWebhookSweeper cfg)).
Proof. simpl. unfold SweeperConfig.or_default. by destruct (Z.leb_spec (SweeperConfig.Interval cfg) 0). Qed.

Lemma new_retention_interval tokens cfg : 0 < RetentionConfig.Interval (rw_cfg (NewRetentionWorker tokens cfg)).
Proof. simpl. unfold RetentionConfig.or_default. by destruct (Z.leb_spec (RetentionConfig.Interval cfg) 0). Qed.

(** What is shown of a worker started at [w], in every state it can reach. *)
Definition paced (interval : Duration) (pass : World → World → Prop) (w : World) (l : Loop) : Prop :=
  spaced interval (w_now w) (lp_passes l) ∧
  (lp_passes l ≠ [] →
   Z.of_nat (length (lp_passes l) - 1) * interval ≤ w_now (lp_world l) - w_now w) ∧
  ∀ l', loop_step interval pass l l' → ctx_done (lp_world l) = true →
    ctx_done (lp_world l') = true ∧ (lp_passes l' ≠ lp_passes l → w_db (lp_world l') = w_db (lp_world l)).

Lemma spaced_weaken interval t t' l : t' ≤ t → spaced interval t l → spaced interval t' l.
Proof.
  intros Ht. induction l as [|[b e] l IH]; [done|]. simpl. intros (? & Hs & Hb).
  split_and!; [done|by apply IH|]. destruct l as [|[]]; [lia|done].
Qed.

Lemma loop_paced interval pass jitter w l :
  0 ≤ interval → 0 ≤ jitter → idle_when_done pass →
  rtc (loop_step interval pass) (loop_start jitter w) l → paced interval pass w l.
Proof.
  intros Hi Hj Hidle Hr. destruct (loop_bound _ _ _ _ _ Hi Hr) as [Hs Hb]. split_and!.
  - eapply spaced_weaken; [|exact Hs]. lia.
  - intros Hne. specialize (Hb Hne). lia.
  - intros l'. by apply loop_idle.
Qed.

(** C26: neither worker can run away.  The passes of the sweeper and of the
    retention worker never overlap and are at least their interval apart, each
    begins after the worker was started, and so [n] of them take [n - 1]
    intervals at the least.  Once the signal has come a pass that still gets to
    run writes nothing: every statement it would make is refused by its
    context. *)
Theorem workers_paced cfg rcfg stale tokens random w l0 l :
  (let s := WithMetrics (NewWebhookSweeper cfg) in
   let interval := SweeperConfig.Interval (sw_cfg s) in
   sweeper_start s random w = Some l0 → rtc (loop_step interval (sweeper_pass stale s)) l0 l →
   paced interval (sweeper_pass stale s) w l) ∧
  (let rw := RetentionWorker_WithMetrics (NewRetentionWorker tokens rcfg) in
   let interval := RetentionConfig.Interval (rw_cfg rw) in
   retention_start random w = Some l0 → rtc (loop_step interval (retention_pass stale rw)) l0 l →
   paced interval (retention_pass stale rw) w l).
Proof.
  pose proof (new_sweeper_interval cfg). pose proof (new_retention_interval tokens rcfg).
  unfold sweeper_start, retention_start. cbv zeta; split; intros Hs Hr;
    (destruct (Int64N _ random) as [j|] eqn:Hj; [|done]); apply Int64N_range in Hj; simpl in Hs; injection Hs as <-.
  - refine (loop_paced _ _ j w l _ _ (sweeper_idle _ _) Hr); simpl in *; lia.
  - refine (loop_paced _ _ j w l _ _ (retention_idle _ _) Hr); simpl in *; lia.
Qed.

(** the jitter of the sweeper is drawn from a quarter of its interval: below
    four nanoseconds, which the configuration allows, there is nothing to draw
    from and [Run] panics.  The retention worker always starts. *)
Theorem sweeper_start_panics cfg random w :
  (sweeper_start (NewWebhookSweeper cfg) random w = None ↔ 0 < SweeperConfig.Interval cfg < 4) ∧
  is_Some (retention_start random w).
Proof.
  split; [|by eexists]. unfold sweeper_start, Int64N. simpl. unfold SweeperConfig.or_default.
  destruct (Z.leb_spec (SweeperConfig.Interval cfg) 0) as [Hi|Hi].
  - simpl. split; [done|lia].
  - destruct (Z.leb_spec (Z.quot (SweeperConfig.Interval cfg) 4) 0) as [Hq|Hq]; simpl.
    + split; [|done]. intros _. split; [done|]. pose proof (Z.quot_str_pos (SweeperConfig.Interval cfg) 4). lia.
    + split; [done|]. intros [_ Hlt]. rewrite Z.quot_small in Hq by lia. lia.
Qed.
End Paced.

(** ** The rate limiter's janitor *)

Section Janitor.
Context `{RateLib}.

(** The limiter with its goroutine: whether [once] is spent, whether [stop] is
    closed, when the ticker ticks next, whether a tick is waiting in its
    channel, and whether [janitor] has returned. *)
Record Janitor := mkJanitor {
  jn_limiter : RateLimiter; jn_once : bool; jn_stop : bool;
  jn_next : Time; jn_tick : bool; jn_returned : bool }.

Definition cleanupInterval : Duration := Minute.

Definition janitor_start (c : RateLimitConfig.t) (now : Time) : Janitor :=
  mkJanitor (NewRateLimiter c) false false (now + cleanupInterval) false false.

(** [close(rl.stop)] panics when it is closed already. *)
Definition close_stop (j : Janitor) : option Janitor :=
  if jn_stop j then None
  else Some (mkJanitor (jn_limiter j) (jn_once j) true (jn_next j) (jn_tick j) (jn_returned j)).

Definition Close (j : Janitor) : option Janitor :=
  if jn_once j then Some j
  else j ← close_stop j; Some (mkJanitor (jn_limiter j) true (jn_stop j) (jn_next j) (jn_tick j) (jn_returned j)).

(** What may happen at [now]: one half of a request, a tick (dropped when one is waiting), a
    prune, the return, a call of [Close]. *)
Inductive janitor_step (now : Time) : Janitor → Janitor → Prop :=
  | JAcquire j key : janitor_step now j
      (mkJanitor (acquire key now (jn_limiter j)).2 (jn_once j) (jn_stop j) (jn_next j) (jn_tick j) (jn_returned j))
  | JReserve j i : janitor_step now j
      (mkJanitor (reserve i now (jn_limiter j)).2 (jn_once j) (jn_stop j) (jn_next j) (jn_tick j) (jn_returned j))
  | JTick j : jn_next j ≤ now → janitor_step now j
      (mkJanitor (jn_limiter j) (jn_once j) (jn_stop j) (jn_next j + cleanupInterval) true (jn_returned j))
  | JPrune j : jn_tick j = true → jn_returned j = false → janitor_step now j
      (mkJanitor (prune now (jn_limiter j)) (jn_once j) (jn_stop j) (jn_next j) false (jn_returned j))
  | JReturn j : jn_stop j = true → jn_returned j = false → janitor_step now j
      (mkJanitor (jn_limiter j) (jn_once j) (jn_stop j) (jn_next j) (jn_tick j) true)
  | JClose j j' : Close j = Some j' → janitor_step now j j'.

Record janitor_ok (j : Janitor) : Prop := mkJanitorOk {
  jo_limiter : rl_inv (jn_limiter j);
  jo_once : jn_stop j = jn_once j;
  jo_returned : jn_returned j = true → jn_stop j = true;
}.

Lemma janitor_step_ok now j j' : janitor_step now j j' → janitor_ok j → janitor_ok j'.
Proof.
  intros Hs [Hl Ho Hr]. destruct Hs as [j key|j i|j Hn|j Ht Hn|j Hst Hn|j j' Hc].
  - split; simpl; [by apply acquire_inv|done..].
  - split; simpl; [by apply reserve_inv|done..].
  - by split.
  - split; simpl; [by apply prune_inv|done..].
  - by split.
  - unfold Close, close_stop in Hc. destruct j as [rl o s n t r]. simpl in *. subst s.
    destruct o; simplify_eq/=; by split.
Qed.

Lemma janitor_ok_start c now : janitor_ok (janitor_start c now).
Proof. split; [apply new_inv|done..]. Qed.

Definition janitor_steps : Janitor → Janitor → Prop := rtc (λ j j', ∃ now, janitor_step now j j').

(** whatever requests, ticks and closings come in whatever order, the map keeps
    within its bound; [Close] never panics, closing again changes nothing, and
    the janitor returns only when it was closed. *)
Theorem limiter_closes_once c now j :
  janitor_steps (janitor_start c now) j →
  rl_inv (jn_limiter j) ∧ (jn_returned j = true → jn_stop j = true) ∧
  ∃ j', Close j = Some j' ∧ jn_stop j' = true ∧ Close j' = Some j'.
Proof.
  intros Hr. assert (janitor_ok j) as [Hl Ho Hret].
  { unfold janitor_steps in Hr. remember (janitor_start c now) as j0 eqn:He.
    assert (janitor_ok j0) as H0 by (subst; apply janitor_ok_start). clear He.
    induction Hr as [|j0 j1 j2 [n Hs] _ IH]; [done|]. apply IH. by eapply janitor_step_ok. }
  split_and!; [done..|]. destruct j as [rl o s n t r]. simpl in *. subst s.
  unfold Close, close_stop. destruct o; simpl; eexists; by split_and!.
Qed.
End Janitor.
