(* ===== verification/Http.v ===== *)
(** * internal/handler/response.go: requests, responses and bodies

    What a handler is given and what it answers with: the request as the router
    hands it over, the values the handlers encode with the JSON text of each,
    and [decodeJSON], which reads a size-limited body into one of the request
    structs and names what is wrong with it. *)

From S2P Require Import Prelude GoStd Strconv Network Slog Domain Database JsonText.
From S2P Require Import StripeClient AuthService Services.
Open Scope Z_scope.

(** ** Requests *)

(** A body: the bytes that arrive, and the error reading ends with, if any. *)
Record Body := mkBody { body_bytes : string; body_err : option string }.

Record Request := mkRequest {
  Method : string;
  Path : string;                        (* URL.Path *)
  RawPath : string;                     (* URL.RawPath: empty unless Path is encoded in another way *)
  RemoteAddr : string;
  Header : list (string * string);      (* canonical names, in order *)
  Cookies : list (string * string);
  RequestBody : Body;
  ctx_user : option UUID;               (* what RequireAuth put in the context *)
  ctx_token : string;                   (* the id of the token it was in *)
  ctx_request_id : option string;       (* what RequestID put there *)
}.

(** The first value under a name, or none of the list. *)
Definition find_value (k : string) (l : list (string * string)) : option string :=
  snd <$> (snd <$> list_find (λ p, p.1 = k) l).

Definition Get (r : Request) (k : string) : string := default "" (find_value k (Header r)).

(** [Header.Values]. *)
Definition Values (r : Request) (k : string) : list string := (filter (λ p, p.1 = k) (Header r)).*2.

(** [middleware.UserIDFromContext] and [WithUserID]. *)
Definition UserIDFromContext (r : Request) : result UUID :=
  match ctx_user r with
  | Some id => if bool_decide (id = uuid_Nil) then Err ErrNoUserInContext else Ok id
  | None => Err ErrNoUserInContext
  end.

Definition WithUserID (r : Request) (id : UUID) : Request :=
  mkRequest (Method r) (Path r) (RawPath r) (RemoteAddr r) (Header r) (Cookies r) (RequestBody r) (Some id)
    (ctx_token r) (ctx_request_id r).

(** ** Cookies *)

Inductive SameSite := SameSiteNone | SameSiteStrict.

Module Cookie.
Record t := mk {
  Name : string; Value : string; Path : string; Domain : string; Expires : option Time;
  MaxAge : Z; HttpOnly : bool; Secure : bool; SameSite_ : SameSite }.
End Cookie.

(** ** What the handlers encode *)

(** [checkoutResponse]. *)
Record checkoutResponse := mkCheckoutResponse {
  cr_SessionID : string; cr_URL : string; cr_ClientSecret : string }.

(** [check] of health.go; the latency in microseconds. *)
Record check := mkCheck { ck_Status : string; ck_Latency : Z; ck_Error : string }.

(** [healthResponse]. *)
Record healthResponse := mkHealthResponse {
  hr_Status : string; hr_Version : string; hr_Uptime : string; hr_Checks : list (string * check) }.

Inductive Payload :=
  | ErrorBody (message : string)
  | StatusBody (status : string)
  | CheckoutBody (v : checkoutResponse)
  | PortalBody (url : string)
  | SubscriptionBody (v : SubscriptionView.t)
  | IdentityBody (v : UserView.t)
  | AuthBody (token : string) (expires : Time) (user : UserView.t)
  | HealthBody (v : healthResponse)
  | NoBody.

(** A field, and one with [omitempty]. *)
Definition field (k : string) (v : json) : list (string * json) := [(k, v)].
Definition optional {A} (k : string) (v : option A) (f : A → json) : list (string * json) :=
  match v with Some a => [(k, f a)] | None => [] end.
Definition nonempty (k v : string) : list (string * json) :=
  if bool_decide (v = "") then [] else [(k, JStr v)].

Definition JInt (z : Z) : json := JNum (Itoa z).

(** [Time.MarshalJSON], in UTC, which the process runs in; it refuses years of
    more than four digits. *)
Definition JTime (t : Time) : json := JStr (FormatRFC3339Nano t).
Definition time_ok (t : Time) : bool := let y := (civil (t / Second / 86400)).1.1 in (0 <=? y) && (y <=? 9999).

Section Encode.
Context `{StripeSDK}.

Definition UserView_json (v : UserView.t) : json :=
  JObj (field "id" (JStr (uuid_String (UserView.ID v))) ++ field "email" (JStr (UserView.Email v)) ++
        optional "full_name" (UserView.FullName v) JStr).

Definition SubscriptionView_json (v : SubscriptionView.t) : json :=
  JObj (field "status" (JStr (SubscriptionView.Status v)) ++
        field "is_active" (JBool (SubscriptionView.IsActive v)) ++
        field "price_id" (JStr (SubscriptionView.PriceID v)) ++
        field "quantity" (JInt (SubscriptionView.Quantity v)) ++
        optional "currency" (SubscriptionView.Currency v) JStr ++
        optional "unit_amount" (SubscriptionView.UnitAmount v) JInt ++
        field "current_period_end" (JTime (SubscriptionView.CurrentPeriodEnd v)) ++
        field "cancel_at_period_end" (JBool (SubscriptionView.CancelAtPeriodEnd v)) ++
        optional "canceled_at" (SubscriptionView.CanceledAt v) JTime ++
        optional "trial_end" (SubscriptionView.TrialEnd v) JTime).

(** A latency in milliseconds: the shortest decimal of a number of thousandths. *)
Definition millis_json (us : Z) : json := JNum (Itoa (us / 1000) +:+ fmtFrac 3 us).

Definition check_json (c : check) : json :=
  JObj (field "status" (JStr (ck_Status c)) ++ field "latency_ms" (millis_json (ck_Latency c)) ++
        nonempty "error" (ck_Error c)).

Definition healthResponse_json (v : healthResponse) : json :=
  JObj (field "status" (JStr (hr_Status v)) ++ field "version" (JStr (hr_Version v)) ++
        field "uptime" (JStr (hr_Uptime v)) ++
        (if bool_decide (hr_Checks v = []) then []
         else field "checks" (JObj ((λ kc, (kc.1, check_json kc.2)) <$> hr_Checks v)))).

(** The JSON of a body, unless encoding it is an error. *)
Definition payload_json (p : Payload) : option json :=
  match p with
  | ErrorBody message => Some (JObj (field "error" (JStr message)))
  | StatusBody s => Some (JObj (field "status" (JStr s)))
  | CheckoutBody v =>
      Some (JObj (field "session_id" (JStr (cr_SessionID v)) ++ nonempty "url" (cr_URL v) ++
                  nonempty "client_secret" (cr_ClientSecret v)))
  | PortalBody url => Some (JObj (field "url" (JStr url)))
  | SubscriptionBody v =>
      if forallb time_ok (SubscriptionView.CurrentPeriodEnd v ::
           omap id [SubscriptionView.CanceledAt v; SubscriptionView.TrialEnd v])
      then Some (SubscriptionView_json v) else None
  | IdentityBody v => Some (UserView_json v)
  | AuthBody token expires user =>
      if time_ok expires
      then Some (JObj (field "token" (JStr token) ++ field "expires_at" (JTime expires) ++
                       field "user" (UserView_json user)))
      else None
  | HealthBody v => Some (healthResponse_json v)
  | NoBody => None
  end.

(** What [json.Encoder.Encode] writes: nothing on an error, which is ignored. *)
Definition body_text (p : Payload) : string :=
  match payload_json p with Some j => json_text j +:+ of_bytes [10%N] | None => "" end.
End Encode.

(** ** Responses *)

Record Response := mkResponse {
  status : Z; payload : Payload; set_cookies : list Cookie.t; no_store : bool }.

Definition writeJSON (code : Z) (p : Payload) (cs : list Cookie.t) : Response :=
  mkResponse code p cs true.

Definition writeError (code : Z) (message : string) (cs : list Cookie.t) : Response :=
  writeJSON code (ErrorBody message) cs.

Definition writeUnwiredRoute : Response := writeError 500 "internal server error" [].

(** ** Reading bodies *)

(** [io.ReadAll(http.MaxBytesReader(w, r.Body, limit))]. *)
Inductive BodyError := TooLarge | ReadFailed (text : string).

Definition read_all (limit : Z) (b : Body) : string + BodyError :=
  if limit <? len (body_bytes b) then inr TooLarge
  else match body_err b with
       | Some text => inr (ReadFailed text)
       | None => inl (body_bytes b)
       end.

Definition maxAPIBytes : Z := Z.shiftl 32 10.

(** What a decoder sees of a body through [http.MaxBytesReader]. *)
Definition limited (limit : Z) (b : Body) : string * InputEnd :=
  if limit <? len (body_bytes b) then (take_bytes (Z.to_nat limit) (body_bytes b), AtLimit)
  else (body_bytes b, match body_err b with Some text => Broken text | None => AtEOF end).

(** [strings.TrimPrefix]. *)
Definition TrimPrefix (s p : string) : string := default s (strip_prefix p s).

Section Decode.
Context `{GoUnicode}.

(** [err.Error()] of the errors [decodeError] does not tell apart by type. *)
Definition DecodeError_text (e : DecodeError) : string :=
  match e with
  | UnexpectedEOF => "unexpected EOF"
  | EOF => "EOF"
  | ReadError text => text
  | UnknownField key => "json: unknown field " +:+ Quote key
  | SyntaxError | MaxBytesError | UnmarshalTypeError _ => ""
  end.

Definition decodeError (e : DecodeError) : error :=
  errors_New (match e with
  | MaxBytesError => "request body too large"
  | SyntaxError => "request body is not valid JSON"
  | UnmarshalTypeError name =>
      if bool_decide (name ≠ "") then "field " +:+ name +:+ " has the wrong type"
      else "request body has a field of the wrong type"
  | EOF => "request body is empty"
  | UnexpectedEOF | ReadError _ | UnknownField _ =>
      let text := DecodeError_text e in
      if HasPrefix text "json: unknown field " then "unknown " +:+ TrimPrefix text "json: unknown "
      else "request body is not valid JSON"
  end).

Definition decodeJSON (r : Request) (dst : Struct) : result Struct :=
  let ct := Get r "Content-Type" in
  if bool_decide (ct ≠ "") && negb (HasPrefix ct "application/json")
  then Err (errors_New "content-type must be application/json")
  else
    let '(text, ending) := limited maxAPIBytes (RequestBody r) in
    match Decode dst ending text with
    | inr e => Err (decodeError e)
    | inl (dst', rest) =>
      if More rest then Err (errors_New "request body must contain a single JSON object") else Ok dst'
    end.
End Decode.

(** *** Fields of a decoded struct *)

Definition field_of (st : Struct) (k : string) : FieldValue :=
  default (FString "") (snd <$> (snd <$> list_find (λ f, f.1 = k) st)).
Definition get_string (st : Struct) (k : string) : string :=
  match field_of st k with FString s => s | _ => "" end.
Definition get_pointer (st : Struct) (k : string) : option string :=
  match field_of st k with FPointer s => s | _ => None end.
Definition get_int (st : Struct) (k : string) : Z := match field_of st k with FInt z => z | _ => 0 end.
