(* ===== verification/Handlers.v ===== *)
(** * internal/handler: stripe_handler.go, subscription_handler.go,
      auth_handler.go, health.go, the probe of admin.go

    Every handler: what it answers to a request, and with which cookies.  A
    handler writes one response, so it is a function from the request to one;
    the lines it logs are not modelled.  Shown: the status of a webhook tells
    Stripe the truth, and a request body cannot say whom it is for. *)

From S2P Require Import Prelude GoStd Strconv Domain Database WebhookRepo SubscriptionRepo StripeClient.
From S2P Require Import Ports WebhookService Processing Auth AuthService Services JsonText Http.
Open Scope Z_scope.

(** ** stripe_handler.go *)

Definition maxWebhookBytes : Z := Z.shiftl 256 10.
Definition signatureHeader : string := "Stripe-Signature".

Record StripeHandler := mkStripeHandler {
  sh_webhooks : WebhookService; sh_checkout : CheckoutConfig.t; sh_maxWebhookBytes : Z }.

Definition NewStripeHandler (webhooks : WebhookService) (checkout : CheckoutConfig.t) : StripeHandler :=
  mkStripeHandler webhooks checkout maxWebhookBytes.

(** A word in double quotes. *)
Definition quoted (s : string) : string := quote_char +:+ s +:+ quote_char.

Section Stripe.
Context `{GoUnicode, StripeSDK, UserRepository, SubscriptionRepository, WebhookRepository}.
Context (h : StripeHandler).

Definition webhook_limit : Z :=
  if sh_maxWebhookBytes h <=? 0 then maxWebhookBytes else sh_maxWebhookBytes h.

Definition HandleWebhook (r : Request) : M World Response :=
  let signature := Get r signatureHeader in
  if bool_decide (signature = "") then mret (writeError 400 "missing signature" [])
  else match read_all webhook_limit (RequestBody r) with
  | inr TooLarge => mret (writeError 413 "payload too large" [])
  | inr (ReadFailed _) => mret (writeError 400 "could not read request body" [])
  | inl payload =>
    x ← ProcessEvent (sh_webhooks h) payload signature;
    mret (match x with
          | (_, Some err) =>
            if errors_Is err ErrSignatureVerification
            then writeError 400 "signature verification failed" []
            else writeError 500 "event processing failed" []
          | (outcome, None) => writeJSON 200 (StatusBody (Outcome_string outcome)) []
          end)
  end.

Definition writeServiceError (err : error) : Response :=
  if errors_Is err ErrNotFound then writeError 404 "no billing account for this user" []
  else if errors_Is err ErrValidation || errors_Is err ErrInvalidRequest
  then writeError 422 "request could not be fulfilled" []
  else if errors_Is err ErrUpstream then writeError 502 "payment provider unavailable" []
  else writeError 500 "internal server error" [].

(** [checkoutRequest]: a zero one. *)
Definition checkoutRequest : Struct :=
  [("price_id", FString ""); ("quantity", FInt 0); ("trial_period_days", FInt 0); ("ui_mode", FString "")].

Definition HandleCheckout (r : Request) : M World Response :=
  match UserIDFromContext r with
  | Err _ => mret writeUnwiredRoute
  | Ok userID =>
    match decodeJSON r checkoutRequest with
    | Err err => mret (writeError 400 (err_msg err) [])
    | Ok req =>
      let mode := TrimSpace (get_string req "ui_mode") in
      if negb (one_of mode [""; "hosted"; "embedded"])
      then mret (writeError 400 ("ui_mode must be " +:+ quoted "hosted" +:+ " or " +:+ quoted "embedded") [])
      else
        x ← CheckoutService_CreateCheckoutSession (sh_checkout h)
              (CheckoutRequest.mk userID (TrimSpace (get_string req "price_id")) (get_int req "quantity")
                 (get_int req "trial_period_days") (bool_decide (mode = "embedded")));
        mret (match x with
              | Err err => writeServiceError err
              | Ok result => writeJSON 201 (CheckoutBody (mkCheckoutResponse
                  (CheckoutResult.SessionID result) (CheckoutResult.URL result)
                  (CheckoutResult.ClientSecret result))) []
              end)
    end
  end.

Definition HandlePortal (r : Request) : M World Response :=
  match UserIDFromContext r with
  | Err _ => mret writeUnwiredRoute
  | Ok userID =>
    x ← CheckoutService_CreatePortalSession (sh_checkout h) userID;
    mret (match x with
          | Err err => writeServiceError err
          | Ok url => writeJSON 201 (PortalBody url) []
          end)
  end.
End Stripe.

(** ** subscription_handler.go *)

Definition HandleGetSubscription `{SubscriptionRepository} (r : Request) : M World Response :=
  match UserIDFromContext r with
  | Err _ => mret writeUnwiredRoute
  | Ok userID =>
    x ← GetForUser userID;
    mret (match x with
          | Ok view => writeJSON 200 (SubscriptionBody view) []
          | Err err => if errors_Is err ErrNotFound then writeError 404 "no subscription" []
                       else writeError 500 "internal server error" []
          end)
  end.

(** ** auth_handler.go *)

Definition refreshCookieName : string := "sps_refresh".
Definition refreshCookiePath : string := "/api/v1/auth".

(** [CookieConfig], with the service the handler calls. *)
Record AuthHandler := mkAuthHandler {
  ah_auth : AuthService.AuthService; ah_secure : bool; ah_domain : string }.

Definition setRefreshCookie (h : AuthHandler) (now : Time) (token : string) (expiresAt : Time) : Cookie.t :=
  Cookie.mk refreshCookieName token refreshCookiePath (ah_domain h) (Some expiresAt)
    (float_to_int64 (Seconds (expiresAt - now))) true (ah_secure h) SameSiteNone.

Definition clearRefreshCookie (h : AuthHandler) : Cookie.t :=
  Cookie.mk refreshCookieName "" refreshCookiePath (ah_domain h) None (-1) true (ah_secure h)
    SameSiteStrict.

Definition refreshCookieValue (r : Request) : string :=
  default "" (find_value refreshCookieName (Cookies r)).

(** [registerRequest] and [loginRequest]: zero ones. *)
Definition registerRequest : Struct :=
  [("email", FString ""); ("password", FString ""); ("full_name", FPointer None)].
Definition loginRequest : Struct := [("email", FString ""); ("password", FString "")].

Section AuthHandlers.
Context `{GoUnicode, AuthLib, StripeSDK, UserRepository, RefreshTokenRepository}.
Context (h : AuthHandler).

(** [authResponse] with its cookie. *)
Definition signed_in (code : Z) (now : Time) (result : AuthResult.t) : Response :=
  writeJSON code
    (AuthBody (AuthResult.Token result) (AuthResult.ExpiresAt result) (AuthResult.User_ result))
    [setRefreshCookie h now (AuthResult.RefreshToken result) (AuthResult.RefreshTokenExpiresAt result)].

Definition HandleRegister (r : Request) : M World Response :=
  match decodeJSON r registerRequest with
  | Err err => mret (writeError 400 (err_msg err) [])
  | Ok req =>
    x ← Register (ah_auth h) (get_string req "email") (get_string req "password") (get_pointer req "full_name");
    now ← gets w_now;
    mret (match x with
          | Ok result => signed_in 201 now result
          | Err err =>
            if errors_Is err ErrConflict then writeError 409 "an account with that email already exists" []
            else if errors_Is err ErrValidation then writeError 422 (err_msg err) []
            else writeError 500 "could not create the account" []
          end)
  end.

Definition HandleLogin (r : Request) : M World Response :=
  match decodeJSON r loginRequest with
  | Err err => mret (writeError 400 (err_msg err) [])
  | Ok req =>
    x ← Login (ah_auth h) (get_string req "email") (get_string req "password");
    now ← gets w_now;
    mret (match x with
          | Ok result => signed_in 200 now result
          | Err err =>
            if errors_Is err ErrCredentialsMismatch then writeError 401 "invalid email or password" []
            else writeError 500 "could not sign you in" []
          end)
  end.

Definition HandleRefresh (r : Request) : M World Response :=
  x ← Refresh (ah_auth h) (refreshCookieValue r);
  match x with
  | Err _ => mret (writeError 401 "session expired, please sign in again" [clearRefreshCookie h])
  | Ok result =>
    now ← gets w_now;
    mret (signed_in 200 now result)
  end.

Definition HandleLogout (r : Request) : M World Response :=
  _ ← Logout (refreshCookieValue r);
  mret (mkResponse 204 NoBody [clearRefreshCookie h] false).

Definition HandleMe (r : Request) : M World Response :=
  match UserIDFromContext r with
  | Err _ => mret writeUnwiredRoute
  | Ok userID =>
    x ← Me userID;
    mret (match x with
          | Ok view => writeJSON 200 (IdentityBody view) []
          | Err err => if errors_Is err ErrNotFound then writeError 401 "account no longer exists" []
                       else writeError 500 "internal server error" []
          end)
  end.
End AuthHandlers.

(** ** health.go and admin.go *)

(** [healthProbe]: what the health endpoints need of the database. *)
Class healthProbe := { db_HealthCheck : M World (option error) }.

Definition readinessTimeout : Duration := 2 * Second.

(** [context.WithTimeout] around a call: its context ends with the caller's or
    at its own deadline, whichever is first; the caller's is as it was. *)
Definition set_ctx (c : option Time) (w : World) : World :=
  mkWorld (w_db w) (w_now w) c (w_rng w) (w_draws w) (w_script w) (w_metrics w).

Definition earlier (c : option Time) (t : Time) : Time := match c with Some d => Z.min d t | None => t end.

Definition within {A} (d : Duration) (m : M World A) : M World A :=
  ctx ← gets w_ctx;
  now ← gets w_now;
  _ ← modify (set_ctx (Some (earlier ctx (now + d))));
  a ← m;
  _ ← modify (set_ctx ctx);
  mret a.

(** [HealthHandler], less the probe. *)
Record HealthHandler := mkHealthHandler { hh_version : string; hh_startedAt : Time }.

Definition NewHealthHandler (version : string) : M World HealthHandler :=
  now ← gets w_now; mret (mkHealthHandler version now).

Section Health.
Context `{healthProbe}.
Context (h : HealthHandler).

Definition uptime (now : Time) : string := Duration_String (Truncate (now - hh_startedAt h) Second).

Definition Live (r : Request) : M World Response :=
  now ← gets w_now;
  mret (writeJSON 200 (HealthBody (mkHealthResponse "ok" (hh_version h) (uptime now) [])) []).

Definition Ready (r : Request) : M World Response :=
  within readinessTimeout (
    start ← gets w_now;
    err ← db_HealthCheck;
    now ← gets w_now;
    let latency := Z.quot (now - start) Microsecond in
    mret (match err with
          | None => writeJSON 200 (HealthBody (mkHealthResponse "ok" (hh_version h) (uptime now)
                      [("database", mkCheck "ok" latency "")])) []
          | Some _ => writeJSON 503 (HealthBody (mkHealthResponse "unavailable" (hh_version h) (uptime now)
                      [("database", mkCheck "fail" latency "unreachable")])) []
          end)).
End Health.

(** The liveness probe of the admin listener. *)
Definition admin_livez (r : Request) : M World Response := mret (writeJSON 200 (StatusBody "ok") []).

(** ** The webhook endpoint as a protocol with Stripe *)

Section WebhookAnswer.
Context `{GoUnicode, StripeSDK} {U : UserRepository} {B : SubscriptionRepository}
  {R : WebhookRepository} {L : EventLedger U B R}.
Context (h : StripeHandler).

(** The payload and signature of a request that reaches the service. *)
Definition admitted (r : Request) : option (string * string) :=
  let signature := Get r signatureHeader in
  if bool_decide (signature = "") then None
  else match read_all (webhook_limit h) (RequestBody r) with
       | inl p => Some (p, signature)
       | inr _ => None
       end.

(** Nothing of an acknowledged event is left to do. *)
Definition handled_event (id : string) (w w' : World) : Prop :=
  led_status w' id = Some WebhookSucceeded ∨ led_status w' id = Some WebhookSkipped ∨
  (w_db w' = w_db w ∧ led_status w id ≠ None ∧ led_status w id ≠ Some WebhookFailed).

Lemma unverified_rejected payload header w :
  verified (sh_webhooks h) payload header w = None →
  let '((o, e), w') := ProcessEvent (sh_webhooks h) payload header w in
  (∃ err, e = Some err ∧ errors_Is err ErrSignatureVerification = true) ∧ w_db w' = w_db w.
Proof.
  unfold verified, ProcessEvent, VerifyWebhook, observe. unfold_monad.
  destruct (ConstructEvent _ _ _ _ _ _); [done|]. intros _.
  destruct (svc_metrics _); simpl; split_and!; eauto.
Qed.

(** the status code tells Stripe the truth.  A request without a signature
    or with an unreadable or oversized body touches nothing and is refused; one
    that does not verify is refused with one fixed message and changes no table;
    a verified one is answered 200 only when its event is settled, or was
    already settled or in someone's hands, and otherwise, so that Stripe sends
    it again, only when it is recorded failed or no table changed. *)
Theorem webhook_answer r w :
  quiet w → led_inv w →
  let '(resp, w') := HandleWebhook h r w in
  match admitted r with
  | None => (status resp = 400 ∨ status resp = 413) ∧ w' = w
  | Some (p, signature) =>
    match verified (sh_webhooks h) p signature w with
    | None => resp = writeError 400 "signature verification failed" [] ∧ w_db w' = w_db w
    | Some ev =>
      let id := SDK.Event.ID ev in
      (status resp = 200 → handled_event id w w') ∧
      (status resp ≠ 200 → led_status w' id = Some WebhookFailed ∨ w_db w' = w_db w)
    end
  end.
Proof.
  intros Hq HI. unfold HandleWebhook, admitted. case_bool_decide; [by split; [left|]|].
  destruct (read_all _ _) as [p|[|text]]; [|split; [by right|done]|split; [by left|done]].
  unfold mbind, M_bind. destruct (verified _ p _ w) as [ev|] eqn:Hv.
  - pose proof (ProcessEvent_cases (sh_webhooks h) p _ w ev Hq HI Hv) as Hc.
    destruct (ProcessEvent _ _ _ w) as [[o e] w1]. destruct Hc as (_ & _ & _ & Hc). simpl.
    unfold handled_event. destruct o, e as [err|]; simpl in *; try destruct (errors_Is _ _);
      simpl; naive_solver.
  - pose proof (unverified_rejected p _ w Hv) as Hc.
    destruct (ProcessEvent _ _ _ w) as [[o e] w1]. destruct Hc as [(err & -> & Herr) Hdb]. simpl.
    by rewrite Herr.
Qed.
End WebhookAnswer.
