(* ===== verification/Admin.v ===== *)
(** * internal/handler/admin.go

    The operational listener: two pages behind net/http's [ServeMux], of which
    what the program uses is modelled here (literal patterns with a method).
    Promhttp, which writes the metrics page, is not. *)

From Stdlib Require Import Ascii.
From S2P Require Import Prelude GoStd Network Url Database Http Handlers.
Open Scope Z_scope.

(** ** net/http.ServeMux *)

(** [path.Clean] of a rooted path, on its elements in reverse. *)
Definition clean_step (done : list string) (e : string) : list string :=
  if bool_decide (e = "" ∨ e = ".") then done
  else if bool_decide (e = "..") then tail done
  else e :: done.

Definition path_Clean (p : string) : string :=
  "/" +:+ Join (rev (foldl clean_step [] (split_on 47 p))) "/".

Definition ends_slash (p : string) : bool := HasPrefix (string_rev p "") "/".

Definition cleanPath (p : string) : string :=
  if bool_decide (p = "") then "/"
  else
    let p := if HasPrefix p "/" then p else "/" +:+ p in
    let np := path_Clean p in
    if ends_slash p && negb (bool_decide (np = "/")) then np +:+ "/" else np.

(** A segment is compared unescaped, or as it is if it does not unescape. *)
Definition pathUnescape (s : string) : string := default s (unescape encodePath s).

(** Does a path, as it is escaped in the URL, name a literal of one segment? *)
Definition names_segment (literal path : string) : bool :=
  match split_on 47 path with
  | [""; seg] => bool_decide (seg ≠ "" ∧ pathUnescape seg = literal)
  | _ => false
  end.

Inductive MuxAnswer (H : Type) :=
  | Matched (h : H)
  | MovedPermanently (path : string)
  | MethodNotAllowed (allow : string)
  | NotFound.
Arguments Matched {H} h.
Arguments MovedPermanently {H} path.
Arguments MethodNotAllowed {H} allow.
Arguments NotFound {H}.

(** A mux of patterns [GET /literal], for a method and an escaped path.  GET
    serves HEAD too. *)
Definition ServeMux {H} (patterns : list (string * H)) (method path : string) : MuxAnswer H :=
  let connect := bool_decide (method = "CONNECT") in
  let clean := if connect then path else cleanPath path in
  if negb connect && negb (bool_decide (clean = path)) then MovedPermanently clean
  else match list_find (λ e, names_segment e.1 clean = true) patterns with
       | Some (_, (_, h)) =>
           if bool_decide (method = "GET" ∨ method = "HEAD") then Matched h else MethodNotAllowed "GET, HEAD"
       | None => NotFound
       end.

(** ** The admin router *)

(** [promhttp.HandlerOpts]. *)
Record HandlerOpts := mkHandlerOpts { ContinueOnError : bool; ScrapeTimeout : Duration }.

(** The pages: the registry's gatherer under promhttp, and the liveness probe. *)
Inductive AdminPage := MetricsPage (opts : HandlerOpts) | LivezPage (f : Request → M World Response).

Definition NewAdminRouter : string → string → MuxAnswer AdminPage :=
  ServeMux [("metrics", MetricsPage (mkHandlerOpts true (10 * 1000000000)));
            ("livez", LivezPage admin_livez)].

(** ** Laws *)

(** the listener has two pages and nothing else: whatever is not a GET or HEAD
    of one of them is redirected to its clean path or refused. *)
Theorem admin_surface method path :
  match NewAdminRouter method path with
  | Matched (MetricsPage o) => (method = "GET" ∨ method = "HEAD") ∧ names_segment "metrics" path = true ∧
                               ContinueOnError o = true
  | Matched (LivezPage f) => (method = "GET" ∨ method = "HEAD") ∧ names_segment "livez" path = true ∧ f = admin_livez
  | MovedPermanently p => p = cleanPath path ∧ p ≠ path
  | MethodNotAllowed a => method ≠ "GET" ∧ method ≠ "HEAD" ∧ a = "GET, HEAD"
  | NotFound => names_segment "metrics" path = false ∧ names_segment "livez" path = false
  end.
Proof.
  unfold NewAdminRouter, ServeMux.
  set (clean := if bool_decide (method = "CONNECT") then path else cleanPath path).
  destruct (negb _ && _) eqn:Hr.
  - apply andb_true_iff in Hr as [Hc Hr]. apply negb_true_iff, bool_decide_eq_false in Hr.
    apply negb_true_iff in Hc. unfold clean in *. by rewrite Hc in *.
  - assert (clean = path) as ->.
    { unfold clean in *. case_bool_decide; [done|]. simpl in Hr.
      by apply negb_false_iff, bool_decide_eq_true in Hr. }
    clear Hr. simpl. destruct (decide (names_segment "metrics" path = true)) as [Hm|Hm%not_true_iff_false]; simpl;
      [case_bool_decide as Hg; split_and!; first [done|tauto]|].
    destruct (decide (names_segment "livez" path = true)) as [Hl|Hl%not_true_iff_false]; simpl;
      [case_bool_decide as Hg; split_and!; first [done|tauto]|done].
Qed.

Example admin_pages : (NewAdminRouter "GET" "/metrics", NewAdminRouter "HEAD" "/%6Civez",
    NewAdminRouter "POST" "/metrics", NewAdminRouter "GET" "/api/v1/checkout", NewAdminRouter "GET" "//metrics/../livez")
  = (Matched (MetricsPage (mkHandlerOpts true (10 * Second))), Matched (LivezPage admin_livez), MethodNotAllowed "GET, HEAD", NotFound,
     MovedPermanently "/livez").
Proof. vm_compute. reflexivity. Qed.
