(* ===== verification/Requests.v ===== *)
(** * What a request body can and cannot say

    The three handlers that read a JSON body, on bodies written as the encoder
    writes them: the fields they know are read back exactly, and a member they
    do not know - a user id, above all - has the request refused before
    anything happens. *)

From S2P Require Import Prelude GoStd Strconv Domain Database WebhookRepo SubscriptionRepo StripeClient.
From S2P Require Import Ports Auth AuthService Services JsonText JsonRoundtrip Http Handlers.
Open Scope Z_scope.

(** ** Structs *)

Lemma set_field_names name v st : (set_field name v st).*1 = st.*1.
Proof.
  unfold set_field. induction st as [|f st IH]; [done|]. rewrite !fmap_cons. f_equal; [|done].
  by case_bool_decide as Hf.
Qed.


Lemma find_field_None st k :
  find_field st k = None ↔ (k ∉ st.*1) ∧ Forall (λ n, fold_name n ≠ fold_name k) st.*1.
Proof.
  unfold find_field. case_bool_decide as Hk; [by split; [|intros []]|].
  rewrite !fmap_None, list_find_None, Forall_fmap. tauto.
Qed.

(** A member keeps the names, and an error once found. *)
Lemma decode_member_names acc m : (decode_member acc m).1.*1 = acc.1.*1.
Proof.
  destruct acc as [st err]. unfold decode_member. repeat case_match; simpl; try done. apply set_field_names.
Qed.

Lemma decode_member_error st e m : is_Some (decode_member (st, Some e) m).2.
Proof. unfold decode_member. repeat case_match; simpl; eauto. Qed.

Lemma decode_members_error l st e : is_Some (foldl decode_member (st, Some e) l).2.
Proof.
  revert st e. induction l as [|m l IH]; intros st e; cbn [foldl]; [by eexists|].
  destruct (decode_member_error st e m) as [e' He]. destruct (decode_member _ m) as [st' err]. simpl in He.
  subst. apply IH.
Qed.

(** A member no field answers to is an error. *)
Lemma decode_unknown_member l st k v :
  (k, v) ∈ l → find_field st k = None → ∃ e, decode_struct st (JObj l) = inr e.
Proof.
  intros Hin Hk. cbn [decode_struct]. enough (is_Some (foldl decode_member (st, None) l).2) as [e He].
  { destruct (foldl _ _ l) as [st' err]. simpl in He. subst. eauto. }
  generalize (None : option DecodeError). intros err. revert st err Hk.
  induction l as [|m l IH]; intros st err Hk; [by apply elem_of_nil in Hin|]. cbn [foldl].
  apply elem_of_cons in Hin as [<-|Hin].
  - unfold decode_member at 2. cbn [fst snd]. rewrite Hk. destruct err; apply decode_members_error.
  - pose proof (decode_member_names (st, err) m) as Hn. destruct (decode_member _ m) as [st' err'].
    simpl in Hn. apply IH; [done|]. revert Hk. by rewrite !find_field_None, Hn.
Qed.

(** ** Bodies *)

(** The request carries this text as JSON, within the limit, read to its end. *)
Definition carries (r : Request) (text : string) : Prop :=
  (Get r "Content-Type" = "" ∨ HasPrefix (Get r "Content-Type") "application/json" = true) ∧
  RequestBody r = mkBody text None ∧ len text ≤ maxAPIBytes.

Section Decoding.
Context `{GoUnicode}.

Lemma decodeJSON_object r st l :
  carries r (json_text (JObj l)) → Forall (λ m, member_ok m = true) l →
  decodeJSON r st = match decode_struct st (JObj l) with
                    | inl st' => Ok st'
                    | inr e => Err (decodeError e)
                    end.
Proof.
  intros (Hct & Hb & Hlen) Hl. unfold decodeJSON, limited. rewrite Hb. cbn [body_bytes body_err].
  destruct (Z.ltb_spec maxAPIBytes (len (json_text (JObj l)))); [lia|].
  assert (bool_decide (Get r "Content-Type" ≠ "") && negb (HasPrefix (Get r "Content-Type") "application/json")
          = false) as ->.
  { destruct Hct as [->|Hct]; [done|]. rewrite Hct. apply andb_false_r. }
  rewrite <- (append_nil_r (json_text (JObj l))), decode_encode by done.
  by destruct (decode_struct st (JObj l)).
Qed.
End Decoding.

(** ** Handlers *)

Section Handlers.
Context `{GoUnicode, AuthLib, StripeSDK, UserRepository, SubscriptionRepository, WebhookRepository}.
Context `{RefreshTokenRepository}.
Context (sh : StripeHandler) (ah : AuthHandler).


(** The request the two credential endpoints are meant to get. *)
Definition credentials (email password : string) : list (string * json) :=
  [("email", JStr email); ("password", JStr password)].

(** any email and any password, whatever characters they contain, reach
    the service byte for byte when sent as the encoder writes them: the handler
    does exactly what [Login] and [Register] do with them. *)
Theorem credentials_reach_service r email password w :
  carries r (json_text (JObj (credentials email password))) →
  ValidString email = true → ValidString password = true →
  HandleLogin ah r w =
    (let '(x, w') := Login (ah_auth ah) email password w in
     (match x with
      | Ok result => signed_in ah 200 (w_now w') result
      | Err err => if errors_Is err ErrCredentialsMismatch then writeError 401 "invalid email or password" []
                   else writeError 500 "could not sign you in" []
      end, w')) ∧
  (HandleRegister ah r w).2 = (Register (ah_auth ah) email password None w).2 ∧
  (status (HandleRegister ah r w).1 = 201 ↔ is_Ok (Register (ah_auth ah) email password None w).1 = true).
Proof.
  intros Hr He Hp. unfold HandleLogin, HandleRegister.
  assert (Forall (λ m, member_ok m = true) (credentials email password)) as Hl.
  { repeat constructor; unfold member_ok; simpl; by rewrite ?He, ?Hp. }
  rewrite !(decodeJSON_object r _ _ Hr Hl).
  assert (decode_struct loginRequest (JObj (credentials email password)) =
          inl [("email", FString email); ("password", FString password)]) as -> by done.
  assert (decode_struct registerRequest (JObj (credentials email password)) =
          inl [("email", FString email); ("password", FString password); ("full_name", FPointer None)]) as -> by done.
  unfold_monad. cbn [get_string get_pointer field_of].
  change (get_string _ "email") with email. change (get_string _ "password") with password.
  change (get_pointer _ "full_name") with (None : option string).
  split_and!.
  - by destruct (Login _ _ _ _) as [[res|err] w'].
  - by destruct (Register _ _ _ _ _) as [[res|err] w'].
  - destruct (Register _ _ _ _ _) as [[res|err] w']; [done|]. simpl.
    split; [|done]. repeat (case_match; simpl); done.
Qed.
End Handlers.
