(* ===== verification/Middleware.v ===== *)
(** * internal/handler/middleware: recorder.go, requestid.go, logger.go,
      metrics.go, recoverer.go, cors.go, timeout.go, auth.go, ratelimit.go

    The layers around the handlers.  A handler here is a computation on the
    connection - the response writer, the process's state, the rate limiter and
    the log - that returns or panics, and a layer is a function on handlers.
    The writer is shared: once a layer has wrapped it, everything further in
    writes through the same recorder, as in the source, where [wrapWriter]
    reuses one already there. *)

From Stdlib Require Import Ascii.
From S2P Require Import Url.
From S2P Require Import Prelude GoStd Strconv Network Slog Logger Domain Database StripeClient.
From S2P Require Import Auth AuthService Services RateLimit JsonText Http Handlers.
Open Scope Z_scope.

(** ** The response writer *)

Abbreviation Headers := (gmap string (list string)).

(** What has gone out: the status line with the headers of that moment. *)
Record Head := mkHead { hd_status : Z; hd_header : Headers; hd_cookies : list Cookie.t }.

(** [responseRecorder], less the writer it wraps. *)
Record responseRecorder := mkRecorder { rc_status : Z; rc_written : Z; rc_wroteHeader : bool }.

Record Writer := mkWriter {
  wr_header : Headers;
  wr_cookies : list Cookie.t;                (* the Set-Cookie headers *)
  wr_sent : option Head;
  wr_body : string;
  wr_rec : option responseRecorder;          (* what wraps it by now *)
}.

Definition fresh : Writer := mkWriter ∅ [] None "" None.

Section Conn.
Context `{RateLib}.

(** The process while it serves one request; [cn_route] is the pattern the
    router has matched. *)
Record Conn := mkConn {
  cn_world : World;
  cn_limiter : RateLimiter;
  cn_lines : list (list Leaf);               (* the log, in order *)
  cn_route : string;
  cn_writer : Writer;
}.

Definition set_world (w : World) (c : Conn) : Conn :=
  mkConn w (cn_limiter c) (cn_lines c) (cn_route c) (cn_writer c).
Definition set_writer (w : Writer) (c : Conn) : Conn :=
  mkConn (cn_world c) (cn_limiter c) (cn_lines c) (cn_route c) w.

Definition on_world {A} (m : M World A) : M Conn A := λ c,
  let '(a, w) := m (cn_world c) in (a, set_world w c).
Definition on_limiter {A} (m : M RateLimiter A) : M Conn A := λ c,
  let '(a, l) := m (cn_limiter c) in
  (a, mkConn (cn_world c) l (cn_lines c) (cn_route c) (cn_writer c)).
Definition on_writer (f : Writer → Writer) : M Conn unit := modify (λ c, set_writer (f (cn_writer c)) c).

(** [w.Header().Set], [Add], and [http.SetCookie]. *)
Definition SetHeader (k v : string) : M Conn unit := on_writer (λ w,
  mkWriter (<[k := [v]]> (wr_header w)) (wr_cookies w) (wr_sent w) (wr_body w) (wr_rec w)).
Definition AddHeader (k v : string) : M Conn unit := on_writer (λ w,
  mkWriter (<[k := default [] (wr_header w !! k) ++ [v]]> (wr_header w)) (wr_cookies w) (wr_sent w)
    (wr_body w) (wr_rec w)).
Definition SetCookie (k : Cookie.t) : M Conn unit := on_writer (λ w,
  mkWriter (wr_header w) (wr_cookies w ++ [k]) (wr_sent w) (wr_body w) (wr_rec w)).

(** The server's own [WriteHeader]: only the first one counts. *)
Definition send (code : Z) (w : Writer) : Writer :=
  match wr_sent w with
  | Some _ => w
  | None => mkWriter (wr_header w) (wr_cookies w) (Some (mkHead code (wr_header w) (wr_cookies w)))
              (wr_body w) (wr_rec w)
  end.

Definition set_rec (rc : responseRecorder) (w : Writer) : Writer :=
  mkWriter (wr_header w) (wr_cookies w) (wr_sent w) (wr_body w) (Some rc).

(** [responseRecorder.WriteHeader]. *)
Definition write_header (code : Z) (w : Writer) : Writer :=
  match wr_rec w with
  | Some rc => if rc_wroteHeader rc then w else send code (set_rec (mkRecorder code (rc_written rc) true) w)
  | None => send code w
  end.

Definition WriteHeader (code : Z) : M Conn unit := on_writer (write_header code).

(** [bodyAllowedForStatus]. *)
Definition body_allowed (w : Writer) : bool :=
  match wr_sent w with
  | Some hd => negb ((100 <=? hd_status hd) && (hd_status hd <=? 199) || (hd_status hd =? 204) || (hd_status hd =? 304))
  | None => true
  end.

(** [responseRecorder.Write]; the client is assumed to take what it is sent. *)
Definition write (s : string) (w : Writer) : Writer :=
  let w := match wr_rec w with
           | Some rc => if rc_wroteHeader rc then w else write_header 200 w
           | None => w
           end in
  let w := send 200 w in
  if body_allowed w
  then mkWriter (wr_header w) (wr_cookies w) (wr_sent w) (wr_body w +:+ s)
         ((λ rc, mkRecorder (rc_status rc) (rc_written rc + len s) (rc_wroteHeader rc)) <$> wr_rec w)
  else w.

Definition Write (s : string) : M Conn unit := on_writer (write s).

(** [wrapWriter]. *)
Definition wrapWriter : M Conn unit := on_writer (λ w,
  match wr_rec w with Some _ => w | None => set_rec (mkRecorder 200 0 false) w end).

Definition recorder (w : Writer) : responseRecorder := default (mkRecorder 200 0 false) (wr_rec w).

(** ** Handlers *)

(** A value that was panicked with, whether it is [http.ErrAbortHandler], and
    the stack. *)
Record Panic := mkPanic { pn_value : string; pn_abort : bool; pn_stack : string }.

Inductive Ended := Returned | Panicked (p : Panic).

Definition Handler : Type := Request → M Conn Ended.

(** How a response of a handler reaches the writer. *)
Definition respond `{StripeSDK} (resp : Response) : M Conn unit :=
  _ ← foreach SetCookie (set_cookies resp);
  _ ← (if no_store resp
       then _ ← SetHeader "Content-Type" "application/json; charset=utf-8";
            SetHeader "Cache-Control" "no-store"
       else mret tt);
  _ ← WriteHeader (status resp);
  match payload_json (payload resp) with
  | Some _ => Write (body_text (payload resp))
  | None => mret tt
  end.

Definition handle `{StripeSDK} (f : Request → M World Response) : Handler := λ r,
  resp ← on_world (f r); _ ← respond resp; mret Returned.

(** *** writeJSONError *)

Definition quote_byte_json (a : ascii) : string :=
  match byte_val a with
  | 34 | 92 => backslash +:+ String a ""
  | 10 => backslash +:+ "n" | 13 => backslash +:+ "r" | 9 => backslash +:+ "t"
  | n => if (n <? 32)%N then "" else String a ""
  end%N.

Fixpoint quote_bytes_json (s : string) : string :=
  match s with EmptyString => "" | String a s' => quote_byte_json a +:+ quote_bytes_json s' end.

Definition quoteJSON (s : string) : string := quote_char +:+ quote_bytes_json s +:+ quote_char.

Definition error_envelope (message : string) : string :=
  "{" +:+ quote_char +:+ "error" +:+ quote_char +:+ ":" +:+ quoteJSON message +:+ "}".

Definition writeJSONError (code : Z) (message : string) : M Conn unit :=
  _ ← SetHeader "Content-Type" "application/json; charset=utf-8";
  _ ← SetHeader "Cache-Control" "no-store";
  _ ← WriteHeader code;
  Write (error_envelope message).

(** ** Layers *)

Context `{GoUnicode}.

(** [site] is where in the source a message is logged, for [AddSource]. *)
Context (site : string → option (string * Z)) (log : contextHandler).

Definition log_at (r : Request) (level : Level) (msg : string) (attrs : list Attr) : M Conn unit :=
  modify (λ c,
    match Log log (ctx_request_id r) (mkLogRecord (w_now (cn_world c)) level msg (site msg) attrs) with
    | Some line => mkConn (cn_world c) (cn_limiter c) (cn_lines c ++ [line]) (cn_route c) (cn_writer c)
    | None => c
    end).

Definition peer (r : Request) : Peer := mkPeer (Http.RemoteAddr r) (Values r "X-Forwarded-For").
Definition remote_addr (r : Request) : Attr := ("remote_addr", VString (ClientIP (peer r))).

(** *** RequestID *)

Definition RequestIDHeader : string := "X-Request-Id".
Definition maxInboundRequestIDLen : Z := 128.

Definition isPrintableASCII (s : string) : bool := str_forall (in_range 32 126) s.

(** [hex.EncodeToString]. *)
Fixpoint hex_encode (s : string) : string :=
  match s with
  | EmptyString => ""
  | String a s' => String (hex_char (byte_val a / 16)) (String (hex_char (byte_val a mod 16)) (hex_encode s'))
  end.

(** Sixteen bytes of [crypto/rand], from a draw, or the text of an error. *)
Context (rand_Read16 : N → string + string).

Definition newRequestID : M World string :=
  n ← draw;
  now ← gets w_now;
  mret (match rand_Read16 n with inl b => hex_encode b | inr _ => "ts-" +:+ Itoa now end).

Definition with_request_id (r : Request) (id : string) : Request :=
  mkRequest (Method r) (Path r) (RawPath r) (Http.RemoteAddr r) (Header r) (Cookies r) (RequestBody r) (ctx_user r)
    (ctx_token r) (WithRequestID (ctx_request_id r) id).

Definition acceptable_id (id : string) : bool :=
  negb (bool_decide (id = "") || (maxInboundRequestIDLen <? len id) || negb (isPrintableASCII id)).

Definition RequestID (next : Handler) : Handler := λ r,
  let inbound := Get r RequestIDHeader in
  id ← (if acceptable_id inbound then mret inbound else on_world newRequestID);
  _ ← SetHeader RequestIDHeader id;
  next (with_request_id r id).

(** *** AccessLog *)

Definition QuietPaths : list string := ["/healthz"; "/livez"].

Definition access_level (status : Z) (path : string) : Level :=
  if 500 <=? status then LevelError
  else if 400 <=? status then LevelWarn
  else if one_of path QuietPaths then LevelDebug else LevelInfo.

Definition access_attrs (r : Request) (rec : responseRecorder) (elapsed : Duration) : list Attr :=
  [("method", VString (Method r)); ("path", VString (Path r)); ("status", VInt (rc_status rec));
   ("bytes", VInt (rc_written rec)); ("duration", VDuration elapsed); remote_addr r;
   ("user_agent", VString (Get r "User-Agent"))].

Definition AccessLog (next : Handler) : Handler := λ r,
  start ← gets (λ c, w_now (cn_world c));
  _ ← wrapWriter;
  e ← next r;
  match e with
  | Panicked p => mret (Panicked p)
  | Returned =>
    rec ← gets (λ c, recorder (cn_writer c));
    now ← gets (λ c, w_now (cn_world c));
    _ ← log_at r (access_level (rc_status rec) (Path r)) "request" (access_attrs r rec (now - start));
    mret Returned
  end.

(** *** Metrics *)

Definition routeLabel (pattern : string) : string := if bool_decide (pattern = "") then "unmatched" else pattern.

Definition Metrics (next : Handler) : Handler := λ r,
  _ ← on_world (modify (add_metric IncInFlight));
  start ← gets (λ c, w_now (cn_world c));
  _ ← wrapWriter;
  e ← next r;
  _ ← match e with
      | Panicked _ => mret tt
      | Returned =>
        rec ← gets (λ c, recorder (cn_writer c));
        route ← gets cn_route;
        now ← gets (λ c, w_now (cn_world c));
        on_world (modify (add_metric (ObserveRequest (Method r) (routeLabel route) (Itoa (rc_status rec))
          (Seconds (now - start)) (rc_written rec))))
      end;
  _ ← on_world (modify (add_metric DecInFlight));
  mret e.

(** *** Recoverer *)

Definition Recoverer (next : Handler) : Handler := λ r,
  e ← next r;
  match e with
  | Returned => mret Returned
  | Panicked p =>
    if pn_abort p then mret (Panicked p)
    else
      gone ← gets (λ c, ctx_done (cn_world c));
      if (gone : bool) then mret Returned
      else
        _ ← log_at r LevelError "panic recovered"
              [("panic", VString (pn_value p)); ("method", VString (Method r)); ("path", VString (Path r));
               ("stack", VString (pn_stack p))];
        _ ← writeJSONError 500 "internal server error";
        mret Returned
  end.

(** *** CORS *)

Record CORSConfig := mkCORSConfig { AllowedOrigins : list string; cors_MaxAge : Duration }.

Definition defaultCORSMaxAge : Duration := 10 * Minute.
Definition corsAllowedMethods : string := Join ["GET"; "POST"; "OPTIONS"] ", ".
Definition corsAllowedHeaders : string := Join ["Content-Type"; "Authorization"; RequestIDHeader] ", ".

Definition TrimSuffix (s p : string) : string :=
  match strip_prefix (string_rev p "") (string_rev s "") with
  | Some front => string_rev front ""
  | None => s
  end.

Definition allowed_origins (cfg : CORSConfig) : list string :=
  filter (λ o, o ≠ "") ((λ o, TrimSpace (TrimSuffix o "/")) <$> AllowedOrigins cfg).

Definition CORS (cfg : CORSConfig) (next : Handler) : Handler := λ r,
  let maxAge := if cors_MaxAge cfg <=? 0 then defaultCORSMaxAge else cors_MaxAge cfg in
  let origin := Get r "Origin" in
  if bool_decide (origin ≠ "") && one_of origin (allowed_origins cfg) then
    _ ← SetHeader "Access-Control-Allow-Origin" origin;
    _ ← SetHeader "Access-Control-Allow-Credentials" "true";
    _ ← SetHeader "Access-Control-Expose-Headers" RequestIDHeader;
    _ ← AddHeader "Vary" "Origin";
    if bool_decide (Method r = "OPTIONS") then
      _ ← SetHeader "Access-Control-Allow-Methods" corsAllowedMethods;
      _ ← SetHeader "Access-Control-Allow-Headers" corsAllowedHeaders;
      _ ← SetHeader "Access-Control-Max-Age" (Itoa (float_to_int64 (Seconds maxAge)));
      _ ← AddHeader "Vary" "Access-Control-Request-Method";
      _ ← AddHeader "Vary" "Access-Control-Request-Headers";
      _ ← WriteHeader 204;
      mret Returned
    else next r
  else next r.

(** *** Timeout *)

(** [errors.Is(ctx.Err(), context.DeadlineExceeded)] of a context with its own
    deadline under a parent that may be cancelled first. *)
Definition deadline_exceeded (parent : option Time) (deadline now : Time) : bool :=
  (deadline <=? now) && match parent with Some t => deadline <=? t | None => true end.

Definition Timeout (d : Duration) (next : Handler) : Handler := λ r,
  parent ← gets (λ c, w_ctx (cn_world c));
  begin ← gets (λ c, w_now (cn_world c));
  let deadline := begin + d in
  _ ← on_world (modify (set_ctx (Some (earlier parent deadline))));
  _ ← wrapWriter;
  e ← next r;
  _ ← match e with
      | Panicked _ => mret tt
      | Returned =>
        rec ← gets (λ c, recorder (cn_writer c));
        now ← gets (λ c, w_now (cn_world c));
        if rc_wroteHeader rec || negb (deadline_exceeded parent deadline now) then mret tt
        else
          _ ← log_at r LevelWarn "request deadline exceeded"
                [("method", VString (Method r)); ("path", VString (Path r)); ("timeout", VDuration d)];
          writeJSONError 503 "request timed out"
      end;
  _ ← on_world (modify (set_ctx parent));
  mret e.

(** *** RequireAuth *)

Definition bearerToken (r : Request) : option string :=
  let header := Get r "Authorization" in
  if bool_decide (header = "") then None
  else
    let '(scheme, token, found) := Cut 32 header in
    if negb found || negb (bool_decide (map_string lower_byte scheme = "bearer")) || bool_decide (token = "")
    then None else Some token.

Definition unauthorized (message : string) : M Conn unit :=
  _ ← SetHeader "WWW-Authenticate"
        ("Bearer realm=" +:+ quoted "api" +:+ ", error=" +:+ quoted "invalid_token");
  writeJSONError 401 message.

Definition with_token (r : Request) (id : string) : Request :=
  if bool_decide (id = "") then r
  else mkRequest (Method r) (Path r) (RawPath r) (Http.RemoteAddr r) (Header r) (Cookies r) (RequestBody r) (ctx_user r)
         id (ctx_request_id r).

(** [TokenParser.Parse]. *)
Definition TokenParser : Type := string → M World (result (UUID * Claims.t)).

Definition RequireAuth (parse : TokenParser) (next : Handler) : Handler := λ r,
  match bearerToken r with
  | None => _ ← unauthorized "missing bearer token"; mret Returned
  | Some token =>
    x ← on_world (parse token);
    match x with
    | Err err =>
      _ ← log_at r LevelDebug "token rejected"
            [("reason", VString (err_msg err)); ("expired", VBool (errors_Is err ErrTokenExpired)); remote_addr r];
      _ ← unauthorized "invalid or expired token";
      mret Returned
    | Ok (userID, claims) => next (with_token (WithUserID r userID) (Claims.ID claims))
    end
  end.

(** *** RateLimiter.Middleware *)

Definition RateLimit (trustedProxies : Z) (next : Handler) : Handler := λ r,
  let key := ClientKeyFunc trustedProxies (peer r) in
  now ← gets (λ c, w_now (cn_world c));
  a ← on_limiter (allow key now);
  let '(allowed, retryAfter) := a in
  if (allowed : bool) then next r
  else
    let seconds := retry_seconds retryAfter in
    _ ← SetHeader "Retry-After" (Itoa seconds);
    _ ← log_at r LevelWarn "rate limit exceeded"
          [("client", VString key); ("path", VString (Path r)); ("retry_after_seconds", VInt seconds)];
    _ ← writeJSONError 429 "too many requests, please slow down";
    mret Returned.
End Conn.
