(* ===== verification/MiddlewareLaws.v ===== *)
(** * What the layers keep

    Handlers and layers only ever extend what has been sent: the first status
    stays, the recorder agrees with it, a header nobody else sets stays as it is,
    lines are only added to the log and the route stays one of the known ones.  This is a preorder on connections,
    and every layer preserves it, so that it holds of any chain of them. *)

From Stdlib Require Import Ascii.
From S2P Require Import Prelude GoStd Strconv Network Slog Logger Domain Database StripeClient.
From S2P Require Import Auth AuthService Services RateLimit JsonText JsonRoundtrip Http Handlers Middleware.
Open Scope Z_scope.

(** ** The preorder *)

(** The headers the layers set, apart from CORS and the request's id. *)
Definition layer_headers : list string := ["Content-Type"; "Cache-Control"; "WWW-Authenticate"; "Retry-After"].
Definition cors_headers : list string :=
  ["Access-Control-Allow-Origin"; "Access-Control-Allow-Credentials"; "Access-Control-Expose-Headers"; "Vary";
   "Access-Control-Allow-Methods"; "Access-Control-Allow-Headers"; "Access-Control-Max-Age"].

(** A header that is in neither list, or not in the first. *)
Class Untouched (key : string) := untouched : key ∉ layer_headers.
Class NotCors (key : string) := not_cors : key ∉ cors_headers.

#[export] Instance request_id_untouched : Untouched RequestIDHeader.
Proof. by apply (bool_decide_unpack (_ ∉ _)). Qed.
#[export] Instance request_id_not_cors : NotCors RequestIDHeader.
Proof. by apply (bool_decide_unpack (_ ∉ _)). Qed.
#[export] Instance allow_origin_untouched : Untouched "Access-Control-Allow-Origin".
Proof. by apply (bool_decide_unpack (_ ∉ _)). Qed.

Section Extension.
Context `{RateLib} (key : string) (routes : list string).

(** The recorder is there and says what was sent. *)
Definition recorded (w : Writer) : Prop :=
  match wr_rec w with
  | None => False
  | Some rc =>
    rc_written rc = len (wr_body w) ∧
    match wr_sent w with
    | Some hd => rc_wroteHeader rc = true ∧ rc_status rc = hd_status hd
    | None => rc_wroteHeader rc = false ∧ rc_status rc = 200
    end
  end.

Record extends (c c' : Conn) : Prop := mkExtends {
  ext_recorded : recorded (cn_writer c) → recorded (cn_writer c');
  ext_sent hd : wr_sent (cn_writer c) = Some hd → wr_sent (cn_writer c') = Some hd;
  ext_key : wr_header (cn_writer c') !! key = wr_header (cn_writer c) !! key;
  ext_head hd : wr_sent (cn_writer c) = None → wr_sent (cn_writer c') = Some hd →
    hd_header hd !! key = wr_header (cn_writer c) !! key;
  ext_lines : cn_lines c `prefix_of` cn_lines c';
  ext_route : cn_route c ∈ routes → cn_route c' ∈ routes;
}.

#[export] Instance extends_preorder : PreOrder extends.
Proof.
  split.
  - intros c. split; try done. intros hd Hn. by rewrite Hn.
  - intros c1 c2 c3 [Hr1 Hs1 Hi1 Hh1 Hl1 Ht1] [Hr2 Hs2 Hi2 Hh2 Hl2 Ht2]. split; auto.
    + congruence.
    + intros hd Hn Hs. destruct (wr_sent (cn_writer c2)) as [hd2|] eqn:H2.
      * apply Hh1; [done|]. by rewrite <- Hs, (Hs2 hd2).
      * rewrite (Hh2 hd) by done. done.
    + by etrans.
Qed.

(** A computation that only extends. *)
Class Good {A} (m : M Conn A) : Prop := good : ∀ c, extends c (m c).2.

#[export] Instance good_ret {A} (a : A) : Good (mret a : M Conn A).
Proof. intros c. reflexivity. Qed.
#[export] Instance good_gets {A} (f : Conn → A) : Good (gets f).
Proof. intros c. reflexivity. Qed.

Lemma good_bind_at {A B} (m : M Conn A) (k : A → M Conn B) c :
  Good m → (∀ a, Good (k a)) → extends c ((m ≫= k) c).2.
Proof.
  intros Hm Hk. unfold mbind, M_bind. pose proof (Hm c) as H1. destruct (m c) as [a c1].
  etrans; [exact H1|]. apply Hk.
Qed.

#[export] Instance good_bind {A B} (m : M Conn A) (k : A → M Conn B) :
  Good m → (∀ a, Good (k a)) → Good (m ≫= k).
Proof. intros Hm Hk c. by apply good_bind_at. Qed.

#[export] Instance good_foreach {A B} (f : A → M Conn B) l : (∀ a, Good (f a)) → Good (foreach f l).
Proof. intros Hf. induction l as [|a l IH]; simpl; apply _. Qed.

#[export] Instance good_if {A} (b : bool) (m m' : M Conn A) : Good m → Good m' → Good (if b then m else m').
Proof. by destruct b. Qed.

Lemma extends_same c c' :
  cn_writer c' = cn_writer c → cn_lines c' = cn_lines c → (cn_route c ∈ routes → cn_route c' ∈ routes) →
  extends c c'.
Proof. intros Hw Hl Hr. split; rewrite ?Hw, ?Hl; try done. intros hd Hn. by rewrite Hn. Qed.

#[export] Instance good_world {A} (m : M World A) : Good (on_world m).
Proof. intros c. unfold on_world. destruct (m _). by apply extends_same. Qed.
#[export] Instance good_limiter {A} (m : M RateLimiter A) : Good (on_limiter m).
Proof. intros c. unfold on_limiter. destruct (m _). by apply extends_same. Qed.

(** A change of the headers alone. *)
Lemma extends_header c h cs :
  h !! key = wr_header (cn_writer c) !! key →
  let w := cn_writer c in extends c (set_writer (mkWriter h cs (wr_sent w) (wr_body w) (wr_rec w)) c).
Proof. intros Hh. split; simpl; try done. intros hd Hn. by rewrite Hn. Qed.

Lemma good_SetHeader k v : k ≠ key → Good (SetHeader k v).
Proof. intros Hk c. apply extends_header. by rewrite lookup_insert_ne. Qed.
Lemma good_AddHeader k v : k ≠ key → Good (AddHeader k v).
Proof. intros Hk c. apply extends_header. by rewrite lookup_insert_ne. Qed.
#[export] Instance good_SetCookie k : Good (SetCookie k).
Proof. intros c. by apply extends_header. Qed.

(** A change of the writer that the headers do not see. *)
Lemma extends_on_writer f c :
  (let w := cn_writer c in
   (recorded w → recorded (f w)) ∧ (∀ hd, wr_sent w = Some hd → wr_sent (f w) = Some hd) ∧
   wr_header (f w) = wr_header w ∧
   (∀ hd, wr_sent w = None → wr_sent (f w) = Some hd → hd_header hd = wr_header w)) →
  extends c (on_writer f c).2.
Proof.
  intros (H1 & H2 & H3 & H4). split; simpl; try done; [by rewrite H3|]. intros hd Hn Hs. by rewrite (H4 hd).
Qed.

Ltac writer_cases :=
  intros c; apply extends_on_writer; destruct c as [w0 l0 ls0 rt0 [h cs [hd|] b [[st n wh]|]]];
  unfold recorded; simpl.

#[export] Instance good_wrapWriter : Good wrapWriter.
Proof. writer_cases; naive_solver. Qed.

#[export] Instance good_WriteHeader code : Good (WriteHeader code).
Proof. unfold WriteHeader, write_header. writer_cases; try destruct wh; naive_solver. Qed.

#[export] Instance good_Write s : Good (Write s).
Proof.
  unfold Write, write, write_header, body_allowed.
  writer_cases; try destruct wh; simpl; try destruct (negb _); simpl; unfold len; rewrite ?length_append.
  all: split_and!; intros; destruct_and?; simplify_eq/=; try done.
  all: split_and!; [lia|done..].
Qed.

(** After [wrapWriter] there is a recorder, and on a fresh writer it agrees. *)
Lemma wrapWriter_recorded c : wr_sent (cn_writer c) = None → wr_rec (cn_writer c) = None →
  wr_body (cn_writer c) = "" → recorded (cn_writer (wrapWriter c).2).
Proof. intros Hs Hr Hb. unfold recorded. simpl. rewrite Hr. simpl. rewrite Hs, Hb. done. Qed.


(** ** Layers *)

Lemma good_layer_SetHeader `{!Untouched key} k v : bool_decide (k ∈ layer_headers) = true → Good (SetHeader k v).
Proof. intros Hk%bool_decide_eq_true. apply good_SetHeader. intros ->. by apply untouched in Hk. Qed.
Lemma good_cors_SetHeader `{!NotCors key} k v : bool_decide (k ∈ cors_headers) = true → Good (SetHeader k v).
Proof. intros Hk%bool_decide_eq_true. apply good_SetHeader. intros ->. by apply not_cors in Hk. Qed.
Lemma good_cors_AddHeader `{!NotCors key} k v : bool_decide (k ∈ cors_headers) = true → Good (AddHeader k v).
Proof. intros Hk%bool_decide_eq_true. apply good_AddHeader. intros ->. by apply not_cors in Hk. Qed.

Context `{!Untouched key}.

(** One step through a computation, down to operations with an instance. *)
Ltac good_step :=
  lazymatch goal with
  | |- ∀ _, Good _ => intros ?
  | |- Good (let x := _ in _) => cbv zeta
  | |- Good (_ ≫= _) => apply good_bind
  | |- Good (match ?x with _ => _ end) => destruct x
  | |- Good (SetHeader _ _) => (by apply good_layer_SetHeader) || (by apply good_cors_SetHeader)
  | |- Good (AddHeader _ _) => by apply good_cors_AddHeader
  | |- Good _ => apply _
  end.
Ltac goods := repeat good_step.

#[export] Instance good_respond `{StripeSDK} resp : Good (respond resp).
Proof. unfold respond. goods. Qed.

#[export] Instance good_handle `{StripeSDK} f r : Good (handle f r).
Proof. unfold handle. goods. Qed.

#[export] Instance good_writeJSONError code msg : Good (writeJSONError code msg).
Proof. unfold writeJSONError. goods. Qed.

#[export] Instance good_unauthorized msg : Good (unauthorized msg).
Proof. unfold unauthorized. goods. Qed.

Context `{GoUnicode}.
Context (site : string → option (string * Z)) (log : contextHandler).

#[export] Instance good_log_at r level msg attrs : Good (log_at site log r level msg attrs).
Proof.
  intros c. unfold log_at, modify. simpl. destruct (Log _ _ _); [|done].
  split; simpl; try done; [intros hd Hn; by rewrite Hn|by apply prefix_app_r].
Qed.

Section Layers.
Context (next : Handler) `{Hnext : ∀ r, Good (next r)}.

#[export] Instance good_AccessLog r : Good (AccessLog site log next r).
Proof. unfold AccessLog. goods. Qed.
#[export] Instance good_Metrics r : Good (Metrics next r).
Proof. unfold Metrics. goods. Qed.
#[export] Instance good_Recoverer r : Good (Recoverer site log next r).
Proof. unfold Recoverer. goods. Qed.
#[export] Instance good_CORS `{!NotCors key} cfg r : Good (CORS cfg next r).
Proof. unfold CORS. goods. Qed.
#[export] Instance good_Timeout d r : Good (Timeout site log d next r).
Proof. unfold Timeout. goods. Qed.
#[export] Instance good_RequireAuth parse r : Good (RequireAuth site log parse next r).
Proof. unfold RequireAuth. goods. Qed.
#[export] Instance good_RateLimit n r : Good (RateLimit site log n next r).
Proof. unfold RateLimit. goods. Qed.
End Layers.
End Extension.

(** ** The error envelope *)

(** The characters the messages of the layers are made of. *)
Definition plain_byte (a : ascii) : bool :=
  in_range 32 127 a && negb (in_range 38 38 a || in_range 60 60 a || in_range 62 62 a)
  || in_range 9 10 a || in_range 13 13 a.

Lemma quote_byte_escape a : plain_byte a = true → quote_byte_json a = escape_byte a.
Proof. destruct a as [[] [] [] [] [] [] [] []]; try discriminate; reflexivity. Qed.

(** on messages of plain characters the hand-written [quoteJSON] is the
    encoder: the body the layers send is the very text the handlers' envelope
    has, so a client decodes the message back from either. *)
Theorem error_envelope_encoder `{StripeSDK} m :
  str_forall plain_byte m = true →
  body_text (ErrorBody m) = error_envelope m +:+ of_bytes [10%N] ∧
  ∀ e y, Decode [("error", FString "")] e (error_envelope m +:+ y) = inl ([("error", FString m)], y).
Proof.
  intros Hm.
  assert (quote_bytes_json m = escape_from (Copy 0) m ∧ ValidString m = true) as [Hq Hv].
  { induction m as [|a m IH]; [done|]. apply andb_true_iff in Hm as [Ha Hm].
    destruct (IH Hm) as [IH1 IH2]. cbn [quote_bytes_json escape_from].
    assert (is_ascii_byte a = true ∧ in_range 0 127 a = true) as [Has Hr].
    { revert Ha. by destruct a as [[] [] [] [] [] [] [] []]; try discriminate. }
    rewrite Has, IH1, quote_byte_escape by done. split; [done|]. unfold ValidString. by rewrite Hr. }
  assert (error_envelope m = json_text (JObj [("error", JStr m)])) as Henv.
  { unfold error_envelope, quoteJSON. rewrite Hq. cbn [json_text map Join fst snd]. unfold json_string.
    by rewrite !append_assoc_str. }
  split; [by rewrite Henv|]. intros e y. rewrite Henv, decode_encode.
  - done.
  - repeat constructor. unfold member_ok. simpl. by rewrite Hv.
Qed.
