(* ===== verification/Router.v ===== *)
(** * internal/handler/router.go

    The routes, the layers around each of them, and what one request comes to
    when it has passed through them all.  Matching a path is chi's: it gets the
    table of methods and patterns and says which entry serves a request, if
    any. *)

From Stdlib Require Import Ascii.
From S2P Require Import Prelude GoStd Strconv Network Slog Logger Domain Database WebhookRepo SubscriptionRepo.
From S2P Require Import StripeClient Ports WebhookService Auth AuthService Services RateLimit JsonText.
From S2P Require Import Http Handlers Middleware.
Open Scope Z_scope.

(** ** Matching *)

(** What a router says of a request: the entry that serves it, or that there is
    none, in the router itself or in the one mounted in it, with the pattern it
    reports all the same. *)
Inductive Selection :=
  | Endpoint (method pattern : string)
  | Missing (mounted : bool) (pattern : string)
  | WrongMethod (mounted : bool) (pattern : string).

(** A pattern without parameters and wildcards. *)
Definition static (pattern : string) : Prop :=
  str_forall (λ a, negb (in_range 123 123 a || in_range 42 42 a)) pattern = true.

(** [chi.Mux] with the routes of a table, some in a router mounted at a prefix,
    for a method and a path.  Documented: a route serves its own method only,
    and one without parameters its own path only, which no other such route
    takes from it; a request without an endpoint has no pattern but the
    mount's. *)
Class ChiLib := {
  chi_route : list (string * string) → string → string → string → Selection;
  chi_endpoint routes mount m path m' pat :
    chi_route routes mount m path = Endpoint m' pat →
    (m', pat) ∈ routes ∧ m' = m ∧ (static pat → pat = path);
  chi_found routes mount m path :
    (m, path) ∈ routes → Forall (λ r, static r.2) routes → chi_route routes mount m path = Endpoint m path;
  chi_missing routes mount m path b pat :
    chi_route routes mount m path = Missing b pat ∨ chi_route routes mount m path = WrongMethod b pat →
    pat ∈ [""; mount; mount +:+ "/*"];
}.

(** The path chi matches. *)
Definition route_path (r : Request) : string :=
  let p := if bool_decide (RawPath r = "") then Path r else RawPath r in
  if bool_decide (p = "") then "/" else p.

(** ** Configuration *)

Section Router.
Context `{GoUnicode, RateLib, ChiLib, AuthLib, StripeSDK}.
Context `{UserRepository, SubscriptionRepository, WebhookRepository, RefreshTokenRepository, healthProbe}.

Record RouterConfig := mkRouterConfig {
  APITimeout : Duration;
  CORS_ : CORSConfig;
  Tokens : TokenParser;
  AuthRateLimit : bool;          (* the limiter itself is the connection's *)
  TrustedProxies : Z;
  Metrics_ : bool;
  WebhookTimeout : Duration;
}.

Definition defaultAPITimeout : Duration := 10 * Second.
Definition defaultWebhookTimeout : Duration := 25 * Second.

Definition withDefaults (c : RouterConfig) : RouterConfig :=
  mkRouterConfig (if APITimeout c <=? 0 then defaultAPITimeout else APITimeout c) (CORS_ c) (Tokens c)
    (AuthRateLimit c) (TrustedProxies c) (Metrics_ c)
    (if WebhookTimeout c <=? 0 then defaultWebhookTimeout else WebhookTimeout c).

(** ** The tree *)

Context (site : string → option (string * Z)) (log : contextHandler) (rand_Read16 : N → string + string).
Context (stripe : StripeHandler) (auth : AuthHandler) (health : HealthHandler).

(** A layer that is left out when it is not configured. *)
Definition when (b : bool) (layer : Handler → Handler) : Handler → Handler :=
  if b then layer else id.

(** The layers of each group of routes. *)
Definition webhook_group (cfg : RouterConfig) : Handler → Handler := Timeout site log (WebhookTimeout cfg).
Definition api_group (cfg : RouterConfig) : Handler → Handler := Timeout site log (APITimeout cfg).
Definition credential_group (cfg : RouterConfig) (h : Handler) : Handler :=
  api_group cfg (when (AuthRateLimit cfg) (RateLimit site log (TrustedProxies cfg)) h).
Definition protected_group (cfg : RouterConfig) (h : Handler) : Handler :=
  api_group cfg (RequireAuth site log (Tokens cfg) h).

Definition mount : string := "/api/v1".

Definition table (cfg : RouterConfig) : list (string * string * Handler) := [
  ("GET", "/livez", handle (Live health));
  ("GET", "/healthz", handle (Ready health));
  ("POST", "/webhook", webhook_group cfg (handle (HandleWebhook stripe)));
  ("POST", mount +:+ "/auth/register", credential_group cfg (handle (HandleRegister auth)));
  ("POST", mount +:+ "/auth/login", credential_group cfg (handle (HandleLogin auth)));
  ("POST", mount +:+ "/auth/refresh", credential_group cfg (handle (HandleRefresh auth)));
  ("POST", mount +:+ "/auth/logout", api_group cfg (handle (HandleLogout auth)));
  ("GET", mount +:+ "/auth/me", protected_group cfg (handle HandleMe));
  ("POST", mount +:+ "/checkout", protected_group cfg (handle (HandleCheckout stripe)));
  ("POST", mount +:+ "/portal", protected_group cfg (handle (HandlePortal stripe)));
  ("GET", mount +:+ "/subscription", protected_group cfg (handle HandleGetSubscription))
].

Definition endpoints (cfg : RouterConfig) : list (string * string) := fst <$> table cfg.

Definition answer (code : Z) (message : string) : Handler :=
  handle (λ _, mret (writeError code message [])).

(** Routing: the pattern is recorded, and the entry's handler runs. *)
Definition set_route (pattern : string) : M Conn unit := modify (λ c,
  mkConn (cn_world c) (cn_limiter c) (cn_lines c) pattern (cn_writer c)).

Definition routeHTTP (cfg : RouterConfig) : Handler := λ r,
  match chi_route (endpoints cfg) mount (Method r) (route_path r) with
  | Endpoint m pattern =>
    _ ← set_route pattern;
    match list_find (λ e, e.1 = (m, pattern)) (table cfg) with
    | Some (_, (_, h)) => h r
    | None => mret Returned
    end
  | Missing mounted pattern =>
    _ ← set_route pattern; when mounted (api_group cfg) (answer 404 "not found") r
  | WrongMethod mounted pattern =>
    _ ← set_route pattern; when mounted (api_group cfg) (answer 405 "method not allowed") r
  end.

Definition NewRouter (cfg : RouterConfig) : Handler :=
  let cfg := withDefaults cfg in
  RequestID rand_Read16 (AccessLog site log (
    when (Metrics_ cfg) Metrics (Recoverer site log (
      when (bool_decide (AllowedOrigins (CORS_ cfg) ≠ [])) (CORS (CORS_ cfg)) (routeHTTP cfg))))).

(** ** Serving one request *)

(** A connection as the server hands it over. *)
Definition opened (w : World) (l : RateLimiter) (lines : list (list Leaf)) : Conn := mkConn w l lines "" fresh.

(** What the client gets: a status with its headers, and a body; nothing it can
    rely on when the handler panicked and the connection is cut. *)
Definition received (e : Ended) (w : Writer) : option (Head * string) :=
  match e with
  | Panicked _ => None
  | Returned => Some (default (mkHead 200 (wr_header w) (wr_cookies w)) (wr_sent w), wr_body w)
  end.
End Router.
