(* ===== verification/Serving.v ===== *)
(** * Every request, through every layer

    What holds of each response the router gives, whatever the request and
    whichever handler serves it: it is identified, logged truthfully and
    counted under a bounded label, and is marked for other origins only as
    configured. *)

From Stdlib Require Import Ascii.
From S2P Require Import Prelude GoStd Strconv Network Slog Logger Domain Database WebhookRepo SubscriptionRepo.
From S2P Require Import StripeClient Ports WebhookService Auth AuthService Services RateLimit JsonText.
From S2P Require Import Http Handlers Middleware MiddlewareLaws Router.
Open Scope Z_scope.

(** ** Handlers do not panic *)

Section Calm.
Context `{GoUnicode, RateLib}.
Context (site : string → option (string * Z)) (log : contextHandler).

Definition Calm (h : Handler) : Prop := ∀ r c, (h r c).1 = Returned.

(** Through a bind, only the last computation matters. *)
Lemma ends_bind {A} (m : M Conn A) (k : A → M Conn Ended) c :
  (∀ a c', (k a c').1 = Returned) → ((m ≫= k) c).1 = Returned.
Proof. intros Hk. unfold mbind, M_bind. destruct (m c). apply Hk. Qed.

Ltac calm := intros r c; repeat (apply ends_bind; intros ? ?); simpl; auto.

Lemma calm_handle `{StripeSDK} f : Calm (handle f).
Proof. unfold Calm, handle. calm. Qed.

(** A bind on the inner handler's end, which is a return. *)
Lemma ends_next (next : Handler) r (k : Ended → M Conn Ended) c :
  Calm next → (∀ c', (k Returned c').1 = Returned) → ((next r ≫= k) c).1 = Returned.
Proof.
  intros Hn Hk. unfold mbind, M_bind. specialize (Hn r c). destruct (next r c). simpl in Hn. by subst.
Qed.

Section Layers.
Context (next : Handler) (Hnext : Calm next).

Lemma calm_Timeout d : Calm (Timeout site log d next).
Proof.
  intros r c. unfold Timeout. cbv zeta. do 4 (apply ends_bind; intros ? ?).
  apply ends_next; [done|]. intros ?. by do 2 (apply ends_bind; intros ? ?).
Qed.

Lemma calm_RequireAuth parse : Calm (RequireAuth site log parse next).
Proof.
  intros r c. unfold RequireAuth. destruct (bearerToken r); [|by apply ends_bind].
  apply ends_bind. intros [[u cl]|err] c'; [done|]. by do 2 (apply ends_bind; intros ? ?).
Qed.

Lemma calm_RateLimit n : Calm (RateLimit site log n next).
Proof.
  intros r c. unfold RateLimit. cbv zeta. apply ends_bind; intros now c1.
  apply ends_bind. intros [[] d] c2; [done|]. by do 3 (apply ends_bind; intros ? ?).
Qed.

Lemma calm_CORS cfg : Calm (CORS cfg next).
Proof.
  intros r c. unfold CORS. cbv zeta. destruct (_ && _); [|done]. do 4 (apply ends_bind; intros ? ?).
  case_bool_decide; [|done]. by do 6 (apply ends_bind; intros ? ?).
Qed.

Lemma calm_Recoverer : Calm (Recoverer site log next).
Proof. intros r c. unfold Recoverer. by apply ends_next. Qed.

Lemma calm_Metrics : Calm (Metrics next).
Proof.
  intros r c. unfold Metrics. do 3 (apply ends_bind; intros ? ?). apply ends_next; [done|].
  intros ?. by do 2 (apply ends_bind; intros ? ?).
Qed.
End Layers.
End Calm.

(** ** The tree *)

Section Serving.
Context `{GoUnicode, RateLib, ChiLib, AuthLib, StripeSDK}.
Context `{UserRepository, SubscriptionRepository, WebhookRepository, RefreshTokenRepository, healthProbe}.
Context (site : string → option (string * Z)) (log : contextHandler) (rand_Read16 : N → string + string).
Context (stripe : StripeHandler) (auth : AuthHandler) (health : HealthHandler) (cfg : RouterConfig).

#[local] Abbreviation serve := (NewRouter site log rand_Read16 stripe auth health cfg).

(** Everything inside the router's own layers. *)
Definition routed : Handler := routeHTTP site log stripe auth health (withDefaults cfg).

(** Everything inside [AccessLog]. *)
Definition inner : Handler :=
  when (Metrics_ (withDefaults cfg)) Metrics (Recoverer site log (
    when (bool_decide (AllowedOrigins (CORS_ (withDefaults cfg)) ≠ [])) (CORS (CORS_ (withDefaults cfg))) routed)).

Lemma calm_when b (layer : Handler → Handler) h : (∀ h, Calm h → Calm (layer h)) → Calm h → Calm (when b layer h).
Proof. destruct b; auto. Qed.

Lemma calm_table c : Forall (λ e, Calm e.2) (table site log stripe auth health c).
Proof.
  unfold table, webhook_group, credential_group, protected_group, api_group.
  repeat constructor; simpl; repeat first [apply calm_handle | apply calm_Timeout | apply calm_RequireAuth
    | apply calm_when; [intros ? ?; by apply calm_RateLimit|]].
Qed.

(** The entry of the table that serves a selected endpoint. *)
Lemma table_entry c m pat x :
  list_find (λ e, e.1 = (m, pat)) (table site log stripe auth health c) = Some x →
  x.2 ∈ table site log stripe auth health c ∧ x.2.1 = (m, pat).
Proof.
  destruct x as [i e]. intros (Hi & He & _)%list_find_Some. split; [|done]. by eapply list_elem_of_lookup_2.
Qed.

Lemma calm_routed : Calm routed.
Proof.
  intros r c. unfold routed, routeHTTP. destruct (chi_route _ _ _ _) as [m pat|b pat|b pat]; apply ends_bind; intros _ c'.
  - destruct (list_find _ _) as [[i [mp h]]|] eqn:Hf; [|done]. apply table_entry in Hf as [Hin _].
    by apply (proj1 (Forall_forall _ _) (calm_table _) _ Hin).
  - apply calm_when; [intros; by apply calm_Timeout|apply calm_handle].
  - apply calm_when; [intros; by apply calm_Timeout|apply calm_handle].
Qed.

Lemma calm_inner : Calm inner.
Proof.
  apply calm_when; [intros; by apply calm_Metrics|]. apply calm_Recoverer.
  apply calm_when; [intros; by apply calm_CORS|apply calm_routed].
Qed.

(** *** Each layer keeps a header it does not set

    And the route is recorded as one of the patterns of the table, the mount's
    or none. *)

Definition patterns : list string :=
  "" :: mount :: (mount +:+ "/*") :: (endpoints site log stripe auth health (withDefaults cfg)).*2.

Section Key.
Context (key : string) `{!Untouched key}.

Lemma good_when b (layer : Handler → Handler) (h : Handler) r :
  (∀ r, Good key patterns (h r)) → (∀ r, Good key patterns (layer h r)) → Good key patterns (when b layer h r).
Proof. by destruct b. Qed.

Lemma good_table c : Forall (λ e, ∀ r, Good key patterns (e.2 r)) (table site log stripe auth health c).
Proof.
  unfold table, webhook_group, credential_group, protected_group, api_group.
  assert (∀ f r, Good key patterns (handle f r)) as Hh by (intros; apply good_handle; assumption).
  repeat apply Forall_cons_2; [..|apply Forall_nil_2]; cbn [snd]; intros r; try exact (Hh _ r);
    (apply good_Timeout; [assumption|intros r']); try exact (Hh _ r').
  1-3: apply good_when; [intros; apply Hh|]; apply good_RateLimit; [assumption|intros; apply Hh].
  all: apply good_RequireAuth; [assumption|intros; apply Hh].
Qed.

Lemma good_set_route pattern : pattern ∈ patterns → Good key patterns (set_route pattern).
Proof. intros Hp c. by apply extends_same. Qed.

Lemma missing_pattern routes m path b pat :
  chi_route routes mount m path = Missing b pat ∨ chi_route routes mount m path = WrongMethod b pat →
  pat ∈ patterns.
Proof. intros Hp%chi_missing. unfold patterns. rewrite !elem_of_cons in *. rewrite elem_of_nil in Hp. tauto. Qed.

Lemma good_routed r : Good key patterns (routed r).
Proof.
  unfold routed, routeHTTP. destruct (chi_route _ _ _ _) as [m pat|b pat|b pat] eqn:Hc;
    (apply good_bind; [apply good_set_route|intros _]).
  - apply chi_endpoint in Hc as [Hc _]. unfold patterns. do 3 apply list_elem_of_further.
    apply list_elem_of_fmap. by exists (m, pat).
  - destruct (list_find _ _) as [[i [mp h]]|] eqn:Hf; [|apply _]. apply table_entry in Hf as [Hin _].
    by apply (proj1 (Forall_forall _ _) (good_table _) _ Hin).
  - by eapply missing_pattern; left.
  - unfold answer, api_group. apply good_when; apply _.
  - by eapply missing_pattern; right.
  - unfold answer, api_group. apply good_when; apply _.
Qed.

Lemma good_inner `{!NotCors key} r : Good key patterns (inner r).
Proof.
  unfold inner. pose proof good_routed.
  assert (∀ r, Good key patterns (when (bool_decide (AllowedOrigins (CORS_ (withDefaults cfg)) ≠ []))
    (CORS (CORS_ (withDefaults cfg))) routed r)) as Hc by (intros r'; apply good_when; apply _).
  apply good_when; intros r'; apply _.
Qed.
End Key.

(** *** A request from the outside in *)

(** Sixteen random bytes are always there: [crypto/rand.Read] never fails. *)
Definition rand_total : Prop := ∀ n, ∃ b, rand_Read16 n = inl b ∧ len b = 16.

Lemma hex_encode_ok s : len (hex_encode s) = 2 * len s ∧ isPrintableASCII (hex_encode s) = true.
Proof.
  unfold len. induction s as [|a s [IH1 IH2]]; [done|]. cbn [hex_encode String.length]. split; [lia|].
  unfold isPrintableASCII in *. cbn [str_forall]. rewrite IH2, andb_true_r.
  by destruct a as [[] [] [] [] [] [] [] []].
Qed.

Lemma newRequestID_ok w : rand_total → acceptable_id (newRequestID rand_Read16 w).1 = true.
Proof.
  intros Hr. unfold newRequestID, draw. unfold_monad. simpl. destruct (Hr (w_rng w (w_draws w))) as (b & -> & Hb).
  destruct (hex_encode_ok b) as [Hl Hp]. unfold acceptable_id, maxInboundRequestIDLen. rewrite Hp, Hl, Hb.
  rewrite bool_decide_eq_false_2; [done|]. intros He. rewrite He in Hl. change (len "") with 0 in Hl. lia.
Qed.

(** The id of a request, and the draw it may take. *)
Definition chosen_id (r : Request) (w : World) : string :=
  if acceptable_id (Get r RequestIDHeader) then Get r RequestIDHeader else (newRequestID rand_Read16 w).1.

Definition with_id (r : Request) (w : World) : World :=
  if acceptable_id (Get r RequestIDHeader) then w else take_draw w.

Lemma chosen_id_ok r w : rand_total → acceptable_id (chosen_id r w) = true.
Proof.
  intros Hr. unfold chosen_id. destruct (acceptable_id (Get r RequestIDHeader)) eqn:Ha; [done|].
  by apply newRequestID_ok.
Qed.

(** The connection [AccessLog] hands on. *)
Definition behind_log (r : Request) (w : World) (lim : RateLimiter) (ls : list (list Leaf)) : Conn :=
  mkConn (with_id r w) lim ls ""
    (set_rec (mkRecorder 200 0 false) (mkWriter {[RequestIDHeader := [chosen_id r w]]} [] None "" None)).

Lemma RequestID_run next r w lim ls :
  RequestID rand_Read16 next r (opened w lim ls) =
    next (with_request_id r (chosen_id r w))
      (mkConn (with_id r w) lim ls "" (mkWriter {[RequestIDHeader := [chosen_id r w]]} [] None "" None)).
Proof. unfold RequestID, chosen_id, with_id. cbv zeta. by destruct (acceptable_id _). Qed.

Lemma AccessLog_run next r c :
  Calm next →
  let c2 := (next r (wrapWriter c).2).2 in
  let rec := recorder (cn_writer c2) in
  AccessLog site log next r c =
    (Returned, (log_at site log r (access_level (rc_status rec) (Path r)) "request"
       (access_attrs r rec (w_now (cn_world c2) - w_now (cn_world c))) c2).2).
Proof.
  intros Hn c2 rec. unfold rec, c2. specialize (Hn r (wrapWriter c).2).
  unfold AccessLog. unfold mbind, M_bind, gets at 1. destruct (wrapWriter c) as [[] c1]. simpl in *.
  destruct (next r c1) as [e c2']. simpl in *. by subst.
Qed.

Lemma serve_run r w lim ls :
  let r' := with_request_id r (chosen_id r w) in
  let c2 := (inner r' (behind_log r w lim ls)).2 in
  let rec := recorder (cn_writer c2) in
  serve r (opened w lim ls) =
    (Returned, (log_at site log r' (access_level (rc_status rec) (Path r)) "request"
       (access_attrs r' rec (w_now (cn_world c2) - w_now w)) c2).2).
Proof.
  intros r' c2 rec. unfold rec, c2, NewRouter. cbv zeta. fold routed. fold inner.
  rewrite RequestID_run, AccessLog_run by apply calm_inner. cbn [cn_world].
  assert (w_now (with_id r w) = w_now w) as -> by (unfold with_id; by destruct (acceptable_id _)).
  done.
Qed.

(** A header as the client sees it, or would. *)
Definition visible (k : string) (w : Writer) : option (list string) :=
  match wr_sent w with Some hd => hd_header hd !! k | None => wr_header w !! k end.

Lemma visible_extends k ps c c' :
  extends k ps c c' → wr_sent (cn_writer c) = None → visible k (cn_writer c') = wr_header (cn_writer c) !! k.
Proof.
  intros He Hs. unfold visible. destruct (wr_sent (cn_writer c')) as [hd|] eqn:Hs'.
  - by apply (ext_head _ _ _ _ He).
  - apply (ext_key _ _ _ _ He).
Qed.

(** What the recorder says is what the client got. *)
Lemma received_recorded w :
  recorded w →
  ∃ hd, received Returned w = Some (hd, wr_body w) ∧ hd_status hd = rc_status (recorder w) ∧
    rc_written (recorder w) = len (wr_body w) ∧
    ∀ k, hd_header hd !! k = visible k w.
Proof.
  unfold recorded, recorder, received, visible. destruct (wr_rec w) as [[st n wh]|]; [|done]. simpl.
  destruct (wr_sent w) as [hd|]; intros [-> [-> ->]]; eexists; split_and!; try done; simpl; auto.
Qed.

Lemma behind_log_recorded r w lim ls : recorded (cn_writer (behind_log r w lim ls)).
Proof. done. Qed.

(** every request is answered, and every answer carries one request id: the
    caller's own when it is printable, not empty and at most 128 bytes, and a
    fresh one otherwise.  Nothing a caller sends can put a control character or
    a longer text into that header or into the log. *)
Theorem every_answer_identified r w lim ls :
  rand_total →
  let '(e, c') := serve r (opened w lim ls) in
  ∃ hd body id, received e (cn_writer c') = Some (hd, body) ∧
    hd_header hd !! RequestIDHeader = Some [id] ∧
    id ≠ "" ∧ len id ≤ 128 ∧ isPrintableASCII id = true ∧
    (acceptable_id (Get r RequestIDHeader) = true → id = Get r RequestIDHeader).
Proof.
  intros Hrand. rewrite serve_run. set (c2 := (inner _ _).2).
  pose proof (good_inner RequestIDHeader (with_request_id r (chosen_id r w)) (behind_log r w lim ls)) as He.
  fold c2 in He.
  assert (cn_writer (log_at site log (with_request_id r (chosen_id r w))
    (access_level (rc_status (recorder (cn_writer c2))) (Path r)) "request"
    (access_attrs (with_request_id r (chosen_id r w)) (recorder (cn_writer c2))
       (w_now (cn_world c2) - w_now w)) c2).2 = cn_writer c2) as ->.
  { unfold log_at, modify. simpl. by destruct (Log _ _ _). }
  destruct (received_recorded (cn_writer c2)) as (hd & -> & _ & _ & Hk); [by apply (ext_recorded _ _ _ _ He)|].
  exists hd, (wr_body (cn_writer c2)), (chosen_id r w). split; [done|]. split.
  - by rewrite Hk, (visible_extends _ _ _ _ He).
  - pose proof (chosen_id_ok r w Hrand) as Ha. unfold acceptable_id in Ha.
    apply negb_true_iff, orb_false_iff in Ha as [[Hn Hl]%orb_false_iff Hp].
    apply bool_decide_eq_false in Hn. apply negb_false_iff in Hp. unfold maxInboundRequestIDLen in Hl.
    split_and!; [done|lia|done|]. intros Hi. unfold chosen_id. by rewrite Hi.
Qed.

(** *** The log *)

Lemma log_at_writer r level msg attrs c : cn_writer (log_at site log r level msg attrs c).2 = cn_writer c.
Proof. unfold log_at, modify. simpl. by destruct (Log _ _ _). Qed.

Lemma log_at_world r level msg attrs c : cn_world (log_at site log r level msg attrs c).2 = cn_world c.
Proof. unfold log_at, modify. simpl. by destruct (Log _ _ _). Qed.


(** *** Metrics *)

Lemma Metrics_run next r c :
  Calm next →
  let c1 := (wrapWriter (set_world (add_metric IncInFlight (cn_world c)) c)).2 in
  let c2 := (next r c1).2 in
  let rec := recorder (cn_writer c2) in
  Metrics next r c =
    (Returned, set_world (add_metric DecInFlight (add_metric
       (ObserveRequest (Method r) (routeLabel (cn_route c2)) (Itoa (rc_status rec))
          (Seconds (w_now (cn_world c2) - w_now (cn_world c))) (rc_written rec)) (cn_world c2))) c2).
Proof.
  intros Hn c1 c2 rec. unfold rec, c2. specialize (Hn r c1). subst c1.
  unfold Metrics, mbind, M_bind, gets, on_world, modify, mret, M_ret. cbv zeta. cbn [cn_world set_world].
  destruct (wrapWriter _) as [[] c1] eqn:Hw. cbn [snd] in *.
  destruct (next r c1) as [e c2']. cbn [fst snd] in *. by subst.
Qed.

(** Inside [Metrics], or without it. *)
Definition guarded : Handler :=
  Recoverer site log (when (bool_decide (AllowedOrigins (CORS_ (withDefaults cfg)) ≠ []))
    (CORS (CORS_ (withDefaults cfg))) routed).

Lemma calm_guarded : Calm guarded.
Proof. apply calm_Recoverer, calm_when; [intros; by apply calm_CORS|apply calm_routed]. Qed.

Lemma good_guarded r : Good RequestIDHeader patterns (guarded r).
Proof.
  unfold guarded. pose proof (good_routed RequestIDHeader). apply good_Recoverer; [apply _|]. intros r'. apply good_when; apply _.
Qed.

(** with metrics on, every request is counted exactly when it is over: the
    gauge it raised is lowered again, and it is observed once, under the status
    and the size the client got, and under one of the patterns of the routing
    table - so that no path a caller makes up becomes a time series. *)
Theorem request_counted r w lim ls :
  Metrics_ cfg = true →
  let '(e, c') := serve r (opened w lim ls) in
  ∃ hd body label seconds c1 before,
    received e (cn_writer c') = Some (hd, body) ∧
    w_metrics (cn_world c1) = IncInFlight :: w_metrics w ∧
    before = w_metrics (cn_world (guarded (with_request_id r (chosen_id r w)) c1).2) ∧
    w_metrics (cn_world c') =
      DecInFlight :: ObserveRequest (Method r) label (Itoa (hd_status hd)) seconds (len body) :: before ∧
    label ∈ "unmatched" :: tail patterns.
Proof.
  intros Hm. rewrite serve_run. set (r' := with_request_id r (chosen_id r w)). set (c2 := (inner _ _).2).
  pose proof (good_inner RequestIDHeader r' (behind_log r w lim ls)) as He. fold c2 in He.
  rewrite log_at_writer, log_at_world.
  destruct (received_recorded (cn_writer c2)) as (hd & -> & Hst & Hn & _); [by apply (ext_recorded _ _ _ _ He)|].
  set (b := behind_log r w lim ls) in *.
  pose proof (Metrics_run guarded r' b calm_guarded) as Hrun. cbv zeta in Hrun.
  set (c1 := (wrapWriter _).2) in Hrun.
  assert (inner r' b = Metrics guarded r' b) as Hin by (unfold inner, guarded, when, withDefaults; cbn [Metrics_]; by rewrite Hm).
  rewrite <- Hin in Hrun. assert (c2 = (inner r' b).2) as Hc2 by done. rewrite Hrun in Hc2. simpl in Hc2.
  eexists hd, _, _, _, c1, _. split; [done|]. rewrite Hst, <- Hn, Hc2.
  split_and!; [|done|done|].
  - unfold c1. simpl. unfold with_id. by destruct (acceptable_id _).
  - pose proof (good_guarded r' c1) as Hg. apply ext_route in Hg; [|unfold c1; simpl; apply list_elem_of_here].
    unfold routeLabel. case_bool_decide; [apply list_elem_of_here|].
    apply list_elem_of_further. unfold patterns in Hg |- *. apply elem_of_cons in Hg as [?|?]; done.
Qed.

(** *** Other origins *)

Definition allow_origin : string := "Access-Control-Allow-Origin".

(** The origin a response may name. *)
Definition granted (r : Request) : option (list string) :=
  let origin := Get r "Origin" in
  if bool_decide (origin ≠ "") && one_of origin (allowed_origins (CORS_ cfg)) then Some [origin] else None.

Lemma Recoverer_calm next r c : Calm next → (Recoverer site log next r c) = (Returned, (next r c).2).
Proof.
  intros Hn. specialize (Hn r c). unfold Recoverer, mbind, M_bind. destruct (next r c) as [e c']. simpl in Hn.
  by subst.
Qed.

(** What [CORS] does once it has named the origin names no other. *)
Lemma CORS_rest r maxAge :
  Good allow_origin patterns (
    _ ← SetHeader "Access-Control-Allow-Credentials" "true";
    _ ← SetHeader "Access-Control-Expose-Headers" RequestIDHeader;
    _ ← AddHeader "Vary" "Origin";
    if bool_decide (Method r = "OPTIONS") then
      _ ← SetHeader "Access-Control-Allow-Methods" corsAllowedMethods;
      _ ← SetHeader "Access-Control-Allow-Headers" corsAllowedHeaders;
      _ ← SetHeader "Access-Control-Max-Age" (Itoa (float_to_int64 (Seconds maxAge)));
      _ ← AddHeader "Vary" "Access-Control-Request-Method";
      _ ← AddHeader "Vary" "Access-Control-Request-Headers";
      _ ← WriteHeader 204;
      mret Returned
    else routed r).
Proof.
  do 2 (apply good_bind; [by apply good_SetHeader|intros _]).
  apply good_bind; [by apply good_AddHeader|intros _].
  apply good_if; [|apply (good_routed allow_origin)].
  do 3 (apply good_bind; [by apply good_SetHeader|intros _]).
  do 2 (apply good_bind; [by apply good_AddHeader|intros _]).
  apply good_bind; [apply good_WriteHeader|intros _; apply good_ret].
Qed.

Lemma CORS_visible r c :
  wr_sent (cn_writer c) = None → wr_header (cn_writer c) !! allow_origin = None →
  visible allow_origin (cn_writer (CORS (CORS_ cfg) routed r c).2) = granted r.
Proof.
  intros Hs Hh. unfold CORS, granted. cbv zeta. destruct (_ && _).
  - pose proof (CORS_rest r (if cors_MaxAge (CORS_ cfg) <=? 0 then defaultCORSMaxAge else cors_MaxAge (CORS_ cfg))
      (SetHeader allow_origin (Get r "Origin") c).2) as Hg.
    apply visible_extends in Hg; [|done]. simpl in Hg. rewrite lookup_insert_eq in Hg. exact Hg.
  - by rewrite (visible_extends _ _ _ _ (good_routed allow_origin r c)).
Qed.

Lemma guarded_visible r c :
  wr_sent (cn_writer c) = None → wr_header (cn_writer c) !! allow_origin = None →
  visible allow_origin (cn_writer (guarded r c).2) = granted r.
Proof.
  intros Hs Hh. unfold guarded.
  rewrite Recoverer_calm by (apply calm_when; [intros; by apply calm_CORS|apply calm_routed]). cbn [snd].
  unfold when. simpl CORS_. case_bool_decide as Ho; [by apply CORS_visible|]. unfold id, granted, allowed_origins.
  change (CORS_ (withDefaults cfg)) with (CORS_ cfg) in Ho. rewrite Ho. simpl. rewrite andb_false_r.
  pose proof (good_routed allow_origin r c) as Hg. by rewrite (visible_extends _ _ _ _ Hg).
Qed.

(** C21: a response lets a browser show it to another origin only if that origin
    is on the list, exactly, and then names that origin and no other; an origin
    off the list, or a list that is empty, gets no such header from any route,
    error or preflight. *)
Theorem cross_origin_exact r w lim ls :
  let '(e, c') := serve r (opened w lim ls) in
  ∃ hd body, received e (cn_writer c') = Some (hd, body) ∧ hd_header hd !! allow_origin = granted r.
Proof.
  rewrite serve_run. set (r' := with_request_id r (chosen_id r w)). set (b := behind_log r w lim ls).
  set (c2 := (inner _ _).2). rewrite log_at_writer.
  pose proof (good_inner RequestIDHeader r' b) as He. fold c2 in He.
  destruct (received_recorded (cn_writer c2)) as (hd & -> & _ & _ & Hk); [by apply (ext_recorded _ _ _ _ He)|].
  exists hd, (wr_body (cn_writer c2)). split; [done|]. rewrite Hk. change (granted r) with (granted r'). unfold c2, inner.
  fold guarded. destruct (Metrics_ _); cbn [when]; [|by apply guarded_visible].
  rewrite (Metrics_run guarded r' b calm_guarded). by apply guarded_visible.
Qed.
End Serving.
