(* ===== verification/Routes.v ===== *)
(** * What each route does

    The routes of the table, through all their layers: which handler serves a
    request, with what identity and deadline, and when a layer answers in its
    place. *)

From Stdlib Require Import Ascii.
From S2P Require Import Prelude GoStd Strconv Network Slog Logger Domain Database WebhookRepo SubscriptionRepo.
From S2P Require Import StripeClient Ports WebhookService Auth AuthService Services RateLimit JsonText.
From S2P Require Import Http Handlers Middleware MiddlewareLaws Router Serving.
Open Scope Z_scope.

(** The bcrypt comparisons a run has spent. *)
Definition is_bcrypt (m : Metric) : bool := match m with BcryptCompare _ => true | _ => false end.
Definition hashed (w : World) : list Metric := filter (λ m, is_bcrypt m = true) (w_metrics w).

Section Routes.
Context `{GoUnicode, RateLib, ChiLib, AuthLib, StripeSDK}.
Context `{UserRepository, SubscriptionRepository, WebhookRepository, RefreshTokenRepository, healthProbe}.
Context (site : string → option (string * Z)) (log : contextHandler) (rand_Read16 : N → string + string).
Context (stripe : StripeHandler) (auth : AuthHandler) (health : HealthHandler) (cfg : RouterConfig).

#[local] Abbreviation serve := (NewRouter site log rand_Read16 stripe auth health cfg).
#[local] Abbreviation routed := (routed site log stripe auth health cfg).
#[local] Abbreviation guarded := (guarded site log stripe auth health cfg).
#[local] Abbreviation routes := (table site log stripe auth health (withDefaults cfg)).

(** ** Into the router *)

(** Nothing is sent yet, and of the process only draws and counters have moved. *)
Record entered (w : World) (lim : RateLimiter) (c : Conn) : Prop := mkEntered {
  en_db : w_db (cn_world c) = w_db w;
  en_now : w_now (cn_world c) = w_now w;
  en_ctx : w_ctx (cn_world c) = w_ctx w;
  en_script : w_script (cn_world c) = w_script w;
  en_hashed : hashed (cn_world c) = hashed w;
  en_limiter : cn_limiter c = lim;
  en_sent : wr_sent (cn_writer c) = None;
  en_body : wr_body (cn_writer c) = "";
  en_cookies : wr_cookies (cn_writer c) = [];
  en_recorded : recorded (cn_writer c);
}.

(** What is left when the layers outside are done with what they were given. *)
Record left_as (c c' : Conn) : Prop := mkLeft {
  la_writer : cn_writer c' = cn_writer c;
  la_limiter : cn_limiter c' = cn_limiter c;
  la_db : w_db (cn_world c') = w_db (cn_world c);
  la_hashed : hashed (cn_world c') = hashed (cn_world c);
}.

#[local] Instance left_as_preorder : PreOrder left_as.
Proof. split; [by intros c|]. intros c1 c2 c3 [] []. split; congruence. Qed.

Lemma entered_behind_log r w lim ls : entered w lim (behind_log rand_Read16 r w lim ls).
Proof. unfold behind_log, with_id. destruct (acceptable_id _); by split. Qed.

Lemma entered_in_flight w lim c :
  entered w lim c → entered w lim (wrapWriter (set_world (add_metric IncInFlight (cn_world c)) c)).2.
Proof.
  destruct c as [cw cl cls crt [h cs s b [rec|]]]; intros []; simpl in *; [|done]. by split.
Qed.

(** A change of the headers keeps it. *)
Lemma entered_header w lim c h :
  entered w lim c →
  entered w lim (set_writer (mkWriter h (wr_cookies (cn_writer c)) (wr_sent (cn_writer c))
    (wr_body (cn_writer c)) (wr_rec (cn_writer c))) c).
Proof. intros []. by split. Qed.

Lemma entered_CORS w lim next r c :
  Method r ≠ "OPTIONS" → entered w lim c →
  ∃ c1, entered w lim c1 ∧ CORS (CORS_ cfg) next r c = next r c1.
Proof.
  intros Hm He. unfold CORS. cbv zeta. destruct (_ && _); [|by exists c].
  rewrite bool_decide_eq_false_2 by done. eexists. split; [|reflexivity]. by do 4 apply entered_header.
Qed.

(** A request that is not a preflight reaches the routes. *)
Lemma serve_routed r w lim ls :
  Method r ≠ "OPTIONS" →
  let r' := with_request_id r (chosen_id rand_Read16 r w) in
  ∃ c1 c', entered w lim c1 ∧ serve r (opened w lim ls) = (Returned, c') ∧ left_as (routed r' c1).2 c'.
Proof.
  intros Hm r'.
  assert (∀ c, entered w lim c → ∃ c1, entered w lim c1 ∧ (guarded r' c).2 = (routed r' c1).2) as Hg.
  { intros c He. unfold Serving.guarded. rewrite Recoverer_calm.
    - cbn [snd]. unfold when. case_bool_decide; [|by exists c].
      destruct (entered_CORS w lim routed r' c) as (c1 & He1 & Hc); [done|done|].
      exists c1. split; [done|]. exact (f_equal snd Hc).
    - apply calm_when; [intros; by apply calm_CORS|apply calm_routed]. }
  rewrite serve_run. set (b := behind_log _ _ _ _ _).
  assert (entered w lim b) as Hb by apply entered_behind_log.
  assert (∃ c1, entered w lim c1 ∧ left_as (routed r' c1).2 (inner site log stripe auth health cfg r' b).2)
    as (c1 & Hc1 & Hl).
  { unfold inner. fold (Serving.guarded site log stripe auth health cfg). destruct (Metrics_ _); cbn [when].
    - destruct (Hg _ (entered_in_flight _ _ _ Hb)) as (c1 & Hc1 & Heq). exists c1. split; [done|].
      rewrite Metrics_run by apply calm_guarded. rewrite Heq. by split.
    - destruct (Hg _ Hb) as (c1 & Hc1 & Heq). exists c1. split; [done|]. unfold id. by rewrite Heq. }
  eexists c1, _. split; [done|]. split; [reflexivity|]. etrans; [exact Hl|].
  unfold log_at, modify. cbn [snd]. destruct (Log _ _ _); by split.
Qed.

(** ** To a route *)

Lemma endpoints_eq : fst <$> routes = [
  ("GET", "/livez"); ("GET", "/healthz"); ("POST", "/webhook");
  ("POST", "/api/v1/auth/register"); ("POST", "/api/v1/auth/login"); ("POST", "/api/v1/auth/refresh");
  ("POST", "/api/v1/auth/logout"); ("GET", "/api/v1/auth/me"); ("POST", "/api/v1/checkout");
  ("POST", "/api/v1/portal"); ("GET", "/api/v1/subscription")].
Proof. reflexivity. Qed.

Lemma routed_at m p h r c :
  (m, p, h) ∈ routes → Method r = m → route_path r = p → routed r c = h r (set_route p c).2.
Proof.
  intros Hin Hm Hp. unfold Serving.routed, routeHTTP, endpoints.
  assert ((m, p) ∈ fst <$> routes) as Hep by (apply list_elem_of_fmap; by exists (m, p, h)).
  rewrite Hm, Hp, chi_found; [|done|].
  - destruct (list_find (λ e, e.1 = (m, p)) routes) as [[i e]|] eqn:Hf.
    + apply list_find_Some in Hf as (Hi & He & _). destruct e as [mp h']. simpl in He. subst mp.
      apply list_elem_of_lookup in Hin as [j Hj].
      assert (NoDup (fst <$> routes)) as Hnd by (rewrite endpoints_eq; by apply (bool_decide_unpack (NoDup _))).
      assert (i = j) as ->.
      { apply (NoDup_lookup (fst <$> routes) i j (m, p)); [done|rewrite list_lookup_fmap..].
        - exact (f_equal (fmap fst) Hi).
        - exact (f_equal (fmap fst) Hj). }
      pose proof (eq_trans (eq_sym Hi) Hj) as [= ->]. done.
    + apply list_find_None in Hf. by apply (proj1 (Forall_forall _ _) Hf) in Hin.
  - apply Forall_forall. intros x. rewrite endpoints_eq. revert x. apply Forall_forall.
    repeat constructor.
Qed.

(** ** Out of a handler *)

(** Statuses that have no body. *)
Definition bodyless (code : Z) : bool := (100 <=? code) && (code <=? 199) || (code =? 204) || (code =? 304).

(** What a client gets for a response: its status, cookies and text. *)
Definition replies (resp : Response) (hd : Head) (body : string) : Prop :=
  hd_status hd = status resp ∧ hd_cookies hd = set_cookies resp ∧
  body = (if bodyless (status resp) then "" else body_text (payload resp)) ∧
  (no_store resp = true → hd_header hd !! "Cache-Control" = Some ["no-store"]).

(** And for an error of a layer. *)
Definition refuses (code : Z) (message : string) (hd : Head) (body : string) : Prop :=
  hd_status hd = code ∧ hd_cookies hd = [] ∧ body = error_envelope message ∧
  hd_header hd !! "Cache-Control" = Some ["no-store"].

Definition answers (A : Head → string → Prop) (e : Ended) (w : Writer) : Prop :=
  ∃ hd body, received e w = Some (hd, body) ∧ A hd body.

(** A run that has answered, on a connection nothing was sent on. *)
Record ran (A : Head → string → Prop) (w : World) (lim : RateLimiter) (ec : Ended * Conn) : Prop := mkRan {
  ran_end : ec.1 = Returned;
  ran_answers : answers A Returned (cn_writer ec.2);
  ran_sent : is_Some (wr_sent (cn_writer ec.2));
  ran_recorded : recorded (cn_writer ec.2);
  ran_world : cn_world ec.2 = w;
  ran_limiter : cn_limiter ec.2 = lim;
}.

Lemma set_cookies_run cs c :
  (foreach SetCookie cs c).2 =
    set_writer (mkWriter (wr_header (cn_writer c)) (wr_cookies (cn_writer c) ++ cs) (wr_sent (cn_writer c))
      (wr_body (cn_writer c)) (wr_rec (cn_writer c))) c.
Proof.
  revert c. induction cs as [|k cs IH]; intros c.
  - simpl. rewrite app_nil_r. by destruct c as [? ? ? ? []].
  - cbn [foreach]. unfold mbind, M_bind. destruct (SetCookie k c) as [[] c1] eqn:Hk.
    specialize (IH c1). destruct (foreach SetCookie cs c1) as [us c2]. simpl in IH |- *. rewrite IH.
    injection Hk as <-. simpl. by rewrite <- app_assoc.
Qed.

Lemma handle_run f r w lim c :
  entered w lim c → let '(resp, w') := f r (cn_world c) in ran (replies resp) w' lim (handle f r c).
Proof.
  intros He. unfold handle, mbind, M_bind, on_world. destruct (f r (cn_world c)) as [resp w'].
  destruct c as [cw cl cls crt [h cs snt b rec]]. destruct He as [_ _ _ _ _ Hl Hs Hb Hc Hr].
  simpl in *. subst snt b cs cl. destruct rec as [[st n wh]|]; [|done]. destruct Hr as [Hn [Hw _]]. simpl in *. subst wh n.
  unfold respond, mbind, M_bind. set (c1 := set_world _ _).
  pose proof (set_cookies_run (set_cookies resp) c1) as Hk. destruct (foreach _ _ c1) as [us c2]. simpl in Hk. subst c2.
  unfold SetHeader, WriteHeader, Write, on_writer, modify, mret, M_ret, write, write_header, send, body_allowed. simpl.
  destruct (no_store resp) eqn:Hns; simpl; destruct (payload_json (payload resp)) as [j|] eqn:Hp; simpl;
    fold (bodyless (status resp)); destruct (bodyless (status resp)) eqn:Hbl; simpl;
    (split; simpl; [done| |by eexists|unfold recorded; by split_and!|done..]);
    unfold answers, received, replies, body_text; simpl; rewrite Hbl, ?Hp, ?Hns;
    eexists _, _; (split; [reflexivity|]); split_and!; try done; intros Hns'; first [congruence|apply lookup_insert_eq].
Qed.

Lemma writeJSONError_run code msg w lim c :
  entered w lim c → bodyless code = false →
  ran (λ hd body, refuses code msg hd body ∧
         ∀ k, k ∉ ["Content-Type"; "Cache-Control"] → hd_header hd !! k = wr_header (cn_writer c) !! k)
    (cn_world c) lim (Returned, (writeJSONError code msg c).2).
Proof.
  intros He Hbl. destruct c as [cw cl cls crt [h cs snt b rec]]. destruct He as [_ _ _ _ _ Hl Hs Hb Hc Hr].
  simpl in *. subst snt b cs cl. destruct rec as [[st n wh]|]; [|done]. destruct Hr as [Hn [Hw _]]. simpl in *. subst wh n.
  unfold writeJSONError, SetHeader, WriteHeader, Write, on_writer, modify, mbind, M_bind, write, write_header, send,
    body_allowed. simpl. fold (bodyless code). rewrite Hbl. simpl.
  split; simpl; [done| |by eexists|unfold recorded; by split_and!|done..].
  unfold answers, received, refuses. simpl. eexists _, _. split; [reflexivity|]. split_and!; try done.
  - apply lookup_insert_eq.
  - intros k Hk. rewrite !not_elem_of_cons in Hk. cbn [hd_header default wr_header]. by rewrite !lookup_insert_ne by intuition congruence.
Qed.

Lemma ran_impl (A B : Head → string → Prop) w lim ec :
  (∀ hd body, A hd body → B hd body) → ran A w lim ec → ran B w lim ec.
Proof. intros HAB [He (hd & body & Hr & HA) Hs Hrec Hw Hl]. split; try done. exists hd, body. auto. Qed.

Lemma Timeout_run A d next r w lim c lim' w' :
  entered w lim c →
  let c1 := set_world (set_ctx (Some (earlier (w_ctx w) (w_now w + d))) (cn_world c)) c in
  ran A w' lim' (next r c1) → ran A (set_ctx (w_ctx w) w') lim' (Timeout site log d next r c).
Proof.
  intros He c1 Hr. unfold Timeout, mbind, M_bind, gets, on_world, modify, mret, M_ret. cbv zeta beta iota.
  rewrite (en_now _ _ _ He), (en_ctx _ _ _ He).
  assert ((wrapWriter (set_world (set_ctx (Some (earlier (w_ctx w) (w_now w + d))) (cn_world c)) c)) = (tt, c1)) as Hw.
  { unfold c1. destruct He as [_ _ _ _ _ _ _ _ _ Hrec]. destruct c as [cw cl cls crt [h cs s b [rec|]]]; done. }
  rewrite Hw. destruct (next r c1) as [e c2]. destruct Hr as [He' Ha [hd Hs] Hrec Hwd Hl].
  simpl in He', Ha, Hs, Hrec, Hwd, Hl. subst e. cbv beta iota.
  assert (rc_wroteHeader (recorder (cn_writer c2)) = true) as Hwh.
  { unfold recorded in Hrec. unfold recorder. rewrite Hs in Hrec. destruct (wr_rec _); [|done]. simpl. tauto. }
  rewrite Hwh. simpl. split; simpl; [done|done|by eexists|done|by rewrite Hwd|done].
Qed.

(** ** From request to answer *)

(** What the client gets, and what is left of the process, satisfy [Q]. *)
Definition served (r : Request) (w : World) (lim : RateLimiter) (ls : list (list Leaf))
    (Q : Head → string → Tables → list Metric → RateLimiter → Prop) : Prop :=
  let '(e, c') := serve r (opened w lim ls) in
  ∃ hd body, received e (cn_writer c') = Some (hd, body) ∧
    Q hd body (w_db (cn_world c')) (hashed (cn_world c')) (cn_limiter c').

(** The answer is the handler's, run on a request and a state. *)
Definition by_handler (f : Request → M World Response) (r : Request) (w : World)
    (hd : Head) (body : string) (db : Tables) (hs : list Metric) : Prop :=
  let '(resp, w') := f r w in replies resp hd body ∧ db = w_db w' ∧ hs = hashed w'.

(** The state a handler starts from: the tables, the time and what is to come
    are those of the request; its context ends with the caller's, or at the
    deadline of its group. *)
Record starts (w : World) (deadline : option Duration) (w1 : World) : Prop := {
  st_db : w_db w1 = w_db w;
  st_now : w_now w1 = w_now w;
  st_script : w_script w1 = w_script w;
  st_hashed : hashed w1 = hashed w;
  st_ctx : w_ctx w1 = match deadline with
                      | Some d => Some (earlier (w_ctx w) (w_now w + d))
                      | None => w_ctx w
                      end;
}.

Lemma served_at m p h r w lim ls Q :
  (m, p, h) ∈ routes → Method r = m → m ≠ "OPTIONS" → route_path r = p →
  (∀ c, entered w lim c →
    ∃ A w' lim', ran A w' lim' (h (with_request_id r (chosen_id rand_Read16 r w)) c) ∧
      ∀ hd body, A hd body → Q hd body (w_db w') (hashed w') lim') →
  served r w lim ls Q.
Proof.
  intros Hin Hm Ho Hp Hh. unfold served.
  destruct (serve_routed r w lim ls) as (c1 & c' & Hc1 & -> & Hl); [by rewrite Hm|].
  rewrite (routed_at m p h) in Hl by done.
  destruct (Hh (set_route p c1).2) as (A & w' & lim' & [He (hd & body & Hr & HA) Hs Hrec Hw Hlim] & HQ).
  { destruct Hc1. by split. }
  destruct Hl as [Hlw Hll Hld Hlh]. exists hd, body. rewrite Hlw, Hll, Hld, Hlh, Hlim, Hw. split; [done|by apply HQ].
Qed.

Lemma entered_starts w lim c d :
  entered w lim c →
  starts w d (match d with Some d => set_ctx (Some (earlier (w_ctx w) (w_now w + d))) (cn_world c)
                         | None => cn_world c end).
Proof. intros []. by destruct d; split. Qed.

Lemma entered_ctx w lim c x :
  entered w lim c → entered (set_ctx x w) lim (set_world (set_ctx x (cn_world c)) c).
Proof. intros []. by split. Qed.

(** A handler under its group's deadline. *)
Lemma group_run A d next r w lim c lim' w' :
  entered w lim c →
  (∀ c1, entered (set_ctx (Some (earlier (w_ctx w) (w_now w + d))) w) lim c1 →
     starts w (Some d) (cn_world c1) → cn_world c1 = set_ctx (Some (earlier (w_ctx w) (w_now w + d))) (cn_world c) →
     ran A w' lim' (next r c1)) →
  ran A (set_ctx (w_ctx w) w') lim' (Timeout site log d next r c).
Proof.
  intros He Hn. eapply Timeout_run; [done|]. apply Hn; [by apply entered_ctx| |done].
  exact (entered_starts w lim c (Some d) He).
Qed.

(** The routes anyone may call as often as they like. *)
Definition open_routes : list (string * string * option Duration * (Request → M World Response)) := [
  ("GET", "/livez", None, Live health);
  ("GET", "/healthz", None, Ready health);
  ("POST", "/webhook", Some (WebhookTimeout (withDefaults cfg)), HandleWebhook stripe);
  ("POST", "/api/v1/auth/logout", Some (APITimeout (withDefaults cfg)), HandleLogout auth)].

(** the probes, the webhook and logout are answered by their handlers and by
    nothing else: what the client gets and what happens to the tables is what
    the handler makes of the request, under the deadline of its group.  No rate
    limit is consulted, so Stripe is never throttled, and no token is asked
    for, so an expired session can be ended. *)
Theorem open_routes_served m p d f r w lim ls :
  (m, p, d, f) ∈ open_routes → Method r = m → route_path r = p →
  served r w lim ls (λ hd body db hs lim', lim' = lim ∧
    ∃ w1, starts w d w1 ∧
      by_handler f (with_request_id r (chosen_id rand_Read16 r w)) w1 hd body db hs).
Proof.
  intros Hin Hm Hp.
  assert (∃ h, (m, p, h) ∈ routes ∧ m ≠ "OPTIONS" ∧
    h = match d with Some d => Timeout site log d (handle f) | None => handle f end) as (h & Hh & Ho & ->).
  { unfold open_routes in Hin. rewrite !elem_of_cons in Hin.
    destruct Hin as [[= -> -> -> ->]|[[= -> -> -> ->]|[[= -> -> -> ->]|[[= -> -> -> ->]|[]%elem_of_nil]]]];
      (eexists; split_and!; [|done|reflexivity]); unfold table; repeat (apply list_elem_of_here || apply list_elem_of_further). }
  eapply served_at; [exact Hh|done|done|done|]. intros c He. set (r' := with_request_id _ _).
  destruct d as [d|].
  - destruct (f r' (set_ctx (Some (earlier (w_ctx w) (w_now w + d))) (cn_world c))) as [resp w'] eqn:Hf.
    eexists _, _, lim. split.
    + eapply (group_run (replies resp) d (handle f) r' w lim c lim w'); [done|]. intros c1 He1 _ Hw1.
      pose proof (handle_run f r' _ lim c1 He1) as Hr. by rewrite Hw1, Hf in Hr.
    + intros hd body Hrep. split; [done|]. eexists. split; [exact (entered_starts w lim c (Some d) He)|].
      unfold by_handler. by rewrite Hf.
  - pose proof (handle_run f r' w lim c He) as Hr. destruct (f r' (cn_world c)) as [resp w'] eqn:Hf.
    eexists _, _, lim. split; [exact Hr|]. intros hd body Hrep. split; [done|].
    exists (cn_world c). split; [exact (entered_starts w lim c None He)|]. unfold by_handler. by rewrite Hf.
Qed.

(** The routes that need a token. *)
Definition protected : list (string * string * (Request → M World Response)) := [
  ("GET", "/api/v1/auth/me", HandleMe);
  ("POST", "/api/v1/checkout", HandleCheckout stripe);
  ("POST", "/api/v1/portal", HandlePortal stripe);
  ("GET", "/api/v1/subscription", HandleGetSubscription)].

(** The user a request's bearer token names, if it is valid now. *)
Definition subject (tokens : TokenService) (r : Request) (w : World) : option UUID :=
  match bearerToken r with
  | Some token => match (Parse tokens token w).1 with Ok (uid, _) => Some uid | Err _ => None end
  | None => None
  end.

Lemma Parse_now tokens token w w1 :
  w_now w1 = w_now w → Parse tokens token w1 = ((Parse tokens token w).1, w1).
Proof. intros Hn. unfold Parse. unfold_monad. by rewrite Hn. Qed.

Lemma unauthorized_run msg w lim c :
  entered w lim c →
  ran (refuses 401 msg) (cn_world c) lim (Returned, (unauthorized msg c).2).
Proof.
  intros He. unfold unauthorized, mbind, M_bind.
  destruct (SetHeader _ _ c) as [[] c1] eqn:Hs. injection Hs as <-.
  exact (ran_impl _ _ _ _ _ (λ _ _ HA, proj1 HA)
    (writeJSONError_run 401 msg w lim _ (entered_header w lim c _ He) eq_refl)).
Qed.

Lemma log_at_entered r level msg attrs w lim c : entered w lim c → entered w lim (log_at site log r level msg attrs c).2.
Proof. intros []. unfold log_at, modify. cbn [snd]. destruct (Log _ _ _); by split. Qed.

Lemma protected_at tokens m p f :
  Tokens cfg = Parse tokens → (m, p, f) ∈ protected →
  (m, p, Timeout site log (APITimeout (withDefaults cfg)) (RequireAuth site log (Parse tokens) (handle f))) ∈ routes ∧
  m ≠ "OPTIONS".
Proof.
  intros Htok Hin. rewrite <- Htok. unfold protected in Hin. rewrite !elem_of_cons in Hin.
  destruct Hin as [[= -> -> ->]|[[= -> -> ->]|[[= -> -> ->]|[[= -> -> ->]|[]%elem_of_nil]]]];
    (split; [|done]); unfold table; repeat (apply list_elem_of_here || apply list_elem_of_further).
Qed.

(** Behind a token that parses now, the handler runs as its subject. *)
Lemma authorised_served tokens m p f r w lim ls token uid cl :
  Tokens cfg = Parse tokens →
  (m, p, f) ∈ protected → Method r = m → route_path r = p →
  bearerToken r = Some token → (Parse tokens token w).1 = Ok (uid, cl) →
  served r w lim ls (λ hd body db hs lim', lim' = lim ∧
    ∃ r1 w1, ctx_user r1 = Some uid ∧ RequestBody r1 = RequestBody r ∧ Header r1 = Header r ∧
      starts w (Some (APITimeout (withDefaults cfg))) w1 ∧ by_handler f r1 w1 hd body db hs).
Proof.
  intros Htok Hin Hm Hp Hb Hpt. set (d := APITimeout (withDefaults cfg)).
  destruct (protected_at _ _ _ _ Htok Hin) as [Hh Ho].
  eapply served_at; [exact Hh|done|done|done|]. intros c He. set (r' := with_request_id _ _).
  set (w0 := set_ctx (Some (earlier (w_ctx w) (w_now w + d))) (cn_world c)).
  assert (w_now w0 = w_now w) as Hn0 by apply He. change (bearerToken r) with (bearerToken r') in Hb.
  set (r1 := with_token (WithUserID r' uid) (Claims.ID cl)).
  destruct (f r1 w0) as [resp w'] eqn:Hf. eexists _, _, lim. split.
  - eapply (group_run (replies resp) d _ r' w lim c lim w'); [done|]. intros c1 He1 _ Hw1.
    unfold RequireAuth. rewrite Hb. unfold mbind, M_bind, on_world. rewrite Hw1. fold w0.
    rewrite (Parse_now tokens token w), Hpt by done. fold r1.
    assert (set_world w0 c1 = c1) as -> by (transitivity (set_world (cn_world c1) c1); [by rewrite Hw1|by destruct c1]).
    pose proof (handle_run f r1 _ lim c1 He1) as Hr. rewrite Hw1 in Hr. fold w0 in Hr. by rewrite Hf in Hr.
  - intros hd body Hrep. split; [done|]. exists r1, w0.
    assert (ctx_user r1 = Some uid ∧ RequestBody r1 = RequestBody r ∧ Header r1 = Header r) as (? & ? & ?).
    { unfold r1, with_token. by case_bool_decide. }
    split_and!; try done; [exact (entered_starts w lim c (Some d) He)|].
    unfold by_handler. by rewrite Hf.
Qed.

(** And without one, 401 whatever the reason. *)
Lemma unauthorised_served tokens m p f r w lim ls :
  Tokens cfg = Parse tokens →
  (m, p, f) ∈ protected → Method r = m → route_path r = p → subject tokens r w = None →
  served r w lim ls (λ hd body db hs lim', lim' = lim ∧
    (∃ msg, refuses 401 msg hd body) ∧ db = w_db w ∧ hs = hashed w).
Proof.
  intros Htok Hin Hm Hp Hsub. set (d := APITimeout (withDefaults cfg)).
  destruct (protected_at _ _ _ _ Htok Hin) as [Hh Ho].
  eapply served_at; [exact Hh|done|done|done|]. intros c He. set (r' := with_request_id _ _).
  set (w0 := set_ctx (Some (earlier (w_ctx w) (w_now w + d))) (cn_world c)).
  assert (w_now w0 = w_now w) as Hn0 by apply He.
  unfold subject in Hsub. change (bearerToken r) with (bearerToken r') in Hsub.
  destruct (bearerToken r') as [token|] eqn:Hb; [destruct (Parse tokens token w).1 as [[uid cl]|err] eqn:Hpt; [done|]|];
    [exists (refuses 401 "invalid or expired token")|exists (refuses 401 "missing bearer token")];
    exists (set_ctx (w_ctx w) w0), lim;
    (split; [|intros hd body Hrep; split_and!; [done|by eexists|apply He|exact (en_hashed _ _ _ He)]]).
  - eapply (group_run (refuses 401 "invalid or expired token") d _ r' w lim c lim w0); [done|]. intros c1 He1 _ Hw1.
    unfold RequireAuth. rewrite Hb. unfold mbind, M_bind, on_world. rewrite Hw1. fold w0.
    rewrite (Parse_now tokens token w), Hpt by done.
    assert (set_world w0 c1 = c1) as -> by (transitivity (set_world (cn_world c1) c1); [by rewrite Hw1|by destruct c1]).
    set (attrs := [_; _; _]). pose proof (log_at_entered r' LevelDebug "token rejected" attrs _ _ _ He1) as He2.
    pose proof (log_at_world site log r' LevelDebug "token rejected" attrs c1) as Hw2.
    destruct (log_at _ _ _ _ _ _ c1) as [[] c2]. cbn [snd] in He2, Hw2.
    assert (w0 = cn_world c2) as -> by (by rewrite Hw2, Hw1).
    pose proof (unauthorized_run "invalid or expired token" _ _ _ He2) as Hr.
    by destruct (unauthorized _ c2) as [[] c3].
  - eapply (group_run (refuses 401 "missing bearer token") d _ r' w lim c lim w0); [done|]. intros c1 He1 _ Hw1.
    unfold RequireAuth. rewrite Hb. unfold mbind, M_bind. assert (w0 = cn_world c1) as -> by done.
    pose proof (unauthorized_run "missing bearer token" _ _ _ He1) as Hr.
    by destruct (unauthorized _ c1) as [[] c3].
Qed.

(** C9: authentication is complete.  On each of these routes a request without a
    valid bearer token is answered 401 with nothing read or changed in the
    tables, and a request with one is answered by the handler, which sees the
    token's subject as the user whatever else the request says, the same body
    and the same headers. *)
Theorem protected_routes tokens m p f r w lim ls :
  Tokens cfg = Parse tokens →
  (m, p, f) ∈ protected → Method r = m → route_path r = p →
  served r w lim ls (λ hd body db hs lim', lim' = lim ∧
    match subject tokens r w with
    | None => (∃ msg, refuses 401 msg hd body) ∧ db = w_db w ∧ hs = hashed w
    | Some uid =>
      ∃ r1 w1, ctx_user r1 = Some uid ∧ RequestBody r1 = RequestBody r ∧ Header r1 = Header r ∧
        starts w (Some (APITimeout (withDefaults cfg))) w1 ∧ by_handler f r1 w1 hd body db hs
    end).
Proof.
  intros Htok Hin Hm Hp. destruct (subject tokens r w) as [uid|] eqn:Hs; [|by apply (unauthorised_served tokens m p f)].
  unfold subject in Hs. destruct (bearerToken r) as [token|] eqn:Hb; [|done].
  destruct (Parse tokens token w).1 as [[uid' cl]|err] eqn:Hpt; [|done]. injection Hs as ->.
  by apply (authorised_served tokens m p f r w lim ls token uid cl).
Qed.

(** The routes that check a credential, or renew one. *)
Definition credential_routes : list (string * string * (Request → M World Response)) := [
  ("POST", "/api/v1/auth/register", HandleRegister auth);
  ("POST", "/api/v1/auth/login", HandleLogin auth);
  ("POST", "/api/v1/auth/refresh", HandleRefresh auth)].

Lemma entered_limiter w lim c lim' :
  entered w lim c →
  entered w lim' (mkConn (cn_world c) lim' (cn_lines c) (cn_route c) (cn_writer c)).
Proof. intros []. by split. Qed.

(** C14: every attempt on a credential is metered.  When the limiter admits the
    client the answer is the handler's; when it does not the answer is 429 with
    a [Retry-After] of at least one second, and no password is hashed or
    compared and no table is read or changed.  The client is told apart by
    nothing but the address the configured proxies vouch for. *)
Theorem credential_routes_metered m p f r w lim ls :
  AuthRateLimit cfg = true →
  (m, p, f) ∈ credential_routes → Method r = m → route_path r = p →
  served r w lim ls (λ hd body db hs lim',
    let '((allowed, retry), lim1) := allow (ClientKeyFunc (TrustedProxies cfg) (peer r)) (w_now w) lim in
    lim' = lim1 ∧
    if allowed
    then ∃ w1, starts w (Some (APITimeout (withDefaults cfg))) w1 ∧
           by_handler f (with_request_id r (chosen_id rand_Read16 r w)) w1 hd body db hs
    else refuses 429 "too many requests, please slow down" hd body ∧
         hd_header hd !! "Retry-After" = Some [Itoa (retry_seconds retry)] ∧ 1 ≤ retry_seconds retry ∧
         db = w_db w ∧ hs = hashed w).
Proof.
  intros Hlim Hin Hm Hp. set (d := APITimeout (withDefaults cfg)).
  assert ((m, p, Timeout site log d (RateLimit site log (TrustedProxies cfg) (handle f))) ∈ routes ∧ m ≠ "OPTIONS")
    as [Hh Ho].
  { unfold table, credential_group, when, withDefaults. cbn [AuthRateLimit TrustedProxies]. rewrite Hlim.
    unfold credential_routes in Hin. rewrite !elem_of_cons in Hin.
    destruct Hin as [[= -> -> ->]|[[= -> -> ->]|[[= -> -> ->]|[]%elem_of_nil]]];
      (split; [|done]); repeat (apply list_elem_of_here || apply list_elem_of_further). }
  eapply served_at; [exact Hh|done|done|done|]. intros c He. set (r' := with_request_id _ _).
  set (w0 := set_ctx (Some (earlier (w_ctx w) (w_now w + d))) (cn_world c)).
  change (peer r) with (peer r'). set (key := ClientKeyFunc (TrustedProxies cfg) (peer r')).
  destruct (allow key (w_now w) lim) as [[allowed retry] lim1] eqn:Hal.
  assert (∀ c1, entered (set_ctx (Some (earlier (w_ctx w) (w_now w + d))) w) lim c1 →
    on_limiter (allow key (w_now (cn_world c1))) c1 =
      ((allowed, retry), mkConn (cn_world c1) lim1 (cn_lines c1) (cn_route c1) (cn_writer c1))) as Hallow.
  { intros c1 He1. unfold on_limiter. rewrite (en_limiter _ _ _ He1), (en_now _ _ _ He1). simpl. by rewrite Hal. }
  destruct allowed.
  - destruct (f r' w0) as [resp w'] eqn:Hf. eexists _, _, lim1. split.
    + eapply (group_run (replies resp) d _ r' w lim c lim1 w'); [done|]. intros c1 He1 _ Hw1.
      unfold RateLimit, mbind, M_bind, gets. cbv zeta. fold key. rewrite Hallow by done.
      pose proof (handle_run f r' _ lim1 _ (entered_limiter _ _ _ lim1 He1)) as Hr. cbn [cn_world] in Hr.
      assert (f r' (cn_world c1) = (resp, w')) as Hf1 by (rewrite Hw1; exact Hf). rewrite Hf1 in Hr. exact Hr.
    + intros hd body Hrep. split; [done|]. exists w0. split; [exact (entered_starts w lim c (Some d) He)|].
      unfold by_handler. by rewrite Hf.
  - eexists (λ hd body, refuses 429 "too many requests, please slow down" hd body ∧
      hd_header hd !! "Retry-After" = Some [Itoa (retry_seconds retry)]), _, lim1. split.
    + eapply (group_run _ d _ r' w lim c lim1 w0); [done|]. intros c1 He1 _ Hw1.
      unfold RateLimit, mbind, M_bind, gets. cbv zeta. fold key. rewrite Hallow by done.
      set (c2 := mkConn _ _ _ _ _). destruct (SetHeader "Retry-After" _ c2) as [[] c3] eqn:Hs. injection Hs as <-.
      match goal with |- context [log_at _ _ _ _ _ ?a ?c] => set (attrs := a); set (c3 := c) end.
      assert (entered (set_ctx (Some (earlier (w_ctx w) (w_now w + d))) w) lim1 c3) as He3
        by exact (entered_header _ _ c2 _ (entered_limiter _ lim c1 lim1 He1)).
      pose proof (log_at_entered r' LevelWarn "rate limit exceeded" attrs _ _ _ He3) as He4.
      pose proof (log_at_world site log r' LevelWarn "rate limit exceeded" attrs c3) as Hw4.
      pose proof (log_at_writer site log r' LevelWarn "rate limit exceeded" attrs c3) as Hh4.
      destruct (log_at _ _ _ _ _ _ c3) as [[] c4]. cbn [snd] in He4, Hw4, Hh4.
      assert (w0 = cn_world c4) as -> by (rewrite Hw4; exact (eq_sym Hw1)).
      pose proof (writeJSONError_run 429 "too many requests, please slow down" _ _ _ He4 eq_refl) as Hr.
      destruct (writeJSONError _ _ c4) as [[] c5]. eapply ran_impl; [|exact Hr].
      intros hd body [Href Hk]. split; [done|]. rewrite Hk by by apply (bool_decide_unpack (_ ∉ _)).
      rewrite Hh4. apply lookup_insert_eq.
    + intros hd body [Href Hra]. split; [done|]. split; [done|]. split; [done|].
      split; [unfold retry_seconds; destruct (Z.ltb_spec (float_ceil (Seconds retry)) 1); lia|].
      split; [apply He|exact (en_hashed _ _ _ He)].
Qed.

(** ** When a handler panics *)

Lemma writeJSONError_sends code msg c :
  recorded (cn_writer c) → wr_sent (cn_writer c) = None → bodyless code = false →
  let c' := (writeJSONError code msg c).2 in
  cn_lines c' = cn_lines c ∧ rc_status (recorder (cn_writer c')) = code ∧
  ∃ hd, received Returned (cn_writer c') = Some (hd, wr_body (cn_writer c) +:+ error_envelope msg) ∧ hd_status hd = code.
Proof.
  intros Hr Hs Hbl. destruct c as [cw cl cls crt [h cs snt b rec]]. simpl in *. subst snt.
  destruct rec as [[st n wh]|]; [|done]. destruct Hr as [Hn [Hw _]]. simpl in *. subst wh n.
  unfold writeJSONError, SetHeader, WriteHeader, Write, on_writer, modify, mbind, M_bind, write, write_header, send,
    body_allowed. simpl. fold (bodyless code). rewrite Hbl. simpl. split_and!; try done.
  eexists. split; [reflexivity|done].
Qed.

(** C34: a panic is an answer and two lines in the log, never a dropped request.
    Whatever well-behaved handler panics, before it has sent anything and with
    the client still there, the client gets a 500 that says nothing of the
    cause, the log gets the value that was panicked with, and the access log
    then shows the 500. *)
Theorem panic_answered key ps next r c h p c2 :
  (∀ r, Good key ps (next r)) → cn_writer c = mkWriter h [] None "" None →
  next r (wrapWriter c).2 = (Panicked p, c2) →
  pn_abort p = false → ctx_done (cn_world c2) = false → wr_sent (cn_writer c2) = None →
  let '(e, c') := AccessLog site log (Recoverer site log next) r c in
  ∃ hd body panic_line line, received e (cn_writer c') = Some (hd, body) ∧ hd_status hd = 500 ∧
    body = wr_body (cn_writer c2) +:+ error_envelope "internal server error" ∧
    cn_lines c' = cn_lines c2 ++ [panic_line; line] ∧
    (sl_groups (Logger.Handler log), ("panic", VString (pn_value p))) ∈ panic_line ∧
    (sl_groups (Logger.Handler log), ("status", VInt 500)) ∈ line.
Proof.
  intros Hg Hw Hn Ha Hctx Hs.
  assert (recorded (cn_writer c2)) as Hrec.
  { pose proof (Hg r (wrapWriter c).2) as He. rewrite Hn in He. apply (ext_recorded _ _ _ _ He).
    apply wrapWriter_recorded; by rewrite Hw. }
  unfold AccessLog, Recoverer, mbind, M_bind, gets. cbv beta iota zeta.
  destruct (wrapWriter c) as [[] c1] eqn:Hwr. cbn [snd] in Hn. rewrite Hn, Ha, Hctx. cbv beta iota zeta.
  assert (∀ l msg attrs (c : Conn), Level_val (sl_level (Logger.Handler log)) ≤ Level_val l →
    ∃ line, cn_lines (log_at site log r l msg attrs c).2 = cn_lines c ++ [line] ∧
      Log log (ctx_request_id r) (mkLogRecord (w_now (cn_world c)) l msg (site msg) attrs) = Some line) as Hlog.
  { intros l msg attrs c0 Hl. unfold log_at, modify. cbn [snd].
    destruct (Log log (ctx_request_id r) _) as [line|] eqn:HL; [by exists line|].
    unfold Log in HL. cbn [rec_level] in HL. destruct (Z.ltb_spec (Level_val l) (Level_val (sl_level (Logger.Handler log)))); [lia|done]. }
  assert (Level_val (sl_level (Logger.Handler log)) ≤ Level_val LevelError) as Hle
    by (destruct (sl_level _); simpl; lia).
  set (pattrs := [("panic", _); _; _; _]).
  destruct (Hlog LevelError "panic recovered" pattrs c2 Hle) as (pl & Hpl & HLp).
  pose proof (log_at_writer site log r LevelError "panic recovered" pattrs c2) as Hwp.
  destruct (log_at _ _ _ _ _ pattrs c2) as [[] c3]. cbn [snd] in Hpl, Hwp.
  destruct (writeJSONError_sends 500 "internal server error" c3) as (Hl4 & Hst & hd & Hr & Hhd);
    [by rewrite Hwp|by rewrite Hwp|done|].
  destruct (writeJSONError _ _ c3) as [[] c4]. cbn [snd] in Hl4, Hst, Hr.
  unfold mret, M_ret. cbv beta iota zeta. rewrite Hst.
  match goal with |- context [log_at _ _ r _ _ ?a c4] => set (attrs := a) end.
  destruct (Hlog LevelError "request" attrs c4 Hle) as (line & Hline & HLl).
  change (access_level 500 (Path r)) with LevelError.
  pose proof (log_at_writer site log r LevelError "request" attrs c4) as Hw5.
  destruct (log_at _ _ _ _ _ attrs c4) as [[] c5]. cbn [snd] in Hline, Hw5.
  exists hd, (wr_body (cn_writer c2) +:+ error_envelope "internal server error"), pl, line.
  rewrite Hw5, Hr, Hwp. split_and!; try done.
  - by rewrite Hline, Hl4, Hpl, <- app_assoc.
  - eapply line_attr; [exact HLp|apply list_elem_of_here|done|by rewrite isSensitiveKey_ascii|by apply (bool_decide_unpack (_ ∉ _))].
  - eapply line_attr; [exact HLl| |done|by rewrite isSensitiveKey_ascii|by apply (bool_decide_unpack (_ ∉ _))].
    unfold attrs, access_attrs. rewrite Hst. apply list_elem_of_further, list_elem_of_further, list_elem_of_here.
Qed.
End Routes.
