(* ===== verification/EndToEnd.v ===== *)
(** * From the wire to the tables

    What holds of the whole service, with the PostgreSQL repositories behind
    it: a webhook delivery through the router's layers, its deadline included,
    down to the row of its event; what a request to a path the service does not
    have comes to; and a session, from the login to the routes its token opens. *)

From S2P Require Import Prelude GoStd Strconv Network Slog Logger Domain Database WebhookRepo SubscriptionRepo UserRepo.
From S2P Require Import RefreshTokenRepo Ledger StripeClient Ports WebhookService Processing Auth AuthService Services.
From S2P Require Import RateLimit JsonText Http Handlers Middleware MiddlewareLaws Router Serving Routes.
Open Scope Z_scope.

Section EndToEnd.
Context `{GoUnicode, Postgres, RateLib, ChiLib, AuthLib, StripeSDK, healthProbe}.
Context (site : string → option (string * Z)) (log : contextHandler) (rand_Read16 : N → string + string).
Context (stripe : StripeHandler) (auth : AuthHandler) (health : HealthHandler) (cfg : RouterConfig).
Context (stale : Duration).

#[local] Instance pool_users : UserRepository := UserRepo.
#[local] Instance pool_subs : SubscriptionRepository := SubscriptionRepo.
#[local] Instance pool_hooks : WebhookRepository := WebhookRepo_of stale.
#[local] Instance pool_tokens : RefreshTokenRepository := RefreshTokenRepo.

#[local] Abbreviation served := (served site log rand_Read16 stripe auth health cfg).
#[local] Abbreviation routes := (table site log stripe auth health (withDefaults cfg)).

(** The status of an event in the ledger. *)
Definition event_status (t : Tables) (id : string) : option WebhookStatus :=
  Row.status <$> processed_webhooks t !! id.


(** The paths of the service; none has a parameter. *)
Definition service_paths : list string := snd <$> (fst <$> routes).

Lemma routes_static m p h : (m, p, h) ∈ routes → static p.
Proof.
  intros Hin. assert ((m, p) ∈ fst <$> routes) as Hep by (apply list_elem_of_fmap; by exists (m, p, h)).
  rewrite endpoints_eq in Hep. revert Hep.
  assert (Forall (λ r, static r.2) (fst <$> routes)) as HF by (rewrite endpoints_eq; repeat constructor).
  rewrite endpoints_eq in HF. intros Hep. exact (proj1 (Forall_forall _ _) HF _ Hep).
Qed.

(** An answer of the router itself, in or outside the mounted group. *)
Lemma answer_run b code msg r w lim c :
  entered w lim c →
  ∃ w', ran (replies (writeError code msg [])) w' lim (when b (api_group site log (withDefaults cfg)) (answer code msg) r c) ∧
    w_db w' = w_db w ∧ hashed w' = hashed w.
Proof.
  intros He. set (f := (λ _, mret (writeError code msg [])) : Request → M World Response).
  change (answer code msg) with (handle f). destruct b; cbn [when].
  - unfold api_group. set (d := APITimeout (withDefaults cfg)).
    set (w0 := set_ctx (Some (earlier (w_ctx w) (w_now w + d))) (cn_world c)).
    exists (set_ctx (w_ctx w) w0). split; [|by destruct He].
    eapply group_run; [done|]. intros c1 He1 _ Hw1.
    pose proof (handle_run f r _ lim c1 He1) as Hr.
    unfold w0. rewrite <- Hw1. exact Hr.
  - exists (cn_world c). split; [|by destruct He].
    exact (handle_run f r w lim c He).
Qed.


(** *** Sessions *)

Context (svc : AuthService).

Lemma issue_issues user w res w1 :
  issue svc user w = (Ok res, w1) →
  (Issue (as_tokens svc) (User.ID user) (User.Email user) w).1 = Ok (AuthResult.Token res, AuthResult.ExpiresAt res) ∧
  AuthResult.User_ res = viewOf user ∧ w_now w ≤ w_now w1.
Proof.
  unfold issue. unfold_monad.
  assert (w_now (Issue (as_tokens svc) (User.ID user) (User.Email user) w).2 = w_now w) as Hn.
  { unfold Issue, draw. by unfold_monad. }
  destruct (Issue _ _ _ w) as [[[access expires]|e] wi]; [|done]. simpl in Hn |- *.
  unfold NewRefreshToken, draw. unfold_monad. simpl. destruct (rand_Read _); [|done].
  unfold tokens_CreateRefreshToken, pool_tokens, RefreshTokenRepo, CreateRefreshToken. unfold_monad.
  destruct (db_call _ _) as [[row|e] w2] eqn:Hc; [|done]. apply db_call_time in Hc. simpl in Hc.
  intros [= <- <-]. simpl. split_and!; [done..|]. lia.
Qed.

Lemma Login_issues email password w res w1 :
  Login svc email password w = (Ok res, w1) →
  ∃ user wi, (Issue (as_tokens svc) (User.ID user) (User.Email user) wi).1 = Ok (AuthResult.Token res, AuthResult.ExpiresAt res) ∧
    AuthResult.User_ res = viewOf user ∧ w_now wi ≤ w_now w1.
Proof.
  unfold Login. unfold_monad. destruct (users_GetUserByEmail _ w) as [[user|e] w2].
  - destruct (Verify _ _ _ w2) as [[e|] w3]; [by destruct (countAuth _ _ _ w3)|].
    destruct (countAuth _ _ _ w3) as [[] w4]. destruct (rehash _ _ _ _ w4) as [user' w5].
    intros Hi. exists user', w5. by apply issue_issues.
  - destruct (errors_Is e ErrNotFound); [destruct (DummyCompare _ w2) as [[] w3]; by destruct (countAuth _ _ _ w3)|].
    by destruct (countAuth _ _ _ w2).
Qed.

(** C33: a login is a session.  The access token a successful login returns, sent
    back as a bearer token until a second before the expiry it came with, opens
    every protected route: the handler runs as the user who logged in, on the
    request's own body.  In particular [GET /auth/me] answers 200 with the
    account as it then is, as long as that is not deleted and the calls it makes
    neither fail nor outlast the group's deadline, and changes nothing. *)
Theorem session_end_to_end email password w res w1 m p f r w2 lim ls :
  Tokens cfg = Auth.Parse (as_tokens svc) → jwt_sound → uuid_sound →
  Login svc email password w = (Ok res, w1) →
  (m, p, f) ∈ protected stripe → Method r = m → route_path r = p →
  bearerToken r = Some (AuthResult.Token res) →
  w_now w1 ≤ w_now w2 → w_now w2 + Second ≤ AuthResult.ExpiresAt res →
  let uid := UserView.ID (AuthResult.User_ res) in
  served r w2 lim ls (λ hd body db hs lim', lim' = lim ∧
    (∃ r1 w3, ctx_user r1 = Some uid ∧ RequestBody r1 = RequestBody r ∧
       starts w2 (Some (APITimeout (withDefaults cfg))) w3 ∧ by_handler f r1 w3 hd body db hs) ∧
    ∀ u, f = HandleMe → quiet w2 → elapsed (w_script w2) < APITimeout (withDefaults cfg) → uid ≠ uuid_Nil →
      users_ok (users (w_db w2)) → users (w_db w2) !! uid = Some u → User.DeletedAt u = None →
      hd_status hd = 200 ∧ body = body_text (IdentityBody (viewOf u)) ∧ db = w_db w2).
Proof.
  intros Htok Hjwt Huuid Hlogin Hin Hm Hp Hb Hle Hexp uid.
  apply Login_issues in Hlogin as (user & wi & Hi & Hu & Hn).
  destruct (Issue _ _ _ wi) as [[[token expires]|e] wi'] eqn:HI; [|done]. injection Hi as -> ->.
  destruct (issue_parse _ _ _ _ _ _ _ w2 Hjwt Huuid HI) as (c & Hparse & _ & _); [lia|done|].
  assert (uid = User.ID user) as Huid by (unfold uid; by rewrite Hu).
  pose proof (authorised_served site log rand_Read16 stripe auth health cfg (as_tokens svc) m p f r w2 lim ls _ _ c
    Htok Hin Hm Hp Hb (f_equal fst Hparse)) as Hs. clear Hparse HI.
  unfold Routes.served in *. destruct (NewRouter _ _ _ _ _ _ _ r _) as [e' c'].
  destruct Hs as (hd & body & Hr & Hl & r1 & w3 & Hcu & Hbody & _ & Hst & Hby). exists hd, body. split; [done|].
  rewrite <- Huid in Hcu. split_and!; [done|by exists r1, w3|].
  intros u -> Hq Ht Hnil [Hkeys _] Hrow Hdel. destruct Hst as [Hdb Hnow Hsc _ Hx].
  assert (quiet w3) as Hq3 by (eapply quiet_deadline; [exact Hq|done|done| |exact Ht]; rewrite Hx; by destruct (w_ctx w2)).
  unfold by_handler, HandleMe, UserIDFromContext in Hby. rewrite Hcu, bool_decide_eq_false_2 in Hby by done.
  unfold Me, users_GetUserByID, pool_users, UserRepo, GetUserByID in Hby. unfold_monad.
  rewrite db_call_quiet in Hby by done. rewrite (select_user_unique _ _ _ uid u) in Hby.
  - simpl in Hby. destruct Hby as [(-> & _ & -> & _) [-> _]]. split_and!; [done..|]. by rewrite Hdb.
  - by rewrite Hdb.
  - rewrite bool_decide_eq_true_2; [done|]. by destruct (Hkeys _ _ Hrow).
  - done.
  - intros k v Hk Hv%bool_decide_eq_true _. rewrite Hdb in Hk. destruct (Hkeys _ _ Hk) as [<- _]. done.
Qed.
End EndToEnd.
