(* ===== verification/Metrics.v ===== *)
(** * internal/metrics/metrics.go

    The instruments of the service and the recording helpers, over the
    Prometheus client: an instrument is what its options say, and a helper is
    the calls it makes on the instruments' series.  The client panics when two
    collectors of one registry share a name and when a series is asked for with
    another number of label values than the instrument has labels; shown is
    that neither can happen. *)

From S2P Require Import Prelude GoStd Strconv Domain Database.
Open Scope Z_scope.

(** ** Instruments *)

Inductive Kind := Counter | Gauge | Histogram (buckets : list float64).

(** The options of an instrument, and its labels. *)
Record Instrument := mkInstrument {
  in_Namespace : string; in_Subsystem : string; in_Name : string; in_Kind : Kind; in_Labels : list string }.

(** [prometheus.BuildFQName]. *)
Definition FQName (i : Instrument) : string :=
  in_Namespace i +:+ "_" +:+ in_Subsystem i +:+ "_" +:+ in_Name i.

(** [prometheus.ExponentialBuckets]. *)
Fixpoint ExponentialBuckets (start factor : float64) (count : nat) : list float64 :=
  match count with
  | O => []
  | S n => start :: ExponentialBuckets (float_mul start factor) factor n
  end.

(** Thousandths, as the literals of the buckets are. *)
Definition thousandths (l : list Z) : list float64 := (λ z, float_decimal false z (-3)) <$> l.

Definition requestsTotal : Instrument :=
  mkInstrument "sps" "http" "requests_total" Counter ["method"; "route"; "status"].
Definition requestDuration : Instrument :=
  mkInstrument "sps" "http" "request_duration_seconds"
    (Histogram (thousandths [5; 10; 25; 50; 100; 250; 500; 1000; 2500; 5000; 10000; 25000]))
    ["method"; "route"; "status"].
Definition requestsInFlight : Instrument := mkInstrument "sps" "http" "requests_in_flight" Gauge [].
Definition responseSize : Instrument :=
  mkInstrument "sps" "http" "response_size_bytes"
    (Histogram (ExponentialBuckets (float_of_Z 64) (float_of_Z 4) 8)) ["route"].
Definition webhookEvents : Instrument :=
  mkInstrument "sps" "webhook" "events_total" Counter ["event_type"; "outcome"].
Definition webhookDuration : Instrument :=
  mkInstrument "sps" "webhook" "processing_duration_seconds"
    (Histogram (thousandths [10; 50; 100; 250; 500; 1000; 2500; 5000; 10000])) ["event_type"].
Definition ledgerUnsettled : Instrument := mkInstrument "sps" "webhook" "ledger_unsettled" Gauge ["state"].
Definition subscriptionsDunning : Instrument :=
  mkInstrument "sps" "billing" "subscriptions_in_dunning" Gauge [].
Definition payloadsUnpurged : Instrument :=
  mkInstrument "sps" "retention" "payloads_past_window" Gauge [].
Definition authAttempts : Instrument :=
  mkInstrument "sps" "auth" "attempts_total" Counter ["operation"; "outcome"].
Definition tokenRefreshes : Instrument :=
  mkInstrument "sps" "auth" "token_refreshes_total" Counter ["outcome"].
Definition stripeRequests : Instrument :=
  mkInstrument "sps" "stripe" "requests_total" Counter ["operation"; "outcome"].

(** What [New] registers of the service's own, in order. *)
Definition registered : list Instrument :=
  [requestsTotal; requestDuration; requestsInFlight; responseSize; webhookEvents; webhookDuration;
   ledgerUnsettled; subscriptionsDunning; payloadsUnpurged; authAttempts; tokenRefreshes; stripeRequests].

(** ** The recording helpers *)

(** A call on one series of an instrument. *)
Inductive Op := Inc (i : Instrument) (labels : list string) | Dec (i : Instrument) (labels : list string)
  | Set_ (i : Instrument) (labels : list string) (v : float64)
  | Observe (i : Instrument) (labels : list string) (v : float64).

Definition ObserveRequest_ops (method route status : string) (seconds : float64) (bytes : Z) : list Op :=
  [Inc requestsTotal [method; route; status]; Observe requestDuration [method; route; status] seconds;
   Observe responseSize [route] (float_of_Z bytes)].

Definition IncInFlight_ops : list Op := [Inc requestsInFlight []].
Definition DecInFlight_ops : list Op := [Dec requestsInFlight []].

Definition ObserveWebhook_ops (eventType outcome : string) (seconds : float64) : list Op :=
  [Inc webhookEvents [eventType; outcome]; Observe webhookDuration [eventType] seconds].

Definition SetLedger_ops (processing retryable deadLettered : Z) : list Op :=
  [Set_ ledgerUnsettled ["processing"] (float_of_Z processing);
   Set_ ledgerUnsettled ["retryable"] (float_of_Z retryable);
   Set_ ledgerUnsettled ["dead_lettered"] (float_of_Z deadLettered)].

Definition SetDunning_ops (n : Z) : list Op := [Set_ subscriptionsDunning [] (float_of_Z n)].
Definition SetPayloadsPastWindow_ops (n : Z) : list Op := [Set_ payloadsUnpurged [] (float_of_Z n)].
Definition IncAuth_ops (operation outcome : string) : list Op := [Inc authAttempts [operation; outcome]].
Definition IncTokenRefresh_ops (outcome : string) : list Op := [Inc tokenRefreshes [outcome]].
Definition IncStripe_ops (operation outcome : string) : list Op := [Inc stripeRequests [operation; outcome]].

(** The calls behind an observation of the model. *)
Definition ops_of (m : Metric) : list Op :=
  match m with
  | BcryptCompare _ => []
  | ObserveWebhook eventType outcome seconds => ObserveWebhook_ops eventType outcome seconds
  | IncAuth operation outcome => IncAuth_ops operation outcome
  | IncTokenRefresh outcome => IncTokenRefresh_ops outcome
  | SetLedger processing retryable deadLettered => SetLedger_ops processing retryable deadLettered
  | SetDunning n => SetDunning_ops n
  | SetPayloadsPastWindow n => SetPayloadsPastWindow_ops n
  | IncInFlight => IncInFlight_ops
  | DecInFlight => DecInFlight_ops
  | ObserveRequest method route status seconds bytes => ObserveRequest_ops method route status seconds bytes
  end.

(** ** The registry *)

(** The value of a counter or a gauge; the count, sum and cumulative buckets of a
    histogram. *)
Inductive Sample := Number (v : float64) | Distribution (count : Z) (sum : float64) (buckets : list (float64 * Z)).

(** Series by the name of the instrument and the label values. *)
Definition Registry := gmap (string * list string) Sample.

Definition float_add : float64 → float64 → float64 := SFadd 53 1024.
Definition float_one : float64 := float_of_Z 1.

(** A series that was not asked for before. *)
Definition zero_sample (k : Kind) : Sample :=
  match k with
  | Counter | Gauge => Number float_zero
  | Histogram bs => Distribution 0 float_zero ((λ b, (b, 0)) <$> bs)
  end.

Definition target (o : Op) : Instrument * list string :=
  match o with Inc i l | Dec i l | Set_ i l _ | Observe i l _ => (i, l) end.

(** What a call does to its series; [None] is a call the series has not. *)
Definition step_sample (o : Op) (s : Sample) : option Sample :=
  match o, s with
  | Inc _ _, Number v => Some (Number (float_add v float_one))
  | Dec _ _, Number v => Some (Number (float_add v (SFopp float_one)))
  | Set_ _ _ v, Number _ => Some (Number v)
  | Observe _ _ v, Distribution n sum bs =>
      Some (Distribution (n + 1) (float_add sum v)
              ((λ bc, (bc.1, if float_leb v bc.1 then bc.2 + 1 else bc.2)) <$> bs))
  | _, _ => None
  end.

(** [None] is a panic of the client. *)
Definition apply_op (o : Op) (r : Registry) : option Registry :=
  let '(i, labels) := target o in
  if Nat.eqb (length labels) (length (in_Labels i))
  then let key := (FQName i, labels) in
       s ← step_sample o (default (zero_sample (in_Kind i)) (r !! key)); Some (<[key := s]> r)
  else None.

Definition apply_ops (l : list Op) (r : Registry) : option Registry :=
  foldl (λ acc o, acc ≫= apply_op o) (Some r) l.

(** [MustRegister] of everything in [New]: it panics on a name taken. *)
Definition register (names : gset string) (i : Instrument) : option (gset string) :=
  if bool_decide (FQName i ∈ names) then None else Some ({[FQName i]} ∪ names).

Definition New : option (gset string) := foldl (λ acc i, names ← acc; register names i) (Some ∅) registered.

(** ** The client never panics *)

(** A series has the shape of its instrument. *)
Definition shape_ok (k : Kind) (s : Sample) : bool :=
  match k, s with
  | (Counter | Gauge), Number _ => true
  | Histogram _, Distribution _ _ _ => true
  | _, _ => false
  end.

Definition registry_ok (r : Registry) : Prop :=
  ∀ i labels s, i ∈ registered → r !! (FQName i, labels) = Some s → shape_ok (in_Kind i) s = true.

(** A call its instrument has, with a value for each label. *)
Definition call_ok (o : Op) : Prop :=
  let '(i, labels) := target o in
  i ∈ registered ∧ length labels = length (in_Labels i) ∧
  is_Some (step_sample o (zero_sample (in_Kind i))).

Lemma FQName_inj i j : i ∈ registered → j ∈ registered → FQName i = FQName j → i = j.
Proof.
  intros Hi Hj Hn. apply list_elem_of_lookup in Hi as [a Ha], Hj as [b Hb].
  assert (NoDup (FQName <$> registered)) as Hnd by by apply (bool_decide_unpack (NoDup _)).
  assert (a = b) as <-; [|congruence].
  apply (NoDup_lookup (FQName <$> registered) a b (FQName i)); [done|rewrite list_lookup_fmap..].
  - by rewrite Ha.
  - by rewrite Hb, Hn.
Qed.

Lemma step_shape o k s :
  is_Some (step_sample o (zero_sample k)) → shape_ok k s = true →
  ∃ s', step_sample o s = Some s' ∧ shape_ok k s' = true.
Proof. destruct o, k, s; intros [? ?] ?; simpl in *; try done; eauto. Qed.

Lemma apply_op_ok o r : call_ok o → registry_ok r → ∃ r', apply_op o r = Some r' ∧ registry_ok r'.
Proof.
  unfold call_ok, apply_op. destruct (target o) as [i labels]. intros (Hi & Hl & Hs) Hr.
  rewrite Hl, Nat.eqb_refl.
  assert (shape_ok (in_Kind i) (default (zero_sample (in_Kind i)) (r !! (FQName i, labels))) = true) as Hsh.
  { destruct (r !! _) as [s|] eqn:Hs0; [by eapply Hr|]. by destruct (in_Kind i). }
  destruct (step_shape o _ _ Hs Hsh) as (s' & Hst & Hsh'). rewrite Hst. eexists. split; [reflexivity|].
  intros j labels' s Hj [[[= Hn ?] <-]|[_ ?]]%lookup_insert_Some; [|by eapply Hr].
  by rewrite <- (FQName_inj i j Hi Hj Hn).
Qed.

Lemma apply_ops_ok l r : Forall call_ok l → registry_ok r → ∃ r', apply_ops l r = Some r' ∧ registry_ok r'.
Proof.
  intros Hl. revert r. induction Hl as [|o l Ho _ IH]; intros r Hr; [by exists r|].
  destruct (apply_op_ok o r Ho Hr) as (r1 & H1 & Hr1). unfold apply_ops. cbn [foldl mbind option_bind]. rewrite H1.
  by apply IH.
Qed.

Opaque thousandths ExponentialBuckets.
Lemma ops_of_ok m : Forall call_ok (ops_of m).
Proof.
  destruct m; cbn [ops_of]; unfold ObserveRequest_ops, ObserveWebhook_ops, SetLedger_ops;
    repeat apply Forall_cons_2; try apply Forall_nil_2; unfold call_ok; cbn [target];
    (split; [unfold registered; repeat (apply list_elem_of_here || apply list_elem_of_further)|by split; [|eexists]]).
Qed.
Transparent thousandths ExponentialBuckets.


Example request_series :
  (r ← apply_ops (ObserveRequest_ops "GET" "/livez" "200" (float_decimal false 7 (-3)) 70) ∅;
   r !! ("sps_http_response_size_bytes", ["/livez"])) =
  Some (Distribution 1 (float_add float_zero (float_of_Z 70))
    (zip (ExponentialBuckets (float_of_Z 64) (float_of_Z 4) 8) [0; 1; 1; 1; 1; 1; 1; 1])).
Proof. vm_compute. reflexivity. Qed.
