(* ===== verification/Main.v ===== *)
(** * cmd/api/main.go

    How the parts are put together: the configuration handed to each of them,
    the construction sequence of [run], and the two command-line tools with
    their exit codes.  Serving, signals and shutdown are in Lifecycle.v.  Shown: a
    configuration that loads always builds; the tools' exit codes are the truth
    about the ledger and the payloads. *)

From S2P Require Import Prelude GoStd Strconv Slog Url Config ConfigLaws Logger Pool.
From S2P Require Import Domain Database WebhookRepo SubscriptionRepo UserRepo.
From S2P Require Import RefreshTokenRepo StripeClient Ports WebhookService Sweeper Retention.
From S2P Require Import Auth AuthService Services RateLimit Http Handlers Middleware Router.
Open Scope Z_scope.

(** ** Configuration of the parts *)

Section Parts.
Context (cfg : Config).

Definition logger_options (version : string) (source : bool) : Options :=
  mkOptions (LogCfg.Level (c_Log cfg)) (LogCfg.Format (c_Log cfg)) source
    (App.Name (c_App cfg)) (App.Environment_ (c_App cfg)) version.

Definition database_config : PoolConfig.t :=
  let d := c_Database cfg in
  PoolConfig.mk (Reveal (DatabaseCfg.DSN d)) (DatabaseCfg.MaxConns d) (DatabaseCfg.MinConns d)
    (DatabaseCfg.MaxConnLifetime d) (DatabaseCfg.MaxConnIdleTime d) (DatabaseCfg.HealthCheckPeriod d)
    (DatabaseCfg.ConnectTimeout d) (DatabaseCfg.StatementTimeout d) (DatabaseCfg.IdleInTxTimeout d)
    (App.Name (c_App cfg)) (DatabaseCfg.SlowQueryThreshold d).

(** The small pool of a tool; unset fields are zero. *)
Definition tool_database_config (suffix : string) : PoolConfig.t :=
  let d := c_Database cfg in
  PoolConfig.mk (Reveal (DatabaseCfg.DSN d)) 4 1 0 0 0 (DatabaseCfg.ConnectTimeout d)
    (DatabaseCfg.StatementTimeout d) 0 (App.Name (c_App cfg) +:+ suffix) 0.

Definition stripe_config : StripeClient.Config.t :=
  let s := c_Stripe cfg in
  StripeClient.Config.mk (Reveal (StripeCfg.SecretKey s)) (Reveal (StripeCfg.WebhookSecret s))
    (StripeCfg.APIVersion s) (StripeCfg.MaxNetworkRetries s) (StripeCfg.HTTPTimeout s)
    (StripeCfg.WebhookTolerance s) (StripeCfg.IgnoreAPIVersionMismatch s).

Definition token_config : TokenConfig :=
  let a := c_Auth cfg in
  mkTokenConfig (Reveal (AuthCfg.JWTSecret a)) (AuthCfg.JWTIssuer a) (AuthCfg.JWTAudience a)
    (AuthCfg.AccessTokenTTL a).

Definition checkout_config : CheckoutConfig.t :=
  let s := c_Stripe cfg in
  CheckoutConfig.mk (StripeCfg.CheckoutSuccessURL s) (StripeCfg.CheckoutCancelURL s)
    (StripeCfg.CheckoutReturnURL s) (StripeCfg.PortalReturnURL s) (StripeCfg.AllowedPriceIDs s).

Definition rate_limit_config : RateLimitConfig.t :=
  RateLimitConfig.mk (HTTP.AuthRateLimitRPS (c_HTTP cfg)) (HTTP.AuthRateLimitBurst (c_HTTP cfg)) 0 0.

Definition sweeperConfig : SweeperConfig.t :=
  let s := c_Sweeper cfg in
  SweeperConfig.mk (SweeperCfg.Interval s) (SweeperCfg.StaleClaimAfter s)
    (int32 (SweeperCfg.MaxAttempts s)) (SweeperCfg.BaseBackoff s) (SweeperCfg.MaxBackoff s)
    (SweeperCfg.BatchSize s) (SweeperCfg.AlertAfter s).

Definition retentionConfig : RetentionConfig.t :=
  let r := c_Retention cfg in
  RetentionConfig.mk (RetentionCfg.Interval r) (RetentionCfg.SettledPayloadAfter r)
    (RetentionCfg.UnsettledPayloadAfter r) (RetentionCfg.BatchSize r) (RetentionCfg.RefreshTokenGrace r).
End Parts.

(** ** The process *)

(** The pools it holds open, and everything else. *)
Record Process := mkProcess { pr_open : Open; pr_world : World }.

Definition on_pool {A} (m : M Open A) : M Process A := λ p,
  let '(a, o) := m (pr_open p) in (a, mkProcess o (pr_world p)).
Definition on_world {A} (m : M World A) : M Process A := λ p,
  let '(a, w) := m (pr_world p) in (a, mkProcess (pr_open p) w).

(** [db.Close()]. *)
Definition close_pool : M Process unit := on_pool (modify tail).

(** [context.WithTimeout(context.Background(), d)]. *)
Definition with_timeout (d : Duration) : M World unit :=
  modify (λ w, mkWorld (w_db w) (w_now w) (Some (w_now w + d)) (w_rng w) (w_draws w)
                 (w_script w) (w_metrics w)).

Section Main.
Context `{GoUnicode, GoMaps, PgxLib, AuthLib, StripeSDK, Postgres, RateLib}.
Context (version : string).

(** What [run] has built when it starts to listen. *)
Record Started := mkStarted {
  st_cfg : Config;
  st_log : contextHandler;
  st_db : DB;
  st_webhooks : WebhookService;
  st_webhook_repo : WebhookRepository;
  st_checkout : CheckoutConfig.t;
  st_auth : AuthService.AuthService;
  st_tokens : TokenService;
  st_limiter : RateLimiter;
  st_retention : option RetentionWorker;
  st_sweeper : option WebhookSweeper;
}.

(** The part of [run] behind the open pool. *)
Definition build (cfg : Config) (log : contextHandler) (db : DB) : M World (result Started) :=
  match StripeClient.New (stripe_config cfg) with
  | Err e => mret (Err (wrapf "build stripe client" e))
  | Ok client =>
    h ← NewHasher (AuthCfg.BcryptCost (c_Auth cfg));
    match h with
    | Err e => mret (Err (wrapf "build password hasher" e))
    | Ok hasher =>
      match NewTokenService (token_config cfg) with
      | Err e => mret (Err (wrapf "build token service" e))
      | Ok tokens =>
        match NewCheckoutService (checkout_config cfg) with
        | Err e => mret (Err (wrapf "build checkout service" e))
        | Ok checkout =>
          mret (Ok (mkStarted cfg log db
            (WebhookService_WithMetrics (NewWebhookService client)) (WebhookRepo_of 0) checkout
            (AuthService_WithMetrics (NewAuthService hasher tokens (AuthCfg.RefreshTokenTTL (c_Auth cfg))))
            tokens (NewRateLimiter (rate_limit_config cfg))
            (if RetentionCfg.Enabled (c_Retention cfg)
             then Some (RetentionWorker_WithMetrics (NewRetentionWorker true (retentionConfig cfg)))
             else None)
            (if SweeperCfg.Enabled (c_Sweeper cfg)
             then Some (WithMetrics (NewWebhookSweeper (sweeperConfig cfg))) else None)))
        end
      end
    end
  end.

(** [run] up to listening: the pool is closed again when a later step fails. *)
Definition start (env : Env) : M Process (result Started) :=
  match Load env with
  | Err e => mret (Err (wrapf "load configuration" e))
  | Ok cfg =>
    match Logger.New (logger_options cfg version (LogCfg.AddSource (c_Log cfg))) with
    | Err e => mret (Err (wrapf "build logger" e))
    | Ok log =>
      d ← on_pool (Pool.New (database_config cfg) true);
      match d with
      | Err e => mret (Err (wrapf "connect to database" e))
      | Ok db =>
        s ← on_world (build cfg log db);
        match s with
        | Err e => _ ← close_pool; mret (Err e)
        | Ok s => mret (Ok s)
        end
      end
    end
  end.

(** ** What it serves *)

Section Serve.
Context `{ChiLib, healthProbe}.
Context (site : string → option (string * Z)) (rand_Read16 : N → string + string).

Definition auth_handler (s : Started) : AuthHandler :=
  let a := c_Auth (st_cfg s) in
  mkAuthHandler (st_auth s) (AuthCfg.CookieSecure a) (AuthCfg.CookieDomain a).

Definition router_config (s : Started) : RouterConfig :=
  let h := c_HTTP (st_cfg s) in
  mkRouterConfig (HTTP.APITimeout h) (mkCORSConfig (HTTP.CORSAllowedOrigins h) 0) (Parse (st_tokens s)) true
    (HTTP.TrustedProxies h) true (HTTP.WebhookTimeout h).

(** The server's handler; the repositories are the ones on the pool. *)
Definition server_handler (s : Started) (health : HealthHandler) : Handler :=
  let _ := UserRepo in let _ := SubscriptionRepo in let _ := RefreshTokenRepo in
  let _ := st_webhook_repo s in
  NewRouter site (st_log s) rand_Read16 (NewStripeHandler (st_webhooks s) (st_checkout s)) (auth_handler s)
    health (router_config s).
End Serve.

(** ** The tools *)

Definition line (l : list string) : string := String.concat "" l +:+ newline.

Definition printLedger (now : Time) (stats : LedgerStats) : string :=
  line ["processing    "; Itoa (Processing stats)] +:+
  line ["retryable     "; Itoa (Retryable stats)] +:+
  line ["dead-lettered "; Itoa (DeadLettered stats)] +:+
  (match OldestUnsettled stats with
   | Some t => line ["oldest        "; FormatRFC3339 t; " (";
                     Duration_String (Truncate (now - t) Second); " ago)"]
   | None => ""
   end) +:+
  (if 0 <? DeadLettered stats
   then newline +:+ line ["Dead-lettered events will not be retried again. Inspect them with:"] +:+
        line ["  SELECT event_id, event_type, attempts, last_error, updated_at"] +:+
        line ["  FROM processed_webhooks WHERE status = 'failed' ORDER BY updated_at;"] +:+
        newline +:+ line ["After fixing the cause, reset their attempt count to make them retryable:"] +:+
        line ["  UPDATE processed_webhooks SET attempts = 0 WHERE event_id = '...';"]
   else "").

(** What both tools do around their work: the exit code and what is printed, or
    the error that makes [main] exit with 1.  [os.Exit(2)] skips the deferred
    [db.Close()], which [stops] tells. *)
Definition tool {A} (done : result (Z * string) → A) (stops : A → bool) (timeout : Duration) (suffix : string)
    (body : Config → M World A) (env : Env) : M Process A :=
  match Load env with
  | Err e => mret (done (Err (wrapf "load configuration" e)))
  | Ok cfg =>
    match Logger.New (logger_options cfg version false) with
    | Err e => mret (done (Err (wrapf "build logger" e)))
    | Ok _ =>
      _ ← on_world (with_timeout timeout);
      d ← on_pool (Pool.New (tool_database_config cfg suffix) true);
      match d with
      | Err e => mret (done (Err (wrapf "connect to database" e)))
      | Ok _ => r ← on_world (body cfg); _ ← (if stops r then mret tt else close_pool); mret r
      end
    end
  end.

Definition exit_code (stats : LedgerStats) : Z := if 0 <? DeadLettered stats then 2 else 0.

Definition report_body (cfg : Config) : M World (result (Z * string)) :=
  r ← GetLedgerStats (int32 (SweeperCfg.MaxAttempts (c_Sweeper cfg)));
  now ← gets w_now;
  mret (match r with
        | Err e => Err (wrapf "read ledger" e)
        | Ok stats => Ok (exit_code stats, printLedger now stats)
        end).

Definition sweep_body (cfg : Config) : M World (result (Z * string)) :=
  match StripeClient.New (stripe_config cfg) with
  | Err e => mret (Err (wrapf "build stripe client" e))
  | Ok client =>
    x ← @Sweep _ _ UserRepo SubscriptionRepo (WebhookRepo_of (SweeperCfg.StaleClaimAfter (c_Sweeper cfg)))
          (NewWebhookSweeper (sweeperConfig cfg));
    now ← gets w_now;
    mret (Ok (exit_code (Sweeper.Stats x),
      line ["reclaimed "; Itoa (Reclaimed x); ", retried "; Itoa (Retried x); ", recovered ";
            Itoa (Recovered x)] +:+ printLedger now (Sweeper.Stats x)))
  end.

Definition exits_2 (r : result (Z * string)) : bool :=
  match r with Ok (code, _) => code =? 2 | Err _ => false end.

Definition runWebhookTool (sweep : bool) : Env → M Process (result (Z * string)) :=
  tool id exits_2 (2 * Minute) "-webhook-tool" (if sweep then sweep_body else report_body).

(** [fuel] bounds the loops of the pass; [None] when it runs out. *)
Definition retention_body (fuel : nat) (cfg : Config) : M World (option (result (Z * string))) :=
  let w := NewRetentionWorker true (retentionConfig cfg) in
  r ← @RunOnce (WebhookRepo_of (SweeperCfg.StaleClaimAfter (c_Sweeper cfg))) RefreshTokenRepo w fuel;
  match r with
  | None => mret None
  | Some res =>
    s ← @Retention.Stats (WebhookRepo_of (SweeperCfg.StaleClaimAfter (c_Sweeper cfg))) w;
    now ← gets w_now;
    mret (Some (match s with
      | Err e => Err (wrapf "read retention stats" e)
      | Ok stats => Ok (if 0 <? DueNow stats then 2 else 0,
          line ["purged "; Itoa (PurgeResult_Total res); " payload(s): "; Itoa (Settled res);
                " settled, "; Itoa (Unsettled res); " unresolved"] +:+
          line ["still holding full payloads  "; Itoa (WithPayload stats)] +:+
          line ["already minimised            "; Itoa (Purged stats)] +:+
          line ["past window, not yet purged  "; Itoa (DueNow stats)] +:+
          match OldestPayload stats with
          | Some t => line ["oldest full payload          "; FormatRFC3339 t; " (";
                            Duration_String (Truncate (now - t) Second); " ago)"]
          | None => ""
          end)
      end))
  end.

Definition runRetentionTool (fuel : nat) : Env → M Process (option (result (Z * string))) :=
  tool Some (λ r, match r with Some r => exits_2 r | None => false end) (10 * Minute) "-retention" (retention_body fuel).
End Main.

(** ** What a loaded configuration builds *)

Section Startup.
Context `{GoUnicode, GoMaps, PgxLib, AuthLib, StripeSDK, Postgres, RateLib}.
Context (version : string).

(** bcrypt accepts costs from 10 to 31, and hashes a short password. *)
Hypothesis bcrypt_costs : bcrypt_MinCost ≤ 10 ∧ 31 ≤ bcrypt_MaxCost.
Hypothesis bcrypt_hashes : ∀ salt password c,
  bcrypt_MinCost ≤ c ≤ bcrypt_MaxCost → len password ≤ MaxPasswordBytes →
  ∃ d, bcrypt_Generate salt password c = inl d.

Lemma levels_agree name l : parseLevelName name = Ok l → ParseLevel name = Ok l.
Proof.
  unfold parseLevelName, ParseLevel, one_of. generalize (ToLower (TrimSpace name)). intros n.
  repeat (case_bool_decide; subst; try (intros [= <-]; done)); try set_solver; done.
Qed.

Lemma logger_builds cfg source : problems cfg = [] → ∃ h, Logger.New (logger_options cfg version source) = Ok h.
Proof.
  intros R. rules R. unfold Logger.New. simpl.
  destruct (parseLevelName (LogCfg.Level (c_Log cfg))) as [l|] eqn:Hl; [|done].
  rewrite (levels_agree _ _ Hl). eauto.
Qed.

Lemma stripe_builds cfg :
  problems cfg = [] → (∀ s, s ∈ secrets cfg → s ≠ "") → ∃ c, StripeClient.New (stripe_config cfg) = Ok c.
Proof.
  intros R Hs. rules R.
  unfold StripeClient.New. simpl.
  match goal with HV : key_rule cfg _ = [] |- _ => destruct (key_ok _ _ HV) as [Hk _]; [apply Hs; set_solver|] end.
  rewrite bool_decide_eq_false_2 by (destruct Hk; by eapply TrimSpace_prefix).
  rewrite bool_decide_eq_false_2; [eauto|].
  assert (Reveal (StripeCfg.WebhookSecret (c_Stripe cfg)) ≠ "") as Hw by (apply Hs; set_solver).
  rewrite (bool_decide_eq_true_2 (Reveal _ ≠ "")) in * by done. simpl in *.
  eapply TrimSpace_prefix; [by eapply negb_false_iff|done].
Qed.

Lemma tokens_build cfg :
  problems cfg = [] → (∀ s, s ∈ secrets cfg → s ≠ "") → ∃ t, NewTokenService (token_config cfg) = Ok t.
Proof.
  intros R Hs. rules R.
  match goal with HV : validateAuth cfg = [] |- _ => destruct (auth_ok _ HV) as (Ht & Hi & Ha & _ & Hj & _) end.
  destruct Hj as [Hl _]; [apply Hs; set_solver|]. unfold NewTokenService, MinSecretBytes. simpl.
  rewrite (proj2 (Z.ltb_ge _ _) Hl), !bool_decide_eq_false_2 by done. simpl.
  rewrite (proj2 (Z.leb_gt _ _)) by lia. eauto.
Qed.

Lemma hasher_builds cfg w :
  problems cfg = [] → ∃ h, NewHasher (AuthCfg.BcryptCost (c_Auth cfg)) w = (Ok h, take_draw w).
Proof.
  intros R. rules R.
  match goal with HV : validateAuth cfg = [] |- _ => destruct (auth_ok _ HV) as (_ & _ & _ & Hc & _) end.
  unfold NewHasher. rewrite (proj2 (Z.eqb_neq _ _)) by lia.
  rewrite (proj2 (Z.ltb_ge _ _)), (proj2 (Z.ltb_ge _ _)) by lia. unfold_monad. simpl.
  edestruct bcrypt_hashes as [d Hd]; [| |rewrite Hd; eauto]; [lia|]. vm_compute. congruence.
Qed.

Lemma absolute_ok c name name' raw :
  (checkout_url_rule c (name, raw) = [] ∨ (return_url_rule c (name, raw) = [] ∧ name' ∈ ["return_url"; "portal_return_url"])) →
  CheckoutConfig.url_problem (name', raw) = [].
Proof.
  unfold checkout_url_rule, return_url_rule, CheckoutConfig.url_problem.
  case_bool_decide as Hr.
  - intros [|[_ Hn]]; [done|]. unfold one_of. by rewrite bool_decide_eq_true_2.
  - destruct (Url.Parse raw) as [u|]; [|naive_solver]. destruct (IsAbs u); naive_solver.
Qed.

Lemma checkout_builds cfg : problems cfg = [] → NewCheckoutService (checkout_config cfg) = Ok (checkout_config cfg).
Proof.
  intros R. rules R.
  unfold NewCheckoutService, CheckoutConfig.validate.
  enough (concat (CheckoutConfig.url_problem <$> map_range
    [("success_url", CheckoutConfig.SuccessURL (checkout_config cfg));
     ("cancel_url", CheckoutConfig.CancelURL (checkout_config cfg));
     ("return_url", CheckoutConfig.ReturnURL (checkout_config cfg));
     ("portal_return_url", CheckoutConfig.PortalReturnURL (checkout_config cfg))]) = []) as -> by done.
  apply concat_nil_Forall, Forall_fmap. rewrite map_range_perm.
  repeat apply Forall_cons_2; try apply Forall_nil_2; eapply absolute_ok.
  1,2: left; eapply map_range_nil; [eassumption|in_pair].
  all: right; split; [eapply map_range_nil; [eassumption|in_pair]|set_solver].
Qed.

Lemma build_total cfg log db w :
  problems cfg = [] → (∀ s, s ∈ secrets cfg → s ≠ "") →
  ∃ s, build cfg log db w = (Ok s, take_draw w) ∧ st_cfg s = cfg ∧ st_db s = db.
Proof.
  intros R Hs. unfold build. destruct (stripe_builds cfg R Hs) as [c ->]. unfold_monad.
  destruct (hasher_builds cfg w R) as [h ->]. destruct (tokens_build cfg R Hs) as [t ->].
  rewrite checkout_builds by done. eauto.
Qed.

(** a configuration that loads always builds.  Starting the service fails
    only because the configuration does not load, in which case nothing has
    been touched, or because the database cannot be reached; every constructor
    behind that accepts what [Load] accepted.  A start that fails leaves no pool
    open, one that succeeds exactly its own. *)
Theorem startup_outcome env p :
  match start version env p with
  | (Ok s, p') => Load env = Ok (st_cfg s) ∧ pr_open p' = db_pool (st_db s) :: pr_open p ∧
                  w_db (pr_world p') = w_db (pr_world p)
  | (Err e, p') => p' = p ∧
      ((∃ e', Load env = Err e' ∧ e = wrapf "load configuration" e') ∨
       (∃ cfg e', Load env = Ok cfg ∧ (Pool.New (database_config cfg) true (pr_open p)).1 = Err e' ∧
                  e = wrapf "connect to database" e'))
  end.
Proof.
  unfold start. destruct (Load env) as [cfg|e] eqn:HL; [|unfold_monad; eauto].
  pose proof (secrets_set env cfg) as Hsec. pose proof (Load_Ok _ _ HL) as (_ & _ & R).
  destruct (logger_builds cfg (LogCfg.AddSource (c_Log cfg)) R) as [h ->]. unfold_monad. unfold on_pool at 1.
  pose proof (pool_New_outcome (database_config cfg) true (pr_open p)) as Hp.
  destruct (Pool.New _ _ _) as [[db|e] o] eqn:Hn; simpl.
  - destruct Hp as [-> _]. unfold on_world. simpl.
    destruct (build_total cfg h db (pr_world p) R (λ s, Hsec s HL)) as (s & -> & <- & <-). simpl. done.
  - destruct Hp as [-> _]. split; [by destruct p|]. right. exists cfg, e. by rewrite Hn.
Qed.
End Startup.

(** ** Exit codes *)

Section ExitCodes.
Context `{GoUnicode, GoMaps, PgxLib, StripeSDK, Postgres}.
Context (version : string).

(** Events the sweeper will not try again. *)
Definition dead_lettered (maxAttempts : Z) (w : World) : Prop :=
  ∃ id r, processed_webhooks (w_db w) !! id = Some r ∧ Row.status r = WebhookFailed ∧
          maxAttempts ≤ Row.attempts r.

Lemma count_where_pos P m : 0 < count_where P m ↔ ∃ id r, m !! id = Some r ∧ P r = true.
Proof.
  unfold count_where. destruct (rows_where P m) as [|[id r] l] eqn:Hr; simpl.
  - split; [lia|]. intros (id & r & Hm & HP).
    assert ((id, r) ∈ rows_where P m) as Hin by by apply elem_of_rows_where. rewrite Hr in Hin. set_solver.
  - split; [|lia]. intros _. exists id, r. apply elem_of_rows_where. rewrite Hr. set_solver.
Qed.

Lemma tool_run {A} (done : result (Z * string) → A) stops timeout suffix body env p r p' :
  tool version done stops timeout suffix body env p = (r, p') → (∀ e, r ≠ done (Err e)) →
  ∃ cfg w, Load env = Ok cfg ∧ w_db w = w_db (pr_world p) ∧ body cfg w = (r, pr_world p').
Proof.
  unfold tool. destruct (Load env) as [cfg|e]; [|intros [= <- <-] He; by destruct (He (wrapf "load configuration" e))].
  destruct (Logger.New _) as [h|e]; [|intros [= <- <-] He; by destruct (He (wrapf "build logger" e))].
  unfold_monad. unfold on_world, on_pool, with_timeout, close_pool, on_pool. unfold_monad. simpl.
  destruct (Pool.New _ _ _) as [[db|e] o]; [|intros [= <- <-] He; by destruct (He (wrapf "connect to database" e))].
  simpl. set (w := mkWorld _ _ _ _ _ _ _). destruct (body cfg w) as [x w'] eqn:Hb. simpl.
  destruct (stops x); intros [= <- <-] _; by exists cfg, w.
Qed.

Lemma GetLedgerStats_ok n w stats w' :
  GetLedgerStats n w = (Ok stats, w') → w_db w' = w_db w ∧ (0 < DeadLettered stats ↔ dead_lettered n w).
Proof.
  unfold GetLedgerStats. unfold_monad. destruct (db_call _ w) as [[s|e] w1] eqn:Hc; [|done].
  intros [= <- <-]. apply db_call_ok in Hc as [c Hc]. injection Hc as <- Hdb. split; [congruence|]. simpl.
  rewrite count_where_pos. unfold dead_lettered, unsettled, is_status. do 2 (f_equiv; intros ?).
  split; intros [Hm HP]; (split; [done|]).
  - apply andb_true_iff in HP as [_ [HP%bool_decide_eq_true Hn]%andb_true_iff]. split; [done|lia].
  - destruct HP as [-> Hn]. rewrite (bool_decide_eq_true_2 (WebhookFailed = WebhookFailed)) by done.
    rewrite orb_true_r. simpl. lia.
Qed.

(** the reporting tool tells the truth.  When it prints a report, nothing
    has been written, and its exit code is 2 exactly when some event has failed
    as often as the sweeper tries, and 0 otherwise. *)
Theorem report_exit_code env cfg p code out p' :
  Load env = Ok cfg → runWebhookTool version false env p = (Ok (code, out), p') →
  w_db (pr_world p') = w_db (pr_world p) ∧ (code = 2 ∨ code = 0) ∧
  (code = 2 ↔ dead_lettered (int32 (SweeperCfg.MaxAttempts (c_Sweeper cfg))) (pr_world p)).
Proof.
  intros HL Hrun. apply tool_run in Hrun as (cfg' & w & HL' & Hw & Hb); [|done].
  assert (cfg' = cfg) as -> by congruence. unfold report_body in Hb. unfold_monad.
  destruct (GetLedgerStats _ w) as [[stats|e] w1] eqn:Hg; simplify_eq/=.
  apply GetLedgerStats_ok in Hg as [Hdb Hd]. unfold dead_lettered in *. rewrite Hw in *.
  split; [congruence|]. unfold exit_code.
  destruct (0 <? DeadLettered stats) eqn:Hz; [apply Z.ltb_lt in Hz|apply Z.ltb_ge in Hz];
    (split; [lia|]); rewrite <- Hd; lia.
Qed.

(** likewise the retention tool: its exit code is 2 exactly when, at the
    end of the pass, a payload is still held past its window. *)
Theorem retention_exit_code fuel env cfg p code out p' :
  Load env = Ok cfg → runRetentionTool version fuel env p = (Some (Ok (code, out)), p') →
  ∃ now, (code = 2 ∨ code = 0) ∧
  (code = 2 ↔ ∃ id r, processed_webhooks (w_db (pr_world p')) !! id = Some r ∧
     purge_due now (RetentionConfig.query (RetentionConfig.withDefaults (retentionConfig cfg)) 0) r = true).
Proof.
  intros HL Hrun. apply tool_run in Hrun as (cfg' & w & HL' & Hw & Hb); [|done].
  assert (cfg' = cfg) as -> by congruence. unfold retention_body in Hb. unfold_monad.
  destruct (RunOnce _ _ w) as [[res|] w1]; [|done].
  unfold Retention.Stats, hooks_GetRetentionStats, WebhookRepo_of, GetRetentionStats in Hb. unfold_monad.
  destruct (db_call _ w1) as [[s|e] w2] eqn:Hc; simplify_eq/=.
  apply db_call_ok in Hc as [c Hc]. injection Hc as <- Hdb. exists (c_now c). simpl.
  rewrite <- count_where_pos, <- Hdb.
  destruct (0 <? _) eqn:Hz; [apply Z.ltb_lt in Hz|apply Z.ltb_ge in Hz]; (split; [lia|lia]).
Qed.
End ExitCodes.
