(* ===== verification/Concurrency.v ===== *)
(** * Workers competing for the ledger

    Request handlers and sweepers, in this process and in others, run at the
    same time against one table.  A worker holds an event from the statement
    that claimed it to the statement that settles it, or until it dies.  The
    fleet is a transition system over the ledger's statements: any number of
    workers, any interleaving, claims that steal stale rows, reclaims, purges
    and crashes.  A claim is then a lease: as long as a live worker settles
    within the lease and no stale window is shorter, no two workers ever hold
    one event, and no settlement is lost.  The last section takes the lease
    and the windows from the configuration. *)

From stdpp Require Import relations.
From S2P Require Import Prelude GoStd Config ConfigLaws Domain Database WebhookRepo Ledger.
From S2P Require Import SubscriptionRepo UserRepo StripeClient Ports WebhookService Processing Sweeper Main.
Open Scope Z_scope.

(** ** The transition system *)

(** A worker's claim: the event, and when it was taken. *)
Record Lease := mkLease { l_event : string; l_since : Time }.

Record Fleet := mkFleet {
  f_db : Tables;
  f_now : Time;
  f_held : gmap nat Lease;   (* by worker *)
}.

(** The operations that settle the event [id]. *)
Inductive settles_event (id : string) : ledger_op → Prop :=
  | settles_processed : settles_event id (OpProcessed id)
  | settles_skipped reason : settles_event id (OpSkipped id reason)
  | settles_failed reason : settles_event id (OpFailed id reason).

Section Fleet.
Context `{GoUnicode, Postgres} (lease : Duration) (window : Duration → Prop).
Context (Hwindow : ∀ stale, window stale → lease ≤ stale).

(** Operations that are nobody's in particular. *)
Inductive housekeeping : ledger_op → Prop :=
  | keeps_reclaim stale limit : window stale → housekeeping (OpReclaim stale limit)
  | keeps_purge q : housekeeping (OpPurge q).

(** A statement reads the clock once, at or before the present; a worker whose
    claim took longer than the lease to come back counts as dead.  Between its
    claim and its settlement a worker writes other tables. *)
Inductive fleet_step : Fleet → Fleet → Prop :=
  | fleet_tick t now held now' :
      now ≤ now' →
      (∀ w l, held !! w = Some l → now' ≤ l_since l + lease) →
      fleet_step (mkFleet t now held) (mkFleet t now' held)
  | fleet_claim w stale e c t now held :
      held !! w = None → window stale → c_now c ≤ now ≤ c_now c + lease →
      fleet_step (mkFleet t now held)
        (let '(r, t') := claim_stmt stale e c t in
         mkFleet t' now (match r with
                         | POk _ => <[w := mkLease (ProcessedWebhook.EventID e) (c_now c)]> held
                         | PErr _ => held
                         end))
  | fleet_retry w id n c t now held :
      held !! w = None → c_now c ≤ now ≤ c_now c + lease →
      fleet_step (mkFleet t now held)
        (let '(r, t') := claim_retry_stmt id n c t in
         mkFleet t' now (match r with
                         | POk k => if k =? 1 then <[w := mkLease id (c_now c)]> held else held
                         | PErr _ => held
                         end))
  | fleet_settle w l o c t now held :
      held !! w = Some l → settles_event (l_event l) o →
      fleet_step (mkFleet t now held) (mkFleet (exec c o t) now (delete w held))
  | fleet_crash w t now held :
      fleet_step (mkFleet t now held) (mkFleet t now (delete w held))
  | fleet_work t t' now held :
      processed_webhooks t' = processed_webhooks t →
      fleet_step (mkFleet t now held) (mkFleet t' now held)
  | fleet_housekeep o c t now held :
      housekeeping o → c_now c ≤ now →
      fleet_step (mkFleet t now held) (mkFleet (exec c o t) now held).

(** ** The invariant *)

(** The claim's row, as its statement left it. *)
Definition holds_row (t : Tables) (l : Lease) : Prop :=
  ∃ r, processed_webhooks t !! l_event l = Some r ∧
    Row.status r = WebhookProcessing ∧ Row.updated_at r = l_since l.

Definition exclusive (held : gmap nat Lease) : Prop :=
  ∀ w1 w2 l1 l2, held !! w1 = Some l1 → held !! w2 = Some l2 → l_event l1 = l_event l2 → w1 = w2.

Record fleet_ok (f : Fleet) : Prop := mkFleetOk {
  fleet_ledger : ledger_ok (processed_webhooks (f_db f));
  fleet_rows : map_Forall (λ _ l, holds_row (f_db f) l ∧ f_now f ≤ l_since l + lease) (f_held f);
  fleet_exclusive : exclusive (f_held f);
}.

Lemma holds_row_step c o t l :
  holds_row t l → respects (l_event l) (l_since l) (c, o) → holds_row (exec c o t) l.
Proof.
  intros (r & Hr & Hst & Hup) Hres. exists r. rewrite <- Hup in Hres.
  split; [|done]. by apply (respects_step (l_event l) r (c, o)).
Qed.

(** Statements that leave every lease alone leave the invariant alone. *)
Lemma fleet_ok_exec c o t now held held' :
  fleet_ok (mkFleet t now held) → held' ⊆ held →
  (∀ w l, held' !! w = Some l → now ≤ l_since l + lease → respects (l_event l) (l_since l) (c, o)) →
  fleet_ok (mkFleet (exec c o t) now held').
Proof.
  intros [HL HR HX] Hsub Hres. split; simpl in *.
  - by apply exec_ledger_ok.
  - intros w l Hl. destruct (HR w l) as [Hrow Hnow]; [by eapply lookup_weaken|].
    split; [|done]. apply holds_row_step; [done|]. by apply (Hres w).
  - intros w1 w2 l1 l2 A1 A2. apply HX; by eapply lookup_weaken.
Qed.

(** A new lease on a row that nobody holds. *)
Lemma fleet_ok_take t now held w l :
  fleet_ok (mkFleet t now held) → holds_row t l → now ≤ l_since l + lease →
  (∀ w' l', held !! w' = Some l' → l_event l' ≠ l_event l) →
  fleet_ok (mkFleet t now (<[w := l]> held)).
Proof.
  intros [HL HR HX] Hrow Hnow Hfree. split; simpl in *; [done| |].
  - by apply map_Forall_insert_2.
  - intros w1 w2 l1 l2. rewrite !lookup_insert. repeat case_decide; subst; try done; [..|apply HX].
    + intros [= <-] A2 He. by destruct (Hfree _ _ A2).
    + intros A1 [= <-] He. by destruct (Hfree _ _ A1).
Qed.

(** A statement that took the event found no lease on it. *)
Lemma taken_row_free t c o l held now r :
  fleet_ok (mkFleet t now held) → processed_webhooks (exec c o t) !! l_event l = Some r →
  processed_webhooks t !! l_event l ≠ Some r →
  (∀ w' l', held !! w' = Some l' → now ≤ l_since l' + lease → respects (l_event l') (l_since l') (c, o)) →
  ∀ w' l', held !! w' = Some l' → l_event l' ≠ l_event l.
Proof.
  intros [_ HR _] Hr Hne Hres w' l' Hl' He. destruct (HR w' l' Hl') as [(r' & Hr' & Hst & Hup) Hnow].
  specialize (Hres w' l' Hl' Hnow). rewrite <- Hup in Hres.
  pose proof (respects_step (l_event l') r' (c, o) t Hr' Hst Hres) as Hkept. simpl in Hkept.
  rewrite He in Hr', Hkept. simpl in Hr'. congruence.
Qed.

(** What a successful claim leaves: a row that was not there before. *)
Definition takes (id : string) (c : Call) (t t' : Tables) : Prop :=
  ∃ r, processed_webhooks t' !! id = Some r ∧ processed_webhooks t !! id ≠ Some r ∧
    Row.status r = WebhookProcessing ∧ Row.updated_at r = c_now c.

Lemma retaken_row n r : ∀ old, Row.touch n old (Row.set_progress WebhookProcessing
    (Row.attempts old + 1) None (Row.processed_at old) old) = r →
  r ≠ old ∧ Row.status r = WebhookProcessing ∧ Row.updated_at r = n.
Proof.
  intros old <-. split_and!; [|by rewrite touch_status|by apply touch_updated; right; simpl; lia].
  intros He. apply (f_equal Row.attempts) in He. rewrite touch_attempts in He. simpl in He. lia.
Qed.

Lemma claim_takes stale e c t r t' :
  claim_stmt stale e c t = (POk r, t') → takes (ProcessedWebhook.EventID e) c t t'.
Proof.
  intros Hc. apply claim_stmt_cases in Hc
    as [[_ [x ?]]|(new & [= <-] & _ & -> & [(Hn & _ & Hst & _ & Hup)|(old & Ho & _ & He)])]; [done|..];
    exists r; simpl; rewrite lookup_insert_eq.
  - by rewrite Hn.
  - symmetry in He. apply retaken_row in He as (? & ? & ?). rewrite Ho.
    split_and!; [done|by intros [= ]|done..].
Qed.

Lemma retry_takes id n c t k t' :
  claim_retry_stmt id n c t = (POk k, t') → k = 1 → takes id c t t'.
Proof.
  intros Hc ->. apply update_hook_cases in Hc as [[_ Hne]|(old & Ho & _ & _ & _ & ->)]; [done|].
  eexists. simpl. rewrite lookup_insert_eq. split; [done|].
  destruct (retaken_row (c_now c) _ old eq_refl) as (? & ? & ?). rewrite Ho.
  split_and!; [by intros [= ]|done..].
Qed.

(** A claim, refused or not. *)
Lemma fleet_ok_claim w id o c t now held (b : bool) :
  fleet_ok (mkFleet t now held) → c_now c ≤ now ≤ c_now c + lease →
  (b = true → takes id c t (exec c o t)) →
  (∀ w' l, held !! w' = Some l → now ≤ l_since l + lease → respects (l_event l) (l_since l) (c, o)) →
  fleet_ok (mkFleet (exec c o t) now (if b then <[w := mkLease id (c_now c)]> held else held)).
Proof.
  intros Hok Hnow Ht Hres. pose proof (fleet_ok_exec c o t now held held Hok ltac:(done) Hres) as Hok'.
  destruct b; [|done]. destruct (Ht eq_refl) as (r & Hr & Hne & Hst & Hup).
  apply fleet_ok_take; [done|by exists r|simpl; lia|].
  by apply (taken_row_free t c o (mkLease id (c_now c)) held now r).
Qed.

Lemma fleet_step_ok f f' : fleet_step f f' → fleet_ok f → fleet_ok f'.
Proof.
  intros Hstep Hok. destruct Hstep as [t now held now' Hle Hin|w stale e c t now held Hw Hl Hc
    |w id n c t now held Hw Hc|w l o c t now held Hw Ho|w t now held|t t' now held Hsame|o c t now held Ho Hc].
  - destruct Hok as [HL HR HX]. split; [done| |done]. intros w l Hl. simpl.
    destruct (HR w l Hl). split; [done|]. by eapply Hin.
  - destruct (claim_stmt stale e c t) as [x t'] eqn:Hs.
    assert (t' = exec c (OpClaim stale e) t) as Ht' by (simpl; by rewrite Hs). rewrite Ht' in Hs |- *.
    assert (∀ l, now ≤ l_since l + lease → respects (l_event l) (l_since l) (c, OpClaim stale e))
      by (pose proof (Hwindow stale Hl); unfold respects; simpl; lia).
    pose proof (fleet_ok_claim w (ProcessedWebhook.EventID e) (OpClaim stale e) c t now held) as Hcl.
    destruct x as [r|x]; [apply (Hcl true)|apply (Hcl false)]; try done;
      eauto using claim_takes.
  - destruct (claim_retry_stmt id n c t) as [x t'] eqn:Hs.
    assert (t' = exec c (OpRetry id n) t) as Ht' by (simpl; by rewrite Hs). rewrite Ht' in Hs |- *.
    pose proof (fleet_ok_claim w id (OpRetry id n) c t now held) as Hcl.
    destruct x as [k|x]; [apply (Hcl (k =? 1))|by apply (Hcl false)]; try done.
    intros Hk%Z.eqb_eq. by eapply retry_takes.
  - apply (fleet_ok_exec c o t now held); [done|apply delete_subseteq|].
    intros w' l' [Hne Hl']%lookup_delete_Some _.
    assert (l_event l ≠ l_event l') as Hev
      by (intros He; apply Hne; by eapply (fleet_exclusive _ Hok)).
    by destruct Ho.
  - destruct Hok as [HL HR HX]. split; simpl in *; [done| |].
    + intros w' l [_ Hl]%lookup_delete_Some. by apply (HR w').
    + intros w1 w2 l1 l2 [_ A1]%lookup_delete_Some [_ A2]%lookup_delete_Some. by apply HX.
  - destruct Hok as [HL HR HX]. split; simpl in *; [by rewrite Hsame| |done]. intros w l Hl.
    unfold holds_row. rewrite Hsame. by apply (HR w).
  - apply (fleet_ok_exec c o t now held); [done|done|]. intros w' l _ Hnow.
    destruct Ho as [stale limit Hst|q]; unfold respects; simpl; [|done]. specialize (Hwindow stale Hst). lia.
Qed.

Lemma fleet_run_ok f f' : rtc fleet_step f f' → fleet_ok f → fleet_ok f'.
Proof. induction 1; eauto using fleet_step_ok. Qed.

(** A fleet at rest: a well-formed ledger, which may hold rows that dead
    workers left in processing, and nobody at work. *)
Definition at_rest (f : Fleet) : Prop := ledger_ok (processed_webhooks (f_db f)) ∧ f_held f = ∅.

Lemma at_rest_ok f : at_rest f → fleet_ok f.
Proof.
  destruct f as [t now held]. intros [HL Hh]. simpl in *. subst. split; [done|done|].
  intros w1 w2 l1 l2 Hl. simpl in Hl. by rewrite lookup_empty in Hl.
Qed.

(** *** What the invariant gives a worker *)

(** What holds of a lease at a table and a time: its settlement, whichever it
    is, affects the row; a delivery and a sweeper that want the event are
    refused, and change nothing. *)
Definition lease_holds (t : Tables) (now : Time) (l : Lease) : Prop :=
  (∀ c reason,
     (mark_processed_stmt (l_event l) c t).1 = POk 1 ∧
     (mark_skipped_stmt (l_event l) reason c t).1 = POk 1 ∧
     (mark_failed_stmt (l_event l) reason c t).1 = POk 1) ∧
  (∀ stale e c, ProcessedWebhook.EventID e = l_event l → window stale → c_now c ≤ now →
     ∃ x, claim_stmt stale e c t = (PErr x, t)) ∧
  (∀ n c, claim_retry_stmt (l_event l) n c t = (POk 0, t)).

Lemma holder_settles t l c reason :
  ledger_ok (processed_webhooks t) → holds_row t l →
  (mark_processed_stmt (l_event l) c t).1 = POk 1 ∧
  (mark_skipped_stmt (l_event l) reason c t).1 = POk 1 ∧
  (mark_failed_stmt (l_event l) reason c t).1 = POk 1.
Proof.
  intros Hok (r & Hr & Hst & _).
  rewrite mark_processed_effect, mark_skipped_effect, mark_failed_effect by done.
  unfold settle_effect. rewrite Hr. unfold is_status. by rewrite Hst.
Qed.

Lemma others_refused t now l :
  holds_row t l → now ≤ l_since l + lease →
  (∀ stale e c, ProcessedWebhook.EventID e = l_event l → window stale → c_now c ≤ now →
     ∃ x, claim_stmt stale e c t = (PErr x, t)) ∧
  (∀ n c, claim_retry_stmt (l_event l) n c t = (POk 0, t)).
Proof.
  intros (r & Hr & Hst & Hup) Hnow.
  destruct (held_refused t (l_event l) r Hr Hst) as [Hd Hs].
  split; [|intros n c; apply Hs]. intros stale e c He Hw Hc. apply Hd; [done|].
  specialize (Hwindow stale Hw). rewrite Hup. lia.
Qed.

(** No two workers hold one event, and a lease is good to its end. *)
Lemma fleet_exclusive_run f f' :
  at_rest f → rtc fleet_step f f' →
  exclusive (f_held f') ∧
  ∀ w l, f_held f' !! w = Some l → lease_holds (f_db f') (f_now f') l.
Proof.
  intros Hrest Hrun. destruct (fleet_run_ok f f' Hrun (at_rest_ok f Hrest)) as [HL HR HX].
  split; [done|]. intros w l Hl. destruct (HR w l Hl) as [Hrow Hnow].
  split; [|by apply others_refused]. intros c reason. by apply holder_settles.
Qed.
End Fleet.

(** ** The code as a worker

    What a delivery does and what a replay does is, statement by statement, what
    a worker of the fleet does: one claim, then work that leaves the ledger
    alone, then one settlement of the claimed event, or none of it. *)

Create HintDb settling.

Section Worker.
Context `{GoUnicode, StripeSDK, Postgres} (lease : Duration) (window : Duration → Prop) (d : Duration).
#[local] Existing Instances UserRepo SubscriptionRepo.
#[local] Instance worker_hooks : WebhookRepository := WebhookRepo_of d.
#[local] Instance worker_ledger : EventLedger UserRepo SubscriptionRepo worker_hooks := pg_ledger d.

Definition steps (now : Time) (held : gmap nat Lease) (w w' : World) : Prop :=
  rtc (fleet_step lease window) (mkFleet (w_db w) now held) (mkFleet (w_db w') now held).

(** Work, then a settlement of [id], then work. *)
Definition settles_once (id : string) (t t' : Tables) : Prop :=
  ∃ t1 o c, processed_webhooks t1 = processed_webhooks t ∧ settles_event id o ∧
    processed_webhooks t' = processed_webhooks (exec c o t1).

(** A method that is one settling statement. *)
Definition settling (id : string) (m : M World (result unit)) : Prop :=
  ∀ w, quiet w → ∃ o, settles_event id o ∧ quiet (m w).2 ∧ w_db (m w).2 = exec (call_of w) o (w_db w).

Lemma settling_call id o op (stmt : Call → Tables → pgres Z * Tables) :
  settles_event id o → (∀ c t, exec c o t = (stmt c t).2) →
  settling id (r ← db_call stmt; mret (settle_result op id r)).
Proof.
  intros Ho Hex w Hq. exists o. split; [done|]. unfold_monad. rewrite db_call_quiet by done. simpl.
  split; [auto with sps|]. by rewrite Hex.
Qed.

Lemma settling_processed id : settling id (MarkEventProcessed id).
Proof. apply (settling_call id (OpProcessed id)); [constructor|done]. Qed.
Lemma settling_skipped id reason : settling id (MarkEventSkipped id reason).
Proof. apply (settling_call id (OpSkipped id (truncate reason))); [constructor|done]. Qed.
Lemma settling_failed id cause : settling id (MarkEventFailed id cause).
Proof. apply (settling_call id (OpFailed id (failureReason cause))); [constructor|done]. Qed.
#[local] Hint Resolve settling_processed settling_skipped settling_failed : settling.

(** The tail of a run: a settlement and an observation. *)
Lemma tail_settles {A} id (m : M World (result unit)) (k : M World A) w w1 :
  settling id m → (∀ v, w_db (k v).2 = w_db v) → quiet w1 →
  processed_webhooks (w_db w1) = processed_webhooks (w_db w) →
  settles_once id (w_db w) (w_db ((_ ← m; k) w1).2).
Proof.
  intros Hm Hk Hq Hrows. unfold mbind, M_bind. destruct (Hm w1 Hq) as (o & Ho & _ & Hdb).
  destruct (m w1) as [x w2]. simpl in *. exists (w_db w1), o, (call_of w1). by rewrite Hk, Hdb.
Qed.

Lemma observe_db s a b st : ∀ v, w_db (observe s a b st v).2 = w_db v.
Proof. intros v. unfold observe. by case_match. Qed.

Lemma observed_db {A} s a b st (x : A) : ∀ v, w_db ((_ ← observe s a b st; mret x) v).2 = w_db v.
Proof. intros v. unfold observe. by case_match. Qed.

(** A branch that ends in a settlement. *)
Ltac settling_tail :=
  apply tail_settles; [auto with settling|first [by intros ?|apply observed_db]|done|done].

Lemma dispatch_rows ev w :
  quiet w → pg_inv w → let w1 := (dispatch ev w).2 in
  quiet w1 ∧ processed_webhooks (w_db w1) = processed_webhooks (w_db w).
Proof.
  intros Hq HI. destruct (keeps_dispatch (L := worker_ledger) ev w Hq HI) as (Hq1 & _ & Hrows). by split.
Qed.

Lemma apply_claimed_settles_once s ev st w :
  quiet w → pg_inv w → settles_once (SDK.Event.ID ev) (w_db w) (w_db (apply_claimed s ev st w).2).
Proof.
  intros Hq HI. unfold apply_claimed. destruct (negb _); [settling_tail|].
  unfold mbind at 1, M_bind at 1. destruct (dispatch_rows ev w Hq HI) as [Hq1 Hrows].
  destruct (dispatch ev w) as [[o e] w1]. simpl in *. destruct e, o; settling_tail.
Qed.

Lemma ReplayEvent_settles_once r w :
  quiet w → pg_inv w →
  settles_once (ProcessedWebhook.EventID r) (w_db w) (w_db (ReplayEvent r w).2).
Proof.
  intros Hq HI. unfold ReplayEvent. destruct (len _ =? 0); [settling_tail|].
  destruct (UnmarshalEvent _) as [ev|]; [|settling_tail].
  destruct (negb _); [settling_tail|].
  unfold mbind at 1, M_bind at 1. destruct (dispatch_rows ev w Hq HI) as [Hq1 Hrows].
  destruct (dispatch ev w) as [[o e] w1]. simpl in *. destruct e, o; settling_tail.
Qed.

(** A settlement of the event a worker holds, and the work around it. *)
Lemma settle_steps n id since t t' now held :
  held !! n = None → settles_once id t t' →
  rtc (fleet_step lease window) (mkFleet t now (<[n := mkLease id since]> held)) (mkFleet t' now held).
Proof.
  intros Hn (t1 & o & c & Hbefore & Ho & Hafter).
  eapply rtc_l; [by apply (fleet_work _ _ t t1)|].
  eapply rtc_l; [apply (fleet_settle _ _ n (mkLease id since) o c t1); [by rewrite lookup_insert_eq|done]|].
  rewrite delete_insert_id by done. by apply rtc_once, fleet_work.
Qed.


(** A turn of the sweeper's loop is one too. *)
Theorem replay_is_a_worker m ev w w1 n held :
  quiet w → pg_inv w → held !! n = None → 0 ≤ lease →
  ClaimEventForRetry (ProcessedWebhook.EventID ev) m w = (Ok true, w1) →
  steps (c_now (call_of w)) held w (ReplayEvent ev w1).2.
Proof.
  intros Hq HI Hn Hl. unfold steps, ClaimEventForRetry. unfold_monad. rewrite db_call_quiet by done.
  pose proof (fleet_retry lease window n (ProcessedWebhook.EventID ev) m (call_of w) (w_db w)
    (c_now (call_of w)) held Hn ltac:(lia)) as Hstep.
  pose proof (exec_ledger_ok (call_of w) (OpRetry (ProcessedWebhook.EventID ev) m) (w_db w) HI) as Hok.
  simpl in Hok. destruct (claim_retry_stmt _ _ _ _) as [[k|x] t]; simpl; [|by intros ?].
  destruct (k =? 1); [|by intros ?]. intros [= <-].
  eapply rtc_l; [exact Hstep|]. apply settle_steps; [done|].
  apply (ReplayEvent_settles_once ev (set_db t (advance w))); [auto with sps|done].
Qed.
End Worker.

(** ** The windows of a deployment *)

Section Deployment.
Context `{GoUnicode, GoMaps, Postgres} (cfg : Config).

(** The stale windows in use: the server's repository is built with none, the
    tools' with the configured one, and the sweeper reclaims by the latter. *)
Inductive deployed_window : Duration → Prop :=
  | window_server : deployed_window (NewWebhookRepo 0)
  | window_tools : deployed_window (NewWebhookRepo (SweeperCfg.StaleClaimAfter (c_Sweeper cfg)))
  | window_sweeper : deployed_window
      (SweeperConfig.StaleClaimAfter (sw_cfg (NewWebhookSweeper (sweeperConfig cfg)))).

(** No window of a configuration that loads is shorter than a delivery's
    deadline, if that deadline is within the server's fixed window. *)
Lemma deployed_windows env :
  Load env = Ok cfg → SweeperCfg.Enabled (c_Sweeper cfg) = true →
  HTTP.WebhookTimeout (c_HTTP cfg) ≤ defaultStaleClaimAfter →
  ∀ stale, deployed_window stale → HTTP.WebhookTimeout (c_HTTP cfg) ≤ stale.
Proof.
  intros Hload Hon Hle. apply loaded_consistent in Hload as Hc.
  destruct (sweeper_sane cfg Hc Hon) as (_ & _ & _ & _ & Hlt).
  pose proof (deadlines cfg Hc (HTTP.WebhookTimeout (c_HTTP cfg)) ltac:(set_solver)) as [Hpos _].
  intros stale Hw. destruct Hw; [done|..].
  - unfold NewWebhookRepo. destruct (Z.leb_spec (SweeperCfg.StaleClaimAfter (c_Sweeper cfg)) 0); lia.
  - simpl. unfold SweeperConfig.or_default.
    destruct (Z.leb_spec (SweeperCfg.StaleClaimAfter (c_Sweeper cfg)) 0); lia.
Qed.

(** C4: no event is ever in two hands.  Take any configuration that loads, with
    the sweeper on and a delivery deadline within the server's fixed five-minute
    window, and any number of request handlers and sweepers running in any
    interleaving over any well-formed ledger, some of them dying on the way.
    If those that live settle within the delivery deadline, two workers never
    hold one event at the same time, every holder's settlement takes effect,
    and everybody else's claim is refused without touching the table. *)
Theorem deployed_claims_exclusive env f f' :
  Load env = Ok cfg → SweeperCfg.Enabled (c_Sweeper cfg) = true →
  HTTP.WebhookTimeout (c_HTTP cfg) ≤ defaultStaleClaimAfter →
  at_rest f → rtc (fleet_step (HTTP.WebhookTimeout (c_HTTP cfg)) deployed_window) f f' →
  exclusive (f_held f') ∧
  ∀ w l, f_held f' !! w = Some l → lease_holds deployed_window (f_db f') (f_now f') l.
Proof.
  intros Hload Hon Hle. apply fleet_exclusive_run. by apply (deployed_windows env).
Qed.
End Deployment.
