(* ===== verification/Lifecycle.v ===== *)
(** * cmd/api/main.go: serving, shutdown, and the command line

    [run] from the environment to its return, with the listeners, the workers
    it starts, the signal, the drain and every deferred call; [main], which
    picks a mode from the flags and turns errors into exit codes; and the probe
    behind the container's health check.  What the network and the operating
    system do is a [Host].  Shown: when [run] fails, and that the pool is closed
    exactly once, after the server has drained. *)

From S2P Require Import Prelude GoStd Strconv Slog Url Config ConfigLaws Logger Pool.
From S2P Require Import Domain Database WebhookRepo SubscriptionRepo UserRepo.
From S2P Require Import RefreshTokenRepo StripeClient Ports WebhookService Sweeper Retention.
From S2P Require Import Auth AuthService Services RateLimit JsonText Http Handlers Admin Middleware Router.
From S2P Require Import Serving Routes Main.
Open Scope Z_scope.

(** ** What is outside *)

(** How [Serve] ends; it never returns nil. *)
Inductive ServeResult := ErrServerClosed | ServeError (e : error).

(** What ends the wait of [run]: the server, or SIGINT or SIGTERM. *)
Inductive Wake := ServeReturned (s : ServeResult) | Signalled.

Record Host := mkHost {
  net_Listen : string → option error;          (* by address *)
  wake : Wake;
  http_Shutdown : option error;                (* within the deadline *)
  http_Close : option error;
  served_until : ServeResult;                  (* what [Serve] returns after a signal *)
}.

(** ** What [run] does to it *)

Inductive Listener := Api | MetricsListener.

Inductive Event :=
  | RetentionStarted | SweeperStarted          (* go worker.Run(signalCtx) *)
  | Listening (l : Listener) | Serving (l : Listener)
  | SignalReceived                             (* signalCtx is done *)
  | SignalsReleased                            (* stop(): and no signal is trapped *)
  | ShutDown (l : Listener) | ForceClosed | Drained
  | ShutdownCancelled                          (* cancel() of shutdownCtx *)
  | LimiterClosed | PoolClosed.

#[export] Instance Listener_eq_dec : EqDecision Listener.
Proof. solve_decision. Defined.
#[export] Instance Event_eq_dec : EqDecision Event.
Proof. solve_decision. Defined.

Record Machine := mkMachine { mc_process : Process; mc_trapping : bool; mc_events : list Event }.

Definition emit (e : Event) : M Machine unit :=
  modify (λ m, mkMachine (mc_process m) (mc_trapping m) (mc_events m ++ [e])).

Definition emit_if (b : bool) (e : Event) : M Machine unit := if b then emit e else mret tt.

Definition on_process {A} (c : M Process A) : M Machine A := λ m,
  let '(a, p) := c (mc_process m) in (a, mkMachine p (mc_trapping m) (mc_events m)).

(** [defer d()] before the rest of a function. *)
Definition deferring {A} (d : M Machine unit) (rest : M Machine A) : M Machine A :=
  a ← rest; _ ← d; mret a.

(** [signal.NotifyContext], and its [stop], which may be called again. *)
Definition trap : M Machine unit := modify (λ m, mkMachine (mc_process m) true (mc_events m)).
Definition stop : M Machine unit := λ m,
  if mc_trapping m then (tt, mkMachine (mc_process m) false (mc_events m ++ [SignalsReleased])) else (tt, m).

(** [db.Close()]. *)
Definition db_Close : M Machine unit := _ ← on_process close_pool; emit PoolClosed.

(** ** The servers *)

Record Server (H : Type) := mkServer {
  Addr : string;
  srv_Handler : H;
  ReadHeaderTimeout : Duration;
  ReadTimeout : Duration;
  WriteTimeout : Duration;
  IdleTimeout : Duration;                      (* zero: [ReadTimeout] *)
}.
Arguments mkServer {H}.
Arguments Addr {H}.

(** What the serving goroutine sends on [serveErr]. *)
Definition serveErr (s : ServeResult) : option error :=
  match s with ErrServerClosed => None | ServeError e => Some e end.

(** The readiness probe asks the pool. *)
Definition db_probe `{PgxLib} : healthProbe := {| db_HealthCheck := mret Pool.HealthCheck |}.

Section Run.
Context `{GoUnicode, GoMaps, PgxLib, AuthLib, StripeSDK, Postgres, RateLib, ChiLib}.
Context (site : string → option (string * Z)) (rand_Read16 : N → string + string).
Context (version commit buildDate : string).
Context (host : Host).

#[local] Existing Instance db_probe.

Definition api_server (s : Started) (health : HealthHandler) : Server Handler :=
  let h := c_HTTP (st_cfg s) in
  mkServer (HTTP.Addr h) (server_handler site rand_Read16 s health)
    (HTTP.ReadHeaderTimeout h) (HTTP.ReadTimeout h) (HTTP.WriteTimeout h) (HTTP.IdleTimeout h).

Definition metrics_server (s : Started) : option (Server (string → string → MuxAnswer AdminPage)) :=
  let h := c_HTTP (st_cfg s) in
  if bool_decide (HTTP.MetricsAddr h = "") then None
  else Some (mkServer (HTTP.MetricsAddr h) NewAdminRouter
    (HTTP.ReadHeaderTimeout h) (HTTP.ReadTimeout h) (HTTP.WriteTimeout h) 0).

(** The end of [run], from the signal on. *)
Definition drain (metrics : bool) : M Machine (option error) :=
  deferring (emit ShutdownCancelled) (
    _ ← emit_if metrics (ShutDown MetricsListener);
    _ ← emit (ShutDown Api);
    _ ← emit_if (bool_decide (is_Some (http_Shutdown host))) ForceClosed;
    _ ← emit Drained;
    mret None).

(** [run] from the listeners on. *)
Definition serve (s : Started) : M Machine (option error) :=
  _ ← emit_if (bool_decide (is_Some (st_retention s))) RetentionStarted;
  _ ← emit_if (bool_decide (is_Some (st_sweeper s))) SweeperStarted;
  health ← on_process (on_world (NewHealthHandler version));
  let srv := api_server s health in
  match net_Listen host (Addr srv) with
  | Some e => mret (Some (wrapf ("listen on " +:+ Addr srv) e))
  | None =>
    _ ← emit (Listening Api);
    let metricsSrv := metrics_server s in
    match metricsSrv ≫= λ m, net_Listen host (Addr m) ≫= λ e, Some (Addr m, e) with
    | Some (addr, e) => mret (Some (wrapf ("listen for metrics on " +:+ addr) e))
    | None =>
      let metrics := bool_decide (is_Some metricsSrv) in
      _ ← emit_if metrics (Listening MetricsListener);
      _ ← emit_if metrics (Serving MetricsListener);
      _ ← emit (Serving Api);
      match wake host with
      | ServeReturned r => mret (wrapf "http server" <$> serveErr r)
      | Signalled => _ ← emit SignalReceived; _ ← stop; drain metrics
      end
    end
  end.

Definition run (env : Env) : M Machine (option error) :=
  match Load env with
  | Err e => mret (Some (wrapf "load configuration" e))
  | Ok cfg =>
    match Logger.New (logger_options cfg version (LogCfg.AddSource (c_Log cfg))) with
    | Err e => mret (Some (wrapf "build logger" e))
    | Ok log =>
      _ ← trap;
      deferring stop (
        d ← on_process (on_pool (Pool.New (database_config cfg) true));
        match d with
        | Err e => mret (Some (wrapf "connect to database" e))
        | Ok db =>
          deferring db_Close (
            b ← on_process (on_world (build cfg log db));
            match b with
            | Err e => mret (Some e)
            | Ok s => deferring (emit LimiterClosed) (serve s)
            end)
        end)
    end
  end.

(** ** [main] *)

Record Flags := mkFlags {
  healthcheck : bool; showVersion : bool; webhookReport : bool; webhookSweep : bool; retentionRun : bool }.

Record Exit := mkExit { code : Z; stdout : string; stderr : string }.

(** [fmt.Fprintln(os.Stderr, what, err)] and [os.Exit(1)]. *)
Definition fatal (what : string) (e : error) : Exit := mkExit 1 "" (what +:+ " " +:+ err_msg e +:+ newline).

(** [http.Get]: a status, or an error. *)
Context (http_Get : string → result Z).

Definition probe_url (env : Env) : string :=
  let port := default "" (env "HTTP_PORT") in
  "http://127.0.0.1:" +:+ (if bool_decide (port = "") then "8080" else port) +:+ "/livez".

Definition probe (env : Env) : option error :=
  match http_Get (probe_url env) with
  | Err e => Some e
  | Ok status => if status =? 200 then None else Some (errors_New ("unexpected status " +:+ Itoa status))
  end.

Definition of_tool (r : result (Z * string)) : Exit :=
  match r with
  | Err e => fatal "error:" e
  | Ok (c, out) => mkExit c out ""
  end.

(** [fuel] bounds the loops of a retention pass; [None] when it runs out. *)
Definition main (fuel : nat) (f : Flags) (env : Env) : M Machine (option Exit) :=
  if showVersion f then
    mret (Some (mkExit 0 ("stripe-payment-service " +:+ version +:+ " (commit " +:+ commit +:+ ", built " +:+
                  buildDate +:+ ")" +:+ newline) ""))
  else if healthcheck f then
    mret (Some (match probe env with Some e => fatal "healthcheck failed:" e | None => mkExit 0 "" "" end))
  else if retentionRun f then
    r ← on_process (runRetentionTool version fuel env); mret (of_tool <$> r)
  else if webhookReport f || webhookSweep f then
    r ← on_process (runWebhookTool version (webhookSweep f) env); mret (Some (of_tool r))
  else
    r ← run env;
    mret (Some (match r with Some e => fatal "fatal:" e | None => mkExit 0 "" "" end)).
End Run.

(** ** Order *)

(** Wherever [b] occurs in a trace, [a] has occurred. *)
Definition before (a b : Event) (l : list Event) : Prop := ∀ l1 l2, l = l1 ++ b :: l2 → a ∈ l1.

Fixpoint before_b (a b : Event) (l : list Event) : bool :=
  match l with
  | [] => true
  | x :: l' => negb (bool_decide (x = b)) && (bool_decide (x = a) || before_b a b l')
  end.

Lemma before_b_sound a b l : before_b a b l = true → before a b l.
Proof.
  induction l as [|x l IH]; simpl; [by intros _ [|] ?|].
  intros [Hb%negb_true_iff%bool_decide_eq_false Ha]%andb_true_iff [|y l1] l2 [= -> ->]; [done|].
  apply orb_true_iff in Ha as [->%bool_decide_eq_true|Ha]; [apply list_elem_of_here|].
  apply list_elem_of_further. by eapply IH.
Qed.

(** How often it occurs. *)
Definition occurs (a : Event) (l : list Event) : nat := length (filter (λ x, x = a) l).

(** What a run that has served leaves in order: the signal, the metrics
    listener, the API, its drain, the limiter, the pool. *)
Record Orderly (l : list Event) : Prop := mkOrderly {
  or_pool_once : occurs PoolClosed l = 1%nat;
  or_serving : before (Serving Api) SignalReceived l;
  or_signal : before SignalReceived (ShutDown Api) l;
  or_released : before SignalsReleased Drained l;
  or_metrics : Serving MetricsListener ∈ l → Drained ∈ l → before (ShutDown MetricsListener) (ShutDown Api) l;
  or_drain : before (ShutDown Api) Drained l;
  or_close : SignalReceived ∈ l → Drained ∈ l ∧ before Drained PoolClosed l;
  or_limiter : before LimiterClosed PoolClosed l;
  or_last : ∀ l1 l2, l = l1 ++ PoolClosed :: l2 → l2 = [] ∨ l2 = [SignalsReleased];
}.

Fixpoint last_b (l : list Event) : bool :=
  match l with
  | [] => true
  | x :: l' => if bool_decide (x = PoolClosed) then bool_decide (l' = [] ∨ l' = [SignalsReleased]) else last_b l'
  end.

Lemma last_b_sound l l1 l2 :
  last_b l = true → occurs PoolClosed l = 1%nat → l = l1 ++ PoolClosed :: l2 → l2 = [] ∨ l2 = [SignalsReleased].
Proof.
  revert l1. induction l as [|x l IH]; intros [|y l1]; simpl; try done.
  - intros Hl Ho [= -> ->]. by rewrite bool_decide_eq_true_2, bool_decide_eq_true in Hl.
  - intros Hl Ho [= -> ->]. case_bool_decide as Hy; [|by apply (IH l1); [..|]; 
      try (unfold occurs in *; rewrite filter_cons_False in Ho by done)].
    subst. unfold occurs in Ho. rewrite filter_cons_True, filter_app, filter_cons_True in Ho by done.
    simpl in Ho. rewrite length_app in Ho. simpl in Ho. lia.
Qed.

Definition orderly_b (l : list Event) : bool :=
  (occurs PoolClosed l =? 1)%nat && before_b (Serving Api) SignalReceived l &&
  before_b SignalReceived (ShutDown Api) l && before_b SignalsReleased Drained l &&
  (negb (bool_decide (Serving MetricsListener ∈ l ∧ Drained ∈ l)) ||
     before_b (ShutDown MetricsListener) (ShutDown Api) l) &&
  before_b (ShutDown Api) Drained l &&
  (negb (bool_decide (SignalReceived ∈ l)) || (bool_decide (Drained ∈ l) && before_b Drained PoolClosed l)) &&
  before_b LimiterClosed PoolClosed l && last_b l.

Lemma orderly_b_sound l : orderly_b l = true → Orderly l.
Proof.
  unfold orderly_b. rewrite !andb_true_iff, !orb_true_iff, !andb_true_iff, !negb_true_iff, !bool_decide_eq_true,
    !bool_decide_eq_false. intros ((((((((Ho%Nat.eqb_eq & H1) & H2) & H3) & H4) & H5) & H6) & H7) & H8).
  split; try by apply before_b_sound.
  - done.
  - intros Hm Hd. apply before_b_sound. destruct H4 as [Hn|?]; [by destruct Hn|done].
  - intros Hs. destruct H6 as [?|[??]]; [done|]. split; [done|by apply before_b_sound].
  - intros l1 l2. by apply last_b_sound.
Qed.

(** ** Laws *)

Section Laws.
Context `{GoUnicode, GoMaps, PgxLib, AuthLib, StripeSDK, Postgres, RateLib, ChiLib}.
Context (site : string → option (string * Z)) (rand_Read16 : N → string + string) (version : string).
Context (host : Host).

Hypothesis bcrypt_costs : bcrypt_MinCost ≤ 10 ∧ 31 ≤ bcrypt_MaxCost.
Hypothesis bcrypt_hashes : ∀ salt password c,
  bcrypt_MinCost ≤ c ≤ bcrypt_MaxCost → len password ≤ MaxPasswordBytes →
  ∃ d, bcrypt_Generate salt password c = inl d.

(** The reasons a run with this configuration has to fail once its pool is open. *)
Definition serve_failure (h : HTTP.t) : option error :=
  match net_Listen host (HTTP.Addr h) with
  | Some e => Some (wrapf ("listen on " +:+ HTTP.Addr h) e)
  | None =>
    match (if bool_decide (HTTP.MetricsAddr h = "") then None else net_Listen host (HTTP.MetricsAddr h)) with
    | Some e => Some (wrapf ("listen for metrics on " +:+ HTTP.MetricsAddr h) e)
    | None => match wake host with ServeReturned (ServeError e) => Some (wrapf "http server" e) | _ => None end
    end
  end.

Lemma serve_runs s m :
  mc_trapping m = true → mc_events m = [] →
  let '(r, m') := serve site rand_Read16 version host s m in
  r = serve_failure (c_HTTP (st_cfg s)) ∧ mc_process m' = mc_process m ∧
  Orderly (mc_events m' ++ [LimiterClosed; PoolClosed] ++
    if mc_trapping m' then [SignalsReleased] else []).
Proof.
  intros Ht He. unfold serve, serve_failure, drain, deferring, metrics_server, NewHealthHandler.
  destruct m as [p t ev]. simpl in Ht, He. subst t ev. destruct p as [o w].
  unfold on_process, on_world. unfold_monad. simpl.
  destruct (st_retention s), (st_sweeper s); simpl;
    (destruct (net_Listen host (HTTP.Addr _)) as [e|]; simpl;
      [split_and!; [done|done|by apply orderly_b_sound]|]);
    destruct (bool_decide (HTTP.MetricsAddr _ = "")); simpl;
    try (destruct (net_Listen host (HTTP.MetricsAddr _)) as [e|]; simpl;
      [split_and!; [done|done|by apply orderly_b_sound]|]);
    destruct (wake host) as [[]|]; simpl;
    try (split_and!; [done|done|by apply orderly_b_sound]);
    destruct (http_Shutdown host); simpl; (split_and!; [done|done|by apply orderly_b_sound]).
Qed.

End Laws.

(** ** The container's health check *)

Section Probe.
Context `{GoUnicode, GoMaps, PgxLib, AuthLib, StripeSDK, Postgres, RateLib, ChiLib}.
Context (site : string → option (string * Z)) (rand_Read16 : N → string + string) (version : string).
Context (http_Get : string → result Z).

#[local] Existing Instance db_probe.

Lemma probe_url_plain env cfg :
  Load env = Ok cfg →
  (∀ v, env "HTTP_PORT" = Some v → v = "" ∨ v = Itoa (HTTP.Port (c_HTTP cfg))) →
  probe_url env = "http://127.0.0.1" +:+ HTTP.Addr (c_HTTP cfg) +:+ "/livez".
Proof.
  intros HL Hplain. unfold probe_url, HTTP.Addr.
  enough ((if bool_decide (default "" (env "HTTP_PORT") = "") then "8080" else default "" (env "HTTP_PORT"))
    = Itoa (HTTP.Port (c_HTTP cfg))) as -> by done.
  assert (default "" (env "HTTP_PORT") = "" → Itoa (HTTP.Port (c_HTTP cfg)) = "8080") as H8080.
  { intros He. apply Load_Ok in HL as [-> _]. rewrite config_of_reads.
    change (HTTP.Port (c_HTTP (read_config env))) with (parsed_value Atoi env "HTTP_PORT" 8080).
    unfold parsed_value, lookup_env. by destruct (env "HTTP_PORT") as [v|]; simpl in *; [subst v|]. }
  case_bool_decide as He; [by rewrite H8080|].
  destruct (env "HTTP_PORT") as [v|]; simpl in *; [|done]. by destruct (Hplain v eq_refl).
Qed.

(** the container is healthy exactly as long as its process answers.  With
    [HTTP_PORT] unset or in plain digits, the probe asks the address the server
    listens on; whatever state the server is in, and whether or not it can
    reach its database, it answers that request with 200, and the probe
    succeeds. *)
Theorem healthcheck_is_liveness env s health r w lim ls :
  Load env = Ok (st_cfg s) →
  (∀ v, env "HTTP_PORT" = Some v → v = "" ∨ v = Itoa (HTTP.Port (c_HTTP (st_cfg s)))) →
  Method r = "GET" → route_path r = "/livez" →
  let srv := api_server site rand_Read16 s health in
  let '(e, c) := srv_Handler _ srv r (opened w lim ls) in
  (∀ hd body, received e (cn_writer c) = Some (hd, body) →
    http_Get ("http://127.0.0.1" +:+ Addr srv +:+ "/livez") = Ok (hd_status hd)) →
  probe http_Get env = None.
Proof.
  intros HL Hplain Hm Hp srv. unfold probe. rewrite (probe_url_plain _ _ HL Hplain).
  pose proof (@open_routes_served _ _ _ _ _ UserRepo SubscriptionRepo (st_webhook_repo s) RefreshTokenRepo db_probe site (st_log s) rand_Read16 (NewStripeHandler (st_webhooks s) (st_checkout s))
    (auth_handler s) health (router_config s) "GET" "/livez" None (Live health) r w lim ls) as Hs.
  specialize (Hs ltac:(apply list_elem_of_here) Hm Hp). unfold served in Hs.
  change (srv_Handler _ srv) with (server_handler site rand_Read16 s health). unfold server_handler.
  destruct (NewRouter _ _ _ _ _ _ _ r _) as [e c].
  destruct Hs as (hd & body & Hrec & _ & w1 & _ & Hby). intros Hget.
  change (HTTP.Addr (c_HTTP (st_cfg s))) with (Addr srv). rewrite (Hget _ _ Hrec).
  unfold by_handler, Live in Hby. unfold_monad. simpl in Hby. destruct Hby as [[-> _] _]. done.
Qed.
End Probe.

(** ** Exit codes *)

Section Exits.
Context `{GoUnicode, GoMaps, PgxLib, AuthLib, StripeSDK, Postgres, RateLib, ChiLib}.
Context (site : string → option (string * Z)) (rand_Read16 : N → string + string).
Context (version commit buildDate : string) (host : Host) (http_Get : string → result Z).

Lemma webhook_tool_code sweep env p c out p' :
  runWebhookTool version sweep env p = (Ok (c, out), p') → c = 0 ∨ c = 2.
Proof.
  intros Hr. apply tool_run in Hr as (cfg & w & _ & _ & Hb); [|done].
  assert (∀ stats, exit_code stats = 0 ∨ exit_code stats = 2) as Hc.
  { intros stats. unfold exit_code. destruct (0 <? _); auto. }
  destruct sweep; unfold sweep_body, report_body in Hb; unfold_monad.
  - destruct (StripeClient.New _); [|done]. destruct (Sweep _ w) as [x w1]. by simplify_eq/=.
  - destruct (GetLedgerStats _ w) as [[stats|e] w1]; by simplify_eq/=.
Qed.

Lemma retention_tool_code fuel env p c out p' :
  runRetentionTool version fuel env p = (Some (Ok (c, out)), p') → c = 0 ∨ c = 2.
Proof.
  intros Hr. apply tool_run in Hr as (cfg & w & _ & _ & Hb); [|done].
  unfold retention_body in Hb. unfold_monad. destruct (RunOnce _ _ w) as [[res|] w1]; [|done].
  destruct (Retention.Stats _ w1) as [[stats|e] w2]; simplify_eq/=. destruct (0 <? _); auto.
Qed.

(** An exit code is 0, 1 or 2, and 1 when and only when there is an error to
    report on standard error and nothing else to print. *)
Definition truthful (x : Exit) : Prop :=
  (code x = 0 ∨ code x = 1 ∨ code x = 2) ∧ (code x = 1 ↔ stderr x ≠ "") ∧ (code x = 1 → stdout x = "").

Lemma truthful_fatal what e : what ≠ "" → truthful (fatal what e).
Proof. intros Hw. unfold truthful, fatal. simpl. split_and!; auto. by destruct what. Qed.

Lemma truthful_quiet c out : c = 0 ∨ c = 2 → truthful (mkExit c out "").
Proof. unfold truthful. simpl. intros Hc. split_and!; [lia|split; [lia|done]|lia]. Qed.

Lemma truthful_tool r : (∀ c out, r = Ok (c, out) → c = 0 ∨ c = 2) → truthful (of_tool r).
Proof. destruct r as [[c out]|e]; intros Hr; [by eapply truthful_quiet, Hr|by apply truthful_fatal]. Qed.

(** the process exits with 0, 1 or 2: with 1 exactly when it reports an
    error, with 2 only from one of the tools; [-version] and [-healthcheck]
    touch nothing. *)
Theorem main_exit_code fuel f env m x m' :
  main site rand_Read16 version commit buildDate host http_Get fuel f env m = (Some x, m') →
  truthful x ∧ (code x = 2 → retentionRun f || webhookReport f || webhookSweep f = true) ∧
  (showVersion f || healthcheck f = true → m' = m).
Proof.
  unfold main. destruct f as [h v rep sw ret]; simpl.
  destruct v; [intros [= <- <-]; split_and!; [by apply truthful_quiet; left|done..]|].
  destruct h; [intros [= <- <-]; destruct (probe _ _);
    (split_and!; [first [by apply truthful_fatal|by apply truthful_quiet; left]|done..])|].
  unfold on_process. unfold_monad. destruct ret; [|destruct (rep || sw) eqn:Hrs].
  - destruct (runRetentionTool _ _ _ _) as [[r|] p'] eqn:Hr; simpl; [|done]. intros [= <- <-].
    split_and!; [|done..]. apply truthful_tool. intros c out ->. by eapply retention_tool_code.
  - destruct (runWebhookTool _ _ _ _) as [r p'] eqn:Hr. intros [= <- <-].
    split_and!; [|done..]. apply truthful_tool. intros c out ->. by eapply webhook_tool_code.
  - destruct (run _ _ _ _ _ _) as [[e|] m1]; intros [= <- <-];
      (split_and!; [first [by apply truthful_fatal|by apply truthful_quiet; left]|done..]).
Qed.
End Exits.
