(* ===== verification/Witnesses.v ===== *)
(** * Concrete runs

    The theorems about the ledger, the repositories, the services, the workers
    and the webhook endpoint, each applied at a concrete state: the parameters
    are instantiated by small executable functions, and every hypothesis is
    discharged by evaluation. *)

From S2P Require Import Prelude GoStd Domain Database WebhookRepo Ledger Purge SubscriptionRepo.
From S2P Require Import Subscriptions UserRepo RefreshTokenRepo RefreshTokens StripeClient Ports.
From S2P Require Import Sessions WebhookService Processing Sweeper Recovery Retention Auth AuthService Services.
From S2P Require Import RateLimit Http Handlers Migrations.
Open Scope Z_scope.

(** ** Parameters *)

#[local] Instance unicode0 : GoUnicode := {| unicode_ToLower := λ s, s; unicode_Quote := λ s, s |}.

#[local] Instance postgres0 : Postgres := {|
  jsonb_in := λ s, Some (JObj [("id", JStr s); ("type", JStr "t"); ("data", JObj [("object", JObj
    [("id", JStr "sub_1"); ("customer_email", JStr "ann@example.com")])])]);
  jsonb_out := λ j, match jget j "id" with Some (JStr s) => s | _ => "" end;
  citext_fold := map_string lower_byte;
  pg_has_space := λ s, Contains s " ";
|}.

(** A Stripe whose events are told apart by their payload. *)
Definition item0 : SDK.SubscriptionItem.t :=
  SDK.SubscriptionItem.mk (Some (SDK.Price.mk "price_1" "usd" 900 None)) 1 1000 2000.
Definition stripe_sub0 : SDK.Subscription.t :=
  SDK.Subscription.mk "sub_1" (Some "cus_1") "active" (Some [item0]) false 0 0 0 0 0 None None ∅.
Definition updated0 : string := "customer.subscription.updated".
Definition checkout0 : string := "checkout.session.completed".
Definition type0 (payload : string) : string :=
  if bool_decide (payload = "[]") then checkout0 else updated0.
Definition event0 (id ty : string) : SDK.Event.t := SDK.Event.mk id ty false 5000 "" None "raw".

#[local] Instance stripe0 : StripeSDK := {|
  APIVersion := "2026-01-01.x";
  CheckoutSessionModeSubscription := "subscription";
  CheckoutSessionUIModeEmbeddedPage := "embedded_page";
  ConstructEvent := λ now payload header key tol ign,
    if bool_decide (header = "signed") then inl (event0 "evt_1" (type0 payload)) else inr "no signature";
  UnmarshalEvent := λ payload, inl (event0 "evt_1" (type0 payload));
  UnmarshalCheckoutSession := λ _, inr "not a session";
  UnmarshalSubscription := λ _, inl stripe_sub0;
  UnmarshalInvoice := λ _, inr "not an invoice";
  SessionsCreate := λ n p, inl (SDK.CreatedSession.mk "cs_1" "https://pay" "" 0);
  PortalSessionsCreate := λ n cus url, inl ("bps_1", "https://portal/" +:+ cus);
  SubscriptionsRetrieve := λ n id, inl stripe_sub0;
  uuid_Parse := λ s, Some (N.of_nat (String.length s));
  uuid_String := λ u, of_bytes (repeat 97%N (N.to_nat u));
|}.

(** ** State *)

Definition T (sec : Z) : Time := time_Unix sec.

Definition row0 (st : WebhookStatus) (n : Z) (e : option string) (p : option Time) : Row.t :=
  Row.mk "evt_1" "customer.subscription.updated" None false None st n e
    (jsonb_in "evt_1") (T 5000) (T 5000) p (T 5000) (T 5000) None.

Definition user0 : User.t :=
  User.mk 7%N "ann@example.com" None (Some "digest") None (Some "cus_1") ∅ (T 1) (T 1) None.

Definition sub0 : Subscription.t :=
  Subscription.mk 9%N 7%N "sub_1" "cus_1" "price_1" None "active" 1 None None (T 1000) (T 2000)
    false None None None None None None None None 0 None None None None None None ∅ (T 1) (T 1).

Definition db0 (hooks : gmap string Row.t) : Tables :=
  mkTables {[ 7%N := user0 ]} {[ "sub_1" := sub0 ]} hooks ∅.

Definition processing0 : Tables := db0 {[ "evt_1" := row0 WebhookProcessing 1 None None ]}.
Definition failed0 : Tables := db0 {[ "evt_1" := row0 WebhookFailed 1 (Some "boom") None ]}.
Definition succeeded0 : Tables := db0 {[ "evt_1" := row0 WebhookSucceeded 1 None (Some (T 5001)) ]}.

Definition world0 (t : Tables) (sec : Z) : World :=
  mkWorld t (T sec) None (λ n, N.of_nat (100 + n)) 0 [] [].

Definition at0 (sec : Z) : Call := mkCall (T sec) [] 55%N.

Lemma quiet0 t sec : quiet (world0 t sec).
Proof. split; [done|constructor]. Qed.

Definition delivery0 : ProcessedWebhook.t :=
  ProcessedWebhook.mk "evt_1" "customer.subscription.updated" None false None "" 0 None "{}"
    (T 5000) time_zero None time_zero time_zero.

Lemma pair_fst {A B} (p : A * B) a : p.1 = a → p = (a, p.2).
Proof. intros <-. by destruct p. Qed.

(** ** The ledger *)

Lemma ledger_ok0 st n e p :
  Row.violation (row0 st n e p) = None → ledger_ok {[ "evt_1" := row0 st n e p ]}.
Proof. intros Hv. apply map_Forall_singleton. split; [done|]. by apply violation_None. Qed.

Lemma settled_forever_witness :
  ∃ r', processed_webhooks (exec_all
    [(at0 6000, OpClaim Minute delivery0); (at0 6001, OpRetry "evt_1" 6);
     (at0 6002, OpPurge (mkPurgeQuery 0 0 10))] succeeded0) !! "evt_1" = Some r' ∧
    settlement r' = (WebhookSucceeded, 1, None, Some (T 5001)).
Proof. apply (settled_forever _ succeeded0 "evt_1" (row0 WebhookSucceeded 1 None (Some (T 5001)))); reflexivity. Defined.

Lemma claim_exclusive_witness :
  processed_webhooks (exec_all [(at0 5010, OpClaim Minute delivery0)] processing0) !! "evt_1" =
    Some (row0 WebhookProcessing 1 None None) ∧
  ∃ e, claim_stmt Minute delivery0 (at0 5020) (exec_all [(at0 5010, OpClaim Minute delivery0)] processing0) =
    (PErr e, exec_all [(at0 5010, OpClaim Minute delivery0)] processing0).
Proof.
  destruct (claim_exclusive [(at0 5010, OpClaim Minute delivery0)] processing0 "evt_1"
    (row0 WebhookProcessing 1 None None)) as (H1 & H2 & _).
  - reflexivity.
  - reflexivity.
  - apply Forall_singleton. vm_compute. discriminate.
  - split; [exact H1|]. apply H2; [reflexivity|]. vm_compute. discriminate.
Defined.

Lemma retry_budget_witness :
  ∃ r', processed_webhooks (exec_all [(at0 6000, OpRetry "evt_1" 3); (at0 6001, OpFailed "evt_1" "x");
      (at0 6002, OpRetry "evt_1" 3); (at0 6003, OpFailed "evt_1" "x"); (at0 6004, OpRetry "evt_1" 3)]
    failed0) !! "evt_1" = Some r' ∧ 1 ≤ Row.attempts r' ≤ Z.max 1 3.
Proof.
  apply (retry_budget _ failed0 "evt_1" (row0 WebhookFailed 1 (Some "boom") None) 3).
  - reflexivity.
  - repeat constructor; vm_compute; discriminate.
Defined.


Lemma stale_worker_settles_witness :
  ∃ new, (claim_stmt Minute delivery0 (at0 9000) processing0).1 = POk new ∧
  Row.attempts new = 2 ∧
  ∃ t2, mark_processed_stmt "evt_1" (at0 9001) (claim_stmt Minute delivery0 (at0 9000) processing0).2 =
      (POk 1, t2) ∧
    mark_failed_stmt "evt_1" "late" (at0 9002) t2 = (POk 0, t2).
Proof.
  assert (∃ new, (claim_stmt Minute delivery0 (at0 9000) processing0).1 = POk new) as (new & H1).
  { eexists. vm_compute. reflexivity. }
  exists new. split; [exact H1|].
  apply (stale_worker_settles Minute delivery0 (at0 9000) (at0 9001) (at0 9002) "late" processing0
    (row0 WebhookProcessing 1 None None) new).
  - apply ledger_ok0. reflexivity.
  - reflexivity.
  - reflexivity.
  - exact (pair_fst _ _ H1).
Defined.

(** ** The purge *)

Definition purge0 : PurgeQuery := mkPurgeQuery Minute Hour 10.

Lemma purge_pass_witness :
  ∃ (ids : list string) (ss : list WebhookStatus) t', purge_stmt purge0 (at0 9000) succeeded0 = (POk ss, t') ∧ NoDup ids ∧
    length ss = length ids ∧ Z.of_nat (length ids) = 1.
Proof.
  destruct (purge_pass purge0 (at0 9000) succeeded0) as (ids & ss & t' & H1 & H2 & H3 & H4 & _).
  - apply ledger_ok0. reflexivity.
  - vm_compute. discriminate.
  - exists ids, ss, t'. split_and!; [exact H1|exact H2|exact H3|]. rewrite H4. reflexivity.
Defined.

(** ** Subscriptions *)

Definition status0 (st : SubscriptionStatus) (sec : Z) : SubscriptionStatusUpdate.t :=
  SubscriptionStatusUpdate.mk "sub_1" st "evt_s" (T sec) None None None None (Some (T sec)) None None
    None None None None.
Definition invoice0 (ok : bool) (sec : Z) : InvoicePaymentUpdate.t :=
  InvoicePaymentUpdate.mk "sub_1" ok "evt_i" (T sec) (Some "in_1") None None None None.

Lemma UpdateSubscriptionStatus_atomic_witness :
  ∃ s, (UpdateSubscriptionStatus (status0 "past_due" 10) (world0 (db0 ∅) 100)).1 = Ok s ∧
    Subscription.Status s = "past_due" ∧
    ∃ c, status_tx (status0 "past_due" 10) c (db0 ∅) =
      (Ok s, w_db (UpdateSubscriptionStatus (status0 "past_due" 10) (world0 (db0 ∅) 100)).2).
Proof.
  assert (∃ s, (UpdateSubscriptionStatus (status0 "past_due" 10) (world0 (db0 ∅) 100)).1 = Ok s ∧
    Subscription.Status s = "past_due") as (s & H1 & H2).
  { eexists. split; [vm_compute; reflexivity|reflexivity]. }
  exists s. split; [exact H1|]. split; [exact H2|].
  exact (UpdateSubscriptionStatus_atomic (status0 "past_due" 10) (world0 (db0 ∅) 100) (Ok s) _
    (pair_fst _ _ H1)).
Defined.

Lemma subs_ok0 : subs_ok {[ "sub_1" := sub0 ]}.
Proof. apply map_Forall_singleton. by vm_compute. Qed.

Lemma subscriptions_wf_witness :
  subs_ok (subscriptions (w_db (UpdateSubscriptionStatus (status0 "canceled" 10) (world0 (db0 ∅) 100)).2)).
Proof.
  destruct (subscriptions_wf (world0 (db0 ∅) 100)) as (_ & H2 & _); [exact subs_ok0|].
  exact (H2 (status0 "canceled" 10)).
Defined.

Definition stream0 : list (Call * sub_event) := [
  (at0 100, EvStatus (status0 "past_due" 30)); (at0 101, EvInvoice (invoice0 false 20));
  (at0 102, EvStatus (status0 "active" 10)); (at0 103, EvInvoice (invoice0 false 40));
  (at0 104, EvStatus (status0 "past_due" 30))].

Lemma streams_independent_witness :
  ∃ s', subscriptions (deliver_all stream0 (db0 ∅)) !! "sub_1" = Some s' ∧ sub_violation s' = None ∧
    status_view s' = foldl lww (status_view sub0) (statuses stream0) ∧
    invoice_view s' = foldl dun (invoice_view sub0) (invoices stream0).
Proof.
  apply (streams_independent stream0 (db0 ∅) "sub_1" sub0).
  - repeat constructor.
  - reflexivity.
  - reflexivity.
  - repeat constructor.
  - vm_compute. discriminate.
Defined.


Lemma dunning_counts_witness :
  ∃ s', subscriptions (deliver_all stream0 (db0 ∅)) !! "sub_1" = Some s' ∧
    Subscription.PaymentFailureCount s' = 2 ∧ (Subscription.InDunning s' = true ↔ 0 < 2).
Proof.
  apply (dunning_counts stream0 (db0 ∅) "sub_1" sub0).
  - repeat constructor.
  - reflexivity.
  - reflexivity.
  - repeat constructor.
  - vm_compute. discriminate.
  - repeat constructor.
Defined.

(** ** Users *)

Lemma users_ok0 : users_ok {[ 7%N := user0 ]}.
Proof.
  split; [by apply map_Forall_singleton|].
  intros k1 k2 u1 u2 H1%lookup_singleton_Some H2%lookup_singleton_Some _.
  by destruct H1 as [<- _], H2 as [<- _].
Qed.

Lemma users_unique_witness :
  users_ok (users (w_db (CreateUser (User.set_Email "bob@example.com" user0) (world0 (db0 ∅) 100)).2)).
Proof.
  destruct (users_unique (User.set_Email "bob@example.com" user0) (world0 (db0 ∅) 100)) as [H1 _];
    [exact users_ok0|]. exact H1.
Defined.

Lemma find_by_email_witness :
  GetUserByEmail " ANN@Example.COM " (world0 (db0 ∅) 100) = (Ok user0, advance (world0 (db0 ∅) 100)).
Proof.
  apply (find_by_email (world0 (db0 ∅) 100) 7%N user0).
  - apply quiet0.
  - exact users_ok0.
  - reflexivity.
  - reflexivity.
  - vm_compute. reflexivity.
Defined.

(** ** Refresh tokens *)

Definition hash0 (n : N) : string := of_bytes (repeat n 64).
Definition token0 (h : N) (used : option Time) : RefreshToken.t :=
  RefreshToken.mk h 7%N (hash0 h) 3%N (T 1) (T 9000) used None None (T 1) (T 1).
Definition tokens0 (l : list (string * RefreshToken.t)) : Tables :=
  set_refresh_tokens (list_to_map l) (db0 ∅).
Definition live0 : Tables := tokens0 [(hash0 97, token0 97 None)].
Definition used0 : Tables := tokens0 [(hash0 97, token0 97 (Some (T 50))); (hash0 98, token0 98 None)].
Definition consume0 : ConsumeRefreshToken.t := ConsumeRefreshToken.mk (hash0 97) (hash0 99) (T 8000).

Lemma ConsumeRefreshToken_atomic_witness :
  ∃ s, (RefreshTokenRepo.ConsumeRefreshToken consume0 (world0 live0 100)).1 = Ok s ∧
    RefreshToken.TokenHash s = hash0 99 ∧
    exchanged consume0 live0 (Ok s)
      (w_db (RefreshTokenRepo.ConsumeRefreshToken consume0 (world0 live0 100)).2).
Proof.
  assert (∃ s, (RefreshTokenRepo.ConsumeRefreshToken consume0 (world0 live0 100)).1 = Ok s ∧
    RefreshToken.TokenHash s = hash0 99) as (s & H1 & H2).
  { eexists. split; [vm_compute; reflexivity|vm_compute; reflexivity]. }
  exists s. split; [exact H1|]. split; [exact H2|].
  exact (ConsumeRefreshToken_atomic consume0 (world0 live0 100) (Ok s) _ (pair_fst _ _ H1)).
Defined.

Lemma tokens_ok0 : tokens_ok (refresh_tokens live0).
Proof.
  assert (refresh_tokens live0 = {[ hash0 97 := token0 97 None ]}) as -> by reflexivity. split.
  - intros k t [<- <-]%lookup_singleton_Some. reflexivity.
  - intros k1 k2 t1 t2 [<- _]%lookup_singleton_Some [<- _]%lookup_singleton_Some _. reflexivity.
  - intros k1 k2 t1 t2 [<- _]%lookup_singleton_Some [<- _]%lookup_singleton_Some _ _ _. reflexivity.
Qed.

Definition ops0 : list (Call * token_op) :=
  [(at0 100, TConsume (T 100) (T 100) (at0 101) consume0);
   (at0 200, TConsume (T 200) (T 200) (at0 201) consume0); (at0 300, TDelete 0 10)].

Lemma one_live_token_witness : tokens_ok (refresh_tokens (token_run ops0 live0)).
Proof. apply (one_live_token ops0 live0 tokens_ok0). repeat split. Defined.

Lemma table_refines_sessions_witness : simulates ops0 live0.
Proof. apply (table_refines_sessions ops0 live0 tokens_ok0). repeat split. Defined.

Lemma reuse_kills_family_witness :
  (consume_tx (T 100) (T 100) (at0 100) (at0 101) consume0 used0).1 = Err ErrTokenReused ∧
  ∀ k t at_, refresh_tokens (token_run ops0
      (consume_tx (T 100) (T 100) (at0 100) (at0 101) consume0 used0).2) !! k = Some t →
    RefreshToken.FamilyID t = 3%N → RefreshToken.Usable t at_ = false.
Proof.
  destruct (reuse_kills_family (T 100) (T 100) (at0 100) (at0 101) consume0
    (token0 97 (Some (T 50))) used0 ops0) as [H1 H2].
  - reflexivity.
  - vm_compute. eauto.
  - repeat constructor.
  - split; [exact H1|]. intros k t at_ Ht Hf. by apply (H2 k t at_ Ht).
Defined.

Lemma exchanged_once_witness :
  ∃ s, (consume_tx (T 100) (T 100) (at0 100) (at0 101) consume0 live0).1 = Ok s ∧
  ∀ n cl d d' j, ConsumeRefreshToken.PresentedHash j = hash0 97 →
    ∃ e, (consume_tx n cl d d' j (token_run ops0
           (consume_tx (T 100) (T 100) (at0 100) (at0 101) consume0 live0).2)).1 = Err e.
Proof.
  assert (∃ s, (consume_tx (T 100) (T 100) (at0 100) (at0 101) consume0 live0).1 = Ok s) as (s & H1).
  { eexists. vm_compute. reflexivity. }
  exists s. split; [exact H1|].
  apply (exchanged_once (T 100) (T 100) (at0 100) (at0 101) consume0 s live0 _ ops0 (pair_fst _ _ H1)).
  - vm_compute. discriminate.
  - repeat constructor; vm_compute; discriminate.
Defined.

(** ** Processing *)

#[local] Instance users_repo0 : UserRepository := UserRepo.
#[local] Instance subs_repo0 : SubscriptionRepository := SubscriptionRepo.
#[local] Instance hooks_repo0 : WebhookRepository := WebhookRepo_of 0.
#[local] Instance tokens_repo0 : RefreshTokenRepository := RefreshTokenRepo.
#[local] Instance ledger0 : EventLedger users_repo0 subs_repo0 hooks_repo0 := pg_ledger 0.

Definition svc0 : WebhookService :=
  mkWebhookService (Client.mk (20 * Second) 2 "whsec" (5 * Minute) false) true.

Lemma empty_ok0 sec : led_inv (world0 (db0 ∅) sec).
Proof. apply map_Forall_empty. Qed.

Lemma unverified_no_effect_witness :
  (ProcessEvent svc0 "{}" "forged" (world0 processing0 6000)).1.1 = OutcomeFailed ∧
  w_db (ProcessEvent svc0 "{}" "forged" (world0 processing0 6000)).2 = processing0.
Proof.
  pose proof (unverified_no_effect svc0 "{}" "forged" (world0 processing0 6000) eq_refl) as H.
  destruct (ProcessEvent svc0 "{}" "forged" (world0 processing0 6000)) as [[o e] w'].
  destruct H as (-> & _ & [->|[secs ->]]); by split.
Defined.

Definition run0 : (Outcome * option error) * World := ProcessEvent svc0 "{}" "signed" (world0 (db0 ∅) 6000).

Lemma run0_processed : run0.1 = (OutcomeProcessed, None).
Proof. vm_compute. reflexivity. Qed.

Lemma ProcessEvent_outcomes_witness :
  run0.1.1 = OutcomeProcessed ∧ led_status run0.2 "evt_1" = Some WebhookSucceeded.
Proof.
  pose proof (ProcessEvent_outcomes svc0 "{}" "signed" (world0 (db0 ∅) 6000)
    (event0 "evt_1" updated0) (quiet0 _ _) (empty_ok0 _) eq_refl) as H. fold run0 in H.
  pose proof run0_processed as Ho. destruct run0 as [[o e] w']. injection Ho as -> ->.
  split; [reflexivity|]. apply H.
Defined.

Lemma run0_good : quiet run0.2 ∧ led_inv run0.2.
Proof.
  pose proof (ProcessEvent_cases svc0 "{}" "signed" (world0 (db0 ∅) 6000)
    (event0 "evt_1" updated0) (quiet0 _ _) (empty_ok0 _) eq_refl) as H. fold run0 in H.
  destruct run0 as [[o e] w']. tauto.
Qed.


Definition failed_run0 : (Outcome * option error) * World :=
  ProcessEvent svc0 "[]" "signed" (world0 (db0 ∅) 6000).

Lemma failed_run0_failed : ∃ e, failed_run0.1 = (OutcomeFailed, e).
Proof. eexists. vm_compute. reflexivity. Qed.


Lemma ReplayEvent_settles_witness :
  settled_run "evt_1" (world0 processing0 6000) (ReplayEvent delivery0 (world0 processing0 6000)).
Proof.
  apply (ReplayEvent_settles delivery0 (world0 processing0 6000)).
  - apply quiet0.
  - apply (ledger_ok0 WebhookProcessing 1 None None). reflexivity.
  - reflexivity.
Defined.

Lemma mapped_update_fits_witness :
  ∃ u, statusUpdateFrom stripe_sub0 (event0 "evt_1" updated0) true = Ok u ∧
    status_fits None u = true ∧ SubscriptionStatusUpdate.Status u = SubscriptionCanceled.
Proof.
  assert (∃ u, statusUpdateFrom stripe_sub0 (event0 "evt_1" updated0) true = Ok u) as [u Hu].
  { eexists. vm_compute. reflexivity. }
  exists u. split; [exact Hu|].
  destruct (mapped_update_fits stripe_sub0 (event0 "evt_1" updated0) true u) as (H1 & _ & _ & H4);
    [reflexivity|exact Hu|]. split; [exact H1|exact H4].
Defined.

(** A world with the user but no subscription recorded. *)
Definition unseen0 : World :=
  world0 (mkTables {[ 7%N := user0 ]} ∅ ∅ ∅) 6000.
Definition deleted0 : SDK.Event.t := event0 "evt_1" "customer.subscription.deleted".

Lemma deleted_first_seen_witness :
  ∃ rec, (handleSubscriptionChanged deleted0 true unseen0).1 = (OutcomeProcessed, None) ∧
    Subscription.Status rec = "active".
Proof.
  assert (∃ u, statusUpdateFrom stripe_sub0 deleted0 true = Ok u ∧
    ∃ e, (subs_UpdateSubscriptionStatus u unseen0).1 = Err e ∧
      errors_Is e ErrStaleEvent = false ∧ errors_Is e ErrNotFound = true ∧
    ∃ user, (resolveUser "" "cus_1" ∅ (subs_UpdateSubscriptionStatus u unseen0).2).1 =
      Ok (Some user) ∧
    ∃ rec, subscriptionFrom (User.ID user) stripe_sub0 deleted0 = Ok rec ∧
    ∃ rec', (subs_CreateSubscription rec
      (resolveUser "" "cus_1" ∅ (subs_UpdateSubscriptionStatus u unseen0).2).2).1 = Ok rec')
    as (u & Hu & e & He & Hs & Hn & user & Hr & rec & Hf & rec' & Hc).
  { eexists. split; [vm_compute; reflexivity|]. eexists. split; [vm_compute; reflexivity|].
    split; [vm_compute; reflexivity|]. split; [vm_compute; reflexivity|].
    eexists. split; [vm_compute; reflexivity|]. eexists. split; [vm_compute; reflexivity|].
    eexists. vm_compute. reflexivity. }
  exists rec.
  destruct (deleted_first_seen deleted0 stripe_sub0 u e user rec rec' unseen0
    (subs_UpdateSubscriptionStatus u unseen0).2
    (resolveUser "" "cus_1" ∅ (subs_UpdateSubscriptionStatus u unseen0).2).2
    (subs_CreateSubscription rec
      (resolveUser "" "cus_1" ∅ (subs_UpdateSubscriptionStatus u unseen0).2).2).2) as [H1 H2].
  - reflexivity.
  - discriminate.
  - exact Hu.
  - exact (pair_fst _ _ He).
  - exact Hs.
  - exact Hn.
  - exact (pair_fst _ _ Hr).
  - exact Hf.
  - exact (pair_fst _ _ Hc).
  - split; [by rewrite H1|exact H2].
Defined.

(** ** Workers *)

Definition sweeper0 : WebhookSweeper := WithMetrics (NewWebhookSweeper (SweeperConfig.mk 0 0 0 0 0 0 0)).


(** A budget of two attempts, one of which is gone. *)
Definition sweeper2 : WebhookSweeper := NewWebhookSweeper (SweeperConfig.mk 0 0 2 0 0 0 0).


Lemma sweep_counts_witness :
  ∃ res, (Sweep sweeper0 (world0 failed0 9000)).1 = res ∧
    0 ≤ Recovered res ≤ Retried res ∧ Retried res ≤ 100.
Proof.
  eexists. split; [reflexivity|].
  apply (sweep_counts 0 sweeper0 (world0 failed0 9000) _ (Sweep sweeper0 (world0 failed0 9000)).2).
  exact (pair_fst _ _ eq_refl).
Defined.

Definition retention0 : RetentionWorker := NewRetentionWorker true (RetentionConfig.mk 0 Minute 0 1 0).

Lemma succeeded_ok0 : ledger_ok (processed_webhooks succeeded0).
Proof. apply (ledger_ok0 WebhookSucceeded 1 None (Some (T 5001))). reflexivity. Qed.

Lemma RunOnce_terminates_witness :
  ∃ res w', RunOnce retention0 2 (world0 succeeded0 9000) = (Some res, w').
Proof.
  apply (RunOnce_terminates 0 retention0 2 (world0 succeeded0 9000)).
  - exact succeeded_ok0.
  - reflexivity.
  - vm_compute. reflexivity.
  - vm_compute. reflexivity.
Defined.

Lemma RunOnce_drains_witness :
  ∃ res w' now, RunOnce retention0 2 (world0 succeeded0 9000) = (Some res, w') ∧
    T 9000 ≤ now ∧ no_payload_due retention0 now (processed_webhooks (w_db w')) ∧
    PurgeResult_Total res = 1 - held w'.
Proof.
  apply (RunOnce_drains 0 retention0 2 (world0 succeeded0 9000)).
  - apply quiet0.
  - constructor.
  - exact succeeded_ok0.
  - reflexivity.
  - vm_compute. reflexivity.
  - vm_compute. reflexivity.
Defined.

(** ** Authentication *)

(** Digests are the password with its cost in front; tokens carry their claims. *)
#[local] Instance auth0 : AuthLib := {|
  bcrypt_MinCost := 4;
  bcrypt_MaxCost := 31;
  bcrypt_Generate := λ salt p c, inl ("$" +:+ p);
  bcrypt_Compare := λ d p, bool_decide (d = "$" +:+ p);
  bcrypt_Cost := λ d, Some 12;
  jwt_NumericDate := λ t, t / Second * Second;
  jwt_Sign := λ key c, inl (key +:+ Claims.Subject c);
  jwt_Parse := λ now iss aud key tok, JwtError "unused";
  rand_Read := λ n, inl n;
  base64_RawURL := λ n, of_bytes (repeat 100%N (N.to_nat n));
  sha256_hex := λ t, hash0 (if bool_decide (t = "presented") then 97 else 99)%N;
|}.

(** A token service that only ever signs one set of claims, and knows it. *)
Definition claims0 : Claims.t :=
  Claims.mk (uuid_String 7%N) "iss" ["aud"] (T 100) (T 100) (T 1000) (uuid_String 100%N) "ann@example.com".
Definition signing0 : AuthLib := {|
  bcrypt_MinCost := 4;
  bcrypt_MaxCost := 31;
  bcrypt_Generate := λ salt p c, inl p;
  bcrypt_Compare := λ d p, bool_decide (d = p);
  bcrypt_Cost := λ d, Some 12;
  jwt_NumericDate := λ t, t / Second * Second;
  jwt_Sign := λ key c,
    if bool_decide (key = "key" ∧ Claims.Subject c = Claims.Subject claims0 ∧
         Claims.Issuer c = "iss" ∧ Claims.Audience c = ["aud"] ∧ Claims.IssuedAt c = T 100 ∧
         Claims.NotBefore c = T 100 ∧ Claims.ExpiresAt c = T 1000 ∧ Claims.ID c = Claims.ID claims0 ∧
         Claims.Email c = "ann@example.com")
    then inl "jwt" else inr "unsupported";
  jwt_Parse := λ now iss aud key tok,
    if bool_decide (tok = "jwt") && (now <? T 1000) then JwtParsed true claims0 else JwtExpired;
  rand_Read := λ n, inl n;
  base64_RawURL := λ n, "";
  sha256_hex := λ t, t;
|}.

Lemma signing0_sound : @jwt_sound signing0.
Proof.
  split.
  - intros t. simpl. pose proof (Z.div_mod t Second). pose proof (Z.mod_pos_bound t Second).
    unfold Second in *. lia.
  - intros t. simpl. rewrite Z.div_mul; [done|]. unfold Second. lia.
  - intros key c token now aud Hs Ha _ Hi Hn He. simpl in *. case_bool_decide as Hc; [|done].
    injection Hs as <-. destruct Hc as (_ & Hc). destruct c as [a1 a2 a3 a4 a5 a6 a7 a8]. simpl in *.
    destruct Hc as (-> & -> & -> & -> & -> & -> & -> & ->). simpl in *.
    replace (now <? T 1000) with true; [reflexivity|]. symmetry. by apply Z.ltb_lt.
Qed.

Lemma length_of_bytes_repeat b n : String.length (of_bytes (repeat b n)) = n.
Proof.
  induction n as [|n IH]; [reflexivity|]. unfold of_bytes in *. cbn [repeat map String.string_of_list_ascii String.length].
  by rewrite IH.
Qed.

Lemma uuid_sound0 : uuid_sound.
Proof. intros u. simpl. rewrite length_of_bytes_repeat. by rewrite N2Nat.id. Qed.

Definition tokensvc0 : TokenService := mkTokenService "key" "iss" "aud" (T 900).

Lemma issue_parse_witness :
  ∃ c, @Parse signing0 _ tokensvc0 "jwt" (world0 (db0 ∅) 500) = (Ok (7%N, c), world0 (db0 ∅) 500) ∧
    Claims.Email c = "ann@example.com" ∧ T 1000 = T 100 + T 900.
Proof.
  apply (@issue_parse signing0 _ tokensvc0 7%N "ann@example.com" (world0 (db0 ∅) 100) "jwt" (T 1000)
    (take_draw (world0 (db0 ∅) 100)) (world0 (db0 ∅) 500)).
  - exact signing0_sound.
  - exact uuid_sound0.
  - vm_compute. reflexivity.
  - vm_compute. discriminate.
  - vm_compute. discriminate.
Defined.

Definition authsvc0 : AuthService :=
  NewAuthService (mkHasher 12 "$decoy") (mkTokenService "key" "iss" "aud" (T 900)) 0.

Lemma login_uniform_witness :
  ∃ w', Login authsvc0 "nobody@example.com" "guess" (world0 (db0 ∅) 100) =
      (Err ErrCredentialsMismatch, w') ∧
    w_metrics w' = [BcryptCompare "$decoy"].
Proof.
  assert (∃ g, (users_GetUserByEmail "nobody@example.com" (world0 (db0 ∅) 100)).1 = Err g ∧
    errors_Is g ErrNotFound = true) as (g & Hg & Hn).
  { eexists. split; [vm_compute; reflexivity|vm_compute; reflexivity]. }
  destruct (login_uniform authsvc0 "nobody@example.com" "guess" (world0 (db0 ∅) 100) (Err g)
    (users_GetUserByEmail "nobody@example.com" (world0 (db0 ∅) 100)).2) as (w' & H1 & _ & _ & H4).
  - exact (pair_fst _ _ Hg).
  - exact Hn.
  - exists w'. split; [exact H1|]. rewrite H4. vm_compute. reflexivity.
Defined.

Lemma refresh_rotates_witness :
  ∃ res p p' new, (Refresh authsvc0 "presented" (world0 live0 100)).1 = Ok res ∧
    refresh_tokens live0 !! hash0 97 = Some p ∧ live p ∧
    refresh_tokens (w_db (Refresh authsvc0 "presented" (world0 live0 100)).2) !! hash0 97 = Some p' ∧
    is_Some (RefreshToken.UsedAt p') ∧ live new ∧
    RefreshToken.FamilyID new = RefreshToken.FamilyID p.
Proof.
  assert (∃ res, (Refresh authsvc0 "presented" (world0 live0 100)).1 = Ok res) as [res Hr].
  { eexists. vm_compute. reflexivity. }
  destruct (refresh_rotates authsvc0 "presented" (world0 live0 100) res
    (Refresh authsvc0 "presented" (world0 live0 100)).2 (pair_fst _ _ Hr))
    as (p & p' & new & H1 & H2 & H3 & H4 & _ & H6 & H7 & _).
  exists res, p, p', new. repeat (split; [first [exact Hr|exact H1|exact H2|exact H3|exact H4|exact H6]|]).
  exact H7.
Defined.

Lemma logout_final_witness :
  (Logout "presented" (world0 live0 100)).1 = None ∧
  ∀ k t at_, refresh_tokens (token_run ops0 (w_db (Logout "presented" (world0 live0 100)).2)) !! k = Some t →
    RefreshToken.FamilyID t = 3%N → RefreshToken.Usable t at_ = false.
Proof.
  assert ((Logout "presented" (world0 live0 100)).1 = None) as H1 by (vm_compute; reflexivity).
  split; [exact H1|].
  apply (logout_final "presented" (world0 live0 100) _ (token0 97 None) ops0 (pair_fst _ _ H1)).
  - discriminate.
  - vm_compute. reflexivity.
  - repeat constructor.
Defined.

(** ** Checkout and dashboard *)

Definition checkoutcfg0 : CheckoutConfig.t :=
  CheckoutConfig.mk "https://ok" "https://no" "" "https://back" ["price_1"].
Definition request0 : CheckoutRequest.t := CheckoutRequest.mk 7%N "price_1" 0 0 false.


Lemma portal_own_customer_witness :
  ∃ url, (CheckoutService_CreatePortalSession checkoutcfg0 7%N (world0 (db0 ∅) 100)).1 = Ok url ∧
    ∃ user cus n id, User.ID user = 7%N ∧ User.StripeCustomerID user = Some cus ∧
      PortalSessionsCreate n cus "https://back" = inl (id, url).
Proof.
  assert (∃ url, (CheckoutService_CreatePortalSession checkoutcfg0 7%N (world0 (db0 ∅) 100)).1 = Ok url)
    as [url Hr] by (eexists; vm_compute; reflexivity).
  exists url. split; [exact Hr|].
  exact (portal_own_customer checkoutcfg0 7%N (world0 (db0 ∅) 100) url _ (pair_fst _ _ Hr)).
Defined.

Lemma GetForUser_newest_witness :
  ∃ v, (GetForUser 7%N (world0 (db0 ∅) 100)).1 = Ok v ∧
    ∃ k sub, subscriptions (db0 ∅) !! k = Some sub ∧ v = SubscriptionView.view_of sub.
Proof.
  assert (∃ v, (GetForUser 7%N (world0 (db0 ∅) 100)).1 = Ok v) as [v Hv]
    by (eexists; vm_compute; reflexivity).
  pose proof (GetForUser_newest 7%N (world0 (db0 ∅) 100) (quiet0 _ _)) as H. unfold subs_repo0 in Hv.
  rewrite Hv in H. destruct H as (k & sub & H1 & _ & H3 & _).
  exists v. split; [exact Hv|]. exists k, sub. split; [exact H1|exact H3].
Defined.

(** ** HTTP *)

Definition handler0 : StripeHandler := NewStripeHandler svc0 checkoutcfg0.
Definition webhook0 : Request := mkRequest "POST" "/webhook" "" "192.0.2.1:5000" [("Stripe-Signature", "signed")] [] (mkBody "{}" None) None "" None.

Lemma webhook_answer_witness :
  (HandleWebhook handler0 webhook0 (world0 (db0 ∅) 6000)).1 = writeJSON 200 (StatusBody "processed") [] ∧
  handled_event "evt_1" (world0 (db0 ∅) 6000) (HandleWebhook handler0 webhook0 (world0 (db0 ∅) 6000)).2.
Proof.
  assert ((HandleWebhook handler0 webhook0 (world0 (db0 ∅) 6000)).1 = writeJSON 200 (StatusBody "processed") [])
    as H1 by (vm_compute; reflexivity).
  split; [exact H1|].
  pose proof (webhook_answer handler0 webhook0 (world0 (db0 ∅) 6000) (quiet0 _ _) (empty_ok0 _)) as H.
  rewrite (pair_fst _ _ H1) in H. exact (proj1 H eq_refl).
Defined.

Lemma client_addr_unspoofable_witness :
  clientAddr (mkPeer "10.0.0.2:9000" ["1.1.1.1, 203.0.113.9"; "10.0.0.1"]) 2 = "203.0.113.9".
Proof.
  apply (client_addr_unspoofable 2 ["1.1.1.1"] "203.0.113.9" ["1.1.1.1, 203.0.113.9"; "10.0.0.1"]); [|reflexivity].
  apply (via_proxy 1 _ _ ["1.1.1.1, 203.0.113.9"] _ "10.0.0.1").
  - split_and!; [discriminate|reflexivity|reflexivity].
  - exact (proxied_append "203.0.113.9" [] "1.1.1.1").
  - apply (via_proxy 0 _ _ ["1.1.1.1, 203.0.113.9"; "10.0.0.1"] _ "10.0.0.2").
    + split_and!; [discriminate|reflexivity|reflexivity].
    + exact (proxied_line "10.0.0.1" ["1.1.1.1, 203.0.113.9"]).
    + apply via_none.
Defined.

Lemma migrations_reversible_witness :
  ∃ c, schema_at 6 = Some c ∧ roll_back 4 6 c = schema_at 2 ∧ is_Some (schema_at 2).
Proof. apply (migrations_reversible 4 6); vm_compute; lia. Defined.
