(* ===== verification/Runs.v ===== *)
(** * Concrete runs of the process

    The theorems about configuration, logging and the HTTP layers, each applied
    at a concrete environment, record or request; the libraries that appear
    only here are instantiated by small executable functions. *)

From Stdlib Require Import Ascii.
From S2P Require Import Prelude GoStd Strconv Network Slog Config ConfigLaws Logger Pool.
From S2P Require Import Domain Database WebhookRepo SubscriptionRepo UserRepo RefreshTokenRepo StripeClient Ports.
From S2P Require Import WebhookService Auth AuthService Services RateLimit JsonText JsonRoundtrip Http Handlers.
From S2P Require Import Requests Middleware MiddlewareLaws Router Serving Routes Main Witnesses.
Open Scope Z_scope.

#[local] Existing Instances unicode0 postgres0 stripe0 users_repo0 subs_repo0 hooks_repo0 tokens_repo0 auth0.

(** ** Libraries *)

#[local] Instance maps0 : GoMaps := {| map_range := λ V l, l; map_range_perm := λ V l, Permutation_refl l |}.

#[local] Instance pgx0 : PgxLib := {|
  pgxpool_ParseConfig := λ dsn, inl (mkPgxConfig 0 0 0 0 0 0 ∅ None);
  pgxpool_NewWithConfig := λ _, None;
  pgxpool_Ping := λ _ _, None;
  pgx_SelectOne := inl 1;
|}.

(** A limiter that counts its tokens down and is never refilled. *)
#[local] Instance rate0 : RateLib := {|
  Limiter := Z;
  Reservation := bool;
  NewLimiter := λ _ burst, burst;
  ReserveN := λ l _, (0 <? l, l - 1);
  Reservation_OK := λ _, true;
  DelayFrom := λ r _, if (r : bool) then 0 else 5 * Second;
  CancelAt := λ _ _ l, l + 1;
|}.

#[local] Instance probe0 : healthProbe := {| db_HealthCheck := mret None |}.

(** Routes without parameters only. *)
Definition route0 (routes : list (string * string)) (mount m path : string) : Selection :=
  if bool_decide ((m, path) ∈ routes ∧ static path) then Endpoint m path
  else if HasPrefix path mount then Missing true (mount +:+ "/*") else Missing false "".

#[local] Instance static_dec pat : Decision (static pat).
Proof. unfold static. apply _. Defined.

#[local] Instance chi0 : ChiLib.
Proof.
  refine {| chi_route := route0 |}; unfold route0; intros *.
  - case_bool_decide as Hd; [|by destruct (HasPrefix _ _)]. intros [= <- <-]. by destruct Hd.
  - intros Hin Hs. rewrite bool_decide_eq_true_2; [done|]. split; [done|].
    exact (proj1 (Forall_forall _ _) Hs _ Hin).
  - case_bool_decide; [by intros [|]|]. destruct (HasPrefix _ _); (intros [[= <- <-]|]; [|done]).
    + apply list_elem_of_further, list_elem_of_further, list_elem_of_here.
    + apply list_elem_of_here.
Defined.

Definition rand0 (n : N) : string + string := inl (of_bytes (repeat 171%N 16)).
Lemma rand0_total : rand_total rand0.
Proof. intros n. by eexists. Qed.
Definition site0 (msg : string) : option (string * Z) := None.

(** ** Configuration *)

Definition vars0 (key : string) : list (string * string) := [
  ("APP_ENV", "production"); ("DATABASE_URL", "postgres://app:pw@db/app?sslmode=require");
  ("STRIPE_SECRET_KEY", key); ("STRIPE_WEBHOOK_SECRET", "whsec_1");
  ("STRIPE_CHECKOUT_SUCCESS_URL", "https://app.example.com/ok");
  ("STRIPE_CHECKOUT_CANCEL_URL", "https://app.example.com/no");
  ("STRIPE_CHECKOUT_RETURN_URL", "https://app.example.com/back");
  ("STRIPE_PORTAL_RETURN_URL", "https://app.example.com/");
  ("STRIPE_ALLOWED_PRICE_IDS", "price_1, price_2"); ("CORS_ALLOWED_ORIGINS", "https://app.example.com");
  ("JWT_SECRET", "0123456789abcdef0123456789abcdef"); ("AUTH_COOKIE_SECURE", "true")].
Definition env_of (l : list (string * string)) : Env := λ k, find_value k l.
Definition env0 : Env := env_of (vars0 "sk_live_1").

Definition cfg0 : Config := config_of env0.
Lemma env0_loads : Load env0 = Ok cfg0.
Proof. vm_compute. reflexivity. Qed.


Lemma secrets_do_not_leak_witness :
  StripeCfg.SecretKey (c_Stripe (config_of (env_of (vars0 "sk_live_2")))) ≠ StripeCfg.SecretKey (c_Stripe cfg0) ∧
  match Load env0, Load (env_of (vars0 "sk_live_2")) with
  | Err e1, Err e2 => e1 = e2
  | Ok c1, Ok c2 => Config_LogValue c1 = Config_LogValue c2
  | _, _ => False
  end.
Proof.
  split; [vm_compute; discriminate|]. apply secrets_do_not_leak.
  - intros k Hk. unfold secret_keys in Hk. rewrite !not_elem_of_cons in Hk. destruct Hk as (_ & Hk & _).
    unfold env0, env_of, vars0, find_value. cbn [list_find fst snd]. do 2 (destruct (decide _); [reflexivity|]).
    cbn [prod_map fmap option_fmap option_map]. destruct (decide (_ = k)); [congruence|reflexivity].
  - intros k Hk. unfold secret_keys in Hk. rewrite !elem_of_cons in Hk.
    destruct Hk as [->|[->|[->|[->|Hk]]]]; [vm_compute; reflexivity..|by apply elem_of_nil in Hk].
Defined.

Definition process0 : Process := mkProcess [] (world0 (db0 ∅) 100).

Lemma auth0_costs : bcrypt_MinCost ≤ 10 ∧ 31 ≤ bcrypt_MaxCost.
Proof. simpl. lia. Qed.

Definition started0 : result Started * Process := start "1.0" env0 process0.

Lemma started0_ok : is_Ok started0.1 = true.
Proof. vm_compute. reflexivity. Qed.

Lemma startup_outcome_witness :
  ∃ s, started0.1 = Ok s ∧ Load env0 = Ok (st_cfg s) ∧ pr_open started0.2 = [db_pool (st_db s)].
Proof.
  pose proof (startup_outcome "1.0" auth0_costs
    (λ salt password c _ _, ex_intro _ _ eq_refl) env0 process0) as H. fold started0 in H.
  pose proof started0_ok as Hs. destruct started0 as [[s|e] p']; [|discriminate Hs].
  exists s. destruct H as (H1 & H2 & _). split; [reflexivity|]. split; [exact H1|exact H2].
Defined.

(** ** Logging *)

Definition log0 : contextHandler :=
  mkContextHandler (mkSlogHandler false LevelInfo false [] [([], ("service", VString "sps"))]).

Definition record0 : LogRecord :=
  mkLogRecord (T 100) LevelInfo "login" None [("User", VGroup [("Password", VString "hunter2")])].


(** ** Bodies *)

Definition body_of (l : list (string * json)) : Body := mkBody (json_text (JObj l)) None.
Definition post0 (path : string) (headers : list (string * string)) (b : Body) : Request :=
  mkRequest "POST" path "" "192.0.2.1:5000" headers [] b (Some 7%N) "" None.

Definition sh0 : StripeHandler := NewStripeHandler svc0 checkoutcfg0.
Definition ah0 : AuthHandler := mkAuthHandler authsvc0 true "".

Definition foreign0 : list (string * json) := [("price_id", JStr "price_1"); ("user_id", JStr "victim")].


Lemma credentials_reach_service_witness :
  (HandleRegister ah0
     (post0 "/api/v1/auth/register" [] (body_of (credentials "bob@example.com" "a<b>&c"))) (world0 (db0 ∅) 100)).2 =
  (Register authsvc0 "bob@example.com" "a<b>&c" None (world0 (db0 ∅) 100)).2.
Proof.
  apply (credentials_reach_service ah0
    (post0 "/api/v1/auth/register" [] (body_of (credentials "bob@example.com" "a<b>&c"))) "bob@example.com"
    "a<b>&c" (world0 (db0 ∅) 100)).
  - split_and!; [by left|reflexivity|vm_compute; discriminate].
  - vm_compute. reflexivity.
  - vm_compute. reflexivity.
Defined.

(** ** The router *)

Definition router0 (parse : TokenParser) : RouterConfig :=
  mkRouterConfig 0 (mkCORSConfig ["https://app.example.com/"] 0) parse true 0 true 0.
Definition limiter0 (burst : Z) : RateLimiter :=
  NewRateLimiter (RateLimitConfig.mk (float_of_Z 1) burst 0 0).
Definition hh0 : HealthHandler := mkHealthHandler "1.0" (T 0).
Definition w0 : World := world0 (db0 ∅) 500.

#[local] Abbreviation serve0 r :=
  (NewRouter site0 log0 rand0 sh0 ah0 hh0 (router0 (Parse tokensvc0)) r (opened w0 (limiter0 5) [])).

Definition get0 (path : string) (headers : list (string * string)) : Request :=
  mkRequest "GET" path "" "192.0.2.1:5000" headers [] (mkBody "" None) None "" None.

(** What is proved of the router is not run again to see that it applies. *)
#[local] Opaque NewRouter.

Ltac run := match goal with
  | H : context [NewRouter] |- _ => let x := fresh "x" in set (x := NewRouter _ _ _ _ _ _ _ _ _) in H |- *
  end.

Lemma every_answer_identified_witness :
  let '(e, c') := serve0 (get0 "/nowhere" [("X-Request-Id", "trace-7")]) in
  ∃ hd body, received e (cn_writer c') = Some (hd, body) ∧
    hd_header hd !! RequestIDHeader = Some ["trace-7"].
Proof.
  pose proof (every_answer_identified site0 log0 rand0 sh0 ah0 hh0 (router0 (Parse tokensvc0))
    (get0 "/nowhere" [("X-Request-Id", "trace-7")]) w0 (limiter0 5) [] rand0_total) as H.
  run. destruct x as [e c']. destruct H as (hd & body & id & H1 & H2 & _ & _ & _ & H6).
  exists hd, body. split; [exact H1|]. rewrite H2, (H6 eq_refl). reflexivity.
Defined.

Definition status_of (x : Ended * Conn) : option Z :=
  hd_status <$> (fst <$> received x.1 (cn_writer x.2)).

Lemma nowhere0_status : status_of (serve0 (get0 "/nowhere" [])) = Some 404.
Proof. vm_compute. reflexivity. Qed.


Lemma cross_origin_exact_witness :
  let '(e, c') := serve0 (get0 "/livez" [("Origin", "https://app.example.com")]) in
  ∃ hd body, received e (cn_writer c') = Some (hd, body) ∧
    hd_header hd !! allow_origin = Some ["https://app.example.com"].
Proof.
  exact (cross_origin_exact site0 log0 rand0 sh0 ah0 hh0 (router0 (Parse tokensvc0))
    (get0 "/livez" [("Origin", "https://app.example.com")]) w0 (limiter0 5) []).
Defined.

(** ** Routes *)

(** What holds of an answer holds of a weaker question. *)
Lemma served_impl `{U : GoUnicode, R : RateLib, C : ChiLib, A : AuthLib, S : StripeSDK, UR : UserRepository,
    SR : SubscriptionRepository, WR : WebhookRepository, TR : RefreshTokenRepository, HP : healthProbe}
    site log rand stripe auth health cfg r w lim ls
    (Q Q' : Head → string → Tables → list Metric → RateLimiter → Prop) :
  served site log rand stripe auth health cfg r w lim ls Q →
  (∀ hd body db hs lim', Q hd body db hs lim' → Q' hd body db hs lim') →
  served site log rand stripe auth health cfg r w lim ls Q'.
Proof.
  unfold served. destruct (NewRouter _ _ _ _ _ _ _ _ _) as [e c']. intros (hd & body & H1 & H2) HQ.
  exists hd, body. auto.
Qed.

(** A token no service issued, and one of the service that signs [claims0]. *)
Lemma protected_routes_witness :
  served site0 log0 rand0 sh0 ah0 hh0 (router0 (Parse tokensvc0))
    (get0 "/api/v1/auth/me" [("Authorization", "Bearer forged")]) w0 (limiter0 5) []
    (λ hd body db hs lim', hd_status hd = 401 ∧ db = w_db w0) ∧
  served (H2 := signing0) site0 log0 rand0 sh0 ah0 hh0 (router0 (@Parse signing0 _ tokensvc0))
    (get0 "/api/v1/auth/me" [("Authorization", "Bearer jwt")]) w0 (limiter0 5) []
    (λ hd body db hs lim', ∃ r1 w1, ctx_user r1 = Some 7%N ∧ by_handler HandleMe r1 w1 hd body db hs).
Proof.
  split.
  - eapply served_impl.
    + apply (protected_routes site0 log0 rand0 sh0 ah0 hh0 (router0 (Parse tokensvc0)) tokensvc0 "GET"
        "/api/v1/auth/me" HandleMe); [reflexivity|apply list_elem_of_here|reflexivity|reflexivity].
    + intros hd body db hs lim' [_ H]. cbn in H. destruct H as ((msg & Hm & _) & Hd & _). by split.
  - eapply served_impl.
    + apply (protected_routes (H2 := signing0) site0 log0 rand0 sh0 ah0 hh0
        (router0 (@Parse signing0 _ tokensvc0)) tokensvc0 "GET"
        "/api/v1/auth/me" HandleMe); [reflexivity|apply list_elem_of_here|reflexivity|reflexivity].
    + intros hd body db hs lim' [_ H].
      assert (@subject signing0 _ tokensvc0 (get0 "/api/v1/auth/me" [("Authorization", "Bearer jwt")]) w0 = Some 7%N)
        as Hs by (vm_compute; reflexivity).
      rewrite Hs in H. destruct H as (r1 & w1 & H1 & _ & _ & _ & H5). exists r1, w1. split; [exact H1|exact H5].
Defined.

Definition login0 : Request :=
  post0 "/api/v1/auth/login" [] (body_of (credentials "ann@example.com" "guess")).

(** A bucket of one token, and the same bucket after one attempt. *)
Definition key0 : string := ClientKeyFunc 0 (peer login0).
Definition spent0 : RateLimiter := (allow key0 (T 500) (limiter0 1)).2.

Lemma credential_routes_metered_witness :
  served site0 log0 rand0 sh0 ah0 hh0 (router0 (Parse tokensvc0)) login0 w0 (limiter0 1) []
    (λ hd body db hs lim', lim' = spent0 ∧ ∃ r1 w1, by_handler (HandleLogin ah0) r1 w1 hd body db hs) ∧
  served site0 log0 rand0 sh0 ah0 hh0 (router0 (Parse tokensvc0)) login0 w0 spent0 []
    (λ hd body db hs lim', hd_status hd = 429 ∧ hd_header hd !! "Retry-After" = Some ["5"] ∧ db = w_db w0 ∧ hs = []).
Proof.
  assert (AuthRateLimit (router0 (Parse tokensvc0)) = true) as Ha by reflexivity.
  assert (("POST", "/api/v1/auth/login", HandleLogin ah0) ∈ credential_routes ah0) as Hin
    by apply list_elem_of_further, list_elem_of_here.
  split.
  - eapply served_impl.
    + exact (credential_routes_metered site0 log0 rand0 sh0 ah0 hh0 (router0 (Parse tokensvc0)) "POST"
        "/api/v1/auth/login" (HandleLogin ah0) login0 w0 (limiter0 1) [] Ha Hin eq_refl eq_refl).
    + intros hd body db hs lim' H.
      assert (allow (ClientKeyFunc (TrustedProxies (router0 (Parse tokensvc0))) (peer login0)) (w_now w0) (limiter0 1)
              = (true, 0, spent0)) as E by (vm_compute; reflexivity).
      rewrite E in H. destruct H as (H1 & w1 & _ & H2). split; [exact H1|]. eexists _, w1. exact H2.
  - eapply served_impl.
    + exact (credential_routes_metered site0 log0 rand0 sh0 ah0 hh0 (router0 (Parse tokensvc0)) "POST"
        "/api/v1/auth/login" (HandleLogin ah0) login0 w0 spent0 [] Ha Hin eq_refl eq_refl).
    + intros hd body db hs lim' H.
      assert ((allow (ClientKeyFunc (TrustedProxies (router0 (Parse tokensvc0))) (peer login0)) (w_now w0) spent0).1
              = (false, 5 * Second)) as E by (vm_compute; reflexivity).
      destruct (allow _ _ _) as [[allowed retry] lim1]. simpl in E. injection E as -> ->.
      destruct H as (_ & (H1 & _) & H2 & _ & H4 & H5). split_and!; [exact H1|exact H2|exact H4|exact H5].
Defined.

Definition crash0 : Panic := mkPanic "nil map" false "goroutine 1".

Lemma panic_answered_witness :
  let '(e, c') := AccessLog site0 log0 (Recoverer site0 log0 (λ _, mret (Panicked crash0)))
                    (get0 "/livez" []) (opened w0 (limiter0 5) []) in
  ∃ hd body panic_line line, received e (cn_writer c') = Some (hd, body) ∧ hd_status hd = 500 ∧
    body = error_envelope "internal server error" ∧ cn_lines c' = [panic_line; line] ∧
    ([], ("panic", VString "nil map")) ∈ panic_line ∧ ([], ("status", VInt 500)) ∈ line.
Proof.
  exact (panic_answered site0 log0 RequestIDHeader [] (λ _, mret (Panicked crash0)) (get0 "/livez" [])
    (opened w0 (limiter0 5) []) ∅ crash0 (wrapWriter (opened w0 (limiter0 5) [])).2
    (λ _, good_ret _ _ _) eq_refl eq_refl eq_refl eq_refl eq_refl).
Defined.
