(* ===== verification/Journeys.v ===== *)
(** * Whole runs, at concrete inputs

    The theorems about the life of the process and about requests from the wire
    to the tables, each applied to a configuration, a host and a request. *)

From stdpp Require Import relations.
From S2P Require Import Prelude GoStd Strconv Network Slog Config ConfigLaws Logger Pool.
From S2P Require Import Domain Database WebhookRepo Ledger SubscriptionRepo UserRepo RefreshTokenRepo StripeClient Ports.
From S2P Require Import WebhookService Sweeper Retention Auth AuthService Services RateLimit Workers JsonText Http Handlers.
From S2P Require Import Requests Middleware MiddlewareLaws Router Serving Routes EndToEnd Main Concurrency Lifecycle Witnesses Runs.
Open Scope Z_scope.

#[local] Existing Instances unicode0 postgres0 stripe0 auth0 maps0 pgx0 rate0 chi0.

(** ** The process *)

(** A host whose ports are free, that sends a signal and lets the drain finish;
    and one where the metrics port is taken. *)
Definition host0 : Host := mkHost (λ _, None) Signalled None None ErrServerClosed.
Definition busy0 : Host := mkHost (λ a, if bool_decide (a = ":8080") then None else Some (errors_New "address in use"))
  Signalled None None ErrServerClosed.

Definition machine0 : Machine := mkMachine process0 false [].

#[local] Opaque NewRouter.

Lemma env0_pool : (Pool.New (database_config cfg0) true []).1 = Ok (mkDB
  (pool_config (PoolConfig.withDefaults (database_config cfg0)) (mkPgxConfig 0 0 0 0 0 0 ∅ None))
  (PoolConfig.withDefaults (database_config cfg0))).
Proof. vm_compute. reflexivity. Qed.


(** ** The health check *)

(** The started service, and what a client on the host gets from it. *)
Definition service0 : Started :=
  match started0.1 with Ok s => s | Err _ => mkStarted cfg0 log0 (mkDB (mkPgxConfig 0 0 0 0 0 0 ∅ None)
    (database_config cfg0)) svc0 hooks_repo0 checkoutcfg0 authsvc0 tokensvc0 (limiter0 5) None None end.

Lemma service0_cfg : st_cfg service0 = cfg0.
Proof. vm_compute. reflexivity. Qed.

(** A database that has lost every table. *)
Definition broken0 : World := world0 (mkTables ∅ ∅ ∅ ∅) 700.

Definition livez0 : Ended * Conn :=
  srv_Handler _ (api_server site0 rand0 service0 hh0) (get0 "/livez" []) (opened broken0 (limiter0 5) []).

Definition http_Get0 (url : string) : result Z :=
  if bool_decide (url = "http://127.0.0.1:8080/livez")
  then match received livez0.1 (cn_writer livez0.2) with
       | Some (hd, _) => Ok (hd_status hd)
       | None => Err (errors_New "EOF")
       end
  else Err (errors_New "connection refused").

Lemma healthcheck_is_liveness_witness : probe http_Get0 env0 = None.
Proof.
  pose proof (healthcheck_is_liveness site0 rand0 http_Get0 env0 service0 hh0 (get0 "/livez" []) broken0
    (limiter0 5) []) as H. rewrite service0_cfg in H.
  specialize (H env0_loads ltac:(intros v Hv; vm_compute in Hv; discriminate Hv) eq_refl eq_refl). cbv zeta in H.
  fold livez0 in H. assert ("http://127.0.0.1" +:+ Addr (api_server site0 rand0 service0 hh0) +:+ "/livez"
    = "http://127.0.0.1:8080/livez") as E by (unfold api_server; cbn [Addr]; rewrite service0_cfg; vm_compute; reflexivity).
  rewrite E in H. unfold http_Get0 at 1 in H. rewrite bool_decide_eq_true_2 in H by reflexivity.
  destruct livez0 as [e c]. apply H. intros hd body Hr. cbn [fst snd]. rewrite Hr. reflexivity.
Defined.

(** With white space around the port the server listens and the probe asks
    elsewhere. *)
Definition spaced0 : Env := env_of (("HTTP_PORT", " 8081") :: vars0 "sk_live_1").

Example probe_misses : is_Ok (Load spaced0) = true ∧ HTTP.Addr (c_HTTP (config_of spaced0)) = ":8081" ∧
  probe_url spaced0 = "http://127.0.0.1: 8081/livez".
Proof. vm_compute. done. Qed.

(** An interval of three nanoseconds is accepted, and stops the process. *)
Definition tiny0 : Env := env_of (("WEBHOOK_SWEEPER_INTERVAL", "3ns") :: vars0 "sk_live_1").

Example tiny_interval_panics : is_Ok (Load tiny0) = true ∧
  sweeper_start (NewWebhookSweeper (Main.sweeperConfig (config_of tiny0))) 7%N w0 = None.
Proof. vm_compute. done. Qed.

(** ** Two deliveries of one event *)

(** Two requests carry the event: the first claims it, the second comes ten
    seconds later and is refused. *)
Definition idle_fleet : Fleet := mkFleet (db0 ∅) (T 100) ∅.
Definition first_claim := claim_stmt (NewWebhookRepo 0) delivery0 (at0 100) (db0 ∅).
Definition claimed_fleet (now : Time) : Fleet := mkFleet first_claim.2 now {[ 0%nat := mkLease "evt_1" (T 100) ]}.

Lemma contested : rtc (fleet_step (HTTP.WebhookTimeout (c_HTTP cfg0)) (deployed_window cfg0))
  idle_fleet (claimed_fleet (T 110)).
Proof.
  assert (∀ f g g', fleet_step (HTTP.WebhookTimeout (c_HTTP cfg0)) (deployed_window cfg0) f g → g = g' →
    fleet_step (HTTP.WebhookTimeout (c_HTTP cfg0)) (deployed_window cfg0) f g') as Hto by congruence.
  apply (rtc_l _ _ (claimed_fleet (T 100))); [|apply (rtc_l _ _ (claimed_fleet (T 110))); [|apply rtc_once]].
  - eapply Hto; [apply (fleet_claim _ _ 0%nat (NewWebhookRepo 0) delivery0 (at0 100) (db0 ∅) (T 100) ∅);
      [reflexivity|apply window_server|split; vm_compute; discriminate]|vm_compute; reflexivity].
  - apply (fleet_tick _ _ _ _ _ (T 110)); [vm_compute; discriminate|].
    intros w l Hl. apply lookup_singleton_Some in Hl as [_ <-]. vm_compute. discriminate.
  - eapply Hto; [apply (fleet_claim _ _ 1%nat (NewWebhookRepo 0) delivery0 (at0 110) first_claim.2 (T 110)
        {[ 0%nat := mkLease "evt_1" (T 100) ]});
      [reflexivity|apply window_server|split; vm_compute; discriminate]|vm_compute; reflexivity].
Qed.

Lemma deployed_claims_exclusive_witness :
  (mark_processed_stmt "evt_1" (at0 112) first_claim.2).1 = POk 1 ∧
  ∃ x, claim_stmt (NewWebhookRepo 0) delivery0 (at0 110) first_claim.2 = (PErr x, first_claim.2).
Proof.
  destruct (deployed_claims_exclusive cfg0 env0 idle_fleet (claimed_fleet (T 110)) env0_loads) as [_ Hheld].
  - reflexivity.
  - vm_compute. discriminate.
  - split; [apply map_Forall_empty|reflexivity].
  - exact contested.
  - destruct (Hheld 0%nat (mkLease "evt_1" (T 100)) eq_refl) as (Hsettle & Hdeliver & _). split.
    + apply (Hsettle (at0 112) "").
    + apply (Hdeliver (NewWebhookRepo 0) delivery0 (at0 110)); [reflexivity|apply window_server|vm_compute; discriminate].
Defined.


(** ** Requests *)

#[local] Existing Instance probe0.

(** A delivery, on a connection whose caller leaves after a minute and with
    calls that take a second each. *)
Definition busy_world0 : World :=
  mkWorld (db0 ∅) (T 6000) (Some (T 6060)) (λ n, N.of_nat (100 + n)) 0 (replicate 6 (mkTick 1000000000 None [])) [].

Lemma busy_quiet0 : quiet busy_world0.
Proof. split; [reflexivity|]. repeat constructor. Qed.

Lemma delivered0_status :
  status_of (NewRouter (H4 := pool_users) (H5 := pool_subs) (H6 := pool_hooks 0) (H7 := pool_tokens)
    site0 log0 rand0 sh0 ah0 hh0 (router0 (Parse tokensvc0)) webhook0 (opened busy_world0 (limiter0 5) [])) = Some 200.
Proof. vm_compute. reflexivity. Qed.



(** ** Workers *)

(** The sweeper after its first pass, over a failed event that is due. *)
Definition sweepercfg0 : SweeperConfig.t := SweeperConfig.mk Minute (5 * Minute) 6 Second Minute 10 Hour.
Definition sweeper1 : WebhookSweeper := WithMetrics (NewWebhookSweeper sweepercfg0).
Definition failed_world0 : World := world0 failed0 9000.
Definition loop0 : Loop := loop_start 7 failed_world0.
Definition later_world0 : World := world0 failed0 9001.
Definition swept_world0 : World :=
  (@Sweep _ _ UserRepo SubscriptionRepo (WebhookRepo_of 0) sweeper1 later_world0).2.
Definition loop1 : Loop :=
  mkLoop swept_world0 (Some (w_now swept_world0 + Minute)) [(w_now later_world0, w_now swept_world0)].

Lemma workers_paced_witness :
  paced Minute (sweeper_pass 0 sweeper1) failed_world0 loop1 ∧
  event_status (w_db swept_world0) "evt_1" = Some WebhookSucceeded.
Proof.
  split; [|vm_compute; reflexivity].
  apply (proj1 (workers_paced sweepercfg0 (Main.retentionConfig cfg0) 0 true 7%N failed_world0 loop0 loop1)).
  - reflexivity.
  - eapply rtc_l; [apply (Elapse _ _ loop0 later_world0); [vm_compute; discriminate|reflexivity]|].
    eapply rtc_l; [|apply rtc_refl].
    apply (Fire Minute (sweeper_pass 0 sweeper1) (mkLoop later_world0 (lp_due loop0) []) (T 9000 + 7) swept_world0);
      [reflexivity|vm_compute; discriminate|reflexivity|vm_compute; discriminate].
Defined.

(** ** A session *)

(** A library that signs the claims of one login; every digest is its password. *)
Definition claims1 : Claims.t :=
  Claims.mk (uuid_String 7%N) "iss" ["aud"] (T 100) (T 100) (T 1000) (uuid_String 101%N) "ann@example.com".

Definition signing1 : AuthLib := {|
  bcrypt_MinCost := 4;
  bcrypt_MaxCost := 31;
  bcrypt_Generate := λ salt p c, inl p;
  bcrypt_Compare := λ d p, bool_decide (d = p);
  bcrypt_Cost := λ d, Some 12;
  jwt_NumericDate := λ t, t / Second * Second;
  jwt_Sign := λ key c,
    if bool_decide (Claims.Subject c = Claims.Subject claims1 ∧ Claims.Issuer c = "iss" ∧ Claims.Audience c = ["aud"] ∧
         Claims.IssuedAt c = T 100 ∧ Claims.NotBefore c = T 100 ∧ Claims.ExpiresAt c = T 1000 ∧
         Claims.ID c = Claims.ID claims1 ∧ Claims.Email c = "ann@example.com")
    then inl "jwt" else inr "unsupported";
  jwt_Parse := λ now iss aud key tok,
    if bool_decide (tok = "jwt") && (now <? T 1000) then JwtParsed true claims1 else JwtExpired;
  rand_Read := λ n, inl n;
  base64_RawURL := λ n, "token";
  sha256_hex := λ t, hash0 97%N;
|}.

Lemma signing1_sound : @jwt_sound signing1.
Proof.
  split.
  - exact (numeric_date_near (H := signing0) signing0_sound).
  - exact (numeric_date_idem (H := signing0) signing0_sound).
  - intros key c token now aud Hs _ _ _ _ He. simpl in *. case_bool_decide as Hc; [|done].
    injection Hs as <-. destruct c as [a1 a2 a3 a4 a5 a6 a7 a8]. simpl in *.
    destruct Hc as (-> & -> & -> & -> & -> & -> & -> & ->).
    replace (now <? T 1000) with true; [reflexivity|]. symmetry. by apply Z.ltb_lt.
Qed.

Definition logged_in0 : result AuthResult.t * World :=
  @Login signing1 _ UserRepo RefreshTokenRepo authsvc0 "ann@example.com" "digest" (world0 (db0 ∅) 100).
Definition grant0 : AuthResult.t := AuthResult.mk "jwt" (T 1000) (viewOf user0) "token" (T 2592100).
Lemma login0_grants : logged_in0.1 = Ok grant0.
Proof. vm_compute. reflexivity. Qed.

Lemma user0_ok : users_ok (users (db0 ∅)).
Proof.
  split; simpl.
  - apply map_Forall_singleton. split; [reflexivity|]. vm_compute. reflexivity.
  - intros k1 k2 u1 u2 [<- _]%lookup_singleton_Some [<- _]%lookup_singleton_Some _. reflexivity.
Qed.

Lemma session_end_to_end_witness :
  served (H2 := signing1) (H4 := pool_users) (H5 := pool_subs) (H6 := pool_hooks 0) (H7 := pool_tokens)
    site0 log0 rand0 sh0 ah0 hh0 (router0 (@Auth.Parse signing1 _ (as_tokens authsvc0)))
    (get0 "/api/v1/auth/me" [("Authorization", "Bearer jwt")]) w0 (limiter0 5) []
    (λ hd body db hs lim', hd_status hd = 200 ∧ body = body_text (IdentityBody (viewOf user0)) ∧ db = w_db w0).
Proof.
  eapply served_impl.
  - apply (session_end_to_end (H3 := signing1) site0 log0 rand0 sh0 ah0 hh0
      (router0 (@Auth.Parse signing1 _ (as_tokens authsvc0))) 0 authsvc0 "ann@example.com" "digest"
      (world0 (db0 ∅) 100) grant0 logged_in0.2 "GET" "/api/v1/auth/me" (HandleMe (H2 := pool_users))).
    + reflexivity.
    + exact signing1_sound.
    + exact uuid_sound0.
    + exact (pair_fst _ _ login0_grants).
    + apply list_elem_of_here.
    + reflexivity.
    + reflexivity.
    + vm_compute. reflexivity.
    + vm_compute. discriminate.
    + vm_compute. discriminate.
  - intros hd body db hs lim' (_ & _ & H). apply (H user0); try reflexivity.
    + apply quiet0.
    + discriminate.
    + exact user0_ok.
Defined.
